(** * Power Platform web-resource scripts: a shallow embedding

    The repository holds two Node scripts that share a JSON mapping file:
    the creation flow (new-webresource) and the reconciler
    (sync-webresources).  This development embeds their functions, together
    with the parts of the JavaScript platform they call (strings, [path],
    [JSON], [fs], [String.prototype.match] on the three descriptor
    patterns), and states the documented properties of the scripts over the
    embedding.

    Conventions.
    - A JavaScript string is the list of its UTF-16 code units.
    - Paths follow the POSIX flavour of Node's [path] module.
    - The file system is a flat table from absolute paths (lists of
      segments) to nodes, in directory-listing order; file contents are the
      text a UTF-8 read returns.
    - The order in which [glob] reports the paths it finds is a component
      of the world: the library promises none.
    - A JSON number is the double it parses to.
    - Effects (file system, console, exceptions) are threaded through a
      state-and-exception monad. *)

From Stdlib Require Import String Ascii DecimalString.
From Stdlib Require Import List NArith ZArith Bool Arith Lia.
Import ListNotations.
Local Open Scope N_scope.

Set Implicit Arguments.
#[local] Set Warnings "-register-all".

(* ===================================================================== *)
(** ** JavaScript strings *)
(* ===================================================================== *)

Module JsString.

Abbreviation jsstring := (list N).

(** A literal of the source, one code unit per character. *)
Definition lit (s : string) : jsstring :=
  map N_of_ascii (list_ascii_of_string s).

Definition eqb (a b : jsstring) : bool :=
  if list_eq_dec N.eq_dec a b then true else false.

Fixpoint starts_with (p s : jsstring) : bool :=
  match p, s with
  | [], _ => true
  | _ :: _, [] => false
  | a :: p', b :: s' => (a =? b) && starts_with p' s'
  end.

(** [s.endsWith(suf)] *)
Definition ends_with (suf s : jsstring) : bool :=
  starts_with (rev suf) (rev s).

(** [s.includes(pat)] *)
Fixpoint includes (pat s : jsstring) : bool :=
  starts_with pat s ||
  match s with
  | [] => false
  | _ :: s' => includes pat s'
  end.

(** [s.replace(pat, rep)] with a string pattern: only the first occurrence
    is replaced.  ([rep] holds no dollar sign in this program.) *)
Fixpoint replace_first (pat rep s : jsstring) : jsstring :=
  if starts_with pat s then rep ++ skipn (length pat) s
  else match s with
       | [] => []
       | c :: s' => c :: replace_first pat rep s'
       end.

(** White space of [String.prototype.trim] and of the pattern class \s. *)
Definition is_space (c : N) : bool :=
  (c =? 9) || (c =? 10) || (c =? 11) || (c =? 12) || (c =? 13) || (c =? 32)
  || (c =? 160) || (c =? 5760) || ((8192 <=? c) && (c <=? 8202))
  || (c =? 8232) || (c =? 8233) || (c =? 8239) || (c =? 8287)
  || (c =? 12288) || (c =? 65279).

(** Line terminators, which the pattern atom [.] does not match. *)
Definition is_line_terminator (c : N) : bool :=
  (c =? 10) || (c =? 13) || (c =? 8232) || (c =? 8233).

Fixpoint drop_while (f : N -> bool) (s : jsstring) : jsstring :=
  match s with
  | [] => []
  | c :: s' => if f c then drop_while f s' else s
  end.

Fixpoint take_while (f : N -> bool) (s : jsstring) : jsstring :=
  match s with
  | [] => []
  | c :: s' => if f c then c :: take_while f s' else []
  end.

Definition trim_start (s : jsstring) : jsstring := drop_while is_space s.
Definition trim_end (s : jsstring) : jsstring :=
  rev (drop_while is_space (rev s)).
Definition trim (s : jsstring) : jsstring := trim_end (trim_start s).

(** Split at every occurrence of the code unit [sep]. *)
Fixpoint split_on (sep : N) (s : jsstring) : list jsstring :=
  match s with
  | [] => [[]]
  | c :: s' =>
      if c =? sep then [] :: split_on sep s'
      else match split_on sep s' with
           | [] => [[c]]
           | w :: ws => (c :: w) :: ws
           end
  end.

(** [parts.join(sep)] *)
Fixpoint join_with (sep : jsstring) (parts : list jsstring) : jsstring :=
  match parts with
  | [] => []
  | [w] => w
  | w :: ws => w ++ sep ++ join_with sep ws
  end.

End JsString.
Export JsString.

(* ===================================================================== *)
(** ** Node's [path] module (POSIX) *)
(* ===================================================================== *)

Module Path.

Definition slash : N := 47.
Definition dot : jsstring := lit ".".
Definition dotdot : jsstring := lit "..".

(** One segment of [normalizeString]; [acc] holds the segments kept so
    far, the most recent first.  "." and empty segments are dropped; ".."
    drops the most recent segment, or is kept when there is none to drop and
    the path may climb above its start. *)
Definition step (allow_above_root : bool) (acc : list jsstring) (s : jsstring)
  : list jsstring :=
  if eqb s [] || eqb s dot then acc
  else if eqb s dotdot then
    match acc with
    | last :: acc' => if eqb last dotdot then dotdot :: acc else acc'
    | [] => if allow_above_root then [dotdot] else []
    end
  else s :: acc.

Fixpoint walk (allow_above_root : bool) (acc : list jsstring)
         (segs : list jsstring) : list jsstring :=
  match segs with
  | [] => acc
  | s :: rest => walk allow_above_root (step allow_above_root acc s) rest
  end.

(** [normalizeString(path, allowAboveRoot)], on the segments of the path. *)
Definition normalize_segments (allow_above_root : bool)
           (segs : list jsstring) : list jsstring :=
  rev (walk allow_above_root [] segs).

Definition is_absolute (p : jsstring) : bool :=
  match p with c :: _ => c =? slash | [] => false end.

Definition has_trailing_slash (p : jsstring) : bool :=
  match rev p with c :: _ => c =? slash | [] => false end.

(** [path.normalize] *)
Definition normalize (p : jsstring) : jsstring :=
  match p with
  | [] => dot
  | _ =>
      let abs := is_absolute p in
      let trailing := has_trailing_slash p in
      let body :=
        join_with [slash] (normalize_segments (negb abs) (split_on slash p)) in
      match body with
      | [] => if abs then [slash] else if trailing then lit "./" else dot
      | _ => (if abs then [slash] else [])
               ++ body ++ (if trailing then [slash] else [])
      end
  end.

(** [path.join(...args)]: empty arguments are skipped. *)
Definition join (args : list jsstring) : jsstring :=
  match filter (fun a => negb (eqb a [])) args with
  | [] => dot
  | parts => normalize (join_with [slash] parts)
  end.

(** [path.basename(p)]: the last segment, trailing slashes ignored. *)
Definition basename (p : jsstring) : jsstring :=
  let stripped := rev (drop_while (fun c => c =? slash) (rev p)) in
  rev (take_while (fun c => negb (c =? slash)) (rev stripped)).

(** [path.resolve(p)] in the working directory [cwd]: the segments, below
    the root, of the normalized absolute path. *)
Definition resolve (cwd : list jsstring) (p : jsstring) : list jsstring :=
  normalize_segments false
    ((if is_absolute p then [] else cwd) ++ split_on slash p).

Fixpoint drop_common (a b : list jsstring) : list jsstring * list jsstring :=
  match a, b with
  | x :: a', y :: b' => if eqb x y then drop_common a' b' else (a, b)
  | _, _ => (a, b)
  end.

(** [path.relative(from, to)] *)
Definition relative (cwd : list jsstring) (from to : jsstring) : jsstring :=
  if eqb from to then []
  else
    let '(f, t) := drop_common (resolve cwd from) (resolve cwd to) in
    join_with [slash] (map (fun _ => dotdot) f ++ t).

(** A segment that [step] drops. *)
Definition skipped (s : jsstring) : bool := eqb s [] || eqb s dot.

(** A segment that [step] keeps as it is. *)
Definition kept (s : jsstring) : bool :=
  negb (eqb s []) && negb (eqb s dot) && negb (eqb s dotdot).

Definition slash_free (s : jsstring) : bool :=
  forallb (fun c => negb (c =? slash)) s.

(** A name a directory entry can have. *)
Definition valid_name (s : jsstring) : bool := kept s && slash_free s.

End Path.

(* ===================================================================== *)
(** ** Constants of the scripts *)
(* ===================================================================== *)

Definition WEBRESOURCES_DIR : jsstring := lit "./src/webresources".
Definition DIST_DIR : jsstring := lit "./dist".
Definition TYPESCRIPT_DIR : jsstring := lit "./typescript".
Definition CONFIG_FILE : jsstring := lit "./webresource-mapping.json".

(* ===================================================================== *)
(** ** Key derivation of the reconciler ([syncFile], [syncWebResources]) *)
(* ===================================================================== *)

(** [path.relative(DIST_DIR, compiledFile).replace('.js', '.ts')] *)
Definition tsFileName_of (cwd : list jsstring) (compiledFile : jsstring)
  : jsstring :=
  let relativePath := Path.relative cwd DIST_DIR compiledFile in
  replace_first (lit ".js") (lit ".ts") relativePath.

(* ===================================================================== *)
(** ** The file-name validator of the creation flow *)
(* ===================================================================== *)

Inductive validation :=
| Valid
| Invalid (message : string).

(** The class [a-zA-Z0-9_-]. *)
Definition is_name_char (c : N) : bool :=
  ((97 <=? c) && (c <=? 122)) || ((65 <=? c) && (c <=? 90))
  || ((48 <=? c) && (c <=? 57)) || (c =? 95) || (c =? 45).

(** [/^[a-zA-Z0-9_-]+$/.test(s)] *)
Definition test_name (s : jsstring) : bool :=
  match s with
  | [] => false
  | _ => forallb is_name_char s
  end.

(** The [validate] callback of the [tsFileName] question. *)
Definition validate (input : jsstring) : validation :=
  if eqb input [] || (N.of_nat (length (trim input)) =? 0) then
    Invalid "File name is required"
  else if negb (test_name (trim input)) then
    Invalid "File name can only contain letters, numbers, underscores, and hyphens"
  else Valid.

(** The prompt keeps asking until an answer validates: of the successive
    answers typed by the user, the first valid one is returned. *)
Fixpoint prompt_tsFileName (typed : list jsstring) : option jsstring :=
  match typed with
  | [] => None
  | input :: later =>
      match validate input with
      | Valid => Some input
      | Invalid _ => prompt_tsFileName later
      end
  end.


(* ===================================================================== *)
(** ** JSON values, [JSON.stringify(v, null, 2)] and [JSON.parse] *)
(* ===================================================================== *)

Module Json.

(** *** Numbers

    [JSON.parse] reads a number token as the IEEE 754 double nearest to
    the decimal it writes (ties to the even mantissa; beyond the largest
    double, an infinity), and [JSON.stringify] writes a finite double with
    the fewest digits that read back as the same double (the digits of
    [Number.prototype.toString]) and an infinity as [null]. *)

(** A double: [mantissa] times two to the [exponent], with the mantissa
    below 2^53 and, unless the exponent is -1074, not below 2^52; zero is
    the mantissa 0 with the exponent 0 and keeps its sign. *)
Inductive number :=
| Finite (negative : bool) (mantissa : N) (exponent : Z)
| Infinite (negative : bool).

Inductive json :=
| JNull
| JBool (b : bool)
| JNumber (x : number)
| JString (s : jsstring)
| JArray (items : list json)
| JObject (props : list (jsstring * json)).

(** *** Own properties of an object, in enumeration order

    Array-index keys come first, in ascending numeric order; the other
    keys follow in insertion order. *)

Definition is_digit (c : N) : bool := (48 <=? c) && (c <=? 57).

Definition digits_value (s : jsstring) : N :=
  fold_left (fun acc c => 10 * acc + (c - 48)) s 0.

(** [ToString] of a non-negative integer. *)
Definition decimal (n : N) : jsstring :=
  lit (NilZero.string_of_uint (N.to_uint n)).

(** An array index is a key that is the decimal numeral of an integer
    below 2^32 - 1. *)
Definition array_index (k : jsstring) : option N :=
  let i := digits_value k in
  if eqb k (decimal i) && (i <? 4294967295) then Some i else None.

Definition number_eqb (x y : number) : bool :=
  match x, y with
  | Finite s m e, Finite s' m' e' =>
      Bool.eqb s s' && (m =? m')%N && (e =? e')%Z
  | Infinite s, Infinite s' => Bool.eqb s s'
  | _, _ => false
  end.

Definition is_zero (x : number) : bool :=
  match x with
  | Finite _ m _ => (m =? 0)%N
  | Infinite _ => false
  end.

(** The quotient of two positive integers, to the nearest integer, a tie
    going to the even one. *)
Definition round_half_even (num den : Z) : Z :=
  let q := (num / den)%Z in
  match (2 * (num mod den) ?= den)%Z with
  | Lt => q
  | Gt => (q + 1)%Z
  | Eq => if Z.even q then q else (q + 1)%Z
  end.

(** Whether [num / den] is at least [base] to the [k]. *)
Definition at_least (base num den k : Z) : bool :=
  if (0 <=? k)%Z then (den * base ^ k <=? num)%Z
  else (den <=? num * base ^ (- k))%Z.

(** The double nearest to [num / den], for positive [num] and [den]. *)
Definition nearest (negative : bool) (num den : Z) : number :=
  let l := (Z.log2 num - Z.log2 den)%Z in
  let l := if at_least 2 num den l then l else (l - 1)%Z in
  let e := Z.max (l - 52) (-1074) in
  let m := if (0 <=? e)%Z then round_half_even num (den * 2 ^ e)
           else round_half_even (num * 2 ^ (- e)) den in
  let '(m, e) := if (m =? 2 ^ 53)%Z then ((2 ^ 52)%Z, (e + 1)%Z) else (m, e) in
  if (971 <? e)%Z then Infinite negative
  else if (m =? 0)%Z then Finite negative 0 0
  else Finite negative (Z.to_N m) e.

(** The double nearest to [d] times ten to the [e].  A decimal of 342 or
    more digits before the point is beyond every double, and one below
    2^-1075 is nearer to zero than to any other double. *)
Definition from_decimal (negative : bool) (d : N) (e : Z) : number :=
  if (d =? 0)%N then Finite negative 0 0
  else if (342 <=? e)%Z then Infinite negative
  else if (3 * e + Z.of_N (N.log2 d) + 1 <? -1075)%Z then Finite negative 0 0
  else if (0 <=? e)%Z then nearest negative (Z.of_N d * 10 ^ e) 1
  else nearest negative (Z.of_N d) (10 ^ (- e)).

(** The value of a number token of the JSON grammar. *)
Definition number_of_token (token : jsstring) : number :=
  let negative := match token with 45 :: _ => true | _ => false end in
  let s1 := match token with 45 :: r => r | _ => token end in
  let int := take_while is_digit s1 in
  let s2 := drop_while is_digit s1 in
  let frac := match s2 with 46 :: r => take_while is_digit r | _ => [] end in
  let s3 := match s2 with 46 :: r => drop_while is_digit r | _ => s2 end in
  let exp := match s3 with
             | _ :: 45 :: r => (- Z.of_N (digits_value r))%Z
             | _ :: 43 :: r => Z.of_N (digits_value r)
             | _ :: r => Z.of_N (digits_value r)
             | [] => 0%Z
             end in
  from_decimal negative (digits_value (int ++ frac))
               (exp - Z.of_nat (length frac)).

(** The least [n], from [start] on, with [num / den] below ten to the
    [n]. *)
Fixpoint magnitude (fuel : nat) (num den start : Z) : Z :=
  match fuel with
  | O => start
  | S fuel' =>
      if at_least 10 num den start then magnitude fuel' num den (start + 1)
      else start
  end.

(** The digits [s], their number [k] and the position [n] of the point,
    with [k] least such that [s] times ten to the [n - k] reads back as
    the double, and [s] then nearest to it. *)
Fixpoint shortest (fuel : nat) (k : nat) (m : N) (e : Z) (num den n : Z)
  : Z * nat * Z :=
  let j := (n - Z.of_nat k)%Z in
  let lo := if (0 <=? j)%Z then (num / (den * 10 ^ j))%Z
            else (num * 10 ^ (- j) / den)%Z in
  let hi := (lo + 1)%Z in
  let reads s := number_eqb (from_decimal false (Z.to_N s) j)
                            (Finite false m e) in
  let lo_nearer :=
    if (0 <=? j)%Z then (2 * num <=? (2 * lo + 1) * den * 10 ^ j)%Z
    else (2 * num * 10 ^ (- j) <=? (2 * lo + 1) * den)%Z in
  let found s :=
    if (s =? 10 ^ Z.of_nat k)%Z then ((10 ^ (Z.of_nat k - 1))%Z, k, (n + 1)%Z)
    else (s, k, n) in
  match fuel with
  | O => (lo, k, n)
  | S fuel' =>
      if reads lo && (lo_nearer || negb (reads hi)) then found lo
      else if reads hi then found hi
      else shortest fuel' (S k) m e num den n
  end.

Definition zeros (n : Z) : jsstring := repeat 48 (Z.to_nat n).

(** [Number::toString] of a positive finite double. *)
Definition positive_text (m : N) (e : Z) : jsstring :=
  let num := if (0 <=? e)%Z then (Z.of_N m * 2 ^ e)%Z else Z.of_N m in
  let den := if (0 <=? e)%Z then 1%Z else (2 ^ (- e))%Z in
  let l := (Z.of_N (N.log2 m) + e)%Z in
  let n0 := magnitude 8 num den (l * 30102 / 100000 - 2) in
  let '(s, k, n) := shortest 17 1 m e num den n0 in
  let ds := decimal (Z.to_N s) in
  let k := Z.of_nat k in
  if (k <=? n)%Z && (n <=? 21)%Z then ds ++ zeros (n - k)
  else if (0 <? n)%Z && (n <=? 21)%Z
  then firstn (Z.to_nat n) ds ++ [46] ++ skipn (Z.to_nat n) ds
  else if (-6 <? n)%Z && (n <=? 0)%Z then [48; 46] ++ zeros (- n) ++ ds
  else
    let x := (n - 1)%Z in
    firstn 1 ds
    ++ (if (k =? 1)%Z then [] else 46 :: skipn 1 ds)
    ++ [101] ++ (if (x <? 0)%Z then [45] else [43])
    ++ decimal (Z.to_N (Z.abs x)).

(** What [JSON.stringify] writes for a number. *)
Definition number_text (x : number) : jsstring :=
  match x with
  | Infinite _ => lit "null"
  | Finite negative m e =>
      if (m =? 0)%N then [48]
      else (if negative then [45] else []) ++ positive_text m e
  end.

Section Props.
Variable V : Type.

Fixpoint prop_get (k : jsstring) (o : list (jsstring * V)) : option V :=
  match o with
  | [] => None
  | (k', v) :: o' => if eqb k k' then Some v else prop_get k o'
  end.

Definition has_prop (k : jsstring) (o : list (jsstring * V)) : bool :=
  match prop_get k o with Some _ => true | None => false end.

Fixpoint prop_update (k : jsstring) (v : V) (o : list (jsstring * V))
  : list (jsstring * V) :=
  match o with
  | [] => []
  | (k', v') :: o' =>
      if eqb k k' then (k', v) :: o' else (k', v') :: prop_update k v o'
  end.

(** A new array-index key goes before the first key that is not an array
    index or is a larger one. *)
Fixpoint prop_insert_index (i : N) (k : jsstring) (v : V)
         (o : list (jsstring * V)) : list (jsstring * V) :=
  match o with
  | [] => [(k, v)]
  | (k', v') :: o' =>
      match array_index k' with
      | Some j =>
          if j <? i then (k', v') :: prop_insert_index i k v o'
          else (k, v) :: o
      | None => (k, v) :: o
      end
  end.

(** [o[k] = v] on an ordinary object (also [CreateDataProperty]). *)
Definition prop_set (k : jsstring) (v : V) (o : list (jsstring * V))
  : list (jsstring * V) :=
  if has_prop k o then prop_update k v o
  else match array_index k with
       | Some i => prop_insert_index i k v o
       | None => o ++ [(k, v)]
       end.

(** [delete o[k]] *)
Fixpoint prop_delete (k : jsstring) (o : list (jsstring * V))
  : list (jsstring * V) :=
  match o with
  | [] => []
  | (k', v) :: o' =>
      if eqb k k' then prop_delete k o' else (k', v) :: prop_delete k o'
  end.

End Props.

(** *** [QuoteJSONString] *)

Definition hex_digit (n : N) : N :=
  if n <? 10 then 48 + n else 87 + n.

(** Backslash, u, and four lower-case hexadecimal digits. *)
Definition unicode_escape (c : N) : jsstring :=
  [92; 117; hex_digit (c / 4096 mod 16); hex_digit (c / 256 mod 16);
   hex_digit (c / 16 mod 16); hex_digit (c mod 16)].

Definition is_high_surrogate (c : N) : bool := (55296 <=? c) && (c <=? 56319).
Definition is_low_surrogate (c : N) : bool := (56320 <=? c) && (c <=? 57343).

Fixpoint quote_chars (s : jsstring) : jsstring :=
  match s with
  | [] => []
  | c :: rest =>
      if c =? 8 then [92; 98] ++ quote_chars rest
      else if c =? 9 then [92; 116] ++ quote_chars rest
      else if c =? 10 then [92; 110] ++ quote_chars rest
      else if c =? 12 then [92; 102] ++ quote_chars rest
      else if c =? 13 then [92; 114] ++ quote_chars rest
      else if c =? 34 then [92; 34] ++ quote_chars rest
      else if c =? 92 then [92; 92] ++ quote_chars rest
      else if c <? 32 then unicode_escape c ++ quote_chars rest
      else if is_high_surrogate c then
        match rest with
        | d :: rest' =>
            if is_low_surrogate d then c :: d :: quote_chars rest'
            else unicode_escape c ++ quote_chars rest
        | [] => unicode_escape c
        end
      else if is_low_surrogate c then unicode_escape c ++ quote_chars rest
      else c :: quote_chars rest
  end.

Definition quote (s : jsstring) : jsstring := [34] ++ quote_chars s ++ [34].

(** *** [JSON.stringify(value, null, 2)] *)

Definition gap : jsstring := lit "  ".
Definition newline : jsstring := [10].

Definition wrap (open close indent : jsstring) (partial : list jsstring)
  : jsstring :=
  match partial with
  | [] => open ++ close
  | _ =>
      let stepback := indent in
      let indent := indent ++ gap in
      let separator := lit "," ++ newline ++ indent in
      open ++ newline ++ indent ++ join_with separator partial
           ++ newline ++ stepback ++ close
  end.

Fixpoint serialize (indent : jsstring) (v : json) : jsstring :=
  match v with
  | JNull => lit "null"
  | JBool true => lit "true"
  | JBool false => lit "false"
  | JNumber x => number_text x
  | JString s => quote s
  | JArray items =>
      wrap (lit "[") (lit "]") indent
           (map (serialize (indent ++ gap)) items)
  | JObject props =>
      wrap (lit "{") (lit "}") indent
           (map (fun kv => quote (fst kv) ++ lit ": "
                             ++ serialize (indent ++ gap) (snd kv)) props)
  end.

Definition stringify (v : json) : jsstring := serialize [] v.

(** *** [JSON.parse] *)

Definition is_json_space (c : N) : bool :=
  (c =? 32) || (c =? 9) || (c =? 10) || (c =? 13).

Definition skip_ws (s : jsstring) : jsstring := drop_while is_json_space s.

Definition hex_value (c : N) : option N :=
  if is_digit c then Some (c - 48)
  else if (97 <=? c) && (c <=? 102) then Some (c - 87)
  else if (65 <=? c) && (c <=? 70) then Some (c - 55)
  else None.

Definition hex4 (a b c d : N) : option N :=
  match hex_value a, hex_value b, hex_value c, hex_value d with
  | Some x, Some y, Some z, Some w => Some (((x * 16 + y) * 16 + z) * 16 + w)
  | _, _, _, _ => None
  end.

(** The characters of a string literal after its opening quote, up to and
    including the closing quote. *)
Fixpoint parse_chars (s : jsstring) : option (jsstring * jsstring) :=
  match s with
  | [] => None
  | c :: rest =>
      if c =? 34 then Some ([], rest)
      else if c =? 92 then
        match rest with
        | [] => None
        | e :: rest' =>
            let simple (u : N) :=
              match parse_chars rest' with
              | Some (t, r) => Some (u :: t, r)
              | None => None
              end in
            if e =? 34 then simple 34
            else if e =? 92 then simple 92
            else if e =? 47 then simple 47
            else if e =? 98 then simple 8
            else if e =? 102 then simple 12
            else if e =? 110 then simple 10
            else if e =? 114 then simple 13
            else if e =? 116 then simple 9
            else if e =? 117 then
              match rest' with
              | h1 :: h2 :: h3 :: h4 :: rest'' =>
                  match hex4 h1 h2 h3 h4, parse_chars rest'' with
                  | Some u, Some (t, r) => Some (u :: t, r)
                  | _, _ => None
                  end
              | _ => None
              end
            else None
        end
      else if c <? 32 then None
      else match parse_chars rest with
           | Some (t, r) => Some (c :: t, r)
           | None => None
           end
  end.

(** A number token: an optional minus sign; a zero, or a non-zero digit
    and further digits; optionally a point and digits; optionally an
    exponent mark, a sign and digits. *)
Definition parse_number (s : jsstring) : option (jsstring * jsstring) :=
  let '(sign, s1) :=
    match s with
    | 45 :: r => ([45], r)
    | _ => ([], s)
    end in
  let int_part :=
    match s1 with
    | 48 :: r => Some ([48], r)
    | c :: _ =>
        if is_digit c
        then Some (take_while is_digit s1, drop_while is_digit s1)
        else None
    | [] => None
    end in
  match int_part with
  | None => None
  | Some (int, s2) =>
      let frac_part :=
        match s2 with
        | 46 :: r =>
            match take_while is_digit r with
            | [] => None
            | ds => Some (46 :: ds, drop_while is_digit r)
            end
        | _ => Some ([], s2)
        end in
      match frac_part with
      | None => None
      | Some (frac, s3) =>
          let exp_part :=
            match s3 with
            | e :: r =>
                if (e =? 101) || (e =? 69) then
                  let '(esign, r') :=
                    match r with
                    | c :: r'' =>
                        if (c =? 43) || (c =? 45) then ([c], r'') else ([], r)
                    | [] => ([], r)
                    end in
                  match take_while is_digit r' with
                  | [] => None
                  | ds => Some (e :: esign ++ ds, drop_while is_digit r')
                  end
                else Some ([], s3)
            | [] => Some ([], s3)
            end in
          match exp_part with
          | None => None
          | Some (exp, s4) => Some (sign ++ int ++ frac ++ exp, s4)
          end
      end
  end.

(** Recursive descent; [fuel] bounds the nesting depth plus the number of
    members met on the way, and the length of the text is always enough. *)
Fixpoint parse_value (fuel : nat) (s : jsstring) : option (json * jsstring) :=
  match fuel with
  | O => None
  | S fuel' =>
      match skip_ws s with
      | [] => None
      | c :: rest =>
          if c =? 123 then
            match skip_ws rest with
            | 125 :: r => Some (JObject [], r)
            | _ =>
                match parse_members fuel' [] rest with
                | Some (props, r) => Some (JObject props, r)
                | None => None
                end
            end
          else if c =? 91 then
            match skip_ws rest with
            | 93 :: r => Some (JArray [], r)
            | _ =>
                match parse_elements fuel' rest with
                | Some (items, r) => Some (JArray items, r)
                | None => None
                end
            end
          else if c =? 34 then
            match parse_chars rest with
            | Some (t, r) => Some (JString t, r)
            | None => None
            end
          else if starts_with (lit "true") (c :: rest)
          then Some (JBool true, skipn 4 (c :: rest))
          else if starts_with (lit "false") (c :: rest)
          then Some (JBool false, skipn 5 (c :: rest))
          else if starts_with (lit "null") (c :: rest)
          then Some (JNull, skipn 4 (c :: rest))
          else
            match parse_number (c :: rest) with
            | Some (token, r) => Some (JNumber (number_of_token token), r)
            | None => None
            end
      end
  end

(** Members after the opening brace (or after a comma); [acc] is the object
    built so far: a repeated key overwrites the earlier value. *)
with parse_members (fuel : nat) (acc : list (jsstring * json)) (s : jsstring)
  : option (list (jsstring * json) * jsstring) :=
  match fuel with
  | O => None
  | S fuel' =>
      match skip_ws s with
      | 34 :: rest =>
          match parse_chars rest with
          | None => None
          | Some (k, r1) =>
              match skip_ws r1 with
              | 58 :: r2 =>
                  match parse_value fuel' r2 with
                  | None => None
                  | Some (v, r3) =>
                      let acc' := prop_set k v acc in
                      match skip_ws r3 with
                      | 44 :: r4 => parse_members fuel' acc' r4
                      | 125 :: r4 => Some (acc', r4)
                      | _ => None
                      end
                  end
              | _ => None
              end
          end
      | _ => None
      end
  end

with parse_elements (fuel : nat) (s : jsstring)
  : option (list json * jsstring) :=
  match fuel with
  | O => None
  | S fuel' =>
      match parse_value fuel' s with
      | None => None
      | Some (v, r1) =>
          match skip_ws r1 with
          | 44 :: r2 =>
              match parse_elements fuel' r2 with
              | Some (vs, r3) => Some (v :: vs, r3)
              | None => None
              end
          | 93 :: r2 => Some ([v], r2)
          | _ => None
          end
      end
  end.

(** [JSON.parse(text)]; [None] stands for the SyntaxError it throws. *)
Definition parse (text : jsstring) : option json :=
  match parse_value (S (length text)) text with
  | Some (v, rest) =>
      match skip_ws rest with
      | [] => Some v
      | _ => None
      end
  | None => None
  end.

End Json.
Export Json.


(* ===================================================================== *)
(** ** The world: file system, console, exceptions *)
(* ===================================================================== *)

Module Node.

Inductive node :=
| File (content : jsstring)
| Dir.

(** Absolute path, as the segments below the root. *)
Abbreviation location := (list (list N)).

Definition location_eqb (p q : location) : bool :=
  if list_eq_dec (list_eq_dec N.eq_dec) p q then true else false.

(** The file system lists its entries in the order directory listings
    report them.  The root is always a directory.  A well-formed table
    lists every entry once, under a listed directory. *)
Abbreviation table := (list (list (list N) * node)).

(** Every listed path is made of names a directory entry can have. *)
Definition valid_names (t : table) : bool :=
  forallb (fun e => forallb Path.valid_name (fst e)) t.

(** What the control flow of the scripts can see of the file system: the
    listed paths and which of them are directories. *)
Definition is_dir (n : node) : bool :=
  match n with Dir => true | File _ => false end.

Definition shape (t : table) : list (location * bool) :=
  map (fun e => (fst e, is_dir (snd e))) t.

(** Lines written with [console.log] and [console.error]; the fields are
    the values interpolated into the text. *)
Inductive exn := TypeError | SyntaxError | ENOENT | ENOTDIR | EISDIR.

Inductive message :=
| Sync_banner
| No_mapping_file
| Error_reading_mapping (error : exn)
| No_dist_directory
| Web_resources_directory_not_found
| No_compiled_files
| Available_web_resources
| Available_item (index : nat) (name displayName : jsstring)
| Blank_line
| No_js_files_found (targetDir : jsstring)
| Synced (fileName targetBase : jsstring)
| Failed_to_sync (fileName : jsstring) (error : exn)
| Mapped_directory_not_found (webResourceDir : jsstring)
| No_mapping_found (tsFileName : jsstring)
| Sync_complete (syncCount : nat)
| To_commit_changes.

(** [glob_order] is the order in which the [glob] library reports the
    paths it finds: it walks the directories in an order of its own and
    promises none. *)
Record world := {
  cwd : location;
  files : table;
  console : list message;
  glob_order : list jsstring
}.

Inductive outcome (A : Type) :=
| Ok (a : A)
| Throw (e : exn).
Arguments Ok {A} a.
Arguments Throw {A} e.

(** Computations that read and change the world and may throw. *)
Definition M (A : Type) := world -> outcome A * world.

Definition ret {A} (a : A) : M A := fun w => (Ok a, w).
Definition throw {A} (e : exn) : M A := fun w => (Throw e, w).
Definition bind {A B} (m : M A) (k : A -> M B) : M B :=
  fun w =>
    match m w with
    | (Ok a, w') => k a w'
    | (Throw e, w') => (Throw e, w')
    end.

(** [try { body } catch (error) { handler }]: what [body] did to the world
    before it threw stays done. *)
Definition try_catch {A} (body : M A) (handler : exn -> M A) : M A :=
  fun w =>
    match body w with
    | (Ok a, w') => (Ok a, w')
    | (Throw e, w') => handler e w'
    end.

Definition get_world : M world := fun w => (Ok w, w).

(** The world after the lines [ms] were printed. *)
Definition printed (w : world) (ms : list message) : world :=
  {| cwd := cwd w; files := files w; console := console w ++ ms;
     glob_order := glob_order w |}.

Definition log (m : message) : M unit :=
  fun w => (Ok tt, printed w [m]).

Definition set_files (t : table) : M unit :=
  fun w => (Ok tt, {| cwd := cwd w; files := t; console := console w;
                      glob_order := glob_order w |}).

Declare Scope monad_scope.
Delimit Scope monad_scope with monad.
Notation "x <- m ;; k" := (bind m (fun x => k))
  (at level 61, m at next level, right associativity) : monad_scope.
Notation "' pat <- m ;; k" := (bind m (fun x => match x with pat => k end))
  (at level 61, pat pattern, m at next level, right associativity)
  : monad_scope.
Notation "m ;; k" := (bind m (fun _ => k))
  (at level 61, right associativity) : monad_scope.
Local Open Scope monad_scope.

(** *** Reading the table *)

Fixpoint lookup (p : location) (t : table) : option node :=
  match t with
  | [] => None
  | (q, n) :: t' => if location_eqb p q then Some n else lookup p t'
  end.

(** What a path names.  Node's [path] functions and [glob] hand the file
    system normalized paths, for which resolving through the directories
    agrees with resolving the text; a trailing slash asks for a
    directory. *)
Definition stat (w : world) (p : jsstring) : outcome node :=
  let q := Path.resolve (cwd w) p in
  match q with
  | [] => Ok Dir
  | _ =>
      match lookup q (files w) with
      | None => Throw ENOENT
      | Some Dir => Ok Dir
      | Some (File c) =>
          if Path.has_trailing_slash p then Throw ENOTDIR else Ok (File c)
      end
  end.

(** What [stat] tells apart without reading a file. *)
Definition kind (r : outcome node) : outcome bool :=
  match r with
  | Ok n => Ok (is_dir n)
  | Throw e => Throw e
  end.

(** Two worlds that differ in file contents and console lines only. *)
Definition same_shape (w1 w2 : world) : Prop :=
  cwd w1 = cwd w2 /\ shape (files w1) = shape (files w2).

(** [fs.existsSync(p)] *)
Definition existsSync (p : jsstring) : M bool :=
  fun w => (Ok (match stat w p with Ok _ => true | Throw _ => false end), w).

(** [fs.statSync(p).isDirectory()] *)
Definition isDirectory (p : jsstring) : M bool :=
  fun w =>
    match stat w p with
    | Ok Dir => (Ok true, w)
    | Ok (File _) => (Ok false, w)
    | Throw e => (Throw e, w)
    end.

(** [fs.readFileSync(p, 'utf8')] *)
Definition readFileSync (p : jsstring) : M jsstring :=
  fun w =>
    match stat w p with
    | Ok (File c) => (Ok c, w)
    | Ok Dir => (Throw EISDIR, w)
    | Throw e => (Throw e, w)
    end.

(** The name of [q] when it lies directly in [d]. *)
Definition child_name (d q : location) : option jsstring :=
  match rev q with
  | name :: parent => if location_eqb (rev parent) d then Some name else None
  | [] => None
  end.

Fixpoint children (d : location) (t : table) : list jsstring :=
  match t with
  | [] => []
  | (q, _) :: t' =>
      match child_name d q with
      | Some name => name :: children d t'
      | None => children d t'
      end
  end.

(** [fs.readdirSync(p)] *)
Definition readdirSync (p : jsstring) : M (list jsstring) :=
  fun w =>
    match stat w p with
    | Ok Dir => (Ok (children (Path.resolve (cwd w) p) (files w)), w)
    | Ok (File _) => (Throw ENOTDIR, w)
    | Throw e => (Throw e, w)
    end.

(** *** Writing *)

Fixpoint overwrite (p : location) (c : jsstring) (t : table) : table :=
  match t with
  | [] => []
  | (q, n) :: t' =>
      if location_eqb p q then (q, File c) :: t'
      else (q, n) :: overwrite p c t'
  end.

Definition parent (p : location) : location := removelast p.

(** Store [c] at [p]: over the file there, or as a new entry of an
    existing directory. *)
Definition store (p : jsstring) (c : jsstring) : M unit :=
  fun w =>
    let q := Path.resolve (cwd w) p in
    if Path.has_trailing_slash p then
      (Throw (match stat w p with Throw ENOTDIR => ENOTDIR | _ => EISDIR end), w)
    else
      match q with
      | [] => (Throw EISDIR, w)
      | _ =>
          match lookup q (files w) with
          | Some Dir => (Throw EISDIR, w)
          | Some (File _) => set_files (overwrite q c (files w)) w
          | None =>
              match parent q, lookup (parent q) (files w) with
              | [], _ | _, Some Dir =>
                  set_files (files w ++ [(q, File c)]) w
              | _, Some (File _) => (Throw ENOTDIR, w)
              | _, None => (Throw ENOENT, w)
              end
          end
      end.

(** Writing a string encodes it as UTF-8 and reading decodes it: a
    surrogate without its partner comes back as U+FFFD. *)
Fixpoint to_well_formed (s : jsstring) : jsstring :=
  match s with
  | [] => []
  | c :: rest =>
      if is_high_surrogate c then
        match rest with
        | d :: rest' =>
            if is_low_surrogate d then c :: d :: to_well_formed rest'
            else 65533 :: to_well_formed rest
        | [] => [65533]
        end
      else if is_low_surrogate c then 65533 :: to_well_formed rest
      else c :: to_well_formed rest
  end.

(** A text that comes through the encoding unchanged, whatever follows. *)
Definition passes (x : jsstring) : Prop :=
  forall r, to_well_formed (x ++ r) = x ++ to_well_formed r.

(** [fs.writeFileSync(p, text)] *)
Definition writeFileSync (p : jsstring) (text : jsstring) : M unit :=
  store p (to_well_formed text).

(** The table without the entry at [p]. *)
Definition unlink (p : location) (t : table) : table :=
  filter (fun e => negb (location_eqb p (fst e))) t.

Definition unlinkSync (p : jsstring) : M unit :=
  fun w => set_files (unlink (Path.resolve (cwd w) p) (files w)) w.

(** [fs.copyFileSync(src, dest)] (libuv, POSIX).  The source is opened for
    reading, which a directory allows as well; then the destination is
    opened for writing, created if need be, and emptied; then the bytes
    are copied.  Reading from a directory fails, and a copy that fails
    after the destination was opened removes the destination. *)
Definition copyFileSync (src dest : jsstring) : M unit :=
  fun w =>
    match stat w src with
    | Throw e => (Throw e, w)
    | Ok (File c) => store dest c w
    | Ok Dir => (store dest [] ;; unlinkSync dest ;; throw EISDIR) w
    end.

(** *** [glob.sync('./dist/**/*.js')]

    Every entry below [root] whose name ends in ".js", directories
    included; names that start with a dot are neither matched nor
    entered.  The paths come back without the leading "./", in the order
    of the library ([glob_order]). *)

Definition hidden (name : jsstring) : bool :=
  match name with 46 :: _ => true | _ => false end.

Fixpoint strip_prefix (d q : location) : option location :=
  match d, q with
  | [], _ => Some q
  | x :: d', y :: q' => if eqb x y then strip_prefix d' q' else None
  | _ :: _, [] => None
  end.

Definition glob_match (below : location) : bool :=
  match rev below with
  | [] => false
  | name :: _ =>
      ends_with (lit ".js") name && forallb (fun s => negb (hidden s)) below
  end.

Fixpoint glob_entries (root : location) (shown : jsstring) (t : table)
  : list jsstring :=
  match t with
  | [] => []
  | (q, _) :: t' =>
      match strip_prefix root q with
      | Some below =>
          if glob_match below
          then (shown ++ [Path.slash] ++ join_with [Path.slash] below)
                 :: glob_entries root shown t'
          else glob_entries root shown t'
      | None => glob_entries root shown t'
      end
  end.

(** [found] in the order [order] gives: its paths first, as they come in
    it, then the other paths of [found], as they came. *)
Fixpoint arrange (order found : list jsstring) : list jsstring :=
  match order with
  | [] => found
  | p :: rest =>
      filter (eqb p) found
      ++ arrange rest (filter (fun f => negb (eqb p f)) found)
  end.

Definition glob_sync_js (root : jsstring) : M (list jsstring) :=
  fun w =>
    (Ok (arrange (glob_order w)
                 (glob_entries (Path.resolve (cwd w) root)
                               (Path.normalize root) (files w))), w).

End Node.
Export Node.
Local Open Scope monad_scope.

(* ===================================================================== *)
(** ** Reading a descriptor: [content.match(/Label:\s*(.+)/)] *)
(* ===================================================================== *)

Module Descriptor.

(** [(.+)]: the longest non-empty run without a line terminator. *)
Definition any_run (s : jsstring) : option jsstring :=
  match take_while (fun c => negb (is_line_terminator c)) s with
  | [] => None
  | run => Some run
  end.

(** [\s*(.+)] at the head of [s]: the white space is taken greedily and
    given back one character at a time while the group cannot match. *)
Fixpoint spaces_then_run (s : jsstring) : option jsstring :=
  match s with
  | c :: rest =>
      if is_space c then
        match spaces_then_run rest with
        | Some group => Some group
        | None => any_run s
        end
      else any_run s
  | [] => any_run s
  end.

(** The first capture group of the leftmost match of [label\s*(.+)], or
    [None] when [match] returns null. *)
Fixpoint match_label (label content : jsstring) : option jsstring :=
  let here :=
    if starts_with label content
    then spaces_then_run (skipn (length label) content)
    else None in
  match here with
  | Some group => Some group
  | None =>
      match content with
      | [] => None
      | _ :: rest => match_label label rest
      end
  end.

Record info := {
  dir : jsstring;
  name : option jsstring;
  displayName : option jsstring;
  fileName : option jsstring
}.

(** [getWebResourceInfo] (the same text in both scripts). *)
Definition getWebResourceInfo (webResourceDir : jsstring) : M (option info) :=
  let ymlPath :=
    Path.join [WEBRESOURCES_DIR; webResourceDir; lit "webresource.yml"] in
  present <- existsSync ymlPath ;;
  if negb present then ret None
  else
    content <- readFileSync ymlPath ;;
    let nameMatch := match_label (lit "Name:") content in
    let displayNameMatch := match_label (lit "DisplayName:") content in
    let fileNameMatch := match_label (lit "FileName:") content in
    ret (Some {| dir := webResourceDir;
                 name := option_map trim nameMatch;
                 displayName := option_map trim displayNameMatch;
                 fileName := option_map trim fileNameMatch |}).

End Descriptor.
Export Descriptor.

(* ===================================================================== *)
(** ** The creation flow (new-webresource) *)
(* ===================================================================== *)

Module NewWebResource.

Definition loadMapping : M json :=
  present <- existsSync CONFIG_FILE ;;
  if negb present then ret (JObject [])
  else
    try_catch
      (content <- readFileSync CONFIG_FILE ;;
       match parse content with
       | Some v => ret v
       | None => throw SyntaxError
       end)
      (fun error =>
         log (Error_reading_mapping error) ;;
         ret (JObject [])).

Definition saveMapping (mapping : json) : M unit :=
  writeFileSync CONFIG_FILE (stringify mapping).

End NewWebResource.

(* ===================================================================== *)
(** ** The reconciler (sync-webresources) *)
(* ===================================================================== *)

Module SyncWebResources.

Definition loadMapping : M json :=
  present <- existsSync CONFIG_FILE ;;
  if negb present then
    log No_mapping_file ;;
    ret (JObject [])
  else
    try_catch
      (content <- readFileSync CONFIG_FILE ;;
       match parse content with
       | Some v => ret v
       | None => throw SyntaxError
       end)
      (fun error =>
         log (Error_reading_mapping error) ;;
         ret (JObject [])).

Definition saveMapping (mapping : json) : M unit :=
  writeFileSync CONFIG_FILE (stringify mapping).

Definition getCompiledFiles : M (list jsstring) :=
  present <- existsSync DIST_DIR ;;
  if negb present then
    log No_dist_directory ;;
    ret []
  else glob_sync_js DIST_DIR.

Fixpoint filter_directories (names : list jsstring) : M (list jsstring) :=
  match names with
  | [] => ret []
  | d :: rest =>
      keep <- isDirectory (Path.join [WEBRESOURCES_DIR; d]) ;;
      kept <- filter_directories rest ;;
      ret (if keep then d :: kept else kept)
  end.

Definition getWebResourceDirs : M (list jsstring) :=
  present <- existsSync WEBRESOURCES_DIR ;;
  if negb present then
    log Web_resources_directory_not_found ;;
    ret []
  else
    names <- readdirSync WEBRESOURCES_DIR ;;
    filter_directories names.

(** *** The mapping object

    [mapping] is whatever [JSON.parse] returned.  Reading a property of
    null throws; arrays and primitives have no own property under a key
    derived from an artifact, and the members inherited from the
    prototypes have identifier names, which no derived key is (it holds a
    dot). *)
Definition mapping_get (mapping : json) (k : jsstring) : M (option json) :=
  match mapping with
  | JNull => throw TypeError
  | JObject props => ret (prop_get k props)
  | _ => ret None
  end.

(** [mapping[k] = v] and [delete mapping[k]]; both are reached only after
    [mapping[k]] was read as a truthy own property, that is on an object. *)
Definition mapping_set (mapping : json) (k : jsstring) (v : json) : M json :=
  match mapping with
  | JObject props => ret (JObject (prop_set k v props))
  | _ => throw TypeError
  end.

Definition mapping_delete (mapping : json) (k : jsstring) : M json :=
  match mapping with
  | JObject props => ret (JObject (prop_delete k props))
  | _ => throw TypeError
  end.

(** Truthiness of [mapping[k]]; [None] is [undefined].  A number is falsy
    when it is zero. *)
Definition truthy (v : option json) : bool :=
  match v with
  | None | Some JNull | Some (JBool false) => false
  | Some (JString s) => negb (eqb s [])
  | Some (JNumber x) => negb (is_zero x)
  | Some _ => true
  end.

(** [path.join(WEBRESOURCES_DIR, webResourceDir)]: an argument that is not
    a string is a TypeError. *)
Definition join_target (webResourceDir : json) : M jsstring :=
  match webResourceDir with
  | JString d => ret (Path.join [WEBRESOURCES_DIR; d])
  | _ => throw TypeError
  end.

Definition shown (v : json) : jsstring :=
  match v with JString d => d | _ => [] end.

Definition syncFile (sourceFile targetDir : jsstring) (mapping : json)
  : M (bool * json) :=
  let fileName := Path.basename sourceFile in
  w <- get_world ;;
  let tsFileName := tsFileName_of (cwd w) sourceFile in
  names <- readdirSync targetDir ;;
  let webResourceFiles := filter (ends_with (lit ".js")) names in
  match webResourceFiles with
  | [] =>
      log (No_js_files_found targetDir) ;;
      ret (false, mapping)
  | first :: _ =>
      let targetFile := Path.join [targetDir; first] in
      try_catch
        (copyFileSync sourceFile targetFile ;;
         let webResourceDir := Path.basename targetDir in
         mapping' <- mapping_set mapping tsFileName (JString webResourceDir) ;;
         log (Synced fileName (Path.basename targetFile)) ;;
         ret (true, mapping'))
        (fun error =>
           log (Failed_to_sync fileName error) ;;
           ret (false, mapping))
  end.

(** The body of the loop over the compiled files. *)
Definition sync_one (compiledFile : jsstring) (st : json * nat)
  : M (json * nat) :=
  let '(mapping, syncCount) := st in
  w <- get_world ;;
  let tsFileName := tsFileName_of (cwd w) compiledFile in
  entry <- mapping_get mapping tsFileName ;;
  if truthy entry then
    let webResourceDir := match entry with Some v => v | None => JNull end in
    targetDir <- join_target webResourceDir ;;
    present <- existsSync targetDir ;;
    if present then
      '(ok, mapping') <- syncFile compiledFile targetDir mapping ;;
      ret (mapping', if ok : bool then S syncCount else syncCount)
    else
      log (Mapped_directory_not_found (shown webResourceDir)) ;;
      mapping' <- mapping_delete mapping tsFileName ;;
      ret (mapping', syncCount)
  else
    log (No_mapping_found tsFileName) ;;
    ret (mapping, syncCount).

Fixpoint sync_loop (compiledFiles : list jsstring) (st : json * nat)
  : M (json * nat) :=
  match compiledFiles with
  | [] => ret st
  | compiledFile :: rest =>
      st' <- sync_one compiledFile st ;;
      sync_loop rest st'
  end.

(** [`${info?.name || dir}`] and [`${info?.displayName || 'No display name'}`] *)
Definition or_else (v : option jsstring) (fallback : jsstring) : jsstring :=
  match v with
  | Some s => if eqb s [] then fallback else s
  | None => fallback
  end.

Fixpoint list_web_resources (index : nat) (dirs : list jsstring) : M unit :=
  match dirs with
  | [] => ret tt
  | d :: rest =>
      i <- getWebResourceInfo d ;;
      log (Available_item (S index)
             (or_else (match i with Some r => name r | None => None end) d)
             (or_else (match i with Some r => displayName r | None => None end)
                      (lit "No display name"))) ;;
      list_web_resources (S index) rest
  end.

(** The run; its result is the number of files reported as synced, or
    [None] when it stopped before the loop. *)
Definition syncWebResources : M (option nat) :=
  log Sync_banner ;;
  mapping <- loadMapping ;;
  compiledFiles <- getCompiledFiles ;;
  webResourceDirs <- getWebResourceDirs ;;
  match compiledFiles with
  | [] =>
      log No_compiled_files ;;
      ret None
  | _ =>
      log Available_web_resources ;;
      list_web_resources 0 webResourceDirs ;;
      log Blank_line ;;
      '(mapping', syncCount) <- sync_loop compiledFiles (mapping, O) ;;
      saveMapping mapping' ;;
      log (Sync_complete syncCount) ;;
      (if Nat.ltb 0 syncCount then log To_commit_changes else ret tt) ;;
      ret (Some syncCount)
  end.

End SyncWebResources.


(* ===================================================================== *)
(** ** Mapping tables *)
(* ===================================================================== *)

Module Table.

Definition is_string (v : json) : bool :=
  match v with JString _ => true | _ => false end.

(** An object all of whose values are strings. *)
Definition string_table (o : list (jsstring * json)) : Prop :=
  Forall (fun kv => is_string (snd kv) = true) o.

(** The object for a table given as key and folder pairs. *)
Definition as_object (t : list (jsstring * jsstring)) : json :=
  JObject (map (fun kv => (fst kv, JString (snd kv))) t).

Definition assign (acc : list (jsstring * json)) (kv : jsstring * json)
  : list (jsstring * json) :=
  prop_set (fst kv) (snd kv) acc.

(** The object built by assigning the properties of [o] one after the
    other, as [JSON.parse] does for the members of an object literal. *)
Definition rebuilt (o : list (jsstring * json)) : list (jsstring * json) :=
  fold_left assign o [].

Definition keys (o : list (jsstring * json)) : list jsstring := map fst o.

(** Keys in the order an object enumerates them: array-index keys first,
    in ascending order, then the other keys, none repeated. *)
Inductive enumeration_order : list jsstring -> Prop :=
| order_nil : enumeration_order []
| order_index (k : jsstring) (i : N) (ks : list jsstring) :
    array_index k = Some i ->
    Forall (fun k' => match array_index k' with
                      | Some j => i < j
                      | None => True
                      end) ks ->
    enumeration_order ks ->
    enumeration_order (k :: ks)
| order_name (k : jsstring) (ks : list jsstring) :
    array_index k = None ->
    ~ In k ks ->
    Forall (fun k' => array_index k' = None) ks ->
    enumeration_order ks ->
    enumeration_order (k :: ks).

(** Between two members at nesting depth one: a comma, a line break and
    the indentation. *)
Definition member_separator : jsstring := [44; 10; 32; 32].

(** The text of one member at nesting depth one. *)
Definition member (kv : jsstring * json) : jsstring :=
  quote (fst kv) ++ lit ": " ++ serialize gap (snd kv).

End Table.
Export Table.

(* ===================================================================== *)
(** ** What a run starts from and what it leaves *)
(* ===================================================================== *)

Module Run.

(** The compiled files a run discovers. *)
Definition discovered (w : world) : list jsstring :=
  match stat w DIST_DIR with
  | Ok _ => arrange (glob_order w)
                    (glob_entries (Path.resolve (cwd w) DIST_DIR)
                                  (Path.normalize DIST_DIR) (files w))
  | Throw _ => []
  end.

(** What the mapping file holds, when it holds JSON. *)
Definition persisted (w : world) : option json :=
  match stat w CONFIG_FILE with
  | Ok (File content) => parse content
  | _ => None
  end.

(** The table a run loads. *)
Definition loaded (w : world) : json :=
  match persisted w with
  | Some v => v
  | None => JObject []
  end.

(** The folder a table value stands for. *)
Definition target_of (d : jsstring) : jsstring :=
  Path.join [WEBRESOURCES_DIR; d].

(** A value that is the name of its own target folder, as the creation
    flow stores it (a directory name read from the assets root): the
    reconciler writes [path.basename(targetDir)] back under the key, which
    for such a value is the value itself. *)
Definition is_folder_name (v : json) : bool :=
  match v with
  | JString d => eqb (Path.basename (target_of d)) d
  | _ => false
  end.

Definition folder_table (o : list (jsstring * json)) : bool :=
  forallb (fun kv => is_folder_name (snd kv)) o.

(** The target folder of [d] is not on disk. *)
Definition missing (w : world) (d : jsstring) : Prop :=
  exists e, stat w (target_of d) = Throw e.

(** The warning that the folder [d] is missing. *)
Definition prune_warning (d : jsstring) (m : message) : bool :=
  match m with
  | Mapped_directory_not_found d' => eqb d' d
  | _ => false
  end.

(** How many times [ms] warns that [d] is missing. *)
Definition warnings (d : jsstring) (ms : list message) : nat :=
  length (filter (prune_warning d) ms).

(** Lines among which there is no such warning. *)
Definition quiet (ms : list message) : Prop :=
  forall d, warnings d ms = O.

(** [w'] is [w] after the lines [ms], whatever happened to the files. *)
Definition prints (w w' : world) (ms : list message) : Prop :=
  console w' = console w ++ ms.

Definition names_folder (d : jsstring) (kv : jsstring * json) : bool :=
  match snd kv with
  | JString d' => eqb d' d
  | _ => false
  end.

(** How many entries of [o] name the folder [d]. *)
Definition entries_for (d : jsstring) (o : list (jsstring * json)) : nat :=
  length (filter (names_folder d) o).

(** Two worlds that differ in their console lines only. *)
Definition same_files (w1 w2 : world) : Prop :=
  cwd w1 = cwd w2 /\ files w1 = files w2.

(** The world in which a run has printed its banner, loaded the table and
    discovered the compiled files. *)
Definition started (w : world) : world :=
  snd (SyncWebResources.getCompiledFiles
         (snd (SyncWebResources.loadMapping (snd (log Sync_banner w))))).

(** Whether the folders can be listed and described, which is what a run
    does between the discovery and the loop. *)
Definition listing_ok (w : world) : bool :=
  match SyncWebResources.getWebResourceDirs w with
  | (Ok dirs, wa) =>
      match SyncWebResources.list_web_resources
              0 dirs (printed wa [Available_web_resources]) with
      | (Ok _, _) => true
      | (Throw _, _) => false
      end
  | (Throw _, _) => false
  end.

(** The world in which the loop then starts. *)
Definition listed (w : world) : world :=
  match SyncWebResources.getWebResourceDirs w with
  | (Ok dirs, wa) =>
      printed (snd (SyncWebResources.list_web_resources
                      0 dirs (printed wa [Available_web_resources])))
              [Blank_line]
  | (Throw _, wa) => wa
  end.

(** The last lines of a run that synced [n] files. *)
Definition closing_lines (n : nat) : list message :=
  Sync_complete n :: (if Nat.ltb 0 n then [To_commit_changes] else []).

(** What [syncWebResources] does from there. *)
Definition after_loading (mapping : json) (compiledFiles : list jsstring)
  : M (option nat) :=
  (webResourceDirs <- SyncWebResources.getWebResourceDirs ;;
   match compiledFiles with
   | [] =>
       log No_compiled_files ;;
       ret None
   | _ =>
       log Available_web_resources ;;
       SyncWebResources.list_web_resources 0 webResourceDirs ;;
       log Blank_line ;;
       ' (mapping', syncCount) <-
         SyncWebResources.sync_loop compiledFiles (mapping, O) ;;
       SyncWebResources.saveMapping mapping' ;;
       log (Sync_complete syncCount) ;;
       (if Nat.ltb 0 syncCount then log To_commit_changes else ret tt) ;;
       ret (Some syncCount)
   end)%monad.

(** [w'] is [w] after copies were tried: the directories are the same,
    no path is new, and a path that is gone held a regular file whose name
    ends in ".js". *)
Definition after_copies (w' w : world) : Prop :=
  cwd w' = cwd w /\ glob_order w' = glob_order w
  /\ (valid_names (files w) = true -> valid_names (files w') = true)
  /\ forall q,
       option_map is_dir (lookup q (files w'))
       = option_map is_dir (lookup q (files w))
       \/ (lookup q (files w') = None
           /\ (exists c, lookup q (files w) = Some (File c))
           /\ exists folder name,
                q = folder ++ [name] /\ ends_with (lit ".js") name = true).

(** The target folders of folder names are what they were. *)
Definition same_folders (w' w : world) : Prop :=
  forall d, is_folder_name (JString d) = true ->
            stat w' (target_of d) = stat w (target_of d).

(** A line that only the loop over the compiled files prints. *)
Definition loop_line (m : message) : bool :=
  match m with
  | No_js_files_found _ | Synced _ _ | Failed_to_sync _ _
  | Mapped_directory_not_found _ | No_mapping_found _ => true
  | _ => false
  end.

Definition is_synced_line (m : message) : bool :=
  match m with Synced _ _ => true | _ => false end.

(** How many times [ms] reports a file as synced. *)
Definition synced_lines (ms : list message) : nat :=
  length (filter is_synced_line ms).

(** The warnings for compiled files that have no entry. *)
Definition unmapped_lines (cwd : location) (fs : list jsstring)
  : list message :=
  map (fun f => No_mapping_found (tsFileName_of cwd f)) fs.

(** Whether the entry [d] of the assets root is a directory. *)
Definition is_folder (w : world) (d : jsstring) : bool :=
  match lookup (Path.resolve (cwd w) WEBRESOURCES_DIR ++ [d]) (files w) with
  | Some Dir => true
  | _ => false
  end.

(** A computation that leaves the order of [glob] alone. *)
Definition keeps_order {A : Type} (m : M A) : Prop :=
  forall w, glob_order (snd (m w)) = glob_order w.

(** A computation that does not look at the console: from two worlds with
    the same files it ends the same way, with the same files. *)
Definition blind {A : Type} (m : M A) : Prop :=
  forall w1 w2, same_files w1 w2 ->
                fst (m w1) = fst (m w2)
                /\ same_files (snd (m w1)) (snd (m w2)).

(** The file [first] of the folder [d]. *)
Definition in_folder (cwd : location) (d first : jsstring) : location :=
  Path.resolve cwd WEBRESOURCES_DIR ++ [d; first].

(** What the loop needs to deliver the compiled file [f], of content [c],
    into the folder [d], whose first script is [first]: the table names
    the folder under the key of [f], the folder lists [first] before any
    other name ending in ".js", and [first] is a regular file. *)
Definition deliverable (f d first c : jsstring)
           (o : list (jsstring * json)) (w : world) : Prop :=
  folder_table o = true /\ valid_names (files w) = true
  /\ enumeration_order (keys o)
  /\ prop_get (tsFileName_of (cwd w) f) o = Some (JString d)
  /\ stat w f = Ok (File c)
  /\ (exists names others,
        readdirSync (target_of d) w = (Ok names, w)
        /\ filter (ends_with (lit ".js")) names = first :: others)
  /\ exists c0, lookup (in_folder (cwd w) d first) (files w) = Some (File c0).

End Run.
Export Run.

(* ===================================================================== *)
(** ** The creation flow (new-webresource) *)
(* ===================================================================== *)

Module CreateNewWebResource.

(** [getWebResourceDirs]: this script holds the function of the reconciler
    word for word. *)
Definition getWebResourceDirs : M (list jsstring) :=
  SyncWebResources.getWebResourceDirs.

(** [getDefaultTemplate]: the text of the template literal, line by
    line. *)
Definition getDefaultTemplate : jsstring :=
  join_with [10]
    [ lit "// TypeScript Web Resource Template";
      lit "// This file will be compiled and synced to your Power Platform web resource";
      lit "";
      lit "// Define a namespace for your web resource";
      lit "namespace WebResource {";
      lit "    ";
      lit "    /**";
      lit "     * Form OnLoad event handler";
      lit "     * @param executionContext The execution context passed by the platform";
      lit "     */";
      lit "    export function onLoad(executionContext: Xrm.Events.EventContext): void {";
      lit "        const formContext = executionContext.getFormContext();";
      lit "        ";
      lit "        // Your OnLoad logic here";
      lit "        console.log('Form loaded:', formContext.data.entity.getEntityName());";
      lit "        ";
      lit "        // Example: Show a notification";
      lit "        formContext.ui.setFormNotification(";
      lit "            'Web resource loaded successfully!',";
      lit "            'INFO',";
      lit "            'webresource_loaded'";
      lit "        );";
      lit "        ";
      lit "        // Clear notification after 3 seconds";
      lit "        setTimeout(() => {";
      lit "            formContext.ui.clearFormNotification('webresource_loaded');";
      lit "        }, 3000);";
      lit "    }";
      lit "    ";
      lit "    /**";
      lit "     * Form OnSave event handler";
      lit "     * @param executionContext The execution context passed by the platform";
      lit "     */";
      lit "    export function onSave(executionContext: Xrm.Events.SaveEventContext): void {";
      lit "        const formContext = executionContext.getFormContext();";
      lit "        ";
      lit "        // Your OnSave logic here";
      lit "        console.log('Form saving:', formContext.data.entity.getEntityName());";
      lit "    }";
      lit "    ";
      lit "    /**";
      lit "     * Attribute OnChange event handler";
      lit "     * @param executionContext The execution context passed by the platform";
      lit "     */";
      lit "    export function onChange(executionContext: Xrm.Events.EventContext): void {";
      lit "        const formContext = executionContext.getFormContext();";
      lit "        const attribute = executionContext.getEventSource() as Xrm.Attributes.Attribute;";
      lit "        ";
      lit "        // Your OnChange logic here";
      lit "        console.log('Attribute changed:', attribute.getName(), attribute.getValue());";
      lit "    }";
      lit "}";
      lit "";
      lit "// Make functions available globally for Power Platform";
      lit "(window as any).WebResource = WebResource;" ]
  ++ [10].

(** [convertJsToTs] *)
Definition convertJsToTs (jsFilePath : jsstring) : M jsstring :=
  present <- existsSync jsFilePath ;;
  if negb present then ret getDefaultTemplate
  else
    jsContent <- readFileSync jsFilePath ;;
    ret (lit "// TypeScript version of " ++ Path.basename jsFilePath ++ [10]
         ++ lit "// Auto-generated from existing JavaScript web resource"
         ++ [10; 10]
         ++ jsContent ++ [10; 10]
         ++ lit "// TypeScript exports for better development experience"
         ++ [10]
         ++ lit "// Uncomment and modify as needed:" ++ [10]
         ++ lit "// export { };" ++ [10]).

(** *** The questions

    [inquirer] is not part of the repository.  Its answers are taken from
    a user: the folder picked in the list, the file name typed (the library
    asks again until [validate] accepts, see [prompt_tsFileName], and offers
    [default_tsFileName]), and the two confirmations. *)

Record choice := {
  choice_name : jsstring;
  choice_value : jsstring;
  choice_short : jsstring
}.

Record answers := {
  webResourceDir : jsstring;
  tsFileName : jsstring;
  convertExisting : bool
}.

Record inquirer := {
  ask : list choice -> answers;
  confirm_overwrite : jsstring -> bool
}.

(** [info?.name?.replace(/^co_/, '') || 'webresource'], the default of the
    file-name question. *)
Definition default_tsFileName (i : option info) : jsstring :=
  let stripped :=
    match i with
    | Some r =>
        match name r with
        | Some s => Some (if starts_with (lit "co_") s then skipn 3 s else s)
        | None => None
        end
    | None => None
    end in
  SyncWebResources.or_else stripped (lit "webresource").

(** One entry of [choices]. *)
Definition choice_of (d : jsstring) (i : option info) : choice :=
  let shown_name :=
    SyncWebResources.or_else
      (match i with Some r => name r | None => None end) d in
  let shown_display :=
    SyncWebResources.or_else
      (match i with Some r => displayName r | None => None end)
      (lit "No display name") in
  {| choice_name := shown_name ++ lit " - " ++ shown_display
                      ++ lit " (" ++ d ++ lit ")";
     choice_value := d;
     choice_short := shown_name |}.

(** [webResourceDirs.map(dir => ...)] *)
Fixpoint choices_of (dirs : list jsstring) : M (list choice) :=
  match dirs with
  | [] => ret []
  | d :: rest =>
      i <- getWebResourceInfo d ;;
      cs <- choices_of rest ;;
      ret (choice_of d i :: cs)
  end.

(** [mapping[relativeTsPath] = webResourceDir] on what [JSON.parse]
    returned, in a module (strict mode): a property of null or of a
    primitive cannot be set; on an array the assignment makes a named
    property, which [JSON.stringify] leaves out. *)
Definition assign_entry (mapping : json) (k : jsstring) (v : json) : M json :=
  match mapping with
  | JObject props => ret (JObject (prop_set k v props))
  | JArray items => ret (JArray items)
  | _ => throw TypeError
  end.

(** *** The console of the flow

    The lines of this script, and the lines of the functions it shares
    with the reconciler. *)
Inductive notice :=
| Shared (m : message)
| Create_banner
| No_web_resource_directories
| Pull_the_latest_changes
| Operation_cancelled
| Created_typescript_file (relativeTsPath : jsstring)
| Mapped_to_web_resource (dir : jsstring)
| Web_resource_info
| Info_name (v : option jsstring)
| Info_display_name (v : option jsstring)
| Info_file (v : option jsstring)
| Next_steps
| Step_edit (tsFilePath : jsstring)
| Step_compile
| Step_sync
| Step_commit
| Uncaught (error : exn).

Record desk := {
  disk : world;
  screen : list notice
}.

Definition C (A : Type) : Type := desk -> outcome A * desk.

Definition cret {A} (a : A) : C A := fun s => (Ok a, s).

Definition cbind {A B} (m : C A) (k : A -> C B) : C B :=
  fun s =>
    match m s with
    | (Ok a, s') => k a s'
    | (Throw e, s') => (Throw e, s')
    end.

Definition say (n : notice) : C unit :=
  fun s => (Ok tt, {| disk := disk s; screen := screen s ++ [n] |}).

(** A function of the file system run from the flow: its lines go to the
    screen in the order they were printed. *)
Definition lift {A} (m : M A) : C A :=
  fun s =>
    let '(r, w') := m (disk s) in
    (r, {| disk := w';
           screen := screen s
                     ++ map Shared
                          (skipn (length (console (disk s))) (console w')) |}).

(** [promise.catch(handler)] *)
Definition catch {A} (body : C A) (handler : exn -> C A) : C A :=
  fun s =>
    match body s with
    | (Ok a, s') => (Ok a, s')
    | (Throw e, s') => handler e s'
    end.

Declare Scope flow_scope.
Delimit Scope flow_scope with flow.
Notation "x <- m ;; k" := (cbind m (fun x => k))
  (at level 61, m at next level, right associativity) : flow_scope.
Notation "m ;; k" := (cbind m (fun _ => k))
  (at level 61, right associativity) : flow_scope.

(** The path of the TypeScript file and the key of its entry. *)
Definition relativeTsPath_of (typed : jsstring) : jsstring :=
  trim typed ++ lit ".ts".

Definition tsFilePath_of (typed : jsstring) : jsstring :=
  Path.join [TYPESCRIPT_DIR; relativeTsPath_of typed].

(** The content of the new file. *)
Definition tsContent_of (a : answers) : M jsstring :=
  if convertExisting a then
    let webResourcePath := Path.join [WEBRESOURCES_DIR; webResourceDir a] in
    names <- readdirSync webResourcePath ;;
    match filter (ends_with (lit ".js")) names with
    | first :: _ => convertJsToTs (Path.join [webResourcePath; first])
    | [] => ret getDefaultTemplate
    end
  else ret getDefaultTemplate.

(** [createNewWebResource] *)
Definition createNewWebResource (ui : inquirer) : C unit :=
  (say Create_banner ;;
   webResourceDirs <- lift getWebResourceDirs ;;
   mapping <- lift NewWebResource.loadMapping ;;
   match webResourceDirs with
   | [] =>
       say No_web_resource_directories ;;
       say Pull_the_latest_changes
   | _ =>
       choices <- lift (choices_of webResourceDirs) ;;
       let a := ask ui choices in
       let tsFilePath := tsFilePath_of (tsFileName a) in
       present <- lift (existsSync tsFilePath) ;;
       if present && negb (confirm_overwrite ui (tsFileName a)) then
         say Operation_cancelled
       else
         tsContent <- lift (tsContent_of a) ;;
         lift (writeFileSync tsFilePath tsContent) ;;
         let relativeTsPath := relativeTsPath_of (tsFileName a) in
         mapping' <- lift (assign_entry mapping relativeTsPath
                                        (JString (webResourceDir a))) ;;
         lift (NewWebResource.saveMapping mapping') ;;
         say (Created_typescript_file relativeTsPath) ;;
         say (Mapped_to_web_resource (webResourceDir a)) ;;
         i <- lift (getWebResourceInfo (webResourceDir a)) ;;
         match i with
         | Some r =>
             say Web_resource_info ;;
             say (Info_name (name r)) ;;
             say (Info_display_name (displayName r)) ;;
             say (Info_file (fileName r))
         | None => cret tt
         end ;;
         say Next_steps ;;
         say (Step_edit tsFilePath) ;;
         say Step_compile ;;
         say Step_sync ;;
         say Step_commit
   end)%flow.

(** [createNewWebResource().catch(console.error)] *)
Definition main (ui : inquirer) : C unit :=
  catch (createNewWebResource ui) (fun error => say (Uncaught error)).

(** *** What the flow does to the files

    The steps of [createNewWebResource] that read or write the file
    system, without the lines of the flow itself. *)

(** Writing the TypeScript file, then the entry. *)
Definition write_entry (mapping : json) (a : answers) : M unit :=
  tsContent <- tsContent_of a ;;
  writeFileSync (tsFilePath_of (tsFileName a)) tsContent ;;
  mapping' <- assign_entry mapping (relativeTsPath_of (tsFileName a))
                           (JString (webResourceDir a)) ;;
  NewWebResource.saveMapping mapping'.

(** From the list of folders and the loaded table on. *)
Definition after_listing (ui : inquirer) (webResourceDirs : list jsstring)
           (mapping : json) : M unit :=
  match webResourceDirs with
  | [] => ret tt
  | _ =>
      choices <- choices_of webResourceDirs ;;
      let a := ask ui choices in
      present <- existsSync (tsFilePath_of (tsFileName a)) ;;
      if present && negb (confirm_overwrite ui (tsFileName a)) then ret tt
      else
        write_entry mapping a ;;
        getWebResourceInfo (webResourceDir a) ;;
        ret tt
  end.

Definition on_disk (ui : inquirer) : M unit :=
  webResourceDirs <- getWebResourceDirs ;;
  mapping <- NewWebResource.loadMapping ;;
  after_listing ui webResourceDirs mapping.

(** What the user can answer: one of the listed folders, and a name the
    validator accepts. *)
Definition answered (a : answers) (dirs : list jsstring) : Prop :=
  In (webResourceDir a) dirs /\ validate (tsFileName a) = Valid.

End CreateNewWebResource.

(* ===================================================================== *)
(** ** Example worlds *)
(* ===================================================================== *)

Module Examples.

Definition home : location := [lit "repo"].

(** The location of a path written relative to [home]. *)
Definition at_home (p : string) : location :=
  Path.resolve home (lit p).

Definition world_of (t : table) : world :=
  {| cwd := home; files := t; console := []; glob_order := [] |}.

(** A descriptor whose [Name] line comes first. *)
Definition descriptor_name_first : jsstring :=
  lit "Name: co_example" ++ [10] ++ lit "DisplayName: Example Form" ++ [10].

(** The same two lines in the other order. *)
Definition descriptor_display_first : jsstring :=
  lit "DisplayName: Example Form" ++ [10] ++ lit "Name: co_example" ++ [10].

Definition skeleton : table :=
  [ (at_home ".", Dir);
    (at_home "dist", Dir);
    (at_home "src", Dir);
    (at_home "src/webresources", Dir) ].

Definition folder_with (descriptor : jsstring) : table :=
  skeleton ++
  [ (at_home "src/webresources/folder-123", Dir);
    (at_home "src/webresources/folder-123/webresource.yml",
     File descriptor) ].

(** The descriptor was deleted from the folder. *)
Definition folder_without_descriptor : table :=
  skeleton ++ [ (at_home "src/webresources/folder-123", Dir) ].

(** The table shown in the README. *)
Definition readme_table : list (jsstring * jsstring) :=
  [ (lit "model-form.ts", lit "b5a4c6d9-aaec-ef11-be20-000d3ad0347e");
    (lit "api-example.ts", lit "55a4bea9-aaec-ef11-be20-000d3ad0347e") ].

(** The scenario of the spec: [widgetForm.ts] is mapped to [folder-123],
    which holds a descriptor and two scripts; the build output holds
    [widgetForm.js]. *)
Definition scenario_table : list (jsstring * jsstring) :=
  [ (lit "widgetForm.ts", lit "folder-123") ].

Definition scenario_files : table :=
  skeleton ++
  [ (at_home "dist/widgetForm.js", File (lit "compiled();"));
    (at_home "src/webresources/folder-123", Dir);
    (at_home "src/webresources/folder-123/webresource.yml",
     File descriptor_name_first);
    (at_home "src/webresources/folder-123/form.js", File (lit "old();"));
    (at_home "src/webresources/folder-123/helper.js", File (lit "help();"));
    (at_home "webresource-mapping.json",
     File (stringify (as_object scenario_table))) ].

(** The build output also holds a directory named [vendor.js], which the
    pattern matches and which cannot be copied. *)
Definition vendor_table : list (jsstring * jsstring) :=
  [ (lit "vendor.ts", lit "folder-123");
    (lit "widgetForm.ts", lit "folder-123") ].

Definition vendor_files : table :=
  skeleton ++
  [ (at_home "dist/vendor.js", Dir);
    (at_home "dist/widgetForm.js", File (lit "compiled();"));
    (at_home "src/webresources/folder-123", Dir);
    (at_home "src/webresources/folder-123/form.js", File (lit "old();"));
    (at_home "webresource-mapping.json",
     File (stringify (as_object vendor_table))) ].

(** The same files, which [glob] reports with the regular file first. *)
Definition vendor_last : world :=
  {| cwd := home; files := vendor_files; console := [];
     glob_order := [lit "dist/widgetForm.js"; lit "dist/vendor.js"] |}.

(** A table of files which [glob] reports with [widgetForm.js] before
    [old.js]. *)
Definition old_last (t : table) : world :=
  {| cwd := home; files := t; console := [];
     glob_order := [lit "dist/widgetForm.js"; lit "dist/old.js"] |}.

(** The scenario with the table edited by hand: the folder is written
    with a leading [./]. *)
Definition dotted_table : list (jsstring * jsstring) :=
  [ (lit "widgetForm.ts", lit "./folder-123") ].

Definition dotted_files : table :=
  skeleton ++
  [ (at_home "dist/widgetForm.js", File (lit "compiled();"));
    (at_home "src/webresources/folder-123", Dir);
    (at_home "src/webresources/folder-123/form.js", File (lit "old();"));
    (at_home "webresource-mapping.json",
     File (stringify (as_object dotted_table))) ].

(** The scenario after the folder of [old.ts] was deleted. *)
Definition stale_table : list (jsstring * jsstring) :=
  [ (lit "old.ts", lit "gone");
    (lit "widgetForm.ts", lit "folder-123") ].

Definition stale_files : table :=
  skeleton ++
  [ (at_home "dist/old.js", File (lit "stale();"));
    (at_home "dist/widgetForm.js", File (lit "compiled();"));
    (at_home "src/webresources/folder-123", Dir);
    (at_home "src/webresources/folder-123/form.js", File (lit "old();"));
    (at_home "webresource-mapping.json",
     File (stringify (as_object stale_table))) ].

(** The same, with [widgetForm.ts] mapped to a regular file of the assets
    root. *)
Definition blocked_table : list (jsstring * jsstring) :=
  [ (lit "old.ts", lit "gone");
    (lit "widgetForm.ts", lit "notes.txt") ].

Definition blocked_files : table :=
  skeleton ++
  [ (at_home "dist/old.js", File (lit "stale();"));
    (at_home "dist/widgetForm.js", File (lit "compiled();"));
    (at_home "src/webresources/notes.txt", File (lit "to do"));
    (at_home "webresource-mapping.json",
     File (stringify (as_object blocked_table))) ].

(** The build output holds [app.json.js], compiled from [app.json.ts]. *)
Definition files_json_artifact : table :=
  skeleton ++ [ (at_home "dist/app.json.js", File (lit "var a;")) ].

(** A project before the first mapping: the TypeScript folder is empty,
    the assets root holds one folder and a note. *)
Definition project_files : table :=
  skeleton ++
  [ (at_home "typescript", Dir);
    (at_home "src/webresources/folder-123", Dir);
    (at_home "src/webresources/folder-123/webresource.yml",
     File descriptor_name_first);
    (at_home "src/webresources/folder-123/form.js", File (lit "old();"));
    (at_home "src/webresources/notes.txt", File (lit "to do")) ].

(** The same project with [widgetForm.ts] written by hand. *)
Definition project_with_source : table :=
  project_files ++
  [ (at_home "typescript/widgetForm.ts", File (lit "mine();")) ].

Definition desk_of (t : table) : CreateNewWebResource.desk :=
  {| CreateNewWebResource.disk := world_of t;
     CreateNewWebResource.screen := [] |}.

(** A user who picks [folder-123], types the name with spaces around it,
    asks for the conversion and does not confirm an overwrite. *)
Definition careful_user : CreateNewWebResource.inquirer :=
  {| CreateNewWebResource.ask :=
       fun _ =>
         {| CreateNewWebResource.webResourceDir := lit "folder-123";
            CreateNewWebResource.tsFileName := lit " widgetForm ";
            CreateNewWebResource.convertExisting := true |};
     CreateNewWebResource.confirm_overwrite := fun _ => false |}.

(** The scenario with a mapping file that holds [null]. *)
Definition null_files : table :=
  skeleton ++
  [ (at_home "dist/widgetForm.js", File (lit "compiled();"));
    (at_home "src/webresources/folder-123", Dir);
    (at_home "src/webresources/folder-123/form.js", File (lit "old();"));
    (at_home "webresource-mapping.json", File (lit "null")) ].

(** The project with a mapping file that holds [null]. *)
Definition project_with_null : table :=
  project_files ++
  [ (at_home "webresource-mapping.json", File (lit "null")) ].

End Examples.

(* ===================================================================== *)
(** * Properties *)
(* ===================================================================== *)

(** ** Strings *)

Lemma eqb_eq (a b : jsstring) : eqb a b = true <-> a = b.
Proof.
  unfold eqb. destruct (list_eq_dec N.eq_dec a b); split; congruence.
Qed.

Lemma eqb_refl (a : jsstring) : eqb a a = true.
Proof. now apply eqb_eq. Qed.

Lemma eqb_neq (a b : jsstring) : eqb a b = false <-> a <> b.
Proof.
  unfold eqb. destruct (list_eq_dec N.eq_dec a b); split; congruence.
Qed.

(** ** The key derived for an artifact *)

(** C1 (evaluation at the failing input).  The artifact [dist/app.json.js]
    is discovered under the build-output root; its relative path is
    [app.json.js], whose first ".js" is not the extension, and the derived
    key is [app.tson.js], which does not end in ".ts". *)
Lemma tsFileName_of_replaces_the_first_occurrence :
  let w := Examples.world_of Examples.files_json_artifact in
  SyncWebResources.getCompiledFiles w = (Ok [lit "dist/app.json.js"], w)
  /\ Path.relative (cwd w) DIST_DIR (lit "dist/app.json.js")
     = lit "app.json.js"
  /\ tsFileName_of (cwd w) (lit "dist/app.json.js") = lit "app.tson.js"
  /\ ends_with (lit ".ts") (tsFileName_of (cwd w) (lit "dist/app.json.js"))
     = false.
Proof. vm_compute. repeat split. Qed.

(** ** The validator of the creation flow *)

Lemma test_name_spec (s : jsstring) :
  test_name s = true <-> s <> [] /\ Forall (fun c => is_name_char c = true) s.
Proof.
  unfold test_name. destruct s as [|c s].
  - split; [discriminate | intros [H _]; congruence].
  - rewrite forallb_forall, Forall_forall. split.
    + intros H. split; [discriminate | exact H].
    + intros [_ H]. exact H.
Qed.

Lemma validate_valid_iff (input : jsstring) :
  validate input = Valid <-> test_name (trim input) = true.
Proof.
  unfold validate.
  destruct (eqb input []) eqn:He.
  - apply eqb_eq in He. subst input. simpl. split; discriminate.
  - simpl. destruct (trim input) as [|c t] eqn:Ht.
    + simpl. split; discriminate.
    + replace (N.of_nat (length (c :: t)) =? 0) with false
        by (symmetry; apply N.eqb_neq; simpl; lia).
      destruct (test_name (c :: t)); simpl; split; congruence.
Qed.

(** C2 (as stated, refuted).  The validator does not accept exactly the
    strings made of letters, digits, underscores and hyphens: " abc" holds
    a space and is accepted. *)
Lemma validate_accepts_a_padded_name :
  ~ (forall input,
        validate input = Valid <->
        input <> [] /\ Forall (fun c => is_name_char c = true) input).
Proof.
  intros H. destruct (H (lit " abc")) as [H1 _].
  destruct (H1 eq_refl) as [_ Hall].
  inversion Hall as [|c l Hc _]; subst. vm_compute in Hc. discriminate.
Qed.

(** C2 (amended).  The validator accepts an input exactly when the input
    with its leading and trailing white space removed is non-empty and
    made of letters, digits, underscores and hyphens; every other input is
    answered with a message, and the prompt moves on to the next answer. *)
Theorem validate_accepts_iff_trimmed_name (input : jsstring) :
  (validate input = Valid <->
   trim input <> [] /\ Forall (fun c => is_name_char c = true) (trim input))
  /\ (validate input <> Valid ->
      (exists message, validate input = Invalid message)
      /\ forall later,
           prompt_tsFileName (input :: later) = prompt_tsFileName later).
Proof.
  split.
  - rewrite validate_valid_iff. apply test_name_spec.
  - intros H. destruct (validate input) as [|m] eqn:Hv; [congruence|].
    split; [now exists m|]. intros later. simpl. now rewrite Hv.
Qed.

Lemma prompt_returns_first_valid (typed : list jsstring) (answer : jsstring) :
  prompt_tsFileName typed = Some answer ->
  In answer typed /\ test_name (trim answer) = true.
Proof.
  induction typed as [|x xs IH]; simpl; [discriminate|].
  destruct (validate x) eqn:Hv.
  - intros [= ->]. split; [now left | now apply validate_valid_iff].
  - intros H. destruct (IH H). split; [now right | assumption].
Qed.

(** ** Reading a descriptor *)

Lemma match_label_not_included (label content : jsstring) :
  includes label content = false -> match_label label content = None.
Proof.
  induction content as [|c rest IH]; simpl; intros H.
  - apply orb_false_iff in H. destruct H as [H _]. now rewrite H.
  - apply orb_false_iff in H. destruct H as [H1 H2].
    rewrite H1. now apply IH.
Qed.

(** A field whose pattern does not occur in the descriptor is null. *)
Lemma getWebResourceInfo_missing_fields (d content : jsstring) (w : world) :
  readFileSync (Path.join [WEBRESOURCES_DIR; d; lit "webresource.yml"]) w
  = (Ok content, w) ->
  exists i,
    getWebResourceInfo d w = (Ok (Some i), w)
    /\ (includes (lit "Name:") content = false -> name i = None)
    /\ (includes (lit "DisplayName:") content = false -> displayName i = None)
    /\ (includes (lit "FileName:") content = false -> fileName i = None).
Proof.
  intros Hread. unfold getWebResourceInfo, bind, existsSync.
  unfold readFileSync in Hread.
  destruct (stat w _) as [[c|]|e] eqn:Hs; try discriminate.
  injection Hread as ->. simpl. unfold readFileSync. rewrite Hs.
  eexists. split; [reflexivity|]. simpl.
  repeat split; intros H; now rewrite (match_label_not_included _ _ H).
Qed.

(** The scenario of the spec: the [Name] line first, then the
    [DisplayName] line, no [FileName] line. *)
Lemma getWebResourceInfo_name_line_first :
  let w := Examples.world_of
             (Examples.folder_with Examples.descriptor_name_first) in
  getWebResourceInfo (lit "folder-123") w
  = (Ok (Some {| dir := lit "folder-123";
                 name := Some (lit "co_example");
                 displayName := Some (lit "Example Form");
                 fileName := None |}), w).
Proof. vm_compute. reflexivity. Qed.

(** Without a descriptor in the folder the result is null. *)
Lemma getWebResourceInfo_descriptor_absent :
  let w := Examples.world_of Examples.folder_without_descriptor in
  getWebResourceInfo (lit "folder-123") w = (Ok None, w).
Proof. vm_compute. reflexivity. Qed.

(** C7 (evaluation at the failing input).  The descriptor holds the lines
    "DisplayName: Example Form" and "Name: co_example", in this order, and
    no FileName line.  The search for "Name:" first succeeds inside
    "DisplayName:", so [name] is the display name, not "co_example". *)
Lemma getWebResourceInfo_name_taken_from_display_line :
  let w := Examples.world_of
             (Examples.folder_with Examples.descriptor_display_first) in
  getWebResourceInfo (lit "folder-123") w
  = (Ok (Some {| dir := lit "folder-123";
                 name := Some (lit "Example Form");
                 displayName := Some (lit "Example Form");
                 fileName := None |}), w).
Proof. vm_compute. reflexivity. Qed.

(** ** Loading the mapping *)

(** What each [loadMapping] returns, by what is found at the mapping
    file's path. *)
Lemma loadMapping_cases (w : world) :
  match stat w CONFIG_FILE with
  | Ok (File c) =>
      match parse c with
      | Some v =>
          NewWebResource.loadMapping w = (Ok v, w)
          /\ SyncWebResources.loadMapping w = (Ok v, w)
      | None =>
          NewWebResource.loadMapping w
          = (Ok (JObject []), printed w [Error_reading_mapping SyntaxError])
          /\ SyncWebResources.loadMapping w
             = (Ok (JObject []),
                printed w [Error_reading_mapping SyntaxError])
      end
  | Ok Dir =>
      NewWebResource.loadMapping w
      = (Ok (JObject []), printed w [Error_reading_mapping EISDIR])
      /\ SyncWebResources.loadMapping w
         = (Ok (JObject []), printed w [Error_reading_mapping EISDIR])
  | Throw _ =>
      NewWebResource.loadMapping w = (Ok (JObject []), w)
      /\ SyncWebResources.loadMapping w
         = (Ok (JObject []), printed w [No_mapping_file])
  end.
Proof.
  unfold NewWebResource.loadMapping, SyncWebResources.loadMapping,
    bind, try_catch, existsSync, readFileSync, log, ret, throw.
  destruct (stat w CONFIG_FILE) as [[c|]|e] eqn:Hs; simpl; rewrite ?Hs;
    [destruct (parse c); simpl|..]; split; reflexivity.
Qed.

(** C6.  [loadMapping] (in both scripts) always returns to its caller and
    leaves the files as they are.  When the mapping file is absent the
    result is the empty table; when it is present but cannot be read or
    parsed, the error is printed and the result is the empty table. *)
Theorem loadMapping_fails_soft (w : world) :
  (forall load,
      load = NewWebResource.loadMapping \/ load = SyncWebResources.loadMapping ->
      exists v w', load w = (Ok v, w') /\ files w' = files w /\ cwd w' = cwd w)
  /\ ((exists e, stat w CONFIG_FILE = Throw e) ->
      NewWebResource.loadMapping w = (Ok (JObject []), w)
      /\ SyncWebResources.loadMapping w
         = (Ok (JObject []), printed w [No_mapping_file]))
  /\ (forall n, stat w CONFIG_FILE = Ok n ->
      (forall content, n = File content -> parse content = None ->
         NewWebResource.loadMapping w
         = (Ok (JObject []), printed w [Error_reading_mapping SyntaxError])
         /\ SyncWebResources.loadMapping w
            = (Ok (JObject []), printed w [Error_reading_mapping SyntaxError]))
      /\ (n = Dir ->
         NewWebResource.loadMapping w
         = (Ok (JObject []), printed w [Error_reading_mapping EISDIR])
         /\ SyncWebResources.loadMapping w
            = (Ok (JObject []), printed w [Error_reading_mapping EISDIR]))
      /\ (forall content v, n = File content -> parse content = Some v ->
         NewWebResource.loadMapping w = (Ok v, w)
         /\ SyncWebResources.loadMapping w = (Ok v, w))).
Proof.
  pose proof (loadMapping_cases w) as Hcases.
  destruct (stat w CONFIG_FILE) as [[c|]|e] eqn:Hs;
    [destruct (parse c) as [v|] eqn:Hp|..];
    destruct Hcases as [H1 H2]; (split; [|split]).
  all: try (intros load [-> | ->]; rewrite ?H1, ?H2; eauto).
  all: try (intros [e' He']; discriminate).
  all: try (intros _; split; assumption).
  all: try (intros n Hn; discriminate).
  all: intros n [= <-]; (split; [|split]); intros;
    repeat match goal with
           | H : File _ = File _ |- _ => injection H as <-
           | H : File _ = Dir |- _ => discriminate H
           | H : Dir = File _ |- _ => discriminate H
           end;
    try congruence; split; congruence.
Qed.

(** ** JSON: reading back what was written *)

Lemma hex_value_hex_digit (n : N) : n < 16 -> hex_value (hex_digit n) = Some n.
Proof.
  intros H. destruct n as [|p]; [reflexivity|].
  do 4 (destruct p as [p|p|]; try reflexivity); exfalso; lia.
Qed.

Lemma hex4_unicode_digits (c : N) :
  c < 65536 ->
  hex4 (hex_digit (c / 4096 mod 16)) (hex_digit (c / 256 mod 16))
       (hex_digit (c / 16 mod 16)) (hex_digit (c mod 16)) = Some c.
Proof.
  intros H. unfold hex4.
  rewrite !hex_value_hex_digit by (apply N.mod_lt; discriminate).
  f_equal. zify. Z.to_euclidean_division_equations. lia.
Qed.

Lemma parse_chars_unicode_escape (c : N) (r : jsstring) :
  c < 65536 ->
  parse_chars (unicode_escape c ++ r)
  = match parse_chars r with
    | Some (t, r') => Some (c :: t, r')
    | None => None
    end.
Proof.
  intros H. unfold unicode_escape.
  change (parse_chars
            ([92; 117; hex_digit (c / 4096 mod 16); hex_digit (c / 256 mod 16);
              hex_digit (c / 16 mod 16); hex_digit (c mod 16)] ++ r))
    with (match hex4 (hex_digit (c / 4096 mod 16)) (hex_digit (c / 256 mod 16))
                     (hex_digit (c / 16 mod 16)) (hex_digit (c mod 16)),
                parse_chars r with
          | Some u, Some (t, r') => Some (u :: t, r')
          | _, _ => None
          end).
  rewrite hex4_unicode_digits by assumption.
  destruct (parse_chars r) as [[t r']|]; reflexivity.
Qed.

Lemma parse_chars_plain (c : N) (r : jsstring) :
  (c =? 34) = false -> (c =? 92) = false -> (c <? 32) = false ->
  parse_chars (c :: r)
  = match parse_chars r with
    | Some (t, r') => Some (c :: t, r')
    | None => None
    end.
Proof. intros H1 H2 H3. simpl. now rewrite H1, H2, H3. Qed.

Lemma surrogate_bound (c : N) :
  is_high_surrogate c = true \/ is_low_surrogate c = true -> c < 65536.
Proof.
  unfold is_high_surrogate, is_low_surrogate.
  intros [H|H]; apply andb_true_iff in H; destruct H as [_ H];
    apply N.leb_le in H; lia.
Qed.

Lemma surrogate_plain (c : N) :
  is_high_surrogate c = true \/ is_low_surrogate c = true ->
  (c =? 34) = false /\ (c =? 92) = false /\ (c <? 32) = false.
Proof.
  unfold is_high_surrogate, is_low_surrogate.
  intros [H|H]; apply andb_true_iff in H; destruct H as [H _];
    apply N.leb_le in H; repeat split;
    try (apply N.eqb_neq; lia); apply N.ltb_ge; lia.
Qed.

(** A quoted string reads back as the string. *)
Lemma parse_chars_quote_chars (s r : jsstring) :
  parse_chars (quote_chars s ++ 34 :: r) = Some (s, r).
Proof.
  remember (length s) as n eqn:Hn.
  revert s Hn. induction n as [n IH] using lt_wf_ind. intros s Hn.
  destruct s as [|c rest]; [reflexivity|].
  assert (Hrest : parse_chars (quote_chars rest ++ 34 :: r) = Some (rest, r))
    by (apply (IH (length rest)); [subst n; simpl; lia | reflexivity]).
  cbn [quote_chars].
  destruct (c =? 8) eqn:E8;
    [apply N.eqb_eq in E8; subst c; simpl; now rewrite Hrest|].
  destruct (c =? 9) eqn:E9;
    [apply N.eqb_eq in E9; subst c; simpl; now rewrite Hrest|].
  destruct (c =? 10) eqn:E10;
    [apply N.eqb_eq in E10; subst c; simpl; now rewrite Hrest|].
  destruct (c =? 12) eqn:E12;
    [apply N.eqb_eq in E12; subst c; simpl; now rewrite Hrest|].
  destruct (c =? 13) eqn:E13;
    [apply N.eqb_eq in E13; subst c; simpl; now rewrite Hrest|].
  destruct (c =? 34) eqn:E34;
    [apply N.eqb_eq in E34; subst c; simpl; now rewrite Hrest|].
  destruct (c =? 92) eqn:E92;
    [apply N.eqb_eq in E92; subst c; simpl; now rewrite Hrest|].
  destruct (c <? 32) eqn:E32.
  { rewrite <- app_assoc, parse_chars_unicode_escape, Hrest; [reflexivity|].
    apply N.ltb_lt in E32. lia. }
  destruct (is_high_surrogate c) eqn:Ehi.
  { destruct rest as [|d rest'].
    - rewrite parse_chars_unicode_escape;
        [reflexivity | apply surrogate_bound; now left].
    - destruct (is_low_surrogate d) eqn:Elo.
      + destruct (surrogate_plain d (or_intror Elo)) as (D1 & D2 & D3).
        cbn [app]. rewrite parse_chars_plain by assumption.
        rewrite parse_chars_plain by assumption.
        rewrite (IH (length rest')); [reflexivity | subst n; simpl; lia
                                      | reflexivity].
      + rewrite <- app_assoc, parse_chars_unicode_escape, Hrest;
          [reflexivity | apply surrogate_bound; now left]. }
  destruct (is_low_surrogate c) eqn:Elo.
  { rewrite <- app_assoc, parse_chars_unicode_escape, Hrest;
      [reflexivity | apply surrogate_bound; now right]. }
  cbn [app]. rewrite parse_chars_plain by assumption. now rewrite Hrest.
Qed.

Lemma stringify_object_cons (p : jsstring * json) (ps : list (jsstring * json)) :
  stringify (JObject (p :: ps))
  = 123 :: 10 :: 32 :: 32
      :: join_with member_separator (map member (p :: ps)) ++ [10; 125].
Proof. reflexivity. Qed.

Lemma member_string_text (k v r : jsstring) :
  member (k, JString v) ++ r
  = 34 :: quote_chars k ++ 34 :: 58 :: 32 :: 34 :: quote_chars v ++ 34 :: r.
Proof.
  unfold member, quote. cbn [fst snd serialize quote].
  unfold quote. change (lit ": ") with [58; 32].
  repeat (rewrite <- app_assoc; cbn [app]). reflexivity.
Qed.

Lemma parse_members_string_member
      (fuel : nat) (acc : list (jsstring * json)) (k v r : jsstring) :
  parse_members (S (S fuel)) acc (10 :: 32 :: 32 :: member (k, JString v) ++ r)
  = match skip_ws r with
    | 44 :: r' => parse_members (S fuel) (prop_set k (JString v) acc) r'
    | 125 :: r' => Some (prop_set k (JString v) acc, r')
    | _ => None
    end.
Proof.
  rewrite member_string_text.
  cbn [parse_members].
  change (skip_ws (10 :: 32 :: 32 :: 34 :: quote_chars k ++ 34 :: 58 :: 32 :: 34 :: quote_chars v ++ 34 :: r))
    with (34 :: quote_chars k ++ 34 :: 58 :: 32 :: 34 :: quote_chars v ++ 34 :: r).
  cbv iota beta.
  rewrite parse_chars_quote_chars.
  change (skip_ws (58 :: 32 :: 34 :: quote_chars v ++ 34 :: r))
    with (58 :: 32 :: 34 :: quote_chars v ++ 34 :: r).
  cbv iota beta.
  cbn [parse_value].
  change (skip_ws (32 :: 34 :: quote_chars v ++ 34 :: r))
    with (34 :: quote_chars v ++ 34 :: r).
  cbv iota beta.
  change (34 =? 123) with false. change (34 =? 91) with false.
  change (34 =? 34) with true. cbv iota beta.
  rewrite parse_chars_quote_chars. reflexivity.
Qed.

Lemma string_table_cons_inv (kv : jsstring * json) (o : list (jsstring * json)) :
  string_table (kv :: o) ->
  (exists v, kv = (fst kv, JString v)) /\ string_table o.
Proof.
  intros H. inversion H as [|x l Hx Hl]; subst. split; [|assumption].
  destruct kv as [k [| | |v| |]]; try discriminate. now exists v.
Qed.

Lemma parse_members_string_table (o : list (jsstring * json)) :
  string_table o -> o <> [] ->
  forall (fuel : nat) (acc : list (jsstring * json)) (tail : jsstring),
    (length o < fuel)%nat ->
    parse_members fuel acc
      (10 :: 32 :: 32
          :: join_with member_separator (map member o) ++ 10 :: 125 :: tail)
    = Some (fold_left assign o acc, tail).
Proof.
  induction o as [|kv o IH]; [congruence|].
  intros Hst _ fuel acc tail Hfuel.
  destruct (string_table_cons_inv Hst) as [[v Hkv] Hst'].
  destruct kv as [k x]. cbn [fst] in Hkv. injection Hkv as ->.
  destruct fuel as [|[|fuel]]; [simpl in Hfuel; lia | simpl in Hfuel; lia |].
  destruct o as [|kv' o'].
  - cbn [map join_with]. rewrite parse_members_string_member. reflexivity.
  - change (join_with member_separator (map member ((k, JString v) :: kv' :: o')))
      with (member (k, JString v)
              ++ member_separator ++ join_with member_separator (map member (kv' :: o'))).
    rewrite <- !app_assoc. rewrite parse_members_string_member.
    unfold member_separator at 1. cbn [app skip_ws drop_while].
    change (is_json_space 44) with false. cbv iota. rewrite IH; [reflexivity | assumption | discriminate |].
    simpl in Hfuel |- *. lia.
Qed.

Lemma member_length (o : list (jsstring * json)) :
  (length o <= length (join_with member_separator (map member o)))%nat.
Proof.
  induction o as [|kv o IH]; [simpl; lia|].
  destruct o as [|kv' o'].
  - cbn [map join_with]. unfold member, quote.
    rewrite !length_app. simpl. lia.
  - change (join_with member_separator (map member (kv :: kv' :: o')))
      with (member kv
              ++ member_separator ++ join_with member_separator (map member (kv' :: o'))).
    rewrite !length_app. simpl length in *. lia.
Qed.

Lemma join_members_head (kv : jsstring * json) (o : list (jsstring * json)) :
  exists r, join_with member_separator (map member (kv :: o)) = 34 :: r.
Proof.
  destruct o as [|kv' o'].
  - cbn [map join_with]. unfold member, quote. cbn [app]. eauto.
  - change (join_with member_separator (map member (kv :: kv' :: o')))
      with (member kv ++ member_separator
              ++ join_with member_separator (map member (kv' :: o'))).
    unfold member at 1, quote. cbn [app]. eauto.
Qed.

Lemma parse_value_object (fuel : nat) (rest : jsstring) :
  parse_value (S fuel) (123 :: rest)
  = match skip_ws rest with
    | 125 :: r => Some (JObject [], r)
    | _ =>
        match parse_members fuel [] rest with
        | Some (props, r) => Some (JObject props, r)
        | None => None
        end
    end.
Proof. reflexivity. Qed.

(** What [JSON.parse] makes of the text [JSON.stringify] writes for a
    table of strings: the object rebuilt property by property. *)
Lemma parse_stringify_string_table (o : list (jsstring * json)) :
  string_table o ->
  parse (stringify (JObject o)) = Some (JObject (rebuilt o)).
Proof.
  intros Hst. destruct o as [|kv o]; [reflexivity|].
  rewrite stringify_object_cons. unfold parse.
  rewrite parse_value_object.
  destruct (join_members_head kv o) as [r Hr].
  assert (Hskip :
            skip_ws (10 :: 32 :: 32
                        :: join_with member_separator (map member (kv :: o))
                        ++ [10; 125])
            = 34 :: r ++ [10; 125]) by (rewrite Hr; reflexivity).
  rewrite Hskip.
  rewrite (@parse_members_string_table (kv :: o) Hst); [reflexivity | discriminate |].
  pose proof (member_length (kv :: o)) as Hlen.
  cbn [length] in Hlen |- *. rewrite length_app. cbn [length]. lia.
Qed.

(** ** Own properties *)

Section PropLemmas.
Variable V : Type.
Implicit Types (o : list (jsstring * V)) (k : jsstring) (v : V).

Lemma prop_get_app k o o' :
  prop_get k (o ++ o')
  = match prop_get k o with Some v => Some v | None => prop_get k o' end.
Proof.
  induction o as [|[k' v'] o IH]; simpl; [reflexivity|].
  destruct (eqb k k'); [reflexivity | exact IH].
Qed.

Lemma prop_get_update k k' v o :
  prop_get k (prop_update k' v o)
  = if eqb k k' then option_map (fun _ => v) (prop_get k o) else prop_get k o.
Proof.
  induction o as [|[k1 v1] o IH]; simpl.
  - now destruct (eqb k k').
  - destruct (eqb k' k1) eqn:E1; simpl.
    + apply eqb_eq in E1. subst k1. now destruct (eqb k k').
    + destruct (eqb k k1) eqn:E2.
      * apply eqb_eq in E2. subst k1.
        destruct (eqb k k') eqn:E3; [|reflexivity].
        apply eqb_eq in E3. subst k'. now rewrite eqb_refl in E1.
      * exact IH.
Qed.

Lemma prop_get_insert_index k i k' v o :
  prop_get k' o = None ->
  prop_get k (prop_insert_index i k' v o)
  = if eqb k k' then Some v else prop_get k o.
Proof.
  induction o as [|[k1 v1] o IH]; simpl.
  - now destruct (eqb k k').
  - destruct (eqb k' k1) eqn:E1; [discriminate|]. intros Hnone.
    destruct (array_index k1) as [j|]; [destruct (j <? i)|]; simpl;
      try (destruct (eqb k k'); reflexivity).
    destruct (eqb k k1) eqn:E2; [|now apply IH].
    destruct (eqb k k') eqn:E3; [|reflexivity].
    apply eqb_eq in E2, E3. subst. now rewrite eqb_refl in E1.
Qed.

Lemma has_prop_false k o : has_prop k o = false <-> prop_get k o = None.
Proof. unfold has_prop. destruct (prop_get k o); split; congruence. Qed.

Lemma has_prop_true k o : has_prop k o = true <-> exists v, prop_get k o = Some v.
Proof.
  unfold has_prop. destruct (prop_get k o) as [v|]; split;
    try congruence; eauto. intros [v H]. discriminate.
Qed.

(** Reading after [o[k'] = v]. *)
Lemma prop_get_set k k' v o :
  prop_get k (prop_set k' v o) = if eqb k k' then Some v else prop_get k o.
Proof.
  unfold prop_set. destruct (has_prop k' o) eqn:Hh.
  - rewrite prop_get_update. destruct (eqb k k') eqn:E; [|reflexivity].
    apply eqb_eq in E. subst k'. apply has_prop_true in Hh.
    destruct Hh as [v0 ->]. reflexivity.
  - apply has_prop_false in Hh. destruct (array_index k') as [i|].
    + now apply prop_get_insert_index.
    + rewrite prop_get_app. simpl. destruct (eqb k k') eqn:E.
      * apply eqb_eq in E. subst k'. now rewrite Hh.
      * now destruct (prop_get k o).
Qed.

(** Reading after [delete o[k']]. *)
Lemma prop_get_delete k k' o :
  prop_get k (prop_delete k' o) = if eqb k k' then None else prop_get k o.
Proof.
  induction o as [|[k1 v1] o IH]; simpl.
  - now destruct (eqb k k').
  - destruct (eqb k' k1) eqn:E1; simpl.
    + rewrite IH. destruct (eqb k k') eqn:E; [reflexivity|].
      destruct (eqb k k1) eqn:E2; [|reflexivity].
      apply eqb_eq in E1, E2. subst. now rewrite eqb_refl in E.
    + destruct (eqb k k1) eqn:E2; [|exact IH].
      destruct (eqb k k') eqn:E; [|reflexivity].
      apply eqb_eq in E, E2. subst. now rewrite eqb_refl in E1.
Qed.

Lemma prop_get_In k o : prop_get k o <> None <-> In k (map fst o).
Proof.
  induction o as [|[k1 v1] o IH]; simpl; [tauto|].
  destruct (eqb k k1) eqn:E.
  - apply eqb_eq in E. subst. split; [auto | discriminate].
  - apply eqb_neq in E. rewrite IH. split; [auto | intros [H|H]; [congruence | assumption]].
Qed.

Lemma prop_get_None k o : prop_get k o = None <-> ~ In k (map fst o).
Proof.
  rewrite <- prop_get_In. destruct (prop_get k o); split; intros H;
    try congruence; try (intros H'; now apply H'); exfalso; apply H; discriminate.
Qed.

Lemma keys_update k v o : map fst (prop_update k v o) = map fst o.
Proof.
  induction o as [|[k1 v1] o IH]; simpl; [reflexivity|].
  destruct (eqb k k1); simpl; [reflexivity | now rewrite IH].
Qed.

Lemma keys_delete k o :
  map fst (prop_delete k o) = filter (fun k' => negb (eqb k k')) (map fst o).
Proof.
  induction o as [|[k1 v1] o IH]; simpl; [reflexivity|].
  destruct (eqb k k1); simpl; [exact IH | now rewrite IH].
Qed.

Lemma keys_insert_index i k v o :
  exists a b, map fst o = a ++ b
              /\ map fst (prop_insert_index i k v o) = a ++ k :: b
              /\ Forall (fun k' => exists j, array_index k' = Some j /\ j < i) a
              /\ match b with
                 | [] => True
                 | k' :: _ => match array_index k' with
                              | Some j => i <= j
                              | None => True
                              end
                 end.
Proof.
  induction o as [|[k1 v1] o IH]; simpl.
  - exists [], []. simpl. auto.
  - destruct (array_index k1) as [j|] eqn:Ej.
    + destruct (j <? i) eqn:Elt.
      * destruct IH as (a & b & H1 & H2 & H3 & H4).
        exists (k1 :: a), b. simpl. rewrite H1, H2. repeat split; auto.
        constructor; [|assumption]. exists j. split; [assumption|].
        now apply N.ltb_lt.
      * exists [], (k1 :: map fst o). simpl. repeat split; auto.
        rewrite Ej. now apply N.ltb_ge.
    + exists [], (k1 :: map fst o). simpl. repeat split; auto. now rewrite Ej.
Qed.

End PropLemmas.

(** ** Enumeration order *)

Lemma array_index_decimal (k : jsstring) (i : N) :
  array_index k = Some i -> k = decimal i.
Proof.
  unfold array_index.
  destruct (eqb k (decimal (digits_value k))) eqn:E; simpl; [|discriminate].
  destruct (digits_value k <? 4294967295); [|discriminate].
  intros [= <-]. now apply eqb_eq.
Qed.

Lemma array_index_inj (k k' : jsstring) (i : N) :
  array_index k = Some i -> array_index k' = Some i -> k = k'.
Proof.
  intros H H'. apply array_index_decimal in H, H'. congruence.
Qed.

Lemma order_NoDup (ks : list jsstring) : enumeration_order ks -> NoDup ks.
Proof.
  induction 1 as [|k i ks Hk Hall _ IH|k ks Hk Hin _ _ IH];
    constructor; try assumption.
  intros Hin. rewrite Forall_forall in Hall. specialize (Hall k Hin).
  rewrite Hk in Hall. lia.
Qed.

Lemma order_filter (f : jsstring -> bool) (ks : list jsstring) :
  enumeration_order ks -> enumeration_order (filter f ks).
Proof.
  induction 1 as [|k i ks Hk Hall _ IH|k ks Hk Hin Hall _ IH]; simpl.
  - constructor.
  - destruct (f k); [|assumption].
    apply order_index with i; try assumption.
    rewrite Forall_forall in *. intros x Hx. apply filter_In in Hx. now apply Hall.
  - destruct (f k); [|assumption].
    apply order_name; try assumption.
    + intros Hx. apply filter_In in Hx. tauto.
    + rewrite Forall_forall in *. intros x Hx. apply filter_In in Hx. now apply Hall.
Qed.

Lemma order_names_only (ks : list jsstring) :
  Forall (fun k => array_index k = None) ks -> NoDup ks -> enumeration_order ks.
Proof.
  induction 1 as [|k ks Hk Hall IH]; intros Hnd; [constructor|].
  inversion Hnd; subst. apply order_name; auto.
Qed.

(** A new name goes last. *)
Lemma order_append_name (ks : list jsstring) (k : jsstring) :
  enumeration_order ks -> array_index k = None -> ~ In k ks ->
  enumeration_order (ks ++ [k]).
Proof.
  induction 1 as [|k1 i ks Hk1 Hall _ IH|k1 ks Hk1 Hin Hall _ IH];
    intros Hk Hnot; simpl.
  - apply order_name; auto. constructor.
  - apply order_index with i; auto.
    + apply Forall_app. split; [assumption|]. constructor; [|constructor].
      now rewrite Hk.
    + apply IH; auto. intros H. apply Hnot. now right.
  - apply order_name; auto.
    + intros H. apply in_app_or in H. destruct H as [H|[H|[]]]; [tauto|].
      subst. apply Hnot. now left.
    + apply Forall_app. split; [assumption|]. now repeat constructor.
    + apply IH; auto. intros H. apply Hnot. now right.
Qed.

(** A new array index goes after the smaller ones. *)
Lemma order_insert_index (a b : list jsstring) (k : jsstring) (i : N) :
  enumeration_order (a ++ b) ->
  array_index k = Some i -> ~ In k (a ++ b) ->
  Forall (fun k' => exists j, array_index k' = Some j /\ j < i) a ->
  match b with
  | [] => True
  | k' :: _ => match array_index k' with Some j => i <= j | None => True end
  end ->
  enumeration_order (a ++ k :: b).
Proof.
  induction a as [|x a IH]; simpl; intros Hord Hk Hnot Ha Hb.
  - apply order_index with i; auto.
    destruct b as [|k' b']; [constructor|].
    inversion Hord as [|? j ? Hk' Hall Hord'|? ? Hk' Hin Hall Hord']; subst.
    + rewrite Hk' in Hb.
      assert (i <> j).
      { intros ->. apply Hnot. left. now apply array_index_inj with j. }
      constructor; [rewrite Hk'; lia|].
      rewrite Forall_forall in *. intros y Hy. specialize (Hall y Hy).
      destruct (array_index y); [lia | exact I].
    + constructor; [now rewrite Hk'|].
      rewrite Forall_forall in *. intros y Hy. now rewrite (Hall y Hy).
  - inversion Ha as [|? ? [j [Hj Hlt]] Ha']; subst.
    inversion Hord as [|? j' ? Hx Hall Hord'|? ? Hx Hin Hall Hord']; subst;
      [|congruence].
    rewrite Hj in Hx. injection Hx as <-.
    apply order_index with j;
      [assumption| |apply IH; auto; intros H; apply Hnot; now right].
    apply Forall_app. apply Forall_app in Hall. destruct Hall as [H1 H2].
    split; [assumption|]. constructor; [now rewrite Hk | assumption].
Qed.

Lemma order_set (k : jsstring) (v : json) (o : list (jsstring * json)) :
  enumeration_order (keys o) -> enumeration_order (keys (prop_set k v o)).
Proof.
  unfold keys, prop_set. intros Hord.
  destruct (has_prop k o) eqn:Hh.
  - now rewrite keys_update.
  - apply has_prop_false, prop_get_None in Hh.
    destruct (array_index k) as [i|] eqn:Hk.
    + destruct (keys_insert_index i k v o) as (a & b & H1 & H2 & H3 & H4).
      rewrite H2. rewrite H1 in Hord, Hh. now apply order_insert_index with i.
    + rewrite map_app. simpl. now apply order_append_name.
Qed.

Lemma order_delete (k : jsstring) (o : list (jsstring * json)) :
  enumeration_order (keys o) -> enumeration_order (keys (prop_delete k o)).
Proof. unfold keys. rewrite keys_delete. apply order_filter. Qed.

Lemma order_rebuilt_from (o acc : list (jsstring * json)) :
  enumeration_order (keys acc) -> enumeration_order (keys (fold_left assign o acc)).
Proof.
  revert acc. induction o as [|kv o IH]; simpl; intros acc H; [assumption|].
  apply IH. now apply order_set.
Qed.

Lemma order_rebuilt (o : list (jsstring * json)) :
  enumeration_order (keys (rebuilt o)).
Proof. apply order_rebuilt_from. constructor. Qed.

(** In enumeration order, the last key was the last one assigned. *)
Lemma prop_set_last (o : list (jsstring * json)) (k : jsstring) (v : json) :
  enumeration_order (keys (o ++ [(k, v)])) ->
  prop_set k v o = o ++ [(k, v)].
Proof.
  intros Hord. unfold prop_set.
  assert (Hnot : ~ In k (keys o)).
  { apply order_NoDup in Hord. unfold keys in *. rewrite map_app in Hord.
    simpl in Hord. apply NoDup_remove_2 in Hord. now rewrite app_nil_r in Hord. }
  apply prop_get_None, has_prop_false in Hnot. rewrite Hnot.
  destruct (array_index k) as [i|] eqn:Hk; [|reflexivity].
  clear Hnot. induction o as [|[k1 v1] o IH]; [reflexivity|].
  simpl in Hord |- *.
  inversion Hord as [|? j ? Hk1 Hall Hord'|? ? Hk1 Hin Hall Hord']; subst.
  - rewrite Hk1. rewrite Forall_forall in Hall.
    assert (Hlt : j < i).
    { specialize (Hall k). rewrite Hk in Hall. apply Hall.
      unfold keys. rewrite map_app. apply in_or_app. right. now left. }
    apply N.ltb_lt in Hlt. rewrite Hlt. f_equal. now apply IH.
  - exfalso. rewrite Forall_forall in Hall. specialize (Hall k).
    rewrite Hk in Hall. discriminate Hall.
    unfold keys. rewrite map_app. apply in_or_app. right. now left.
Qed.

Lemma rebuilt_from_ordered (o acc : list (jsstring * json)) :
  enumeration_order (keys (acc ++ o)) -> fold_left assign o acc = acc ++ o.
Proof.
  revert acc. induction o as [|[k v] o IH]; simpl; intros acc Hord.
  - now rewrite app_nil_r.
  - unfold assign at 2. cbn [fst snd].
    assert (Hacc : enumeration_order (keys (acc ++ [(k, v)]))).
    { revert Hord. unfold keys. rewrite !map_app. simpl.
      intros Hord.
      replace (map fst acc ++ k :: map fst o)
        with ((map fst acc ++ [k]) ++ map fst o) in Hord
        by (now rewrite <- app_assoc).
      clear IH. revert Hord. generalize (map fst acc ++ [k]) as l.
      generalize (map fst o) as r.
      intros r l. induction l as [|x l IHl]; simpl; intros Hord; [constructor|].
      inversion Hord as [|? j ? Hx Hall Hord'|? ? Hx Hin Hall Hord']; subst.
      - apply order_index with j; auto.
        apply Forall_app in Hall. tauto.
      - apply order_name; auto.
        + intros H. apply Hin. apply in_or_app. now left.
        + apply Forall_app in Hall. tauto. }
    rewrite (prop_set_last _ _ _ Hacc). rewrite IH.
    + now rewrite <- app_assoc.
    + now rewrite <- app_assoc.
Qed.

(** An object in enumeration order is rebuilt as it is. *)
Lemma rebuilt_ordered (o : list (jsstring * json)) :
  enumeration_order (keys o) -> rebuilt o = o.
Proof. intros H. unfold rebuilt. now rewrite rebuilt_from_ordered. Qed.

Lemma prop_get_rebuilt_from (k : jsstring) (o acc : list (jsstring * json)) :
  NoDup (keys o) ->
  prop_get k (fold_left assign o acc)
  = match prop_get k o with Some v => Some v | None => prop_get k acc end.
Proof.
  revert acc. induction o as [|[k1 v1] o IH]; simpl; intros acc Hnd;
    [reflexivity|].
  inversion Hnd as [|? ? Hin Hnd']; subst.
  rewrite IH by assumption. unfold assign. cbn [fst snd].
  rewrite prop_get_set. destruct (eqb k k1) eqn:E; [|reflexivity].
  apply eqb_eq in E. subst k1.
  apply prop_get_None in Hin. now rewrite Hin.
Qed.

(** Without a repeated key, rebuilding keeps every property. *)
Lemma prop_get_rebuilt (k : jsstring) (o : list (jsstring * json)) :
  NoDup (keys o) -> prop_get k (rebuilt o) = prop_get k o.
Proof.
  intros H. unfold rebuilt. rewrite prop_get_rebuilt_from by assumption.
  now destruct (prop_get k o).
Qed.

(** ** What [JSON.parse] returns is in enumeration order *)

Lemma parse_members_order (fuel : nat) :
  forall (acc : list (jsstring * json)) (s : jsstring)
         (props : list (jsstring * json)) (r : jsstring),
    parse_members fuel acc s = Some (props, r) ->
    enumeration_order (keys acc) -> enumeration_order (keys props).
Proof.
  induction fuel as [|fuel IH]; intros acc s props r; [discriminate|].
  cbn [parse_members].
  destruct (skip_ws s) as [|c rest]; [discriminate|].
  destruct c as [|p]; [discriminate|].
  destruct (Pos.eq_dec p 34) as [->|Hne].
  2:{ repeat (destruct p as [p|p|]; try discriminate). congruence. }
  destruct (parse_chars rest) as [[k r1]|]; [|discriminate].
  destruct (skip_ws r1) as [|c1 r2]; [discriminate|].
  destruct c1 as [|p1]; [discriminate|].
  destruct (Pos.eq_dec p1 58) as [->|Hne].
  2:{ repeat (destruct p1 as [p1|p1|]; try discriminate). congruence. }
  destruct (parse_value fuel r2) as [[v r3]|]; [|discriminate].
  destruct (skip_ws r3) as [|c3 r4]; [discriminate|].
  intros H Hord.
  assert (Hset : enumeration_order (keys (prop_set k v acc)))
    by now apply order_set.
  destruct c3 as [|p3]; [discriminate|].
  destruct (Pos.eq_dec p3 44) as [->|Hne44].
  { now apply IH in H. }
  destruct (Pos.eq_dec p3 125) as [->|Hne125].
  { injection H as <- <-. assumption. }
  exfalso. repeat (destruct p3 as [p3|p3|]; try discriminate); congruence.
Qed.

Lemma parse_value_object_order (fuel : nat) (s r : jsstring)
      (o : list (jsstring * json)) :
  parse_value fuel s = Some (JObject o, r) -> enumeration_order (keys o).
Proof.
  destruct fuel as [|fuel]; [discriminate|]. cbn [parse_value].
  destruct (skip_ws s) as [|c rest]; [discriminate|].
  destruct (c =? 123) eqn:E123.
  - destruct (skip_ws rest) as [|c1 r1] eqn:Eskip.
    + destruct (parse_members fuel [] rest) as [[props r']|] eqn:Hm;
        [|discriminate].
      intros [= <- <-]. eapply parse_members_order; [exact Hm | constructor].
    + assert (Hcase : (c1 = 125 /\ forall A (x y : A),
                          match c1 with 125 => x | _ => y end = x)
                      \/ (forall A (x y : A),
                          match c1 with 125 => x | _ => y end = y)).
      { destruct c1 as [|p]; [right; reflexivity|].
        destruct (Pos.eq_dec p 125) as [->|Hne]; [left; split; reflexivity|].
        right. intros A x y.
        repeat (destruct p as [p|p|]; try reflexivity). congruence. }
      destruct Hcase as [[-> Hc]|Hc].
      * intros [= <- <-]. constructor.
      * rewrite Hc.
        destruct (parse_members fuel [] rest) as [[props r']|] eqn:Hm;
          [|discriminate].
        intros [= <- <-]. eapply parse_members_order; [exact Hm | constructor].
  - destruct (c =? 91).
    { destruct (skip_ws rest) as [|c1 r1].
      - destruct (parse_elements fuel rest) as [[items r']|]; discriminate.
      - assert (Hcase : forall (x y : option (json * jsstring)),
                   (forall a b, x <> Some (JObject a, b)) ->
                   (forall a b, y <> Some (JObject a, b)) ->
                   forall a b,
                     match c1 with 93 => x | _ => y end <> Some (JObject a, b)).
        { intros x y Hx Hy a b.
          destruct c1 as [|p]; [apply Hy|].
          repeat (destruct p as [p|p|]; try apply Hy). apply Hx. }
        intros H. exfalso. revert H. apply Hcase.
        + discriminate.
        + intros a b. destruct (parse_elements fuel rest) as [[items r']|];
            discriminate. }
    destruct (c =? 34).
    { destruct (parse_chars rest) as [[t r']|]; discriminate. }
    destruct (starts_with (lit "true") (c :: rest)); [discriminate|].
    destruct (starts_with (lit "false") (c :: rest)); [discriminate|].
    destruct (starts_with (lit "null") (c :: rest)); [discriminate|].
    destruct (parse_number (c :: rest)) as [[token r']|]; discriminate.
Qed.

(** The object [JSON.parse] returns lists its keys in enumeration order. *)
Lemma parse_object_order (text : jsstring) (o : list (jsstring * json)) :
  parse text = Some (JObject o) -> enumeration_order (keys o).
Proof.
  unfold parse.
  destruct (parse_value (S (length text)) text) as [[v rest]|] eqn:Hv;
    [|discriminate].
  destruct (skip_ws rest); [|discriminate].
  intros [= ->]. now apply parse_value_object_order in Hv.
Qed.

(** ** The text of a table survives the UTF-8 round trip *)

Lemma passes_nil : passes [].
Proof. intros r. reflexivity. Qed.

Lemma passes_app (x y : jsstring) : passes x -> passes y -> passes (x ++ y).
Proof. intros Hx Hy r. now rewrite <- app_assoc, Hx, Hy, app_assoc. Qed.

Lemma passes_char (c : N) :
  is_high_surrogate c = false -> is_low_surrogate c = false -> passes [c].
Proof. intros H1 H2 r. simpl. now rewrite H1, H2. Qed.

Lemma passes_cons (c : N) (x : jsstring) :
  is_high_surrogate c = false -> is_low_surrogate c = false ->
  passes x -> passes (c :: x).
Proof.
  intros H1 H2 Hx. change (c :: x) with ([c] ++ x).
  apply passes_app; [now apply passes_char | assumption].
Qed.

Lemma passes_pair (c d : N) (x : jsstring) :
  is_high_surrogate c = true -> is_low_surrogate d = true ->
  passes x -> passes (c :: d :: x).
Proof. intros H1 H2 Hx r. simpl. now rewrite H1, H2, Hx. Qed.

Lemma hex_digit_ascii (n : N) :
  n < 16 ->
  is_high_surrogate (hex_digit n) = false
  /\ is_low_surrogate (hex_digit n) = false.
Proof.
  intros H. unfold hex_digit, is_high_surrogate, is_low_surrogate.
  destruct (n <? 10); split; apply andb_false_iff; left; apply N.leb_gt; lia.
Qed.

Lemma passes_unicode_escape (c : N) : passes (unicode_escape c).
Proof.
  unfold unicode_escape.
  repeat (apply passes_cons;
          [try reflexivity; apply hex_digit_ascii; apply N.mod_lt; discriminate
          |try reflexivity; apply hex_digit_ascii; apply N.mod_lt; discriminate
          |]).
  apply passes_nil.
Qed.

Lemma passes_quote_chars (s : jsstring) : passes (quote_chars s).
Proof.
  remember (length s) as n eqn:Hn.
  revert s Hn. induction n as [n IH] using lt_wf_ind. intros s Hn.
  destruct s as [|c rest]; [apply passes_nil|].
  assert (Hrest : passes (quote_chars rest))
    by (apply (IH (length rest)); [subst n; simpl; lia | reflexivity]).
  cbn [quote_chars].
  repeat match goal with
         | |- passes (if ?b then _ else _) => destruct b eqn:?
         | |- passes ([_; _] ++ _) =>
             apply passes_app;
             [apply passes_cons; [reflexivity..|];
              apply passes_cons; [reflexivity..|]; apply passes_nil
             | assumption]
         | |- passes (unicode_escape _ ++ _) =>
             apply passes_app; [apply passes_unicode_escape | assumption]
         end.
  - destruct rest as [|d rest']; [apply passes_unicode_escape|].
    destruct (is_low_surrogate d) eqn:Elo.
    + apply passes_pair; try assumption.
      apply (IH (length rest')); [subst n; simpl; lia | reflexivity].
    + apply passes_app; [apply passes_unicode_escape | assumption].
  - now apply passes_cons.
Qed.

Lemma passes_member (kv : jsstring * json) :
  is_string (snd kv) = true -> passes (member kv).
Proof.
  destruct kv as [k [| | |v| |]]; try discriminate. intros _.
  unfold member, quote. cbn [fst snd serialize]. unfold quote.
  repeat first
    [ apply passes_app
    | apply passes_quote_chars
    | apply passes_cons; [reflexivity..|]
    | apply passes_nil ].
Qed.

Lemma passes_members (o : list (jsstring * json)) :
  string_table o -> passes (join_with member_separator (map member o)).
Proof.
  induction 1 as [|kv o Hkv Ho IH]; [apply passes_nil|].
  destruct o as [|kv' o'].
  - cbn [map join_with]. now apply passes_member.
  - change (join_with member_separator (map member (kv :: kv' :: o')))
      with (member kv ++ member_separator
              ++ join_with member_separator (map member (kv' :: o'))).
    apply passes_app; [now apply passes_member|].
    apply passes_app; [|assumption].
    unfold member_separator.
    repeat (apply passes_cons; [reflexivity..|]). apply passes_nil.
Qed.

(** Writing the text of a table of strings and reading it back gives the
    same text. *)
Lemma stringify_well_formed (o : list (jsstring * json)) :
  string_table o ->
  to_well_formed (stringify (JObject o)) = stringify (JObject o).
Proof.
  intros Hst. destruct o as [|kv o]; [reflexivity|].
  rewrite stringify_object_cons.
  assert (H : passes (123 :: 10 :: 32 :: 32
                          :: join_with member_separator (map member (kv :: o))
                          ++ [10; 125])).
  { repeat (apply passes_cons; [reflexivity..|]).
    apply passes_app; [now apply passes_members|].
    repeat (apply passes_cons; [reflexivity..|]). apply passes_nil. }
  specialize (H []). now rewrite !app_nil_r in H.
Qed.

(** ** The file table *)

Lemma location_eqb_eq (p q : location) : location_eqb p q = true <-> p = q.
Proof.
  unfold location_eqb.
  destruct (list_eq_dec (list_eq_dec N.eq_dec) p q); split; congruence.
Qed.

Lemma location_eqb_refl (p : location) : location_eqb p p = true.
Proof. now apply location_eqb_eq. Qed.

Lemma location_eqb_neq (p q : location) : location_eqb p q = false <-> p <> q.
Proof.
  unfold location_eqb.
  destruct (list_eq_dec (list_eq_dec N.eq_dec) p q); split; congruence.
Qed.

Lemma lookup_overwrite (p q : location) (c : jsstring) (t : table) :
  lookup p (overwrite q c t)
  = if location_eqb p q
    then option_map (fun _ => File c) (lookup p t)
    else lookup p t.
Proof.
  induction t as [|[q1 n1] t IH]; simpl.
  - now destruct (location_eqb p q).
  - destruct (location_eqb q q1) eqn:E1; simpl.
    + apply location_eqb_eq in E1. subst q1.
      now destruct (location_eqb p q).
    + destruct (location_eqb p q1) eqn:E2; [|exact IH].
      destruct (location_eqb p q) eqn:E3; [|reflexivity].
      apply location_eqb_eq in E2, E3. subst.
      now rewrite location_eqb_refl in E1.
Qed.

Lemma lookup_app (p : location) (t t' : table) :
  lookup p (t ++ t')
  = match lookup p t with Some n => Some n | None => lookup p t' end.
Proof.
  induction t as [|[q n] t IH]; simpl; [reflexivity|].
  now destruct (location_eqb p q).
Qed.

Lemma stat_file (w : world) (p c : jsstring) (s : jsstring) (q : location) :
  Path.has_trailing_slash p = false ->
  Path.resolve (cwd w) p = s :: q ->
  lookup (s :: q) (files w) = Some (File c) ->
  stat w p = Ok (File c).
Proof. intros Hts Hq Hl. unfold stat. now rewrite Hq, Hl, Hts. Qed.

(** What a successful [store] does. *)
Lemma store_ok (p c : jsstring) (w w' : world) :
  store p c w = (Ok tt, w') ->
  cwd w' = cwd w /\ console w' = console w
  /\ stat w' p = Ok (File c)
  /\ (forall q, q <> Path.resolve (cwd w) p ->
                lookup q (files w') = lookup q (files w))
  /\ (((exists c0, lookup (Path.resolve (cwd w) p) (files w) = Some (File c0))
       /\ files w' = overwrite (Path.resolve (cwd w) p) c (files w))
      \/ (lookup (Path.resolve (cwd w) p) (files w) = None
          /\ files w' = files w ++ [(Path.resolve (cwd w) p, File c)])).
Proof.
  unfold store.
  destruct (Path.has_trailing_slash p) eqn:Hts; [discriminate|].
  destruct (Path.resolve (cwd w) p) as [|s q] eqn:Hq; [discriminate|].
  destruct (lookup (s :: q) (files w)) as [[c0|]|] eqn:Hl; [|discriminate|].
  - unfold set_files. intros [= <-]. cbn [cwd files console].
    repeat split.
    + apply stat_file with s q; cbn [cwd files]; try assumption.
      rewrite lookup_overwrite, location_eqb_refl, Hl. reflexivity.
    + intros q' Hq'. rewrite lookup_overwrite.
      apply location_eqb_neq in Hq'. now rewrite Hq'.
    + left. split; [now exists c0 | reflexivity].
  - assert (Hnew : (Ok tt, {| cwd := cwd w;
                              files := files w ++ [(s :: q, File c)];
                              console := console w;
                              glob_order := glob_order w |}) = (Ok tt, w') ->
                   cwd w' = cwd w /\ console w' = console w
                   /\ stat w' p = Ok (File c)
                   /\ (forall q0, q0 <> s :: q ->
                                  lookup q0 (files w') = lookup q0 (files w))
                   /\ (((exists c0, @None node = Some (File c0))
                        /\ files w' = overwrite (s :: q) c (files w))
                       \/ @None node = None
                          /\ files w' = files w ++ [(s :: q, File c)])).
    { intros [= <-]. cbn [cwd files console]. repeat split.
      - apply stat_file with s q; cbn [cwd files]; try assumption.
        rewrite lookup_app, Hl. simpl. now rewrite location_eqb_refl.
      - intros q' Hq'. rewrite lookup_app. simpl.
        apply location_eqb_neq in Hq'. rewrite Hq'.
        now destruct (lookup q' (files w)).
      - right. split; reflexivity. }
    unfold set_files.
    destruct (parent (s :: q)) as [|s1 q1]; [exact Hnew|].
    destruct (lookup (s1 :: q1) (files w)) as [[c1|]|]; try discriminate.
    exact Hnew.
Qed.

(** ** Saving and loading the mapping *)

Lemma string_table_as_object (t : list (jsstring * jsstring)) :
  string_table (map (fun kv => (fst kv, JString (snd kv))) t).
Proof.
  unfold string_table. rewrite Forall_forall. intros kv Hin.
  apply in_map_iff in Hin. destruct Hin as [[k v] [<- _]]. reflexivity.
Qed.

Lemma prop_get_as_object (k : jsstring) (t : list (jsstring * jsstring)) :
  prop_get k (map (fun kv => (fst kv, JString (snd kv))) t)
  = option_map JString (prop_get k t).
Proof.
  induction t as [|[k1 v1] t IH]; simpl; [reflexivity|].
  destruct (eqb k k1); [reflexivity | exact IH].
Qed.

(** Loading what [saveMapping] stored, for a table of strings. *)
Lemma load_after_save (o : list (jsstring * json)) (w w' : world) :
  string_table o ->
  SyncWebResources.saveMapping (JObject o) w = (Ok tt, w') ->
  SyncWebResources.loadMapping w' = (Ok (JObject (rebuilt o)), w')
  /\ NewWebResource.loadMapping w' = (Ok (JObject (rebuilt o)), w')
  /\ stat w' CONFIG_FILE = Ok (File (stringify (JObject o)))
  /\ cwd w' = cwd w /\ console w' = console w.
Proof.
  intros Hst Hsave. unfold SyncWebResources.saveMapping, writeFileSync in Hsave.
  rewrite (stringify_well_formed Hst) in Hsave.
  destruct (store_ok _ _ _ Hsave) as (Hcwd & Hcon & Hstat & _ & _).
  pose proof (loadMapping_cases w') as Hload.
  rewrite Hstat, (parse_stringify_string_table Hst) in Hload.
  destruct Hload as [H1 H2]. auto.
Qed.

(** C3.  Save a mapping table (distinct keys, string values) and load it
    again: the loaded object has the same keys, each with the same value;
    if the table was in enumeration order, the loaded object is the very
    same object. *)
Theorem save_then_load_mapping
        (t : list (jsstring * jsstring)) (w w' : world) :
  NoDup (map fst t) ->
  SyncWebResources.saveMapping (as_object t) w = (Ok tt, w') ->
  exists o,
    SyncWebResources.loadMapping w' = (Ok (JObject o), w')
    /\ (forall k, prop_get k o = option_map JString (prop_get k t))
    /\ (forall k, In k (keys o) <-> In k (map fst t))
    /\ (enumeration_order (map fst t) -> JObject o = as_object t).
Proof.
  intros Hnd Hsave. unfold as_object in *.
  set (o := map (fun kv => (fst kv, JString (snd kv))) t) in *.
  assert (Hkeys : keys o = map fst t).
  { unfold keys, o. rewrite map_map. reflexivity. }
  destruct (@load_after_save o w w' (string_table_as_object t) Hsave)
    as (Hload & _).
  exists (rebuilt o). split; [exact Hload|].
  assert (Hget : forall k, prop_get k (rebuilt o)
                           = option_map JString (prop_get k t)).
  { intros k. rewrite prop_get_rebuilt by (now rewrite Hkeys).
    apply prop_get_as_object. }
  split; [exact Hget|]. split.
  - intros k. unfold keys. rewrite <- !prop_get_In, Hget.
    destruct (prop_get k t); simpl; split; congruence.
  - intros Hord. rewrite rebuilt_ordered; [reflexivity | now rewrite Hkeys].
Qed.

Lemma save_then_load_mapping_witness :
  let w := Examples.world_of Examples.skeleton in
  let w' := snd (SyncWebResources.saveMapping
                   (as_object Examples.readme_table) w) in
  exists o,
    SyncWebResources.loadMapping w' = (Ok (JObject o), w')
    /\ (forall k, prop_get k o
                  = option_map JString (prop_get k Examples.readme_table))
    /\ (forall k, In k (keys o) <-> In k (map fst Examples.readme_table))
    /\ (enumeration_order (map fst Examples.readme_table) ->
        JObject o = as_object Examples.readme_table).
Proof.
  intros w w'.
  apply (@save_then_load_mapping Examples.readme_table w w').
  - repeat constructor; simpl; intuition discriminate.
  - vm_compute. reflexivity.
Defined.

(** ** Paths *)

Section PathLemmas.
Import Path.

Lemma kept_spec (s : jsstring) :
  kept s = true ->
  eqb s [] = false /\ eqb s dot = false /\ eqb s dotdot = false.
Proof.
  unfold kept. intros H.
  repeat (apply andb_true_iff in H; destruct H as [H ?]).
  repeat split; now apply negb_true_iff.
Qed.

Lemma step_kept (a : bool) (acc : list jsstring) (s : jsstring) :
  kept s = true -> step a acc s = s :: acc.
Proof.
  intros H. destruct (kept_spec _ H) as (H1 & H2 & H3).
  unfold step. now rewrite H1, H2, H3.
Qed.

Lemma step_cases (a : bool) (acc : list jsstring) (s : jsstring) :
  (eqb s [] || eqb s dot = true /\ step a acc s = acc)
  \/ (s = dotdot /\ eqb s [] || eqb s dot = false)
  \/ kept s = true.
Proof.
  unfold step, kept.
  destruct (eqb s [] || eqb s dot) eqn:E1; [now left|].
  apply orb_false_iff in E1. destruct E1 as [E1 E2].
  destruct (eqb s dotdot) eqn:E3.
  - right; left. apply eqb_eq in E3. split; [assumption | reflexivity].
  - right; right. now rewrite E1, E2.
Qed.

Lemma walk_app (a : bool) (x y acc : list jsstring) :
  walk a acc (x ++ y) = walk a (walk a acc x) y.
Proof. revert acc. induction x as [|s x IH]; intros acc; simpl; auto. Qed.

Lemma walk_kept (a : bool) (x acc : list jsstring) :
  forallb kept x = true -> walk a acc x = rev x ++ acc.
Proof.
  revert acc. induction x as [|s x IH]; intros acc H; simpl; [reflexivity|].
  simpl in H. apply andb_true_iff in H. destruct H as [Hs Hx].
  rewrite step_kept, IH by assumption. now rewrite <- app_assoc.
Qed.

Lemma step_dotdot_kept (a : bool) (acc : list jsstring) (l : jsstring) :
  kept l = true -> step a (l :: acc) dotdot = acc.
Proof.
  intros H. destruct (kept_spec _ H) as (_ & _ & H3).
  unfold step. change (eqb dotdot [] || eqb dotdot dot) with false.
  change (eqb dotdot dotdot) with true. cbv iota. now rewrite H3.
Qed.

(** What [walk] keeps is ".." or a kept segment. *)
Lemma step_stack (a : bool) (acc : list jsstring) (s : jsstring) :
  Forall (fun x => x = dotdot \/ kept x = true) acc ->
  Forall (fun x => x = dotdot \/ kept x = true) (step a acc s).
Proof.
  intros H. destruct (step_cases a acc s) as [[_ ->]|[[-> _]|Hk]].
  - assumption.
  - unfold step. change (eqb dotdot [] || eqb dotdot dot) with false.
    change (eqb dotdot dotdot) with true. cbv iota.
    destruct acc as [|l acc'].
    + destruct a; repeat constructor.
    + destruct (eqb l dotdot).
      * constructor; [now left | assumption].
      * now inversion H.
  - rewrite step_kept by assumption. constructor; [now right | assumption].
Qed.

Lemma walk_stack (a : bool) (segs acc : list jsstring) :
  Forall (fun x => x = dotdot \/ kept x = true) acc ->
  Forall (fun x => x = dotdot \/ kept x = true) (walk a acc segs).
Proof.
  revert acc. induction segs as [|s segs IH]; intros acc H; simpl;
    [assumption|]. apply IH. now apply step_stack.
Qed.

(** Replaying the segments that a walk kept leads to the place the walk
    itself leads to. *)
Lemma replay_step (a : bool) (A St : list jsstring) (s : jsstring) :
  a = true \/ A = [] ->
  Forall (fun x => x = dotdot \/ kept x = true) St ->
  walk false A (rev (step a St s)) = step false (walk false A (rev St)) s.
Proof.
  intros Ha HSt. destruct (step_cases a St s) as [[Hskip Hs]|[[-> _]|Hk]].
  - rewrite Hs. unfold step. now rewrite Hskip.
  - destruct St as [|l St'].
    + destruct Ha as [-> | ->]; [|destruct a]; reflexivity.
    + inversion HSt as [|? ? [-> | Hl] HSt']; subst.
      * change (step a (dotdot :: St') dotdot) with (dotdot :: dotdot :: St').
        change (rev (dotdot :: dotdot :: St'))
          with (rev (dotdot :: St') ++ [dotdot]).
        now rewrite walk_app.
      * rewrite step_dotdot_kept by assumption.
        simpl rev. rewrite walk_app. simpl.
        rewrite (@step_kept false (walk false A (rev St')) l Hl).
        now rewrite step_dotdot_kept.
  - rewrite !step_kept by assumption. simpl. rewrite walk_app. simpl.
    now rewrite step_kept.
Qed.

Lemma replay (a : bool) (segs A St : list jsstring) :
  a = true \/ A = [] ->
  Forall (fun x => x = dotdot \/ kept x = true) St ->
  walk false A (rev (walk a St segs)) = walk false (walk false A (rev St)) segs.
Proof.
  intros Ha. revert St. induction segs as [|s rest IH]; intros St HSt; simpl.
  - reflexivity.
  - rewrite IH by now apply step_stack. now rewrite replay_step.
Qed.

Lemma replay_normalized (a : bool) (segs A : list jsstring) :
  a = true \/ A = [] ->
  walk false A (normalize_segments a segs) = walk false A segs.
Proof.
  intros Ha. unfold normalize_segments. now rewrite replay by auto.
Qed.

Lemma split_on_nonempty (sep : N) (s : jsstring) : split_on sep s <> [].
Proof.
  destruct s as [|c s]; simpl; [discriminate|].
  destruct (c =? sep); [discriminate|].
  destruct (split_on sep s); discriminate.
Qed.

Lemma split_on_app (sep : N) (x y : jsstring) :
  split_on sep (x ++ sep :: y) = split_on sep x ++ split_on sep y.
Proof.
  induction x as [|c x IH]; simpl.
  - now rewrite N.eqb_refl.
  - destruct (c =? sep); [now rewrite IH|].
    rewrite IH. pose proof (split_on_nonempty sep x) as Hne.
    destruct (split_on sep x); [congruence | reflexivity].
Qed.

Lemma split_on_no_sep (s : jsstring) :
  slash_free s = true -> split_on slash s = [s].
Proof.
  unfold slash_free. induction s as [|c s IH]; simpl; [reflexivity|].
  intros H. apply andb_true_iff in H. destruct H as [Hc Hs].
  apply negb_true_iff in Hc. rewrite Hc, (IH Hs). reflexivity.
Qed.

Lemma split_on_slash_free (s : jsstring) :
  forallb slash_free (split_on slash s) = true.
Proof.
  induction s as [|c s IH]; simpl; [reflexivity|].
  destruct (c =? slash) eqn:E; [simpl; exact IH|].
  destruct (split_on slash s) as [|w ws]; simpl in *.
  - now rewrite E.
  - unfold slash_free at 1. simpl. rewrite E. exact IH.
Qed.

Lemma split_join (L : list jsstring) :
  L <> [] -> forallb slash_free L = true ->
  split_on slash (join_with [slash] L) = L.
Proof.
  induction L as [|w L IH]; [congruence|]. intros _ H.
  simpl in H. apply andb_true_iff in H. destruct H as [Hw HL].
  destruct L as [|w2 L'].
  - simpl. now apply split_on_no_sep.
  - change (join_with [slash] (w :: w2 :: L'))
      with (w ++ slash :: join_with [slash] (w2 :: L')).
    rewrite split_on_app, split_on_no_sep by assumption.
    rewrite IH; [reflexivity | discriminate | assumption].
Qed.

Lemma walk_skipped_front (a : bool) (pre x acc : list jsstring) :
  forallb skipped pre = true -> walk a acc (pre ++ x) = walk a acc x.
Proof.
  revert acc. induction pre as [|s pre IH]; intros acc H; simpl; [reflexivity|].
  simpl in H. apply andb_true_iff in H. destruct H as [Hs Hpre].
  unfold step. unfold skipped in Hs. rewrite Hs. now apply IH.
Qed.

Lemma walk_skipped_back (a : bool) (post x acc : list jsstring) :
  forallb skipped post = true -> walk a acc (x ++ post) = walk a acc x.
Proof.
  intros H. rewrite walk_app.
  rewrite <- (app_nil_r post), walk_skipped_front by assumption. reflexivity.
Qed.

Lemma step_slash_free (a : bool) (acc : list jsstring) (s : jsstring) :
  slash_free s = true -> forallb slash_free acc = true ->
  forallb slash_free (step a acc s) = true.
Proof.
  intros Hs Hacc. unfold step.
  destruct (eqb s [] || eqb s dot); [assumption|].
  destruct (eqb s dotdot).
  - destruct acc as [|l acc']; [now destruct a|].
    simpl in Hacc. apply andb_true_iff in Hacc. destruct Hacc as [Hl Hacc'].
    destruct (eqb l dotdot); [|assumption].
    simpl. now rewrite Hl, Hacc'.
  - simpl. now rewrite Hs, Hacc.
Qed.

Lemma walk_slash_free (a : bool) (segs acc : list jsstring) :
  forallb slash_free segs = true -> forallb slash_free acc = true ->
  forallb slash_free (walk a acc segs) = true.
Proof.
  revert acc. induction segs as [|s segs IH]; intros acc Hs Hacc; simpl;
    [assumption|].
  simpl in Hs. apply andb_true_iff in Hs. destruct Hs as [Hs Hsegs].
  apply IH; [assumption | now apply step_slash_free].
Qed.

Lemma normalize_segments_slash_free (a : bool) (p : jsstring) :
  forallb slash_free (normalize_segments a (split_on slash p)) = true.
Proof.
  unfold normalize_segments. rewrite forallb_forall. intros x Hx.
  apply in_rev in Hx.
  pose proof (walk_slash_free a (split_on slash p) [] (split_on_slash_free p)
                eq_refl) as H.
  rewrite forallb_forall in H. now apply H.
Qed.

Lemma normalize_segments_nonempty (a : bool) (segs : list jsstring) :
  Forall (fun x => x <> []) (normalize_segments a segs).
Proof.
  unfold normalize_segments. apply Forall_rev.
  pose proof (@walk_stack a segs [] (Forall_nil _)) as H.
  eapply Forall_impl; [|exact H]. intros x [-> | Hk]; [discriminate|].
  destruct (kept_spec _ Hk) as (H1 & _). now apply eqb_neq.
Qed.

Lemma join_with_head (c : N) (w' : jsstring) (L : list jsstring) :
  exists r, join_with [slash] ((c :: w') :: L) = c :: r.
Proof. destruct L; simpl; eauto. Qed.

(** The segments of a normalized path: those [normalizeString] kept,
    between segments that a later walk skips. *)
Lemma normalize_segments_of (p : jsstring) :
  exists pre post,
    split_on slash (normalize p)
    = pre ++ normalize_segments (negb (is_absolute p)) (split_on slash p)
          ++ post
    /\ forallb skipped pre = true /\ forallb skipped post = true
    /\ is_absolute (normalize p) = is_absolute p.
Proof.
  destruct p as [|c0 p0].
  - exists [dot], []. repeat split.
  - unfold normalize. cbv zeta.
    set (p := c0 :: p0).
    set (L := normalize_segments (negb (is_absolute p)) (split_on slash p)).
    pose proof (normalize_segments_slash_free (negb (is_absolute p)) p) as Hsf.
    pose proof (normalize_segments_nonempty (negb (is_absolute p))
                  (split_on slash p)) as Hne.
    fold L in Hsf, Hne.
    destruct L as [|w L'] eqn:HL.
    + simpl join_with. cbv iota.
      destruct (is_absolute p); [|destruct (has_trailing_slash p)].
      * exists [[]; []], []. repeat split.
      * exists [dot; []], []. repeat split.
      * exists [dot], []. repeat split.
    + inversion Hne as [|? ? Hw _]; subst.
      destruct w as [|c w']; [congruence|].
      destruct (join_with_head c w' L') as [r Hr].
      assert (Hc : (c =? slash) = false).
      { simpl in Hsf. apply andb_true_iff in Hsf. destruct Hsf as [Hsf _].
        unfold slash_free in Hsf. simpl in Hsf.
        apply andb_true_iff in Hsf. destruct Hsf as [Hsf _].
        now apply negb_true_iff. }
      assert (Hsplit : split_on slash (join_with [slash] ((c :: w') :: L'))
                       = (c :: w') :: L')
        by (apply split_join; [discriminate | assumption]).
      rewrite Hr in Hsplit.
      destruct (is_absolute p) eqn:Habs; destruct (has_trailing_slash p).
      * exists [[]], [[]]. rewrite Hr. cbv iota. repeat split.
        change ([slash] ++ (c :: r) ++ [slash])
          with (slash :: ((c :: r) ++ slash :: [])).
        cbn [split_on]. unfold slash at 1. rewrite N.eqb_refl.
        now rewrite split_on_app, Hsplit.
      * exists [[]], []. rewrite Hr. cbv iota. repeat split.
        change ([slash] ++ (c :: r) ++ []) with (slash :: ((c :: r) ++ [])).
        cbn [split_on]. unfold slash at 1. rewrite N.eqb_refl.
        now rewrite !app_nil_r, Hsplit.
      * exists [], [[]]. rewrite Hr. cbv iota. repeat split.
        -- change ([] ++ (c :: r) ++ [slash]) with ((c :: r) ++ slash :: []).
           now rewrite split_on_app, Hsplit.
        -- simpl. exact Hc.
      * exists [], []. rewrite Hr. cbv iota. repeat split.
        -- change ([] ++ (c :: r) ++ []) with ((c :: r) ++ []).
           now rewrite !app_nil_r, Hsplit.
        -- simpl. exact Hc.
Qed.

(** A path and its normal form name the same place. *)
Lemma resolve_normalize (cwd : list jsstring) (p : jsstring) :
  resolve cwd (normalize p) = resolve cwd p.
Proof.
  destruct (normalize_segments_of p) as (pre & post & Hsplit & Hpre & Hpost & Habs).
  unfold resolve. rewrite Habs, Hsplit.
  set (base := if is_absolute p then [] else cwd).
  set (L := normalize_segments (negb (is_absolute p)) (split_on slash p)).
  change (rev (walk false [] (base ++ pre ++ L ++ post))
          = rev (walk false [] (base ++ split_on slash p))).
  f_equal.
  rewrite (walk_app false base (pre ++ L ++ post)).
  rewrite (walk_app false base (split_on slash p)).
  rewrite walk_skipped_front by assumption.
  rewrite walk_skipped_back by assumption.
  apply replay_normalized.
  unfold base. destruct (is_absolute p); [right; reflexivity | now left].
Qed.

(** Resolving a name below a directory. *)
Lemma resolve_join_child (cwd : list jsstring) (d f : jsstring) :
  valid_name f = true ->
  resolve cwd (join [d; f]) = resolve cwd d ++ [f].
Proof.
  intros Hf. unfold valid_name in Hf. apply andb_true_iff in Hf.
  destruct Hf as [Hk Hsf]. destruct (kept_spec _ Hk) as (Hne & _).
  unfold join. cbn [filter]. rewrite Hne. cbn [negb].
  destruct (eqb d []) eqn:Hd; cbn [negb].
  - apply eqb_eq in Hd. subst d. cbn [join_with].
    rewrite resolve_normalize. unfold resolve.
    assert (Hrel : is_absolute f = false).
    { destruct f as [|c f']; [reflexivity|]. unfold slash_free in Hsf.
      simpl in Hsf |- *. apply andb_true_iff in Hsf. destruct Hsf as [Hc _].
      now apply negb_true_iff. }
    rewrite Hrel. cbn [is_absolute split_on].
    rewrite (split_on_no_sep _ Hsf). unfold normalize_segments.
    rewrite !walk_app. simpl walk at 1 3.
    rewrite step_kept by assumption.
    change (step false (walk false [] cwd) []) with (walk false [] cwd).
    reflexivity.
  - cbn [join_with]. rewrite resolve_normalize. unfold resolve.
    apply eqb_neq in Hd.
    replace (is_absolute (d ++ [slash] ++ f)) with (is_absolute d)
      by (destruct d; [congruence | reflexivity]).
    change (d ++ [slash] ++ f) with (d ++ slash :: f).
    rewrite split_on_app, (split_on_no_sep _ Hsf).
    unfold normalize_segments. rewrite app_assoc, walk_app. simpl walk at 1.
    now rewrite step_kept by assumption.
Qed.

End PathLemmas.

(** ** Shape of the file table *)

Lemma shape_paths (t t' : table) :
  shape t = shape t' -> map fst t = map fst t'.
Proof.
  unfold shape. intros H.
  apply (f_equal (map fst)) in H. now rewrite !map_map in H.
Qed.

Lemma lookup_shape (p : location) (t t' : table) :
  shape t = shape t' ->
  option_map is_dir (lookup p t) = option_map is_dir (lookup p t').
Proof.
  revert t'. induction t as [|[q n] t IH]; intros [|[q' n'] t'] H;
    try discriminate; [reflexivity|].
  simpl in H. injection H as Hq Hn Ht. subst q'. simpl.
  destruct (location_eqb p q); [simpl; now rewrite Hn | now apply IH].
Qed.

Lemma children_paths (d : location) (t t' : table) :
  map fst t = map fst t' -> children d t = children d t'.
Proof.
  revert t'. induction t as [|[q n] t IH]; intros [|[q' n'] t'] H;
    try discriminate; [reflexivity|].
  simpl in H. injection H as Hq Ht. subst q'. simpl.
  rewrite (IH _ Ht). reflexivity.
Qed.

Lemma glob_entries_paths (root : location) (shown : jsstring) (t t' : table) :
  map fst t = map fst t' -> glob_entries root shown t = glob_entries root shown t'.
Proof.
  revert t'. induction t as [|[q n] t IH]; intros [|[q' n'] t'] H;
    try discriminate; [reflexivity|].
  simpl in H. injection H as Hq Ht. subst q'. simpl.
  rewrite (IH _ Ht). reflexivity.
Qed.

Lemma shape_overwrite (q : location) (c c0 : jsstring) (t : table) :
  lookup q t = Some (File c0) -> shape (overwrite q c t) = shape t.
Proof.
  induction t as [|[q1 n1] t IH]; simpl; [reflexivity|].
  destruct (location_eqb q q1) eqn:E; simpl.
  - intros [= ->]. reflexivity.
  - intros H. now rewrite IH.
Qed.

Lemma valid_names_shape (t t' : table) :
  shape t = shape t' -> valid_names t = valid_names t'.
Proof.
  intros H. apply shape_paths in H. unfold valid_names.
  revert t' H. induction t as [|[q n] t IH]; intros [|[q' n'] t'] H;
    try discriminate; [reflexivity|].
  simpl in H. injection H as Hq Ht. subst q'. simpl. now rewrite (IH _ Ht).
Qed.

(** The names of a listing are names of listed entries. *)
Lemma children_lookup (d : location) (f : jsstring) (t : table) :
  In f (children d t) -> exists n, lookup (d ++ [f]) t = Some n.
Proof.
  induction t as [|[q n] t IH]; simpl; [tauto|].
  destruct (location_eqb (d ++ [f]) q) eqn:E; [eauto|].
  unfold child_name.
  destruct (rev q) as [|name par] eqn:Hq; [exact IH|].
  destruct (location_eqb (rev par) d) eqn:Ed; [|exact IH].
  intros [<- | Hin]; [|now apply IH].
  exfalso. apply location_eqb_eq in Ed. apply location_eqb_neq in E.
  apply E. subst d. rewrite <- (rev_involutive q), Hq. reflexivity.
Qed.

Lemma children_valid (d : location) (f : jsstring) (t : table) :
  valid_names t = true -> In f (children d t) -> Path.valid_name f = true.
Proof.
  unfold valid_names. induction t as [|[q n] t IH]; simpl; [tauto|].
  intros H. apply andb_true_iff in H. destruct H as [Hq Ht].
  unfold child_name.
  destruct (rev q) as [|name par] eqn:Hrev; [now apply IH|].
  destruct (location_eqb (rev par) d); [|now apply IH].
  intros [<- | Hin]; [|now apply IH].
  rewrite forallb_forall in Hq. apply Hq.
  apply in_rev. rewrite Hrev. now left.
Qed.

(** ** The primitives leave the world as they say *)

Lemma existsSync_eq (p : jsstring) (w : world) :
  existsSync p w
  = (Ok (match stat w p with Ok _ => true | Throw _ => false end), w).
Proof. reflexivity. Qed.

Lemma readdirSync_world (p : jsstring) (w w' : world) (r : outcome (list jsstring)) :
  readdirSync p w = (r, w') -> w' = w.
Proof.
  unfold readdirSync. destruct (stat w p) as [[c|]|e]; now intros [= _ <-].
Qed.

Lemma readdirSync_ok (p : jsstring) (w w' : world) (names : list jsstring) :
  readdirSync p w = (Ok names, w') ->
  stat w p = Ok Dir
  /\ names = children (Path.resolve (cwd w) p) (files w).
Proof.
  unfold readdirSync. destruct (stat w p) as [[c|]|e]; try discriminate.
  intros [= <- _]. split; reflexivity.
Qed.

(** *** Removing an entry *)

Lemma lookup_unlink (p q : location) (t : table) :
  lookup p (unlink q t) = if location_eqb p q then None else lookup p t.
Proof.
  unfold unlink. induction t as [|[q1 n1] t IH]; simpl.
  - now destruct (location_eqb p q).
  - destruct (location_eqb q q1) eqn:E; simpl.
    + apply location_eqb_eq in E. subst q1. rewrite IH.
      now destruct (location_eqb p q).
    + rewrite IH. destruct (location_eqb p q1) eqn:E1; [|reflexivity].
      apply location_eqb_eq in E1. subst q1.
      destruct (location_eqb p q) eqn:E2; [|reflexivity].
      apply location_eqb_eq in E2. subst q.
      rewrite location_eqb_refl in E. discriminate.
Qed.

Lemma shape_unlink (q : location) (t : table) :
  shape (unlink q t)
  = filter (fun e => negb (location_eqb q (fst e))) (shape t).
Proof.
  unfold unlink, shape. induction t as [|[q1 n1] t IH]; simpl; [reflexivity|].
  destruct (location_eqb q q1); simpl; now rewrite IH.
Qed.

Lemma valid_names_unlink (q : location) (t : table) :
  valid_names t = true -> valid_names (unlink q t) = true.
Proof.
  unfold valid_names, unlink. rewrite !forallb_forall.
  intros H e He. apply filter_In in He. now apply H.
Qed.

Lemma unlink_overwrite (q : location) (c : jsstring) (t : table) :
  unlink q (overwrite q c t) = unlink q t.
Proof.
  unfold unlink. induction t as [|[q1 n1] t IH]; simpl; [reflexivity|].
  destruct (location_eqb q q1) eqn:E; simpl; rewrite E; simpl;
    [reflexivity | now rewrite IH].
Qed.

Lemma unlink_app (q : location) (n : node) (t : table) :
  unlink q (t ++ [(q, n)]) = unlink q t.
Proof.
  unfold unlink. rewrite filter_app. simpl.
  rewrite location_eqb_refl. simpl. apply app_nil_r.
Qed.

(** The listing of a directory that does not hold the removed entry. *)
Lemma children_unlink (d q : location) (t : table) :
  child_name d q = None -> children d (unlink q t) = children d t.
Proof.
  intros Hd. unfold unlink. induction t as [|[q1 n1] t IH]; simpl;
    [reflexivity|].
  destruct (location_eqb q q1) eqn:E; simpl.
  - apply location_eqb_eq in E. subst q1. now rewrite Hd.
  - now rewrite IH.
Qed.

Lemma children_overwrite (d q : location) (c : jsstring) (t : table) :
  children d (overwrite q c t) = children d t.
Proof.
  induction t as [|[q1 n1] t IH]; simpl; [reflexivity|].
  destruct (location_eqb q q1); simpl; [reflexivity | now rewrite IH].
Qed.

Lemma valid_names_overwrite (q : location) (c : jsstring) (t : table) :
  valid_names t = true -> valid_names (overwrite q c t) = true.
Proof.
  unfold valid_names. induction t as [|[q1 n1] t IH]; simpl; [reflexivity|].
  intros H. apply andb_true_iff in H. destruct H as [H1 H2].
  destruct (location_eqb q q1); simpl; rewrite H1; [exact H2 | now apply IH].
Qed.

(** *** [store] and [copyFileSync] *)

Lemma store_throw (p c : jsstring) (w w' : world) (e : exn) :
  store p c w = (Throw e, w') -> w' = w.
Proof.
  unfold store. destruct (Path.has_trailing_slash p); [now intros [= _ <-]|].
  destruct (Path.resolve (cwd w) p) as [|s q]; [now intros [= _ <-]|].
  destruct (lookup (s :: q) (files w)) as [[c0|]|];
    try (now intros [= _ <-]); try discriminate.
  destruct (parent (s :: q)) as [|s1 q1]; [discriminate|].
  destruct (lookup (s1 :: q1) (files w)) as [[c1|]|];
    try (now intros [= _ <-]); discriminate.
Qed.

Lemma store_glob_order (p c : jsstring) (w w' : world) (r : outcome unit) :
  store p c w = (r, w') -> glob_order w' = glob_order w.
Proof.
  unfold store, set_files.
  destruct (Path.has_trailing_slash p); [now intros [= _ <-]|].
  destruct (Path.resolve (cwd w) p) as [|s q]; [now intros [= _ <-]|].
  destruct (lookup (s :: q) (files w)) as [[c0|]|];
    try (now intros [= _ <-]).
  destruct (parent (s :: q)) as [|s1 q1]; [now intros [= _ <-]|].
  destruct (lookup (s1 :: q1) (files w)) as [[c1|]|]; now intros [= _ <-].
Qed.

(** Whether [store] succeeds does not depend on the content. *)
Lemma store_any_content (p c c' : jsstring) (w w1 : world) :
  store p c w = (Ok tt, w1) -> exists w2, store p c' w = (Ok tt, w2).
Proof.
  unfold store, set_files.
  destruct (Path.has_trailing_slash p); [discriminate|].
  destruct (Path.resolve (cwd w) p) as [|s q]; [discriminate|].
  destruct (lookup (s :: q) (files w)) as [[c0|]|]; try discriminate;
    [eauto|].
  destruct (parent (s :: q)) as [|s1 q1]; [eauto|].
  destruct (lookup (s1 :: q1) (files w)) as [[c1|]|]; try discriminate; eauto.
Qed.

(** A copy from a regular file stores its content. *)
Lemma copyFileSync_file (src dest c : jsstring) (w : world) :
  stat w src = Ok (File c) -> copyFileSync src dest w = store dest c w.
Proof. intros H. unfold copyFileSync. now rewrite H. Qed.

(** A copy from a directory fails; when the destination could be opened,
    it is gone afterwards. *)
Lemma copyFileSync_directory (src dest : jsstring) (w w' : world)
      (r : outcome unit) :
  stat w src = Ok Dir ->
  copyFileSync src dest w = (r, w') ->
  cwd w' = cwd w /\ console w' = console w /\ glob_order w' = glob_order w
  /\ ((exists e, r = Throw e /\ store dest [] w = (Throw e, w) /\ w' = w)
      \/ (r = Throw EISDIR
          /\ (exists w1, store dest [] w = (Ok tt, w1))
          /\ files w' = unlink (Path.resolve (cwd w) dest) (files w))).
Proof.
  intros Hsrc. unfold copyFileSync. rewrite Hsrc.
  unfold bind, unlinkSync, set_files, throw.
  destruct (store dest [] w) as [[[]|e] w1] eqn:Hstore.
  - intros [= <- <-]. cbn [cwd console glob_order files].
    destruct (@store_ok _ _ _ _ Hstore) as (Hcwd & Hcon & _ & _ & Hfiles).
    rewrite (@store_glob_order _ _ _ _ _ Hstore).
    repeat (split; [assumption || reflexivity|]).
    right. split; [reflexivity|]. split; [now exists w1|]. rewrite Hcwd.
    destruct Hfiles as [[_ ->] | [_ ->]];
      [apply unlink_overwrite | apply unlink_app].
  - pose proof (@store_throw _ _ _ _ _ Hstore) as ->.
    intros [= <- <-]. repeat (split; [reflexivity|]).
    left. exists e. repeat split; assumption.
Qed.

(** A copy that fails has changed nothing, or it was a copy from a
    directory and has removed its destination. *)
Lemma copyFileSync_fails (src dest : jsstring) (w w' : world) (e : exn) :
  copyFileSync src dest w = (Throw e, w') ->
  cwd w' = cwd w /\ console w' = console w /\ glob_order w' = glob_order w
  /\ (w' = w
      \/ (e = EISDIR /\ stat w src = Ok Dir
          /\ (exists w1, store dest [] w = (Ok tt, w1))
          /\ files w' = unlink (Path.resolve (cwd w) dest) (files w))).
Proof.
  destruct (stat w src) as [[c|]|e0] eqn:Hsrc.
  - rewrite (@copyFileSync_file _ _ _ _ Hsrc). intros H.
    apply store_throw in H. subst w'. repeat (split; [reflexivity|]).
    now left.
  - intros H.
    destruct (@copyFileSync_directory _ _ _ _ _ Hsrc H)
      as (Hc & Hk & Hg & [(e1 & _ & _ & ->) | (He & Hopen & Hfiles)]).
    + repeat (split; [reflexivity|]). now left.
    + repeat (split; [assumption|]). right. injection He as ->.
      repeat split; assumption.
  - unfold copyFileSync. rewrite Hsrc. intros [= _ <-].
    repeat (split; [reflexivity|]). now left.
Qed.

Lemma copyFileSync_ok (src dest : jsstring) (w w' : world) (u : unit) :
  copyFileSync src dest w = (Ok u, w') ->
  exists c, stat w src = Ok (File c) /\ store dest c w = (Ok tt, w').
Proof.
  destruct (stat w src) as [[c|]|e0] eqn:Hsrc.
  - rewrite (@copyFileSync_file _ _ _ _ Hsrc). intros H. exists c.
    split; [reflexivity|]. now destruct u.
  - intros H.
    destruct (@copyFileSync_directory _ _ _ _ _ Hsrc H)
      as (_ & _ & _ & [(e1 & He & _) | (He & _)]); discriminate.
  - unfold copyFileSync. rewrite Hsrc. discriminate.
Qed.

(** ** One file *)

Import SyncWebResources.

(** [syncFile], by the outcome of its file-system calls. *)
Lemma syncFile_eq (sourceFile targetDir : jsstring) (mapping : json) (w : world) :
  syncFile sourceFile targetDir mapping w
  = match readdirSync targetDir w with
    | (Throw e, _) => (Throw e, w)
    | (Ok names, _) =>
        match filter (ends_with (lit ".js")) names with
        | [] => (Ok (false, mapping), printed w [No_js_files_found targetDir])
        | first :: _ =>
            let targetFile := Path.join [targetDir; first] in
            match copyFileSync sourceFile targetFile w with
            | (Throw e, w1) =>
                (Ok (false, mapping),
                 printed w1 [Failed_to_sync (Path.basename sourceFile) e])
            | (Ok _, w1) =>
                match mapping with
                | JObject o =>
                    (Ok (true,
                         JObject (prop_set (tsFileName_of (cwd w) sourceFile)
                                           (JString (Path.basename targetDir)) o)),
                     printed w1 [Synced (Path.basename sourceFile)
                                        (Path.basename targetFile)])
                | _ =>
                    (Ok (false, mapping),
                     printed w1 [Failed_to_sync (Path.basename sourceFile)
                                                TypeError])
                end
            end
        end
    end.
Proof.
  unfold syncFile, bind, get_world.
  destruct (readdirSync targetDir w) as [[names|e] w0] eqn:Hdir.
  - apply readdirSync_world in Hdir. subst w0.
    destruct (filter (ends_with (lit ".js")) names) as [|first rest];
      [reflexivity|].
    unfold try_catch, bind.
    destruct (copyFileSync sourceFile (Path.join [targetDir; first]) w)
      as [[u|e] w1]; [|reflexivity].
    destruct mapping; reflexivity.
  - apply readdirSync_world in Hdir. now subst w0.
Qed.

Lemma stat_same_shape (w1 w2 : world) (p : jsstring) :
  same_shape w1 w2 -> kind (stat w1 p) = kind (stat w2 p).
Proof.
  intros [Hcwd Hshape]. unfold stat. rewrite Hcwd.
  destruct (Path.resolve (cwd w2) p) as [|s q]; [reflexivity|].
  pose proof (lookup_shape (s :: q) _ _ Hshape) as Hk.
  destruct (lookup (s :: q) (files w1)) as [[c1|]|],
           (lookup (s :: q) (files w2)) as [[c2|]|]; try discriminate;
    try reflexivity.
  now destruct (Path.has_trailing_slash p).
Qed.

Lemma same_shape_refl (w : world) : same_shape w w.
Proof. split; reflexivity. Qed.

Lemma same_shape_sym (w1 w2 : world) : same_shape w1 w2 -> same_shape w2 w1.
Proof. intros [H1 H2]. split; congruence. Qed.

Lemma same_shape_trans (w1 w2 w3 : world) :
  same_shape w1 w2 -> same_shape w2 w3 -> same_shape w1 w3.
Proof. intros [H1 H2] [H3 H4]. split; congruence. Qed.

Lemma same_shape_printed (w : world) (ms : list message) :
  same_shape (printed w ms) w.
Proof. split; reflexivity. Qed.

Lemma readdirSync_same_shape (w1 w2 : world) (p : jsstring) :
  same_shape w1 w2 ->
  fst (readdirSync p w1) = fst (readdirSync p w2).
Proof.
  intros Hs. pose proof (stat_same_shape p Hs) as Hk.
  destruct Hs as [Hcwd Hshape]. unfold readdirSync.
  destruct (stat w1 p) as [[c1|]|e1], (stat w2 p) as [[c2|]|e2];
    try discriminate; simpl; try congruence; try reflexivity.
  all: try (injection Hk as ->; reflexivity).
  all: rewrite Hcwd; now rewrite (children_paths _ _ _ (shape_paths _ _ Hshape)).
Qed.

(** C10.  When [syncFile] runs on an existing folder that lists at least
    one name ending in ".js", the only entry of the file system it can
    change is the one under the first such name: every other path holds
    what it held, and no path appears.  When the file is reported as
    synced, the first ".js" file holds the content of the compiled file,
    and the folder lists the same names as before (nothing created,
    nothing renamed, no path appears or disappears anywhere).  When it is
    not, the first ".js" file is as it was, or the compiled file is a
    directory and the failed copy has removed it, or (for a table that is
    not an object) it holds the content of the compiled file. *)
Theorem syncFile_overwrites_first_js_only
        (sourceFile targetDir : jsstring) (mapping mapping' : json)
        (w w' : world) (names others : list jsstring) (first : jsstring)
        (ok : bool) :
  valid_names (files w) = true ->
  readdirSync targetDir w = (Ok names, w) ->
  filter (ends_with (lit ".js")) names = first :: others ->
  syncFile sourceFile targetDir mapping w = (Ok (ok, mapping'), w') ->
  (forall q, q <> Path.resolve (cwd w) targetDir ++ [first] ->
             lookup q (files w') = lookup q (files w))
  /\ (forall q, lookup q (files w) = None -> lookup q (files w') = None)
  /\ (ok = true ->
      readdirSync targetDir w' = (Ok names, w')
      /\ shape (files w') = shape (files w)
      /\ exists c, stat w sourceFile = Ok (File c)
                   /\ lookup (Path.resolve (cwd w) targetDir ++ [first])
                             (files w') = Some (File c))
  /\ (ok = false ->
      lookup (Path.resolve (cwd w) targetDir ++ [first]) (files w')
      = lookup (Path.resolve (cwd w) targetDir ++ [first]) (files w)
      \/ (stat w sourceFile = Ok Dir
          /\ lookup (Path.resolve (cwd w) targetDir ++ [first]) (files w')
             = None)
      \/ ((forall o, mapping <> JObject o)
          /\ exists c, stat w sourceFile = Ok (File c)
                       /\ lookup (Path.resolve (cwd w) targetDir ++ [first])
                                 (files w') = Some (File c))).
Proof.
  intros Hvalid Hdir Hjs Hsync.
  rewrite syncFile_eq, Hdir, Hjs in Hsync. cbv zeta in Hsync.
  destruct (readdirSync_ok _ _ Hdir) as [Hstat Hnames].
  assert (Hfirst : In first names).
  { assert (H : In first (filter (ends_with (lit ".js")) names))
      by (rewrite Hjs; now left).
    apply filter_In in H. tauto. }
  rewrite Hnames in Hfirst.
  assert (Hloc : Path.resolve (cwd w) (Path.join [targetDir; first])
                 = Path.resolve (cwd w) targetDir ++ [first])
    by (apply resolve_join_child; eapply children_valid; eassumption).
  destruct (children_lookup _ _ _ Hfirst) as [n Hn].
  set (dest := Path.resolve (cwd w) targetDir ++ [first]) in *.
  assert (Hlist : forall w1, same_shape w1 w ->
                             readdirSync targetDir w1 = (Ok names, w1)).
  { intros w1 Hs. pose proof (readdirSync_same_shape targetDir Hs) as Hfst.
    rewrite Hdir in Hfst. simpl in Hfst.
    destruct (readdirSync targetDir w1) as [r w2] eqn:Hr.
    rewrite (readdirSync_world _ _ Hr). simpl in Hfst. now subst r. }
  destruct (copyFileSync sourceFile (Path.join [targetDir; first]) w)
    as [[u|e] w1] eqn:Hcopy.
  - (* the copy succeeded *)
    destruct (copyFileSync_ok _ _ _ Hcopy) as (c & Hsrc & Hstore).
    destruct (store_ok _ _ _ Hstore) as (Hcwd & Hcon & Hst & Hother & Hfiles).
    rewrite Hloc in Hother, Hfiles.
    destruct Hfiles as [[[c0 Hc0] Hfiles]|[Hnone _]]; [|congruence].
    assert (Hshape : shape (files w1) = shape (files w))
      by (rewrite Hfiles; eapply shape_overwrite; eassumption).
    assert (Hnew : lookup dest (files w1) = Some (File c))
      by (rewrite Hfiles, lookup_overwrite, location_eqb_refl, Hc0;
          reflexivity).
    assert (Hw' : exists ms, w' = printed w1 ms)
      by (destruct mapping; injection Hsync as _ _ <-; eauto).
    destruct Hw' as [ms ->]. cbn [files printed].
    split; [exact Hother|]. split.
    { intros q Hq. rewrite Hother; [exact Hq|]. intros ->. congruence. }
    split.
    + intros _. split; [|split; [exact Hshape | now exists c]].
      apply Hlist. split; [exact Hcwd | exact Hshape].
    + intros ->. right; right. split; [|now exists c].
      intros o ->. discriminate.
  - (* the copy failed *)
    injection Hsync as <- <- <-. cbn [files printed].
    destruct (copyFileSync_fails _ _ _ Hcopy)
      as (_ & _ & _ & [-> | (_ & Hsrc & _ & Hfiles)]).
    + split; [reflexivity|]. split; [auto|].
      split; [discriminate | now left].
    + rewrite Hloc in Hfiles. rewrite Hfiles.
      split.
      { intros q Hq. rewrite lookup_unlink.
        apply location_eqb_neq in Hq. now rewrite Hq. }
      split.
      { intros q Hq. rewrite lookup_unlink.
        now destruct (location_eqb q dest). }
      split; [discriminate|].
      intros _. right; left. split; [exact Hsrc|].
      now rewrite lookup_unlink, location_eqb_refl.
Qed.

(** ** One step of the loop *)

Lemma sync_one_no_mapping (f : jsstring) (o : list (jsstring * json))
      (n : nat) (w : world) :
  truthy (prop_get (tsFileName_of (cwd w) f) o) = false ->
  sync_one f (JObject o, n) w
  = (Ok (JObject o, n),
     printed w [No_mapping_found (tsFileName_of (cwd w) f)]).
Proof.
  intros H. unfold sync_one, bind, get_world, mapping_get, ret.
  now rewrite H.
Qed.

Lemma sync_one_not_a_string (f : jsstring) (o : list (jsstring * json))
      (n : nat) (w : world) (v : json) :
  prop_get (tsFileName_of (cwd w) f) o = Some v ->
  truthy (Some v) = true -> is_string v = false ->
  sync_one f (JObject o, n) w = (Throw TypeError, w).
Proof.
  intros H Ht Hs.
  unfold sync_one, bind, get_world, mapping_get, join_target, ret.
  rewrite H, Ht. destruct v; try discriminate; reflexivity.
Qed.

Lemma truthy_string (d : jsstring) :
  truthy (Some (JString d)) = true <-> d <> [].
Proof.
  simpl. rewrite negb_true_iff. apply eqb_neq.
Qed.

Lemma sync_one_missing (f d : jsstring) (o : list (jsstring * json))
      (n : nat) (w : world) :
  prop_get (tsFileName_of (cwd w) f) o = Some (JString d) -> d <> [] ->
  (exists e, stat w (Path.join [WEBRESOURCES_DIR; d]) = Throw e) ->
  sync_one f (JObject o, n) w
  = (Ok (JObject (prop_delete (tsFileName_of (cwd w) f) o), n),
     printed w [Mapped_directory_not_found d]).
Proof.
  intros H Hd [e He]. apply truthy_string in Hd.
  unfold sync_one, bind, get_world, mapping_get, join_target, existsSync, ret.
  rewrite H, Hd. cbv beta iota. rewrite He. reflexivity.
Qed.

Lemma sync_one_present (f d : jsstring) (o : list (jsstring * json))
      (n : nat) (w : world) (x : node) :
  prop_get (tsFileName_of (cwd w) f) o = Some (JString d) -> d <> [] ->
  stat w (Path.join [WEBRESOURCES_DIR; d]) = Ok x ->
  sync_one f (JObject o, n) w
  = match syncFile f (Path.join [WEBRESOURCES_DIR; d]) (JObject o) w with
    | (Ok (ok, mapping'), w') =>
        (Ok (mapping', if ok then S n else n), w')
    | (Throw e, w') => (Throw e, w')
    end.
Proof.
  intros H Hd Hx. apply truthy_string in Hd.
  unfold sync_one, bind, get_world, mapping_get, join_target, existsSync, ret.
  rewrite H, Hd. cbv beta iota. rewrite Hx.
  destruct (syncFile f (Path.join [WEBRESOURCES_DIR; d]) (JObject o) w)
    as [[[ok m']|e] w']; reflexivity.
Qed.

(** C8 (as stated, refuted).  Two artifacts are mapped to the same folder;
    the regular file comes first and is copied onto [form.js], then the
    copy from the directory fails and removes [form.js]: the run returns,
    it has reported one synced file and one failure, and the file it
    copied is gone. *)
Lemma a_failed_copy_removes_an_earlier_copy :
  let w := Examples.vendor_last in
  let w' := snd (syncWebResources w) in
  let form := Examples.at_home "src/webresources/folder-123/form.js" in
  discovered w = [lit "dist/widgetForm.js"; lit "dist/vendor.js"]
  /\ fst (syncWebResources w) = Ok (Some 1%nat)
  /\ lookup form
            (files (snd (sync_loop [lit "dist/widgetForm.js"] (loaded w, O) w)))
     = Some (File (lit "compiled();"))
  /\ In (Synced (lit "widgetForm.js") (lit "form.js")) (console w')
  /\ In (Failed_to_sync (lit "vendor.js") EISDIR) (console w')
  /\ lookup form (files w') = None.
Proof.
  cbv zeta.
  split; [vm_compute; reflexivity|]. split; [vm_compute; reflexivity|].
  split; [vm_compute; reflexivity|]. split; [vm_compute; tauto|].
  split; [vm_compute; tauto | vm_compute; reflexivity].
Qed.

(** C8 (amended).  The artifact is mapped to a folder that exists and lists
    a ".js" name, and copying onto that name fails.  Then the step for this
    artifact returns normally: the failure is printed, the table and the
    count are unchanged, every file other than the destination of the copy
    is as the earlier steps left it, the destination is as it was or (the
    artifact being a directory) has been removed, and the loop goes on
    with the artifacts that follow. *)
Theorem copy_failure_does_not_stop_the_run
        (compiledFile : jsstring) (rest : list jsstring)
        (o : list (jsstring * json)) (syncCount : nat) (w : world)
        (d first : jsstring) (names others : list jsstring) (e : exn) :
  prop_get (tsFileName_of (cwd w) compiledFile) o = Some (JString d) ->
  d <> [] ->
  readdirSync (Path.join [WEBRESOURCES_DIR; d]) w = (Ok names, w) ->
  filter (ends_with (lit ".js")) names = first :: others ->
  fst (copyFileSync compiledFile
         (Path.join [Path.join [WEBRESOURCES_DIR; d]; first]) w) = Throw e ->
  let targetFile := Path.join [Path.join [WEBRESOURCES_DIR; d]; first] in
  let w' := printed (snd (copyFileSync compiledFile targetFile w))
                    [Failed_to_sync (Path.basename compiledFile) e] in
  sync_one compiledFile (JObject o, syncCount) w
  = (Ok (JObject o, syncCount), w')
  /\ (forall q, q <> Path.resolve (cwd w) targetFile ->
                lookup q (files w') = lookup q (files w))
  /\ (lookup (Path.resolve (cwd w) targetFile) (files w')
      = lookup (Path.resolve (cwd w) targetFile) (files w)
      \/ (stat w compiledFile = Ok Dir
          /\ lookup (Path.resolve (cwd w) targetFile) (files w') = None))
  /\ sync_loop (compiledFile :: rest) (JObject o, syncCount) w
     = sync_loop rest (JObject o, syncCount) w'.
Proof.
  intros Hget Hd Hdir Hjs Hcopy targetFile w'.
  destruct (readdirSync_ok _ _ Hdir) as [Hstat _].
  assert (Hstep : sync_one compiledFile (JObject o, syncCount) w
                  = (Ok (JObject o, syncCount), w')).
  { rewrite (@sync_one_present compiledFile d o syncCount w Dir Hget Hd Hstat).
    rewrite syncFile_eq, Hdir, Hjs. cbv zeta. subst w' targetFile.
    destruct (copyFileSync compiledFile
                (Path.join [Path.join [WEBRESOURCES_DIR; d]; first]) w)
      as [[u|e'] w1] eqn:Hc; simpl in Hcopy; [discriminate|].
    injection Hcopy as ->. reflexivity. }
  split; [exact Hstep|].
  assert (Hfiles : (forall q, q <> Path.resolve (cwd w) targetFile ->
                       lookup q (files w') = lookup q (files w))
                   /\ (lookup (Path.resolve (cwd w) targetFile) (files w')
                       = lookup (Path.resolve (cwd w) targetFile) (files w)
                       \/ (stat w compiledFile = Ok Dir
                           /\ lookup (Path.resolve (cwd w) targetFile)
                                     (files w') = None))).
  { subst w' targetFile. cbn [files printed].
    destruct (copyFileSync compiledFile
                (Path.join [Path.join [WEBRESOURCES_DIR; d]; first]) w)
      as [r wc] eqn:Hc.
    cbn [fst snd] in *. subst r.
    destruct (copyFileSync_fails _ _ _ Hc)
      as (_ & _ & _ & [-> | (_ & Hsrc & _ & ->)]).
    - split; [reflexivity | now left].
    - split.
      + intros q Hq. rewrite lookup_unlink.
        apply location_eqb_neq in Hq. now rewrite Hq.
      + right. split; [exact Hsrc|].
        now rewrite lookup_unlink, location_eqb_refl. }
  split; [apply Hfiles|]. split; [apply Hfiles|].
  cbn [sync_loop]. unfold bind. now rewrite Hstep.
Qed.

Lemma copy_failure_does_not_stop_the_run_witness :
  let w := Examples.world_of Examples.vendor_files in
  let o := map (fun kv => (fst kv, JString (snd kv))) Examples.vendor_table in
  let targetFile := lit "src/webresources/folder-123/form.js" in
  let w' := printed (snd (copyFileSync (lit "dist/vendor.js") targetFile w))
                    [Failed_to_sync (lit "vendor.js") EISDIR] in
  sync_one (lit "dist/vendor.js") (JObject o, O) w = (Ok (JObject o, O), w')
  /\ (forall q, q <> Path.resolve (cwd w) targetFile ->
                lookup q (files w') = lookup q (files w))
  /\ (lookup (Path.resolve (cwd w) targetFile) (files w')
      = lookup (Path.resolve (cwd w) targetFile) (files w)
      \/ (stat w (lit "dist/vendor.js") = Ok Dir
          /\ lookup (Path.resolve (cwd w) targetFile) (files w') = None))
  /\ sync_loop [lit "dist/vendor.js"; lit "dist/widgetForm.js"] (JObject o, O) w
     = sync_loop [lit "dist/widgetForm.js"] (JObject o, O) w'.
Proof.
  intros w o targetFile w'.
  apply (@copy_failure_does_not_stop_the_run
           (lit "dist/vendor.js") [lit "dist/widgetForm.js"] o O w
           (lit "folder-123") (lit "form.js") [lit "form.js"] [] EISDIR).
  - vm_compute. reflexivity.
  - discriminate.
  - vm_compute. reflexivity.
  - vm_compute. reflexivity.
  - vm_compute. reflexivity.
Defined.

Lemma syncFile_overwrites_first_js_only_witness :
  let w := Examples.world_of Examples.scenario_files in
  let target := lit "src/webresources/folder-123" in
  let mapping := as_object Examples.scenario_table in
  let w' := snd (syncFile (lit "dist/widgetForm.js") target mapping w) in
  let dest := Path.resolve (cwd w) target ++ [lit "form.js"] in
  (forall q, q <> dest -> lookup q (files w') = lookup q (files w))
  /\ (forall q, lookup q (files w) = None -> lookup q (files w') = None)
  /\ (true = true ->
      readdirSync target w'
      = (Ok [lit "webresource.yml"; lit "form.js"; lit "helper.js"], w')
      /\ shape (files w') = shape (files w)
      /\ exists c, stat w (lit "dist/widgetForm.js") = Ok (File c)
                   /\ lookup dest (files w') = Some (File c))
  /\ (true = false ->
      lookup dest (files w') = lookup dest (files w)
      \/ (stat w (lit "dist/widgetForm.js") = Ok Dir
          /\ lookup dest (files w') = None)
      \/ ((forall o, mapping <> JObject o)
          /\ exists c, stat w (lit "dist/widgetForm.js") = Ok (File c)
                       /\ lookup dest (files w') = Some (File c))).
Proof.
  intros w target mapping w' dest.
  apply (@syncFile_overwrites_first_js_only
           (lit "dist/widgetForm.js") target mapping mapping
           w w' [lit "webresource.yml"; lit "form.js"; lit "helper.js"]
           [lit "helper.js"] (lit "form.js") true).
  - vm_compute. reflexivity.
  - vm_compute. reflexivity.
  - vm_compute. reflexivity.
  - vm_compute. reflexivity.
Defined.

(** ** Worlds of the same shape run alike *)

Unset Implicit Arguments.

Lemma shape_app (t t' : table) : shape (t ++ t') = shape t ++ shape t'.
Proof. unfold shape. apply map_app. Qed.

Lemma store_same_shape (p c1 c2 : jsstring) (w1 w2 w1' : world)
      (r : outcome unit) :
  same_shape w1 w2 ->
  store p c1 w1 = (r, w1') ->
  exists w2', store p c2 w2 = (r, w2') /\ same_shape w1' w2'
              /\ console w2' = console w2.
Proof.
  intros [Hcwd Hshape]. unfold store. rewrite Hcwd.
  assert (Hsame : same_shape w1 w2) by (split; assumption).
  destruct (Path.has_trailing_slash p).
  { pose proof (@stat_same_shape w1 w2 p Hsame) as Hk.
    intros [= <- <-]. exists w2. repeat split; try assumption.
    destruct (stat w1 p) as [[?|]|[]], (stat w2 p) as [[?|]|[]];
      try discriminate; reflexivity. }
  destruct (Path.resolve (cwd w2) p) as [|s q];
    [intros [= <- <-]; exists w2; repeat split; assumption|].
  pose proof (lookup_shape (s :: q) _ _ Hshape) as Hk.
  pose proof (lookup_shape (parent (s :: q)) _ _ Hshape) as Hp.
  destruct (lookup (s :: q) (files w1)) as [[c|]|] eqn:H1,
           (lookup (s :: q) (files w2)) as [[c'|]|] eqn:H2; try discriminate.
  - unfold set_files. intros [= <- <-]. eexists. split; [reflexivity|].
    split; [|reflexivity]. split; [assumption|]. cbn [files].
    rewrite (@shape_overwrite _ _ _ _ H1), (@shape_overwrite _ _ _ _ H2).
    assumption.
  - intros [= <- <-]. exists w2. repeat split; assumption.
  - assert (Hnew : forall r0 w0,
               set_files (files w1 ++ [(s :: q, File c1)]) w1 = (r0, w0) ->
               exists w2',
                 set_files (files w2 ++ [(s :: q, File c2)]) w2 = (r0, w2')
                 /\ same_shape w0 w2' /\ console w2' = console w2).
    { unfold set_files. intros r0 w0 [= <- <-]. eexists.
      split; [reflexivity|]. split; [|reflexivity]. split; [assumption|].
      cbn [files]. rewrite !shape_app. now rewrite Hshape. }
    destruct (parent (s :: q)) as [|s1 q1]; [apply Hnew|].
    destruct (lookup (s1 :: q1) (files w1)) as [[?|]|],
             (lookup (s1 :: q1) (files w2)) as [[?|]|]; try discriminate;
      try apply Hnew;
      intros [= <- <-]; exists w2; repeat split; assumption.
Qed.

Lemma copyFileSync_same_shape (src dest : jsstring) (w1 w2 w1' : world)
      (r : outcome unit) :
  same_shape w1 w2 ->
  copyFileSync src dest w1 = (r, w1') ->
  exists w2', copyFileSync src dest w2 = (r, w2') /\ same_shape w1' w2'
              /\ console w2' = console w2.
Proof.
  intros Hsame. pose proof (@stat_same_shape w1 w2 src Hsame) as Hk.
  unfold copyFileSync.
  destruct (stat w1 src) as [[c1|]|e1], (stat w2 src) as [[c2|]|e2];
    try discriminate.
  - now apply store_same_shape.
  - unfold bind, unlinkSync, set_files, throw.
    destruct (store dest [] w1) as [r1 x1] eqn:Hstore.
    destruct (store_same_shape dest [] [] w1 w2 x1 r1 Hsame Hstore)
      as (x2 & Hstore2 & [Hcwd Hshape] & Hcon).
    rewrite Hstore2. destruct r1 as [[]|e]; intros [= <- <-].
    + eexists. split; [reflexivity|]. split; [|exact Hcon].
      split; [exact Hcwd|]. cbn [files cwd].
      now rewrite !shape_unlink, Hshape, Hcwd.
    + eexists. split; [reflexivity|]. split; [|exact Hcon].
      split; assumption.
  - injection Hk as ->. intros [= <- <-]. exists w2.
    repeat split; apply Hsame.
Qed.

Lemma same_shape_printed_both (w1 w2 : world) (ms : list message) :
  same_shape w1 w2 -> same_shape (printed w1 ms) (printed w2 ms).
Proof. intros [H1 H2]. split; assumption. Qed.

Lemma syncFile_same_shape (f t : jsstring) (m : json) (w1 w2 w1' : world)
      (r : outcome (bool * json)) :
  same_shape w1 w2 ->
  syncFile f t m w1 = (r, w1') ->
  exists w2', syncFile f t m w2 = (r, w2') /\ same_shape w1' w2'.
Proof.
  intros Hsame. rewrite !syncFile_eq.
  pose proof (@readdirSync_same_shape w1 w2 t Hsame) as Hdir.
  destruct (readdirSync t w1) as [r1 x1], (readdirSync t w2) as [r2 x2].
  simpl in Hdir. subst r2. destruct r1 as [names|e].
  2:{ intros [= <- <-]. exists w2. split; [reflexivity | assumption]. }
  destruct (filter (ends_with (lit ".js")) names) as [|first rest].
  { intros [= <- <-]. eexists. split; [reflexivity|].
    now apply same_shape_printed_both. }
  cbv zeta.
  destruct (copyFileSync f (Path.join [t; first]) w1) as [rc wc] eqn:Hc.
  destruct (copyFileSync_same_shape _ _ _ _ _ _ Hsame Hc)
    as (wc2 & Hc2 & Hs2 & _).
  rewrite Hc2. destruct Hsame as [Hcwd _]. rewrite Hcwd.
  destruct rc as [u|e].
  - destruct m; intros [= <- <-]; eexists; (split; [reflexivity|]);
      now apply same_shape_printed_both.
  - intros [= <- <-]. eexists. split; [reflexivity|].
    now apply same_shape_printed_both.
Qed.

Lemma truthy_cases (v : option json) :
  truthy v = false
  \/ (exists d, v = Some (JString d) /\ d <> [])
  \/ (exists x, v = Some x /\ truthy v = true /\ is_string x = false).
Proof.
  destruct v as [x|]; [|now left].
  destruct (truthy (Some x)) eqn:Ht; [|now left].
  destruct x; try (right; right; eexists; repeat split; eassumption).
  right; left. exists s. split; [reflexivity|]. now apply truthy_string.
Qed.

Lemma sync_one_same_shape (f : jsstring) (o : list (jsstring * json))
      (n : nat) (w1 w2 w1' : world) (r : outcome (json * nat)) :
  same_shape w1 w2 ->
  sync_one f (JObject o, n) w1 = (r, w1') ->
  exists w2', sync_one f (JObject o, n) w2 = (r, w2') /\ same_shape w1' w2'.
Proof.
  intros Hsame. pose proof Hsame as [Hcwd _].
  destruct (truthy_cases (prop_get (tsFileName_of (cwd w1) f) o))
    as [Hf|[(d & Hd & Hne)|(x & Hx & Ht & Hs)]].
  - rewrite (@sync_one_no_mapping f o n w1 Hf).
    rewrite Hcwd in Hf. rewrite (@sync_one_no_mapping f o n w2 Hf).
    intros [= <- <-]. rewrite Hcwd. eexists. split; [reflexivity|].
    now apply same_shape_printed_both.
  - pose proof (@stat_same_shape w1 w2 (Path.join [WEBRESOURCES_DIR; d]) Hsame)
      as Hk.
    pose proof Hd as Hd2. rewrite Hcwd in Hd2.
    destruct (stat w1 (Path.join [WEBRESOURCES_DIR; d])) as [x1|e1] eqn:H1,
             (stat w2 (Path.join [WEBRESOURCES_DIR; d])) as [x2|e2] eqn:H2;
      try discriminate.
    + rewrite (@sync_one_present f d o n w1 x1 Hd Hne H1).
      rewrite (@sync_one_present f d o n w2 x2 Hd2 Hne H2).
      destruct (syncFile f (Path.join [WEBRESOURCES_DIR; d]) (JObject o) w1)
        as [rs ws] eqn:Hsf.
      destruct (syncFile_same_shape _ _ _ _ _ _ _ Hsame Hsf) as (ws2 & Hsf2 & Hss).
      rewrite Hsf2. destruct rs as [[ok m']|e]; intros [= <- <-];
        eexists; (split; [reflexivity | assumption]).
    + rewrite (@sync_one_missing f d o n w1 Hd Hne (ex_intro _ e1 H1)).
      rewrite (@sync_one_missing f d o n w2 Hd2 Hne (ex_intro _ e2 H2)).
      intros [= <- <-]. rewrite Hcwd. eexists. split; [reflexivity|].
      now apply same_shape_printed_both.
  - pose proof Hx as Hx2. rewrite Hcwd in Hx2.
    rewrite Hx in Ht.
    rewrite (@sync_one_not_a_string f o n w1 x Hx Ht Hs).
    rewrite (@sync_one_not_a_string f o n w2 x Hx2 Ht Hs).
    intros [= <- <-]. exists w2. split; [reflexivity | assumption].
Qed.

(** ** Tables of folder names *)

Lemma prop_update_same (k : jsstring) (v : json) (o : list (jsstring * json)) :
  prop_get k o = Some v -> prop_update k v o = o.
Proof.
  induction o as [|[k1 v1] o IH]; simpl; [reflexivity|].
  destruct (eqb k k1) eqn:E.
  - intros [= ->]. reflexivity.
  - intros H. now rewrite IH.
Qed.

Lemma prop_set_same (k : jsstring) (v : json) (o : list (jsstring * json)) :
  prop_get k o = Some v -> prop_set k v o = o.
Proof.
  intros H. unfold prop_set, has_prop. rewrite H.
  now apply prop_update_same.
Qed.

Lemma prop_get_in (k : jsstring) (v : json) (o : list (jsstring * json)) :
  prop_get k o = Some v -> In (k, v) o.
Proof.
  induction o as [|[k1 v1] o IH]; simpl; [discriminate|].
  destruct (eqb k k1) eqn:E.
  - apply eqb_eq in E. subst k1. intros [= ->]. now left.
  - intros H. right. now apply IH.
Qed.

Lemma folder_table_get (o : list (jsstring * json)) (k : jsstring) (v : json) :
  folder_table o = true -> prop_get k o = Some v ->
  exists d, v = JString d /\ Path.basename (target_of d) = d /\ d <> [].
Proof.
  intros Ht Hg. apply prop_get_in in Hg.
  unfold folder_table in Ht. rewrite forallb_forall in Ht.
  specialize (Ht _ Hg). cbn [snd] in Ht.
  destruct v as [| | |d| |]; try discriminate.
  exists d. split; [reflexivity|]. apply eqb_eq in Ht. split; [exact Ht|].
  intros ->. vm_compute in Ht. discriminate.
Qed.

Lemma folder_table_delete (k : jsstring) (o : list (jsstring * json)) :
  folder_table o = true -> folder_table (prop_delete k o) = true.
Proof.
  unfold folder_table. induction o as [|[k1 v1] o IH]; simpl; [reflexivity|].
  intros H. apply andb_true_iff in H. destruct H as [H1 H2].
  destruct (eqb k k1); simpl; [now apply IH|]. now rewrite H1, IH.
Qed.

Lemma folder_table_strings (o : list (jsstring * json)) :
  folder_table o = true -> string_table o.
Proof.
  unfold folder_table, string_table. rewrite forallb_forall, Forall_forall.
  intros H kv Hin. specialize (H kv Hin).
  destruct (snd kv); try discriminate. reflexivity.
Qed.

Lemma missing_same_shape (w1 w2 : world) (d : jsstring) :
  same_shape w1 w2 -> missing w1 d -> missing w2 d.
Proof.
  intros Hs [e He]. pose proof (@stat_same_shape w1 w2 (target_of d) Hs) as Hk.
  rewrite He in Hk. destruct (stat w2 (target_of d)) as [x|e2] eqn:H2;
    [discriminate|]. now exists e2.
Qed.

Lemma missing_dec (w : world) (d : jsstring) :
  missing w d \/ exists x, stat w (target_of d) = Ok x.
Proof.
  unfold missing. destruct (stat w (target_of d)) as [x|e]; eauto.
Qed.

Lemma take_while_all (g : N -> bool) (s : jsstring) :
  forallb g (take_while g s) = true.
Proof.
  induction s as [|c s IH]; simpl; [reflexivity|].
  destruct (g c) eqn:E; simpl; [now rewrite E|reflexivity].
Qed.

Lemma basename_slash_free (p : jsstring) :
  Path.slash_free (Path.basename p) = true.
Proof.
  unfold Path.basename, Path.slash_free. cbv zeta.
  rewrite forallb_forall. intros c Hc. apply in_rev in Hc.
  pose proof (take_while_all (fun c => negb (c =? Path.slash))
                (rev (rev (drop_while (fun c => c =? Path.slash) (rev p)))))
    as H.
  rewrite forallb_forall in H. exact (H _ Hc).
Qed.

(** A value that is the name of its own target folder is a name a
    directory entry can have. *)
Lemma folder_name_valid (d : jsstring) :
  is_folder_name (JString d) = true -> Path.valid_name d = true.
Proof.
  unfold is_folder_name. intros H.
  unfold Path.valid_name, Path.kept.
  assert (Hfree : Path.slash_free d = true).
  { pose proof H as H'. apply eqb_eq in H'. rewrite <- H'.
    apply basename_slash_free. }
  rewrite Hfree, andb_true_r.
  destruct (eqb d []) eqn:E1.
  { apply eqb_eq in E1. subst d. vm_compute in H. discriminate. }
  destruct (eqb d Path.dot) eqn:E2.
  { apply eqb_eq in E2. subst d. vm_compute in H. discriminate. }
  destruct (eqb d Path.dotdot) eqn:E3.
  { apply eqb_eq in E3. subst d. vm_compute in H. discriminate. }
  reflexivity.
Qed.

Lemma resolve_target (cwd : list jsstring) (d : jsstring) :
  Path.valid_name d = true ->
  Path.resolve cwd (Path.join [WEBRESOURCES_DIR; d])
  = Path.resolve cwd WEBRESOURCES_DIR ++ [d].
Proof. apply resolve_join_child. Qed.

Lemma stat_lookup (w1 w2 : world) (p : jsstring) :
  cwd w2 = cwd w1 ->
  lookup (Path.resolve (cwd w1) p) (files w2)
  = lookup (Path.resolve (cwd w1) p) (files w1) ->
  stat w2 p = stat w1 p.
Proof. intros Hc Hl. unfold stat. now rewrite Hc, Hl. Qed.


Lemma folder_table_name (o : list (jsstring * json)) (k d : jsstring) :
  folder_table o = true -> prop_get k o = Some (JString d) ->
  is_folder_name (JString d) = true.
Proof.
  intros Ht Hg. apply prop_get_in in Hg.
  unfold folder_table in Ht. rewrite forallb_forall in Ht.
  exact (Ht _ Hg).
Qed.

Lemma same_folders_refl (w : world) : same_folders w w.
Proof. intros d _. reflexivity. Qed.

Lemma same_folders_trans (w1 w2 w3 : world) :
  same_folders w1 w2 -> same_folders w2 w3 -> same_folders w1 w3.
Proof. intros H1 H2 d Hd. now rewrite (H1 d Hd), (H2 d Hd). Qed.

Lemma same_folders_missing (w' w : world) (d : jsstring) :
  same_folders w' w -> is_folder_name (JString d) = true ->
  (missing w' d <-> missing w d).
Proof. intros H Hd. unfold missing. now rewrite (H d Hd). Qed.

(** What [syncFile] does to the files: nothing, or the first ".js" file
    of the folder, a regular file, is overwritten with the content of the
    compiled file, or (the compiled file being a directory) removed. *)
Lemma syncFile_effect (f t : jsstring) (m : json) (w w' : world)
      (r : outcome (bool * json)) :
  valid_names (files w) = true ->
  syncFile f t m w = (r, w') ->
  cwd w' = cwd w /\ glob_order w' = glob_order w
  /\ (files w' = files w
      \/ exists first c0,
           ends_with (lit ".js") first = true
           /\ Path.valid_name first = true
           /\ lookup (Path.resolve (cwd w) t ++ [first]) (files w)
              = Some (File c0)
           /\ ((exists c, stat w f = Ok (File c)
                  /\ files w'
                     = overwrite (Path.resolve (cwd w) t ++ [first]) c (files w))
               \/ (stat w f = Ok Dir
                   /\ files w'
                      = unlink (Path.resolve (cwd w) t ++ [first]) (files w)))).
Proof.
  intros Hvalid. rewrite syncFile_eq.
  destruct (readdirSync t w) as [[names|e] w0] eqn:Hdir.
  2:{ intros [= <- <-]. repeat (split; [reflexivity|]). now left. }
  destruct (@readdirSync_ok _ _ _ _ Hdir) as [Hstat Hnames].
  destruct (filter (ends_with (lit ".js")) names) as [|first rest] eqn:Hjs.
  { intros [= <- <-]. repeat (split; [reflexivity|]). now left. }
  cbv zeta.
  assert (Hfirst : In first names /\ ends_with (lit ".js") first = true).
  { apply filter_In. rewrite Hjs. now left. }
  destruct Hfirst as [Hfirst Hends]. rewrite Hnames in Hfirst.
  pose proof (@children_valid _ _ _ Hvalid Hfirst) as Hname.
  pose proof (@resolve_join_child (cwd w) t first Hname) as Hloc.
  destruct (@children_lookup _ _ _ Hfirst) as [x Hx].
  assert (Hgoal : forall w1 ms,
             cwd w1 = cwd w -> glob_order w1 = glob_order w ->
             (files w1 = files w
              \/ exists first0 c0,
                   ends_with (lit ".js") first0 = true
                   /\ Path.valid_name first0 = true
                   /\ lookup (Path.resolve (cwd w) t ++ [first0]) (files w)
                      = Some (File c0)
                   /\ ((exists c, stat w f = Ok (File c)
                          /\ files w1
                             = overwrite (Path.resolve (cwd w) t ++ [first0])
                                         c (files w))
                       \/ (stat w f = Ok Dir
                           /\ files w1
                              = unlink (Path.resolve (cwd w) t ++ [first0])
                                       (files w)))) ->
             cwd (printed w1 ms) = cwd w
             /\ glob_order (printed w1 ms) = glob_order w
             /\ (files (printed w1 ms) = files w
                 \/ exists first0 c0,
                      ends_with (lit ".js") first0 = true
                      /\ Path.valid_name first0 = true
                      /\ lookup (Path.resolve (cwd w) t ++ [first0]) (files w)
                         = Some (File c0)
                      /\ ((exists c, stat w f = Ok (File c)
                             /\ files (printed w1 ms)
                                = overwrite (Path.resolve (cwd w) t ++ [first0])
                                            c (files w))
                          \/ (stat w f = Ok Dir
                              /\ files (printed w1 ms)
                                 = unlink (Path.resolve (cwd w) t ++ [first0])
                                          (files w)))))
    by (intros w1 ms H1 H2 H3; cbn [cwd glob_order files printed]; auto).
  destruct (copyFileSync f (Path.join [t; first]) w) as [[u|e] w1] eqn:Hcopy.
  - destruct (@copyFileSync_ok _ _ _ _ _ Hcopy) as (c & Hsrc & Hstore).
    destruct (@store_ok _ _ _ _ Hstore) as (Hcwd & Hcon & Hst & Hother & Hfiles).
    rewrite Hloc in Hfiles.
    destruct Hfiles as [[[c0 Hc0] Hfiles]|[Hnone _]]; [|congruence].
    assert (Hw1 : files w1 = files w
                  \/ exists first0 c1,
                       ends_with (lit ".js") first0 = true
                       /\ Path.valid_name first0 = true
                       /\ lookup (Path.resolve (cwd w) t ++ [first0]) (files w)
                          = Some (File c1)
                       /\ ((exists c2, stat w f = Ok (File c2)
                              /\ files w1
                                 = overwrite (Path.resolve (cwd w) t ++ [first0])
                                             c2 (files w))
                           \/ (stat w f = Ok Dir
                               /\ files w1
                                  = unlink (Path.resolve (cwd w) t ++ [first0])
                                           (files w)))).
    { right. exists first, c0. repeat (split; [assumption|]).
      left. exists c. now split. }
    destruct m; intros [= <- <-];
      apply Hgoal; try assumption; exact (@store_glob_order _ _ _ _ _ Hstore).
  - intros [= <- <-].
    destruct (@copyFileSync_fails _ _ _ _ _ Hcopy)
      as (Hcwd & _ & Hg & [-> | (_ & Hsrc & [w2 Hopen] & Hfiles)]).
    + apply Hgoal; auto.
    + apply Hgoal; try assumption. right.
      destruct (@store_ok _ _ _ _ Hopen) as (_ & _ & _ & _ & Hwas).
      rewrite Hloc in Hwas, Hfiles.
      destruct Hwas as [[[c0 Hc0] _]|[Hnone _]]; [|congruence].
      exists first, c0. repeat (split; [assumption|]). right. now split.
Qed.

Lemma after_copies_refl (w : world) : after_copies w w.
Proof. repeat (split; [reflexivity || auto|]). intros q. now left. Qed.

Lemma after_copies_trans (w1 w2 w3 : world) :
  after_copies w1 w2 -> after_copies w2 w3 -> after_copies w1 w3.
Proof.
  intros (Hc1 & Hg1 & Hv1 & H1) (Hc2 & Hg2 & Hv2 & H2).
  split; [congruence|]. split; [congruence|]. split; [auto|].
  intros q. destruct (H2 q) as [Hk2 | (Hn2 & Hf2 & Hjs2)].
  - destruct (H1 q) as [Hk1 | (Hn1 & [c Hf1] & Hjs1)].
    + left. congruence.
    + right. split; [exact Hn1|]. split; [|exact Hjs1].
      rewrite Hf1 in Hk2. destruct (lookup q (files w3)) as [[c3|]|];
        try discriminate. now exists c3.
  - right. split; [|split; assumption].
    destruct (H1 q) as [Hk1 | (Hn1 & _)]; [|exact Hn1].
    rewrite Hn2 in Hk1. now destruct (lookup q (files w1)).
Qed.

Lemma after_copies_printed (w : world) (ms : list message) :
  after_copies (printed w ms) w.
Proof. exact (after_copies_refl w). Qed.

Lemma same_shape_after_copies (w' w : world) :
  same_shape w' w -> glob_order w' = glob_order w -> after_copies w' w.
Proof.
  intros [Hc Hs] Hg. split; [exact Hc|]. split; [exact Hg|]. split.
  - now rewrite (valid_names_shape _ _ Hs).
  - intros q. left. now apply lookup_shape.
Qed.

Lemma after_copies_valid (w' w : world) :
  after_copies w' w -> valid_names (files w) = true ->
  valid_names (files w') = true.
Proof. intros (_ & _ & Hv & _). exact Hv. Qed.

Lemma after_copies_cwd (w' w : world) : after_copies w' w -> cwd w' = cwd w.
Proof. intros (Hc & _). exact Hc. Qed.

(** [syncFile] leaves the world as copies do. *)
Lemma syncFile_after (f t : jsstring) (m : json) (w w' : world)
      (r : outcome (bool * json)) :
  valid_names (files w) = true ->
  syncFile f t m w = (r, w') -> after_copies w' w.
Proof.
  intros Hvalid Hsf.
  destruct (syncFile_effect _ _ _ _ _ _ Hvalid Hsf)
    as (Hc & Hg & [Hfiles | (first & c0 & Hjs & Hname & Hwas & Hnow)]).
  - split; [exact Hc|]. split; [exact Hg|]. rewrite Hfiles.
    split; [auto|]. intros q. now left.
  - split; [exact Hc|]. split; [exact Hg|].
    destruct Hnow as [(c & _ & ->) | (_ & ->)].
    + split; [apply valid_names_overwrite|]. intros q. left.
      apply lookup_shape. exact (@shape_overwrite _ _ _ _ Hwas).
    + split; [apply valid_names_unlink|]. intros q. rewrite lookup_unlink.
      destruct (location_eqb q (Path.resolve (cwd w) t ++ [first])) eqn:E;
        [|now left].
      apply location_eqb_eq in E. subst q. right.
      split; [reflexivity|]. split; [now exists c0|].
      now exists (Path.resolve (cwd w) t), first.
Qed.

(** [syncFile] keeps the shape of the file table, unless the compiled
    file is a directory. *)
Lemma syncFile_shape (f t : jsstring) (m : json) (w w' : world)
      (r : outcome (bool * json)) :
  valid_names (files w) = true -> stat w f <> Ok Dir ->
  syncFile f t m w = (r, w') -> same_shape w' w.
Proof.
  intros Hvalid Hfile Hsf.
  destruct (syncFile_effect _ _ _ _ _ _ Hvalid Hsf)
    as (Hc & Hg & [Hfiles | (first & c0 & Hjs & Hname & Hwas & Hnow)]).
  - split; [exact Hc | now rewrite Hfiles].
  - destruct Hnow as [(c & _ & Hfiles) | (Hdir & _)]; [|contradiction].
    split; [exact Hc|]. rewrite Hfiles. exact (@shape_overwrite _ _ _ _ Hwas).
Qed.

(** [syncFile] on a table that holds the key under a folder name: the
    table comes back as it was. *)
Lemma syncFile_folder (f d : jsstring) (o : list (jsstring * json))
      (w w' : world) (r : outcome (bool * json)) :
  prop_get (tsFileName_of (cwd w) f) o = Some (JString d) ->
  Path.basename (target_of d) = d ->
  syncFile f (target_of d) (JObject o) w = (r, w') ->
  r = Ok (true, JObject o) \/ r = Ok (false, JObject o) \/ exists e, r = Throw e.
Proof.
  intros Hget Hbase. rewrite syncFile_eq.
  destruct (readdirSync (target_of d) w) as [[names|e] w0].
  2:{ intros [= <- _]. right; right. now exists e. }
  destruct (filter (ends_with (lit ".js")) names) as [|first rest].
  { intros [= <- _]. right; now left. }
  cbv zeta.
  destruct (copyFileSync f (Path.join [target_of d; first]) w) as [[u|e] w1].
  - intros [= <- _]. left. rewrite Hbase. now rewrite (prop_set_same _ _ _ Hget).
  - intros [= <- _]. right; now left.
Qed.

(** [syncFile] does to the files, and reports, the same whatever table it
    is given. *)
Lemma syncFile_any_table (f t : jsstring) (o o2 : list (jsstring * json))
      (w w' : world) (ok : bool) (m' : json) :
  syncFile f t (JObject o) w = (Ok (ok, m'), w') ->
  exists m2, syncFile f t (JObject o2) w = (Ok (ok, m2), w').
Proof.
  rewrite !syncFile_eq.
  destruct (readdirSync t w) as [[names|e] w0]; [|discriminate].
  destruct (filter (ends_with (lit ".js")) names) as [|first rest].
  { intros [= <- _ <-]. eauto. }
  cbv zeta.
  destruct (copyFileSync f (Path.join [t; first]) w) as [[u|e] w1];
    intros [= <- _ <-]; eauto.
Qed.

(** [syncFile] on the target folder of a folder name writes two levels
    below the assets root: the folders themselves are what they were. *)
Lemma syncFile_same_folders (f d : jsstring) (m : json) (w w' : world)
      (r : outcome (bool * json)) :
  valid_names (files w) = true -> is_folder_name (JString d) = true ->
  syncFile f (target_of d) m w = (r, w') -> same_folders w' w.
Proof.
  intros Hvalid Hd Hsf d' Hd'.
  destruct (syncFile_effect _ _ _ _ _ _ Hvalid Hsf)
    as (Hc & _ & [Hfiles | (first & c0 & _ & _ & _ & Hnow)]).
  - apply stat_lookup; [exact Hc | now rewrite Hfiles].
  - apply stat_lookup; [exact Hc|].
    unfold target_of in *.
    rewrite (resolve_target _ _ (folder_name_valid _ Hd)) in Hnow.
    rewrite (resolve_target _ _ (folder_name_valid _ Hd')).
    assert (Hq : location_eqb
                   (Path.resolve (cwd w) WEBRESOURCES_DIR ++ [d'])
                   ((Path.resolve (cwd w) WEBRESOURCES_DIR ++ [d]) ++ [first])
                 = false).
    { apply location_eqb_neq. rewrite <- app_assoc. intros H.
      apply app_inv_head in H. discriminate. }
    destruct Hnow as [(c & _ & ->) | (_ & ->)].
    + now rewrite lookup_overwrite, Hq.
    + now rewrite lookup_unlink, Hq.
Qed.

(** ** The loop on a table of folder names *)

(** One step: the key is unmapped, or its folder is missing and the entry
    goes, or its folder is there and [syncFile] runs. *)
Lemma sync_one_folder (f : jsstring) (o : list (jsstring * json)) (n : nat)
      (w w' : world) (r : outcome (json * nat)) :
  folder_table o = true -> valid_names (files w) = true ->
  sync_one f (JObject o, n) w = (r, w') ->
  (after_copies w' w /\ same_folders w' w
   /\ (stat w f <> Ok Dir -> same_shape w' w))
  /\ ((prop_get (tsFileName_of (cwd w) f) o = None
       /\ r = Ok (JObject o, n)
       /\ w' = printed w [No_mapping_found (tsFileName_of (cwd w) f)])
      \/ (exists d,
             prop_get (tsFileName_of (cwd w) f) o = Some (JString d)
             /\ missing w d
             /\ r = Ok (JObject (prop_delete (tsFileName_of (cwd w) f) o), n)
             /\ w' = printed w [Mapped_directory_not_found d])
      \/ (exists d,
             prop_get (tsFileName_of (cwd w) f) o = Some (JString d)
             /\ (exists x, stat w (target_of d) = Ok x)
             /\ ((exists ok,
                     r = Ok (JObject o, if ok : bool then S n else n)
                     /\ syncFile f (target_of d) (JObject o) w
                        = (Ok (ok, JObject o), w'))
                 \/ exists e, r = Throw e))).
Proof.
  intros Ht Hvalid.
  assert (Hprinted : forall ms,
             after_copies (printed w ms) w /\ same_folders (printed w ms) w
             /\ (stat w f <> Ok Dir -> same_shape (printed w ms) w)).
  { intros ms. split; [apply after_copies_printed|].
    split; [intros d _; reflexivity | intros _; apply same_shape_printed]. }
  destruct (prop_get (tsFileName_of (cwd w) f) o) as [v|] eqn:Hget.
  - destruct (folder_table_get o _ v Ht Hget) as (d & -> & Hbase & Hne).
    destruct (missing_dec w d) as [Hmiss|[x Hx]].
    + rewrite (@sync_one_missing f d o n w Hget Hne Hmiss).
      intros [= <- <-]. split; [apply Hprinted|].
      right; left. exists d. repeat split; assumption.
    + rewrite (@sync_one_present f d o n w x Hget Hne Hx).
      fold (target_of d).
      destruct (syncFile f (target_of d) (JObject o) w) as [rs ws] eqn:Hsf.
      assert (Hshape : after_copies ws w /\ same_folders ws w
                       /\ (stat w f <> Ok Dir -> same_shape ws w)).
      { split; [exact (syncFile_after _ _ _ _ _ _ Hvalid Hsf)|]. split.
        - exact (syncFile_same_folders _ _ _ _ _ _ Hvalid
                   (folder_table_name _ _ _ Ht Hget) Hsf).
        - intros Hfile. exact (syncFile_shape _ _ _ _ _ _ Hvalid Hfile Hsf). }
      destruct (syncFile_folder _ _ _ _ _ _ Hget Hbase Hsf)
        as [-> | [-> | [e ->]]]; intros [= <- <-];
        (split; [exact Hshape|]); right; right; exists d;
        (split; [reflexivity|]); (split; [now exists x|]).
      * left. exists true. split; [reflexivity | exact Hsf].
      * left. exists false. split; [reflexivity | exact Hsf].
      * right. now exists e.
  - rewrite (@sync_one_no_mapping f o n w); [|now rewrite Hget].
    intros [= <- <-]. split; [apply Hprinted|]. now left.
Qed.

Lemma sync_loop_cons (f : jsstring) (rest : list jsstring) (st : json * nat)
      (w : world) :
  sync_loop (f :: rest) st w
  = match sync_one f st w with
    | (Ok st', w') => sync_loop rest st' w'
    | (Throw e, w') => (Throw e, w')
    end.
Proof. reflexivity. Qed.

Lemma sync_loop_app (pre rest : list jsstring) :
  forall (st : json * nat) (w : world),
    sync_loop (pre ++ rest) st w
    = match sync_loop pre st w with
      | (Ok st', w') => sync_loop rest st' w'
      | (Throw e, w') => (Throw e, w')
      end.
Proof.
  induction pre as [|f pre IH]; intros st w; [reflexivity|].
  cbn [app]. rewrite !sync_loop_cons.
  destruct (sync_one f st w) as [[st1|e] w1]; [apply IH | reflexivity].
Qed.

(** What a completed loop did to a table of folder names. *)
Lemma sync_loop_folder (fs : list jsstring) :
  forall (o : list (jsstring * json)) (n : nat) (w w' : world)
         (m' : json) (n' : nat),
    folder_table o = true -> valid_names (files w) = true ->
    enumeration_order (keys o) ->
    sync_loop fs (JObject o, n) w = (Ok (m', n'), w') ->
    exists o',
      m' = JObject o' /\ (after_copies w' w /\ same_folders w' w)
      /\ folder_table o' = true
      /\ enumeration_order (keys o') /\ (n <= n')%nat
      /\ (forall k v, prop_get k o' = Some v -> prop_get k o = Some v)
      /\ (forall k d, prop_get k o = Some (JString d) ->
            (prop_get k o' = None <->
             missing w d /\ exists f, In f fs /\ tsFileName_of (cwd w) f = k)).
Proof.
  induction fs as [|f rest IH]; intros o n w w' m' n' Ht Hvalid Hord Hloop.
  - simpl in Hloop. injection Hloop as <- <- <-. exists o.
    split; [reflexivity|].
    split; [split; [apply after_copies_refl | apply same_folders_refl]|].
    split; [assumption|]. split; [assumption|]. split; [lia|].
    split; [auto|]. intros k d Hk. split.
    + intros Hn. congruence.
    + intros [_ [f [[] _]]].
  - rewrite sync_loop_cons in Hloop.
    destruct (sync_one f (JObject o, n) w) as [r1 w1] eqn:Hstep.
    destruct (sync_one_folder _ _ _ _ _ _ Ht Hvalid Hstep)
      as [(Hafter1 & Hfolders1 & _) Hcases].
    assert (Hvalid1 : valid_names (files w1) = true)
      by (destruct Hafter1 as (_ & _ & Hv & _); now apply Hv).
    assert (Hcwd1 : cwd w1 = cwd w) by apply Hafter1.
    assert (Hmiss : forall k d, prop_get k o = Some (JString d) ->
                                (missing w1 d <-> missing w d)).
    { intros k d Hk. apply same_folders_missing; [exact Hfolders1|].
      exact (folder_table_name _ _ _ Ht Hk). }
    assert (Hframe : forall w2,
               after_copies w2 w1 /\ same_folders w2 w1 ->
               after_copies w2 w /\ same_folders w2 w).
    { intros w2 [Ha Hf]. split.
      - exact (after_copies_trans _ _ _ Ha Hafter1).
      - exact (same_folders_trans _ _ _ Hf Hfolders1). }
    destruct Hcases as [(Hget & -> & Hw1)
                       |[(d0 & Hget & Hmiss0 & -> & Hw1)
                        |(d0 & Hget & [x Hx] & [(ok & -> & Hsf)|[e ->]])]];
      [| | |discriminate].
    + (* no mapping for this artifact *)
      destruct (IH _ _ _ _ _ _ Ht Hvalid1 Hord Hloop)
        as (o' & -> & Hs & Ht' & Hord' & Hle & Hsub & Hrem).
      exists o'. split; [reflexivity|].
      split; [now apply Hframe|].
      split; [assumption|]. split; [assumption|]. split; [assumption|].
      split; [assumption|]. intros k d H. split.
      * intros Hnone. destruct (proj1 (Hrem k d H) Hnone) as [Hm (f' & Hin & Hk)].
        split; [now apply (Hmiss _ _ H)|]. exists f'. split; [now right|].
        now rewrite <- Hcwd1.
      * intros [Hm (f' & [<- | Hin] & Hk)]; [congruence|].
        apply (Hrem k d H). split; [now apply (Hmiss _ _ H)|].
        exists f'. split; [assumption | now rewrite Hcwd1].
    + (* the folder is missing: the entry goes *)
      destruct (IH _ _ _ _ _ _ (folder_table_delete _ _ Ht) Hvalid1
                   (order_delete _ _ Hord) Hloop)
        as (o' & -> & Hs & Ht' & Hord' & Hle & Hsub & Hrem).
      exists o'. split; [reflexivity|].
      split; [now apply Hframe|].
      split; [assumption|]. split; [assumption|]. split; [assumption|].
      split.
      { intros k v Hk. specialize (Hsub k v Hk).
        rewrite prop_get_delete in Hsub.
        destruct (eqb k (tsFileName_of (cwd w) f)); [discriminate | assumption]. }
      intros k d H. split.
      * intros Hnone.
        destruct (eqb k (tsFileName_of (cwd w) f)) eqn:Ek.
        -- apply eqb_eq in Ek. subst k. rewrite Hget in H. injection H as <-.
           split; [assumption|]. exists f. split; [now left | reflexivity].
        -- assert (Hd : prop_get k (prop_delete (tsFileName_of (cwd w) f) o)
                        = Some (JString d))
             by (rewrite prop_get_delete, Ek; assumption).
           destruct (proj1 (Hrem k d Hd) Hnone) as [Hm (f' & Hin & Hk)].
           split; [now apply (Hmiss _ _ H)|]. exists f'. split; [now right|].
           now rewrite <- Hcwd1.
      * intros [Hm (f' & Hin & Hk)].
        destruct (eqb k (tsFileName_of (cwd w) f)) eqn:Ek.
        -- destruct (prop_get k o') as [v|] eqn:Hk'; [|reflexivity].
           specialize (Hsub k v Hk'). rewrite prop_get_delete, Ek in Hsub.
           discriminate.
        -- assert (Hd : prop_get k (prop_delete (tsFileName_of (cwd w) f) o)
                        = Some (JString d))
             by (rewrite prop_get_delete, Ek; assumption).
           apply (Hrem k d Hd). split; [now apply (Hmiss _ _ H)|].
           destruct Hin as [<- | Hin];
             [rewrite Hk, eqb_refl in Ek; discriminate|].
           exists f'. split; [assumption | now rewrite Hcwd1].
    + (* the folder is there *)
      destruct (IH _ _ _ _ _ _ Ht Hvalid1 Hord Hloop)
        as (o' & -> & Hs & Ht' & Hord' & Hle & Hsub & Hrem).
      exists o'. split; [reflexivity|].
      split; [now apply Hframe|].
      split; [assumption|]. split; [assumption|].
      split; [destruct ok; lia|].
      split; [assumption|]. intros k d H. split.
      * intros Hnone. destruct (proj1 (Hrem k d H) Hnone) as [Hm (f' & Hin & Hk)].
        split; [now apply (Hmiss _ _ H)|]. exists f'. split; [now right|].
        now rewrite <- Hcwd1.
      * intros [Hm (f' & [<- | Hin] & Hk)].
        -- exfalso. subst k. rewrite Hget in H. injection H as <-.
           destruct Hm as [e He]. congruence.
        -- apply (Hrem k d H). split; [now apply (Hmiss _ _ H)|].
           exists f'. split; [assumption | now rewrite Hcwd1].
Qed.

Lemma sync_one_object (f : jsstring) (o : list (jsstring * json)) (n n' : nat)
      (w w' : world) (m' : json) :
  sync_one f (JObject o, n) w = (Ok (m', n'), w') -> exists o', m' = JObject o'.
Proof.
  destruct (truthy_cases (prop_get (tsFileName_of (cwd w) f) o))
    as [Hf|[(d & Hd & Hne)|(x & Hx & Ht & Hs)]].
  - rewrite (@sync_one_no_mapping f o n w Hf). intros [= <- _ _]. eauto.
  - destruct (missing_dec w d) as [Hmiss|[x Hx]].
    + rewrite (@sync_one_missing f d o n w Hd Hne Hmiss).
      intros [= <- _ _]. eauto.
    + rewrite (@sync_one_present f d o n w x Hd Hne Hx), syncFile_eq.
      destruct (readdirSync (Path.join [WEBRESOURCES_DIR; d]) w)
        as [[names|e] w0]; [|discriminate].
      destruct (filter (ends_with (lit ".js")) names) as [|first rest];
        [intros [= <- _ _]; eauto|].
      cbv zeta.
      destruct (copyFileSync f _ w) as [[u|e] w1]; intros [= <- _ _]; eauto.
  - rewrite Hx in Ht.
    rewrite (@sync_one_not_a_string f o n w x Hx Ht Hs). discriminate.
Qed.

Lemma sync_loop_same_shape (fs : list jsstring) :
  forall (o : list (jsstring * json)) (n : nat) (w1 w2 w1' : world)
         (r : outcome (json * nat)),
    same_shape w1 w2 ->
    sync_loop fs (JObject o, n) w1 = (r, w1') ->
    exists w2', sync_loop fs (JObject o, n) w2 = (r, w2') /\ same_shape w1' w2'.
Proof.
  induction fs as [|f rest IH]; intros o n w1 w2 w1' r Hsame.
  - simpl. unfold ret. intros [= <- <-]. eauto.
  - rewrite !sync_loop_cons.
    destruct (sync_one f (JObject o, n) w1) as [r1 x1] eqn:Hstep.
    destruct (sync_one_same_shape _ _ _ _ _ _ _ Hsame Hstep)
      as (x2 & Hstep2 & Hs2).
    rewrite Hstep2. destruct r1 as [[m1 n1]|e].
    + destruct (sync_one_object _ _ _ _ _ _ _ Hstep) as [o1 ->].
      now apply IH.
    + intros [= <- <-]. eauto.
Qed.

Lemma not_a_directory_same_shape (w1 w2 : world) (p : jsstring) :
  same_shape w1 w2 -> stat w2 p <> Ok Dir -> stat w1 p <> Ok Dir.
Proof.
  intros Hs Hp H1. pose proof (@stat_same_shape w1 w2 p Hs) as Hk.
  rewrite H1 in Hk. destruct (stat w2 p) as [[c|]|e]; try discriminate.
  now apply Hp.
Qed.

(** The loop keeps the shape of the file table when no compiled file is
    a directory. *)
Lemma sync_loop_folder_shape (fs : list jsstring) :
  forall (o : list (jsstring * json)) (n : nat) (w w' : world)
         (m' : json) (n' : nat),
    folder_table o = true -> valid_names (files w) = true ->
    (forall f, In f fs -> stat w f <> Ok Dir) ->
    sync_loop fs (JObject o, n) w = (Ok (m', n'), w') -> same_shape w' w.
Proof.
  induction fs as [|f rest IH]; intros o n w w' m' n' Ht Hvalid Hfiles Hloop.
  - simpl in Hloop. injection Hloop as _ _ <-. apply same_shape_refl.
  - rewrite sync_loop_cons in Hloop.
    destruct (sync_one f (JObject o, n) w) as [r1 w1] eqn:Hstep.
    destruct (sync_one_folder _ _ _ _ _ _ Ht Hvalid Hstep)
      as [(_ & _ & Hshape1) Hcases].
    specialize (Hshape1 (Hfiles f (or_introl eq_refl))).
    assert (Hvalid1 : valid_names (files w1) = true)
      by (destruct Hshape1 as [_ Hs]; now rewrite (valid_names_shape _ _ Hs)).
    assert (Hfiles1 : forall f', In f' rest -> stat w1 f' <> Ok Dir).
    { intros f' Hin. apply (not_a_directory_same_shape _ _ _ Hshape1).
      apply Hfiles. now right. }
    destruct Hcases as [(_ & -> & _)
                       |[(d0 & _ & _ & -> & _)
                        |(d0 & _ & _ & [(ok & -> & _)|[e ->]])]];
      [| | |discriminate].
    + exact (same_shape_trans (IH _ _ _ _ _ _ Ht Hvalid1 Hfiles1 Hloop)
                              Hshape1).
    + exact (same_shape_trans
               (IH _ _ _ _ _ _ (folder_table_delete _ _ Ht) Hvalid1 Hfiles1
                   Hloop) Hshape1).
    + exact (same_shape_trans (IH _ _ _ _ _ _ Ht Hvalid1 Hfiles1 Hloop)
                              Hshape1).
Qed.

(** Running the loop again, on the table the first pass produced, changes
    nothing in the table and counts the same files, when no compiled file
    is a directory. *)
Lemma sync_loop_again (fs : list jsstring) :
  forall (o o' : list (jsstring * json)) (n n' : nat) (w w' : world),
    folder_table o = true -> valid_names (files w) = true ->
    enumeration_order (keys o) ->
    (forall f, In f fs -> stat w f <> Ok Dir) ->
    sync_loop fs (JObject o, n) w = (Ok (JObject o', n'), w') ->
    forall n2, exists w'',
      sync_loop fs (JObject o', n2) w = (Ok (JObject o', n2 + (n' - n))%nat, w'')
      /\ same_shape w'' w.
Proof.
  induction fs as [|f rest IH];
    intros o o' n n' w w' Ht Hvalid Hord Hfiles Hloop n2.
  - simpl in Hloop. injection Hloop as <- <- <-. exists w. simpl. unfold ret.
    split; [f_equal; f_equal; f_equal; lia | apply same_shape_refl].
  - rewrite sync_loop_cons in Hloop.
    destruct (sync_one f (JObject o, n) w) as [r1 w1] eqn:Hstep.
    destruct (sync_one_folder _ _ _ _ _ _ Ht Hvalid Hstep)
      as [(_ & _ & Hshape1) Hcases].
    specialize (Hshape1 (Hfiles f (or_introl eq_refl))).
    assert (Hvalid1 : valid_names (files w1) = true)
      by (destruct Hshape1 as [_ Hs]; now rewrite (valid_names_shape _ _ Hs)).
    assert (Hcwd1 : cwd w1 = cwd w) by apply Hshape1.
    assert (Hfiles1 : forall f', In f' rest -> stat w1 f' <> Ok Dir).
    { intros f' Hin. apply (not_a_directory_same_shape _ _ _ Hshape1).
      apply Hfiles. now right. }
    rewrite sync_loop_cons.
    destruct Hcases as [(Hget & -> & Hw1)
                       |[(d0 & Hget & Hmiss0 & -> & Hw1)
                        |(d0 & Hget & [x Hx] & [(ok & -> & Hsf)|[e ->]])]];
      [| | |discriminate].
    + (* no mapping, neither time *)
      destruct (sync_loop_folder _ _ _ _ _ _ _ Ht Hvalid1 Hord Hloop)
        as (o'' & Ho'' & _ & _ & _ & _ & Hsub & _).
      injection Ho'' as <-.
      assert (Hnone : prop_get (tsFileName_of (cwd w) f) o' = None).
      { destruct (prop_get (tsFileName_of (cwd w) f) o') as [v|] eqn:Hv;
          [|reflexivity]. apply Hsub in Hv. congruence. }
      rewrite (@sync_one_no_mapping f o' n2 w); [|now rewrite Hnone].
      rewrite <- Hw1.
      destruct (IH _ _ _ _ _ _ Ht Hvalid1 Hord Hfiles1 Hloop n2) as (w'' & Hagain & Hs).
      exists w''. split; [exact Hagain|].
      exact (@same_shape_trans _ _ _ Hs Hshape1).
    + (* pruned the first time, unmapped the second *)
      destruct (sync_loop_folder _ _ _ _ _ _ _ (folder_table_delete _ _ Ht)
                  Hvalid1 (order_delete _ _ Hord) Hloop)
        as (o'' & Ho'' & _ & _ & _ & _ & Hsub & _).
      injection Ho'' as <-.
      assert (Hnone : prop_get (tsFileName_of (cwd w) f) o' = None).
      { destruct (prop_get (tsFileName_of (cwd w) f) o') as [v|] eqn:Hv;
          [|reflexivity]. apply Hsub in Hv.
        rewrite prop_get_delete, eqb_refl in Hv. discriminate. }
      rewrite (@sync_one_no_mapping f o' n2 w); [|now rewrite Hnone].
      destruct (IH _ _ _ _ _ _ (folder_table_delete _ _ Ht) Hvalid1
                   (order_delete _ _ Hord) Hfiles1 Hloop n2) as (w'' & Hagain & Hs).
      assert (Hsame : same_shape w1
                (printed w [No_mapping_found (tsFileName_of (cwd w) f)])).
      { eapply same_shape_trans; [exact Hshape1|].
        apply same_shape_sym, same_shape_printed. }
      destruct (sync_loop_same_shape _ _ _ _ _ _ _ Hsame Hagain)
        as (w2 & Hagain2 & Hs2).
      exists w2. split; [exact Hagain2|].
      eapply same_shape_trans; [apply same_shape_sym; exact Hs2|].
      exact (@same_shape_trans _ _ _ Hs Hshape1).
    + (* synced (or not) the same way both times *)
      destruct (sync_loop_folder _ _ _ _ _ _ _ Ht Hvalid1 Hord Hloop)
        as (o'' & Ho'' & _ & Ht' & _ & Hle & Hsub & Hrem).
      injection Ho'' as <-.
      assert (Hget' : prop_get (tsFileName_of (cwd w) f) o' = Some (JString d0)).
      { destruct (prop_get (tsFileName_of (cwd w) f) o') as [v|] eqn:Hv.
        - apply Hsub in Hv. congruence.
        - apply (Hrem _ _ Hget) in Hv. destruct Hv as [Hm _].
          apply (missing_same_shape _ _ _ Hshape1) in Hm.
          destruct Hm as [e He]. congruence. }
      destruct (folder_table_get _ _ _ Ht Hget) as (d & Hd & Hbase & Hne).
      injection Hd as <-.
      rewrite (@sync_one_present f d0 o' n2 w x Hget' Hne Hx).
      fold (target_of d0).
      destruct (syncFile_any_table _ _ _ o' _ _ _ _ Hsf) as [m2 Hsf2].
      destruct (syncFile_folder _ _ _ _ _ _ Hget' Hbase Hsf2)
        as [H | [H | [e H]]]; try discriminate;
        injection H as Hok Hm2; subst m2; rewrite Hsf2.
      all: destruct (IH _ _ _ _ _ _ Ht Hvalid1 Hord Hfiles1 Hloop
                        (if ok then S n2 else n2)) as (w'' & Hagain & Hs).
      all: exists w''; split; [|exact (@same_shape_trans _ _ _ Hs Hshape1)].
      all: rewrite Hagain; f_equal; f_equal; f_equal; destruct ok; lia.
Qed.

(** ** Nothing changes the order of [glob] *)

Lemma keeps_order_ret {A : Type} (a : A) : keeps_order (ret a).
Proof. intros w. reflexivity. Qed.

Lemma keeps_order_throw {A : Type} (e : exn) : keeps_order (@throw A e).
Proof. intros w. reflexivity. Qed.

Lemma keeps_order_log (m : message) : keeps_order (log m).
Proof. intros w. reflexivity. Qed.

Lemma keeps_order_get_world : keeps_order get_world.
Proof. intros w. reflexivity. Qed.

Lemma keeps_order_bind {A B : Type} (m : M A) (k : A -> M B) :
  keeps_order m -> (forall a, keeps_order (k a)) -> keeps_order (bind m k).
Proof.
  intros Hm Hk w. unfold bind. specialize (Hm w).
  destruct (m w) as [[a|e] w1]; cbn [snd] in *; [|exact Hm].
  now rewrite (Hk a w1).
Qed.

Lemma keeps_order_try_catch {A : Type} (m : M A) (h : exn -> M A) :
  keeps_order m -> (forall e, keeps_order (h e)) ->
  keeps_order (try_catch m h).
Proof.
  intros Hm Hh w. unfold try_catch. specialize (Hm w).
  destruct (m w) as [[a|e] w1]; cbn [snd] in *; [exact Hm|].
  now rewrite (Hh e w1).
Qed.

Lemma keeps_order_existsSync (p : jsstring) : keeps_order (existsSync p).
Proof. intros w. reflexivity. Qed.

Lemma keeps_order_isDirectory (p : jsstring) : keeps_order (isDirectory p).
Proof. intros w. unfold isDirectory. now destruct (stat w p) as [[c|]|e]. Qed.

Lemma keeps_order_readFileSync (p : jsstring) : keeps_order (readFileSync p).
Proof. intros w. unfold readFileSync. now destruct (stat w p) as [[c|]|e]. Qed.

Lemma keeps_order_readdirSync (p : jsstring) : keeps_order (readdirSync p).
Proof. intros w. unfold readdirSync. now destruct (stat w p) as [[c|]|e]. Qed.

Lemma keeps_order_store (p c : jsstring) : keeps_order (store p c).
Proof.
  intros w. destruct (store p c w) as [r w1] eqn:H.
  exact (@store_glob_order _ _ _ _ _ H).
Qed.

Lemma keeps_order_copyFileSync (src dest : jsstring) :
  keeps_order (copyFileSync src dest).
Proof.
  intros w. unfold copyFileSync. destruct (stat w src) as [[c|]|e];
    [apply keeps_order_store | | reflexivity].
  apply (keeps_order_bind (store dest [])); [apply keeps_order_store|].
  intros _. apply keeps_order_bind; [|intros _; apply keeps_order_throw].
  intros w1. reflexivity.
Qed.

Lemma keeps_order_glob_sync_js (root : jsstring) :
  keeps_order (glob_sync_js root).
Proof. intros w. reflexivity. Qed.

Create HintDb keeps.

#[local] Hint Resolve keeps_order_ret keeps_order_throw keeps_order_log
  keeps_order_get_world keeps_order_existsSync keeps_order_isDirectory
  keeps_order_readFileSync keeps_order_readdirSync keeps_order_store
  keeps_order_copyFileSync keeps_order_glob_sync_js : keeps.

Ltac keeps_order_step :=
  match goal with
  | |- keeps_order (bind _ _) => apply keeps_order_bind
  | |- keeps_order (try_catch _ _) => apply keeps_order_try_catch
  | |- keeps_order (match ?x with _ => _ end) => destruct x
  | |- forall _, _ => intro
  | |- keeps_order _ => solve [auto with keeps]
  end.

Lemma keeps_order_getWebResourceInfo (d : jsstring) :
  keeps_order (getWebResourceInfo d).
Proof. unfold getWebResourceInfo. repeat keeps_order_step. Qed.

Lemma keeps_order_filter_directories (names : list jsstring) :
  keeps_order (filter_directories names).
Proof.
  induction names as [|d rest IH]; cbn [filter_directories];
    repeat keeps_order_step.
Qed.

Lemma keeps_order_getWebResourceDirs : keeps_order getWebResourceDirs.
Proof.
  unfold getWebResourceDirs.
  repeat (keeps_order_step || apply keeps_order_filter_directories).
Qed.

Lemma keeps_order_list_web_resources (dirs : list jsstring) :
  forall index, keeps_order (list_web_resources index dirs).
Proof.
  induction dirs as [|d rest IH]; intros index; cbn [list_web_resources];
    repeat (keeps_order_step || apply keeps_order_getWebResourceInfo
            || apply IH).
Qed.

Lemma keeps_order_loadMapping : keeps_order SyncWebResources.loadMapping.
Proof. unfold SyncWebResources.loadMapping. repeat keeps_order_step. Qed.

Lemma keeps_order_getCompiledFiles : keeps_order getCompiledFiles.
Proof. unfold getCompiledFiles. repeat keeps_order_step. Qed.

Lemma keeps_order_syncFile (f t : jsstring) (m : json) :
  keeps_order (syncFile f t m).
Proof.
  unfold syncFile, mapping_set. repeat keeps_order_step.
Qed.

Lemma keeps_order_sync_one (f : jsstring) (st : json * nat) :
  keeps_order (sync_one f st).
Proof.
  destruct st as [m n].
  unfold sync_one, mapping_get, mapping_delete, join_target.
  repeat (keeps_order_step || apply keeps_order_syncFile).
Qed.

Lemma keeps_order_sync_loop (fs : list jsstring) :
  forall st, keeps_order (sync_loop fs st).
Proof.
  induction fs as [|f rest IH]; intros st; cbn [sync_loop];
    repeat (keeps_order_step || apply keeps_order_sync_one || apply IH).
Qed.

Lemma keeps_order_syncWebResources : keeps_order syncWebResources.
Proof.
  unfold syncWebResources, SyncWebResources.saveMapping, writeFileSync.
  repeat (keeps_order_step || apply keeps_order_loadMapping
          || apply keeps_order_getCompiledFiles
          || apply keeps_order_getWebResourceDirs
          || apply keeps_order_list_web_resources
          || apply keeps_order_sync_loop).
Qed.

(** ** The run, piece by piece *)

Lemma same_files_refl (w : world) : same_files w w.
Proof. split; reflexivity. Qed.

Lemma same_files_trans (w1 w2 w3 : world) :
  same_files w1 w2 -> same_files w2 w3 -> same_files w1 w3.
Proof. intros [H1 H2] [H3 H4]. split; congruence. Qed.

Lemma same_files_printed (w : world) (ms : list message) :
  same_files (printed w ms) w.
Proof. split; reflexivity. Qed.

Lemma same_files_shape (w1 w2 : world) : same_files w1 w2 -> same_shape w1 w2.
Proof. intros [H1 H2]. split; congruence. Qed.

Lemma stat_same_files (w1 w2 : world) (p : jsstring) :
  same_files w1 w2 -> stat w1 p = stat w2 p.
Proof. intros [H1 H2]. unfold stat. now rewrite H1, H2. Qed.

Lemma persisted_same_files (w1 w2 : world) :
  same_files w1 w2 -> persisted w1 = persisted w2.
Proof. intros H. unfold persisted. now rewrite (stat_same_files w1 w2 _ H). Qed.

Lemma discovered_same_shape (w1 w2 : world) :
  same_shape w1 w2 -> glob_order w1 = glob_order w2 ->
  discovered w1 = discovered w2.
Proof.
  intros Hs Hg. pose proof (@stat_same_shape w1 w2 DIST_DIR Hs) as Hk.
  destruct Hs as [Hcwd Hshape]. unfold discovered. rewrite Hcwd, Hg.
  rewrite (glob_entries_paths _ _ _ _ (@shape_paths _ _ Hshape)).
  destruct (stat w1 DIST_DIR), (stat w2 DIST_DIR); try discriminate; reflexivity.
Qed.

Lemma printed_nil (w : world) : printed w [] = w.
Proof. destruct w. unfold printed. simpl. now rewrite app_nil_r. Qed.

Lemma quiet_nil : quiet [].
Proof. intros d. reflexivity. Qed.

Lemma loadMapping_loaded (w : world) :
  exists ms,
    SyncWebResources.loadMapping w = (Ok (loaded w), printed w ms)
    /\ quiet ms.
Proof.
  pose proof (loadMapping_cases w) as Hcases.
  unfold loaded, persisted.
  destruct (stat w CONFIG_FILE) as [[c|]|e] eqn:Hs;
    [destruct (parse c) as [v|] eqn:Hp|..];
    destruct Hcases as [_ ->];
    try (eexists; split; [reflexivity | intros d; reflexivity]).
  exists []. split; [now rewrite printed_nil | apply quiet_nil].
Qed.

Lemma getCompiledFiles_discovered (w : world) :
  exists ms,
    getCompiledFiles w = (Ok (discovered w), printed w ms) /\ quiet ms.
Proof.
  unfold getCompiledFiles, bind, existsSync, discovered, glob_sync_js.
  destruct (stat w DIST_DIR); simpl.
  - exists []. split; [now rewrite printed_nil | apply quiet_nil].
  - exists [No_dist_directory]. split; [reflexivity | intros d; reflexivity].
Qed.

Lemma started_same_files (w : world) : same_files (started w) w.
Proof.
  unfold started.
  destruct (loadMapping_loaded (snd (log Sync_banner w))) as (ms1 & H1 & _).
  rewrite H1. cbn [snd].
  destruct (getCompiledFiles_discovered
              (printed (snd (log Sync_banner w)) ms1)) as (ms2 & H2 & _).
  rewrite H2. cbn [snd]. split; reflexivity.
Qed.

Lemma loaded_same_files (w1 w2 : world) :
  same_files w1 w2 -> loaded w1 = loaded w2.
Proof. intros H. unfold loaded. now rewrite (persisted_same_files _ _ H). Qed.

(** The run is the loading followed by the rest. *)
Lemma syncWebResources_eq (w : world) :
  syncWebResources w = after_loading (loaded w) (discovered w) (started w).
Proof.
  unfold syncWebResources, after_loading, started.
  unfold bind at 1 2 3. cbn [log fst snd].
  destruct (loadMapping_loaded (printed w [Sync_banner])) as (ms1 & H1 & _).
  rewrite H1. cbn [snd].
  destruct (getCompiledFiles_discovered
              (printed (printed w [Sync_banner]) ms1)) as (ms2 & H2 & _).
  rewrite H2. cbn [snd].
  assert (Hsf : same_files (printed (printed w [Sync_banner]) ms1) w)
    by (split; reflexivity).
  rewrite (loaded_same_files _ _ (same_files_printed w [Sync_banner])).
  rewrite (discovered_same_shape _ _ (same_files_shape _ _ Hsf) eq_refl).
  reflexivity.
Qed.

(** ** Listing the folders reads the files and prints *)

Lemma filter_directories_reads (names : list jsstring) (w : world) :
  snd (filter_directories names w) = w.
Proof.
  induction names as [|d rest IH]; [reflexivity|].
  cbn [filter_directories]. unfold bind, isDirectory.
  destruct (stat w _) as [[c|]|e]; try reflexivity;
    specialize IH; destruct (filter_directories rest w) as [[kept|e] x];
    simpl in *; assumption.
Qed.

Lemma filter_directories_same_shape (names : list jsstring) (w1 w2 : world) :
  same_shape w1 w2 ->
  fst (filter_directories names w1) = fst (filter_directories names w2).
Proof.
  intros Hs. induction names as [|d rest IH]; [reflexivity|].
  cbn [filter_directories]. unfold bind, isDirectory.
  pose proof (@stat_same_shape w1 w2 (Path.join [WEBRESOURCES_DIR; d]) Hs) as Hk.
  pose proof (filter_directories_reads rest w1) as R1.
  pose proof (filter_directories_reads rest w2) as R2.
  destruct (stat w1 _) as [[c1|]|e1], (stat w2 _) as [[c2|]|e2];
    try discriminate; simpl in Hk; try (injection Hk as ->); try reflexivity.
  all: destruct (filter_directories rest w1) as [[k1|x1] y1],
                (filter_directories rest w2) as [[k2|x2] y2];
    simpl in *; try discriminate; try congruence.
Qed.

Lemma getWebResourceDirs_reads (w : world) :
  same_files (snd (getWebResourceDirs w)) w.
Proof.
  unfold getWebResourceDirs, bind. rewrite existsSync_eq.
  destruct (stat w WEBRESOURCES_DIR) as [n|e]; simpl.
  - destruct (readdirSync WEBRESOURCES_DIR w) as [[names|e] x] eqn:Hd;
      apply readdirSync_world in Hd; subst x; simpl.
    + rewrite filter_directories_reads. apply same_files_refl.
    + apply same_files_refl.
  - apply same_files_printed.
Qed.

Lemma getWebResourceDirs_same_shape (w1 w2 : world) :
  same_shape w1 w2 ->
  fst (getWebResourceDirs w1) = fst (getWebResourceDirs w2).
Proof.
  intros Hs. unfold getWebResourceDirs, bind. rewrite !existsSync_eq.
  pose proof (@stat_same_shape w1 w2 WEBRESOURCES_DIR Hs) as Hk.
  pose proof (@readdirSync_same_shape w1 w2 WEBRESOURCES_DIR Hs) as Hd.
  destruct (stat w1 WEBRESOURCES_DIR) as [n1|e1],
           (stat w2 WEBRESOURCES_DIR) as [n2|e2]; try discriminate; simpl.
  - destruct (readdirSync WEBRESOURCES_DIR w1) as [[names1|x1] y1] eqn:H1,
             (readdirSync WEBRESOURCES_DIR w2) as [[names2|x2] y2] eqn:H2;
      simpl in Hd; try discriminate; try exact Hd.
    apply readdirSync_world in H1, H2. subst y1 y2.
    injection Hd as ->. now apply filter_directories_same_shape.
  - reflexivity.
Qed.

Lemma getWebResourceInfo_reads (d : jsstring) (w : world) :
  snd (getWebResourceInfo d w) = w.
Proof.
  unfold getWebResourceInfo, bind. rewrite existsSync_eq. unfold readFileSync.
  destruct (stat w _) as [[c|]|e] eqn:Hs; simpl; rewrite ?Hs; reflexivity.
Qed.

(** Whether the descriptor can be read depends on the shape alone. *)
Lemma getWebResourceInfo_same_shape (d : jsstring) (w1 w2 : world) :
  same_shape w1 w2 ->
  match fst (getWebResourceInfo d w1), fst (getWebResourceInfo d w2) with
  | Ok _, Ok _ => True
  | Throw e1, Throw e2 => e1 = e2
  | _, _ => False
  end.
Proof.
  intros Hs. unfold getWebResourceInfo, bind. rewrite !existsSync_eq.
  unfold readFileSync.
  pose proof (@stat_same_shape w1 w2
                (Path.join [WEBRESOURCES_DIR; d; lit "webresource.yml"]) Hs)
    as Hk.
  destruct (stat w1 _) as [[c1|]|e1] eqn:H1, (stat w2 _) as [[c2|]|e2] eqn:H2;
    try discriminate; simpl; rewrite ?H1, ?H2; simpl; auto.
Qed.

Lemma list_web_resources_reads (dirs : list jsstring) :
  forall (index : nat) (w : world),
    same_files (snd (list_web_resources index dirs w)) w.
Proof.
  induction dirs as [|d rest IH]; intros index w; [apply same_files_refl|].
  cbn [list_web_resources]. unfold bind at 1.
  pose proof (getWebResourceInfo_reads d w) as Hr.
  destruct (getWebResourceInfo d w) as [[i|e] x]; simpl in Hr; subst x;
    [|apply same_files_refl].
  unfold bind, log.
  eapply same_files_trans; [apply IH | apply same_files_printed].
Qed.

Lemma list_web_resources_same_shape (dirs : list jsstring) :
  forall (index : nat) (w1 w2 : world),
    same_shape w1 w2 ->
    fst (list_web_resources index dirs w1)
    = fst (list_web_resources index dirs w2).
Proof.
  induction dirs as [|d rest IH]; intros index w1 w2 Hs; [reflexivity|].
  cbn [list_web_resources]. unfold bind at 1 3.
  pose proof (getWebResourceInfo_reads d w1) as Hr1.
  pose proof (getWebResourceInfo_reads d w2) as Hr2.
  pose proof (getWebResourceInfo_same_shape d w1 w2 Hs) as Hi.
  destruct (getWebResourceInfo d w1) as [[i1|e1] x1],
           (getWebResourceInfo d w2) as [[i2|e2] x2];
    simpl in Hr1, Hr2, Hi; subst; try contradiction; [|reflexivity].
  unfold bind, log. apply IH.
  destruct Hs as [Hc Hf]. split; assumption.
Qed.

(** ** The run after the loading *)

Lemma listed_same_files (w : world) : same_files (listed w) w.
Proof.
  unfold listed. pose proof (getWebResourceDirs_reads w) as Hd.
  destruct (getWebResourceDirs w) as [[dirs|e] wa]; simpl in Hd; [|exact Hd].
  eapply same_files_trans; [apply same_files_printed|].
  eapply same_files_trans; [apply list_web_resources_reads|].
  eapply same_files_trans; [apply same_files_printed | exact Hd].
Qed.

Lemma listing_ok_same_shape (w1 w2 : world) :
  same_shape w1 w2 -> listing_ok w1 = listing_ok w2.
Proof.
  intros Hs. unfold listing_ok.
  pose proof (getWebResourceDirs_same_shape w1 w2 Hs) as Hd.
  pose proof (getWebResourceDirs_reads w1) as R1.
  pose proof (getWebResourceDirs_reads w2) as R2.
  destruct (getWebResourceDirs w1) as [[dirs1|e1] x1],
           (getWebResourceDirs w2) as [[dirs2|e2] x2];
    simpl in Hd, R1, R2; try discriminate; [|reflexivity].
  injection Hd as ->.
  assert (Hx : same_shape (printed x1 [Available_web_resources])
                          (printed x2 [Available_web_resources])).
  { apply same_shape_printed_both.
    apply same_files_shape in R1, R2.
    exact (same_shape_trans R1 (same_shape_trans Hs (same_shape_sym R2))). }
  pose proof (list_web_resources_same_shape dirs2 0 _ _ Hx) as Hl.
  destruct (list_web_resources 0 dirs2 (printed x1 [Available_web_resources]))
    as [[u1|e1] y1],
    (list_web_resources 0 dirs2 (printed x2 [Available_web_resources]))
    as [[u2|e2] y2]; simpl in Hl; try discriminate; reflexivity.
Qed.

(** With nothing compiled the run stops before the loop. *)
Lemma after_loading_nil (m : json) (w : world) :
  same_files (snd (after_loading m [] w)) w
  /\ fst (after_loading m [] w)
     = match fst (getWebResourceDirs w) with
       | Ok _ => Ok None
       | Throw e => Throw e
       end.
Proof.
  unfold after_loading, bind. pose proof (getWebResourceDirs_reads w) as Hd.
  destruct (getWebResourceDirs w) as [[dirs|e] wa]; simpl in *.
  - split; [|reflexivity].
    eapply same_files_trans; [apply same_files_printed | exact Hd].
  - split; [exact Hd | reflexivity].
Qed.

(** With something compiled, and the folders listed, the run is the loop,
    the save and the closing lines. *)
Lemma after_loading_cons (m : json) (f : jsstring) (fs : list jsstring)
      (w : world) :
  listing_ok w = true ->
  after_loading m (f :: fs) w
  = match sync_loop (f :: fs) (m, O) (listed w) with
    | (Ok (m', n), wc) =>
        match SyncWebResources.saveMapping m' wc with
        | (Ok _, wd) => (Ok (Some n), printed wd (closing_lines n))
        | (Throw e, wd) => (Throw e, wd)
        end
    | (Throw e, wc) => (Throw e, wc)
    end.
Proof.
  unfold listing_ok, listed, after_loading. unfold bind at 1.
  destruct (getWebResourceDirs w) as [[dirs|e] wa]; [|discriminate].
  unfold bind at 1. unfold log at 1. unfold bind at 1.
  destruct (list_web_resources 0 dirs (printed wa [Available_web_resources]))
    as [[u|e] wb]; [|discriminate].
  intros _. cbn [snd]. unfold bind at 1. unfold log at 1. unfold bind at 1.
  destruct (sync_loop (f :: fs) (m, O) (printed wb [Blank_line]))
    as [[[m' n]|e] wc]; [|reflexivity].
  unfold bind at 1.
  destruct (SyncWebResources.saveMapping m' wc) as [[u'|e] wd]; [|reflexivity].
  unfold bind, log, ret, closing_lines, printed. simpl.
  destruct (Nat.ltb 0 n); simpl; rewrite <- ?app_assoc; reflexivity.
Qed.

Lemma after_loading_not_listed (m : json) (f : jsstring) (fs : list jsstring)
      (w : world) :
  listing_ok w = false -> exists e, fst (after_loading m (f :: fs) w) = Throw e.
Proof.
  unfold listing_ok, after_loading. unfold bind at 1.
  destruct (getWebResourceDirs w) as [[dirs|e] wa];
    [|intros _; exists e; reflexivity].
  unfold bind at 1. unfold log at 1. unfold bind at 1.
  destruct (list_web_resources 0 dirs (printed wa [Available_web_resources]))
    as [[u|e] wb]; [discriminate|intros _; exists e; reflexivity].
Qed.

Lemma loaded_order (w : world) (o : list (jsstring * json)) :
  loaded w = JObject o -> enumeration_order (keys o).
Proof.
  unfold loaded, persisted.
  destruct (stat w CONFIG_FILE) as [[c|]|e];
    try (intros [= <-]; constructor).
  destruct (parse c) as [v|] eqn:Hp; [|intros [= <-]; constructor].
  intros ->. exact (parse_object_order _ Hp).
Qed.

(** What the mapping file holds once a table in enumeration order is
    saved. *)
Lemma persisted_after_save (o : list (jsstring * json)) (w w' : world) :
  string_table o -> enumeration_order (keys o) ->
  SyncWebResources.saveMapping (JObject o) w = (Ok tt, w') ->
  persisted w' = Some (JObject o).
Proof.
  intros Hst Hord Hsave.
  destruct (@load_after_save o w w' Hst Hsave) as (_ & _ & Hstat & _).
  unfold persisted. rewrite Hstat, (parse_stringify_string_table Hst).
  now rewrite rebuilt_ordered.
Qed.

(** A run that returns either stopped before the loop, with nothing
    compiled, or went through the loop and saved the table. *)
Lemma run_returns (w w' : world) (r : option nat)
      (o : list (jsstring * json)) :
  valid_names (files w) = true ->
  loaded w = JObject o -> folder_table o = true ->
  syncWebResources w = (Ok r, w') ->
  (discovered w = [] /\ r = None /\ same_files w' w)
  \/ (exists (o' : list (jsstring * json)) (n : nat) (w2 w3 : world),
        discovered w <> [] /\ listing_ok (started w) = true
        /\ sync_loop (discovered w) (JObject o, O) (listed (started w))
           = (Ok (JObject o', n), w2)
        /\ SyncWebResources.saveMapping (JObject o') w2 = (Ok tt, w3)
        /\ r = Some n /\ w' = printed w3 (closing_lines n)
        /\ persisted w' = Some (JObject o')
        /\ folder_table o' = true /\ enumeration_order (keys o')).
Proof.
  intros Hvalid Hload Ht Hrun. rewrite syncWebResources_eq, Hload in Hrun.
  destruct (discovered w) as [|f fs] eqn:Hfs.
  - left. destruct (after_loading_nil (JObject o) (started w)) as [Hw Hr].
    rewrite Hrun in Hw, Hr. cbn [fst snd] in Hw, Hr.
    split; [reflexivity|]. split.
    + destruct (fst (getWebResourceDirs (started w))); congruence.
    + exact (same_files_trans _ _ _ Hw (started_same_files w)).
  - right. destruct (listing_ok (started w)) eqn:Hok.
    2:{ destruct (after_loading_not_listed (JObject o) f fs _ Hok) as [e He].
        rewrite Hrun in He. discriminate. }
    rewrite (after_loading_cons _ _ _ _ Hok) in Hrun.
    destruct (sync_loop (f :: fs) (JObject o, O) (listed (started w)))
      as [[[m' n]|e] wc] eqn:Hloop; [|discriminate].
    assert (Hsf : same_files (listed (started w)) w)
      by exact (same_files_trans _ _ _ (listed_same_files _)
                                 (started_same_files w)).
    assert (Hvalid' : valid_names (files (listed (started w))) = true)
      by (destruct Hsf as [_ ->]; exact Hvalid).
    destruct (sync_loop_folder (f :: fs) o O _ _ _ _ Ht Hvalid'
                (loaded_order _ _ Hload) Hloop)
      as (o' & -> & _ & Ht' & Hord' & _).
    destruct (SyncWebResources.saveMapping (JObject o') wc) as [[[]|e] wd]
      eqn:Hsave; [|discriminate].
    injection Hrun as <- <-.
    exists o', n, wc, wd. split; [discriminate|].
    repeat (split; [reflexivity || assumption|]).
    split; [|split; assumption].
    rewrite (persisted_same_files _ _
               (same_files_printed wd (closing_lines n))).
    exact (persisted_after_save _ _ _ (folder_table_strings _ Ht') Hord' Hsave).
Qed.

(** ** What a run does to the table *)

(** C9 (as stated, refuted).  With the folder written as [./folder-123]
    the run copies the script and stores the folder's base name under the
    key: the key stays and its value has changed. *)
Lemma a_run_rewrites_a_dotted_folder :
  let w := Examples.world_of Examples.dotted_files in
  let w' := snd (syncWebResources w) in
  let o := [(lit "widgetForm.ts", JString (lit "./folder-123"))] in
  let o' := [(lit "widgetForm.ts", JString (lit "folder-123"))] in
  loaded w = JObject o
  /\ fst (syncWebResources w) = Ok (Some 1%nat)
  /\ persisted w' = Some (JObject o')
  /\ ~ (forall k v, prop_get k o' = Some v -> prop_get k o = Some v).
Proof.
  intros w w' o o'. split; [vm_compute; reflexivity|].
  split; [vm_compute; reflexivity|].
  split; [vm_compute; reflexivity|].
  intros H. specialize (H (lit "widgetForm.ts") (JString (lit "folder-123"))).
  vm_compute in H. specialize (H eq_refl). discriminate.
Qed.

(** C9 (amended).  Take a run that loads a table whose values are folder
    names, and that returns.  If nothing was compiled, the mapping file is
    as it was.  Otherwise the mapping file holds a table in which every key
    is a key of the loaded table, with the value it had, and a key of the
    loaded table is gone exactly when its folder is missing and a compiled
    file yields this key. *)
Theorem run_only_deletes_entries (w w' : world) (r : option nat)
        (o : list (jsstring * json)) :
  valid_names (files w) = true ->
  loaded w = JObject o -> folder_table o = true ->
  syncWebResources w = (Ok r, w') ->
  match r with
  | None => discovered w = [] /\ persisted w' = persisted w
  | Some _ =>
      exists o',
        persisted w' = Some (JObject o')
        /\ (forall k, In k (keys o') -> In k (keys o))
        /\ (forall k v, prop_get k o' = Some v -> prop_get k o = Some v)
        /\ (forall k d, prop_get k o = Some (JString d) ->
              (prop_get k o' = None <->
               missing w d
               /\ exists f, In f (discovered w)
                            /\ tsFileName_of (cwd w) f = k))
  end.
Proof.
  intros Hvalid Hload Ht Hrun.
  destruct (run_returns _ _ _ _ Hvalid Hload Ht Hrun)
    as [(Hnone & -> & Hsf)
       | (o' & n & w2 & w3 & _ & _ & Hloop & _ & -> & _ & Hp & _)].
  { split; [exact Hnone | exact (persisted_same_files _ _ Hsf)]. }
  assert (Hsf : same_files (listed (started w)) w)
    by exact (same_files_trans _ _ _ (listed_same_files _)
                               (started_same_files w)).
  assert (Hvalid' : valid_names (files (listed (started w))) = true)
    by (destruct Hsf as [_ ->]; exact Hvalid).
  destruct (sync_loop_folder _ _ _ _ _ _ _ Ht Hvalid'
              (loaded_order _ _ Hload) Hloop)
    as (o2 & [= <-] & _ & _ & _ & _ & Hsub & Hgone).
  exists o'. split; [exact Hp|]. split; [|split; [exact Hsub|]].
  - intros k Hin. unfold keys in *. apply prop_get_In in Hin.
    apply prop_get_In. destruct (prop_get k o') as [v|] eqn:Hk;
      [|contradiction]. now rewrite (Hsub _ _ Hk).
  - intros k d Hk. rewrite (Hgone k d Hk). destruct Hsf as [Hcwd Hfiles].
    unfold missing, stat. now rewrite Hcwd, Hfiles.
Qed.

Lemma run_only_deletes_entries_witness :
  let w := Examples.old_last Examples.stale_files in
  let w' := snd (syncWebResources w) in
  let o := map (fun kv => (fst kv, JString (snd kv))) Examples.stale_table in
  exists o',
    persisted w' = Some (JObject o')
    /\ (forall k, In k (keys o') -> In k (keys o))
    /\ (forall k v, prop_get k o' = Some v -> prop_get k o = Some v)
    /\ (forall k d, prop_get k o = Some (JString d) ->
          (prop_get k o' = None <->
           missing w d
           /\ exists f, In f (discovered w) /\ tsFileName_of (cwd w) f = k)).
Proof.
  intros w w' o.
  apply (run_only_deletes_entries w w' (Some 1%nat) o).
  - vm_compute. reflexivity.
  - vm_compute. reflexivity.
  - vm_compute. reflexivity.
  - vm_compute. reflexivity.
Defined.

(** ** Running twice *)

(** Writing over a regular file keeps the shape of the file table. *)
Lemma store_keeps_shape (p c : jsstring) (w w' : world) (r : outcome unit) :
  kind (stat w p) = Ok false -> store p c w = (r, w') -> same_shape w' w.
Proof.
  unfold stat, store.
  destruct (Path.resolve (cwd w) p) as [|s q]; [discriminate|].
  destruct (lookup (s :: q) (files w)) as [[c1|]|] eqn:Hl; try discriminate.
  destruct (Path.has_trailing_slash p); [discriminate|].
  intros _. unfold set_files. intros [= <- <-]. split; [reflexivity|].
  cbn [files]. exact (@shape_overwrite _ _ _ _ Hl).
Qed.

Lemma kind_file (w1 w2 : world) (p c : jsstring) :
  same_shape w1 w2 -> stat w2 p = Ok (File c) -> kind (stat w1 p) = Ok false.
Proof.
  intros Hs H. rewrite (@stat_same_shape w1 w2 p Hs), H. reflexivity.
Qed.

(** C4 (as stated, refuted).  The first run of the scenario copies one
    file and says so; the second run copies it again and says so again,
    not that it synced none. *)
Lemma the_second_run_reports_its_copies :
  let w := Examples.world_of Examples.scenario_files in
  let w1 := snd (syncWebResources w) in
  let w2 := snd (syncWebResources w1) in
  fst (syncWebResources w) = Ok (Some 1%nat)
  /\ fst (syncWebResources w1) = Ok (Some 1%nat)
  /\ In (Sync_complete 1) (skipn (length (console w1)) (console w2))
  /\ ~ In (Sync_complete 0) (console w2).
Proof.
  intros w w1 w2. split; [vm_compute; reflexivity|].
  split; [vm_compute; reflexivity|].
  split; [vm_compute; tauto|].
  vm_compute. intros H.
  repeat (destruct H as [H|H]; [discriminate|]). exact H.
Qed.

(** C4 (amended).  Take a mapping file that holds a table of folder names,
    compiled files all of which are regular files, and a run that returns.
    A second run, started where the first ended, returns the same count as
    the first and leaves the same table in the mapping file. *)
Theorem second_run_repeats_the_first (w w1 : world) (r : option nat)
        (o : list (jsstring * json)) :
  valid_names (files w) = true ->
  persisted w = Some (JObject o) -> folder_table o = true ->
  (forall f, In f (discovered w) -> exists c, stat w f = Ok (File c)) ->
  syncWebResources w = (Ok r, w1) ->
  exists w2,
    syncWebResources w1 = (Ok r, w2)
    /\ persisted w2 = persisted w1
    /\ same_shape w2 w.
Proof.
  intros Hvalid Hp Ht Hreg Hrun.
  assert (Hg1 : glob_order w1 = glob_order w).
  { pose proof (keeps_order_syncWebResources w) as H.
    now rewrite Hrun in H. }
  assert (Hload : loaded w = JObject o) by (unfold loaded; now rewrite Hp).
  assert (Hfile : exists c, stat w CONFIG_FILE = Ok (File c)).
  { unfold persisted in Hp.
    destruct (stat w CONFIG_FILE) as [[c|]|e]; try discriminate. eauto. }
  destruct Hfile as [c Hfile].
  pose proof (started_same_files w) as Hst.
  destruct (run_returns _ _ _ _ Hvalid Hload Ht Hrun)
    as [(Hnone & -> & Hsf)
       | (o' & n & wc & wd & Hsome & Hok & Hloop & Hsave & -> & -> & Hp1
          & Ht' & Hord')].
  - (* nothing compiled *)
    pose proof (started_same_files w1) as Hst1.
    assert (Hss : same_shape (started w1) (started w)).
    { apply same_files_shape.
      exact (same_files_trans _ _ _ Hst1
               (same_files_trans _ _ _ Hsf
                  (same_files_trans _ _ _ (same_files_refl w)
                     (conj (eq_sym (proj1 Hst)) (eq_sym (proj2 Hst)))))). }
    rewrite syncWebResources_eq, Hload, Hnone in Hrun.
    destruct (after_loading_nil (JObject o) (started w)) as [_ Hr].
    rewrite Hrun in Hr. cbn [fst] in Hr.
    destruct (after_loading_nil (loaded w1) (started w1)) as [Hw2 Hr2].
    rewrite (getWebResourceDirs_same_shape _ _ Hss) in Hr2.
    exists (snd (syncWebResources w1)).
    rewrite syncWebResources_eq.
    rewrite (discovered_same_shape _ _ (same_files_shape _ _ Hsf) Hg1), Hnone.
    destruct (after_loading (loaded w1) [] (started w1)) as [r2 w2].
    cbn [fst snd] in *.
    assert (Hw21 : same_files w2 w1)
      by exact (same_files_trans _ _ _ Hw2 Hst1).
    split; [|split].
    + f_equal. destruct (fst (getWebResourceDirs (started w)));
        congruence.
    + exact (persisted_same_files _ _ Hw21).
    + apply same_files_shape. exact (same_files_trans _ _ _ Hw21 Hsf).
  - (* the loop, again *)
    set (wl := listed (started w)) in *.
    assert (Hwl : same_files wl w)
      by exact (same_files_trans _ _ _ (listed_same_files _) Hst).
    assert (Hvalid' : valid_names (files wl) = true)
      by (destruct Hwl as [_ ->]; exact Hvalid).
    assert (Hreg' : forall f, In f (discovered w) -> stat wl f <> Ok Dir).
    { intros f Hin. rewrite (stat_same_files _ _ f Hwl).
      destruct (Hreg f Hin) as [c0 ->]. discriminate. }
    pose proof (sync_loop_folder_shape _ _ _ _ _ _ _ Ht Hvalid' Hreg' Hloop)
      as Hwc.
    assert (Hwcw : same_shape wc w)
      by exact (same_shape_trans Hwc (same_files_shape _ _ Hwl)).
    assert (Hwd : same_shape wd wc).
    { unfold SyncWebResources.saveMapping, writeFileSync in Hsave.
      exact (store_keeps_shape _ _ _ _ _ (kind_file _ _ _ _ Hwcw Hfile)
                               Hsave). }
    set (w1 := printed wd (closing_lines n)) in *.
    assert (Hw1 : same_shape w1 w).
    { exact (same_shape_trans (same_shape_printed wd _)
               (same_shape_trans Hwd Hwcw)). }
    assert (Hload1 : loaded w1 = JObject o')
      by (unfold loaded; now rewrite Hp1).
    set (wl1 := listed (started w1)).
    assert (Hwl1 : same_files wl1 w1)
      by exact (same_files_trans _ _ _ (listed_same_files _)
                                 (started_same_files w1)).
    assert (Hll : same_shape wl wl1).
    { exact (same_shape_trans (same_files_shape _ _ Hwl)
               (same_shape_sym
                  (same_shape_trans (same_files_shape _ _ Hwl1) Hw1))). }
    assert (Hok1 : listing_ok (started w1) = true).
    { rewrite <- Hok. apply listing_ok_same_shape.
      exact (same_shape_trans (same_files_shape _ _ (started_same_files w1))
               (same_shape_trans Hw1
                  (same_shape_sym (same_files_shape _ _ Hst)))). }
    destruct (sync_loop_again _ _ _ _ _ _ _ Ht Hvalid'
                (loaded_order _ _ Hload) Hreg' Hloop O)
      as (wc' & Hloop' & Hwc').
    cbn [Nat.add] in Hloop'. rewrite Nat.sub_0_r in Hloop'.
    destruct (sync_loop_same_shape _ _ _ _ _ _ _ Hll Hloop')
      as (wc1 & Hloop1 & Hwc1).
    assert (Hcc : same_shape wc wc1).
    { exact (same_shape_trans Hwc
               (same_shape_trans (same_shape_sym Hwc') Hwc1)). }
    unfold SyncWebResources.saveMapping, writeFileSync in Hsave.
    destruct (store_same_shape _ _ (to_well_formed (stringify (JObject o')))
                               _ _ _ _ Hcc Hsave)
      as (wd1 & Hsave1 & Hdd & _).
    exists (printed wd1 (closing_lines n)).
    rewrite syncWebResources_eq, Hload1.
    rewrite (discovered_same_shape _ _ Hw1 Hg1).
    destruct (discovered w) as [|f fs]; [contradiction|].
    rewrite (after_loading_cons _ _ _ _ Hok1).
    fold wl1. rewrite Hloop1.
    unfold SyncWebResources.saveMapping, writeFileSync. rewrite Hsave1.
    split; [reflexivity|]. split.
    + rewrite (persisted_same_files _ _ (same_files_printed wd1 _)), Hp1.
      exact (persisted_after_save _ _ _ (folder_table_strings _ Ht') Hord'
                                  Hsave1).
    + exact (same_shape_trans (same_shape_printed wd1 _)
               (same_shape_trans (same_shape_sym Hdd)
                  (same_shape_trans Hwd Hwcw))).
Qed.

Lemma second_run_repeats_the_first_witness :
  let w := Examples.world_of Examples.scenario_files in
  let w1 := snd (syncWebResources w) in
  exists w2,
    syncWebResources w1 = (Ok (Some 1%nat), w2)
    /\ persisted w2 = persisted w1
    /\ same_shape w2 w.
Proof.
  intros w w1.
  apply (second_run_repeats_the_first
           w w1 (Some 1%nat)
           (map (fun kv => (fst kv, JString (snd kv)))
                Examples.scenario_table)).
  - vm_compute. reflexivity.
  - vm_compute. reflexivity.
  - vm_compute. reflexivity.
  - intros f Hin. change (discovered w) with [lit "dist/widgetForm.js"] in Hin.
    destruct Hin as [<-|[]]. exists (lit "compiled();").
    vm_compute. reflexivity.
  - vm_compute. reflexivity.
Defined.

(** ** The lines a run prints *)

Lemma warnings_app (d : jsstring) (a b : list message) :
  warnings d (a ++ b) = (warnings d a + warnings d b)%nat.
Proof. unfold warnings. now rewrite filter_app, length_app. Qed.

Lemma quiet_app (a b : list message) : quiet a -> quiet b -> quiet (a ++ b).
Proof. intros Ha Hb d. now rewrite warnings_app, Ha, Hb. Qed.

Lemma prints_refl (w : world) : prints w w [].
Proof. unfold prints. now rewrite app_nil_r. Qed.

Lemma prints_trans (w1 w2 w3 : world) (a b : list message) :
  prints w1 w2 a -> prints w2 w3 b -> prints w1 w3 (a ++ b).
Proof. unfold prints. intros H1 H2. now rewrite H2, H1, app_assoc. Qed.

Lemma prints_printed (w : world) (ms : list message) : prints w (printed w ms) ms.
Proof. reflexivity. Qed.

Lemma copyFileSync_silent (src dest : jsstring) (w w' : world)
      (r : outcome unit) :
  copyFileSync src dest w = (r, w') -> console w' = console w.
Proof.
  destruct r as [[]|e]; intros H.
  - destruct (@copyFileSync_ok _ _ _ _ _ H) as (c & _ & Hstore).
    now destruct (@store_ok _ _ _ _ Hstore) as (_ & Hcon & _).
  - now destruct (@copyFileSync_fails _ _ _ _ _ H) as (_ & Hcon & _).
Qed.

Lemma syncFile_quiet (f t : jsstring) (m : json) (w w' : world)
      (r : outcome (bool * json)) :
  syncFile f t m w = (r, w') -> exists ms, prints w w' ms /\ quiet ms.
Proof.
  rewrite syncFile_eq.
  destruct (readdirSync t w) as [[names|e] w0].
  2:{ intros [= _ <-]. exists []. split; [apply prints_refl | apply quiet_nil]. }
  destruct (filter (ends_with (lit ".js")) names) as [|first rest].
  { intros [= _ <-]. eexists. split; [apply prints_printed|].
    intros d. reflexivity. }
  cbv zeta.
  destruct (copyFileSync f (Path.join [t; first]) w) as [[u|e] w1] eqn:Hcopy;
    apply copyFileSync_silent in Hcopy; [destruct m|];
    intros [= _ <-]; eexists;
    (split; [unfold prints, printed; cbn [console]; rewrite Hcopy; reflexivity
            | intros d; reflexivity]).
Qed.

(** Deleting the entry of a key takes one entry away from the folder it
    names. *)
Lemma entries_delete (d d0 k : jsstring) (o : list (jsstring * json)) :
  NoDup (keys o) -> prop_get k o = Some (JString d0) ->
  ((if eqb d0 d then 1 else 0) + entries_for d (prop_delete k o))%nat
  = entries_for d o.
Proof.
  unfold entries_for.
  induction o as [|[k1 v1] o IH]; simpl; [discriminate|].
  intros Hnd. inversion Hnd as [|? ? Hin Hnd']; subst.
  destruct (eqb k k1) eqn:E.
  - apply eqb_eq in E. subst k1. intros [= ->].
    assert (Hgone : prop_delete k o = o).
    { clear - Hin. unfold keys in Hin.
      induction o as [|[k2 v2] o IH]; simpl; [reflexivity|].
      destruct (eqb k k2) eqn:E2.
      - apply eqb_eq in E2. subst. exfalso. apply Hin. now left.
      - rewrite IH; [reflexivity|]. intros H. apply Hin. now right. }
    rewrite Hgone. unfold names_folder at 2. cbn [snd].
    destruct (eqb d0 d); reflexivity.
  - intros Hget. simpl. destruct (names_folder d (k1, v1)); simpl;
      rewrite <- (IH Hnd' Hget); lia.
Qed.

(** One step prints one warning for the entry it deletes, and no warning
    otherwise. *)
Lemma sync_one_warnings (f : jsstring) (o o' : list (jsstring * json))
      (n n' : nat) (w w' : world) :
  folder_table o = true -> valid_names (files w) = true ->
  NoDup (keys o) ->
  sync_one f (JObject o, n) w = (Ok (JObject o', n'), w') ->
  exists ms,
    prints w w' ms
    /\ forall d, (warnings d ms + entries_for d o')%nat = entries_for d o.
Proof.
  intros Ht Hvalid Hnd Hstep.
  destruct (sync_one_folder _ _ _ _ _ _ Ht Hvalid Hstep)
    as [_ [(_ & [= <- _] & ->)
          |[(d0 & Hget & _ & [= -> _] & ->)
           |(d0 & _ & _ & [(ok & [= <- _] & Hsf)|[e [=]]])]]].
  - eexists. split; [apply prints_printed | intros d; reflexivity].
  - eexists. split; [apply prints_printed|]. intros d.
    rewrite <- (entries_delete d d0 _ o Hnd Hget).
    unfold warnings. simpl. destruct (eqb d0 d); reflexivity.
  - destruct (syncFile_quiet _ _ _ _ _ _ Hsf) as (ms & Hp & Hq).
    exists ms. split; [exact Hp|]. intros d. now rewrite Hq.
Qed.

(** The loop prints one warning for each entry it deletes. *)
Lemma sync_loop_warnings (fs : list jsstring) :
  forall (o o' : list (jsstring * json)) (n n' : nat) (w w' : world),
    folder_table o = true -> valid_names (files w) = true ->
    enumeration_order (keys o) ->
    sync_loop fs (JObject o, n) w = (Ok (JObject o', n'), w') ->
    exists ms,
      prints w w' ms
      /\ forall d, (warnings d ms + entries_for d o')%nat = entries_for d o.
Proof.
  induction fs as [|f rest IH]; intros o o' n n' w w' Ht Hvalid Hord Hloop.
  - simpl in Hloop. injection Hloop as <- _ <-. exists [].
    split; [apply prints_refl | intros d; reflexivity].
  - rewrite sync_loop_cons in Hloop.
    destruct (sync_one f (JObject o, n) w) as [[[m1 n1]|e] w1] eqn:Hstep;
      [|discriminate].
    destruct (sync_one_object _ _ _ _ _ _ _ Hstep) as [o1 ->].
    assert (Hone : sync_loop [f] (JObject o, n) w = (Ok (JObject o1, n1), w1))
      by (rewrite sync_loop_cons, Hstep; reflexivity).
    destruct (sync_loop_folder _ _ _ _ _ _ _ Ht Hvalid Hord Hone)
      as (o2 & [= <-] & Hs1 & Ht1 & Hord1 & _).
    assert (Hvalid1 : valid_names (files w1) = true)
      by exact (after_copies_valid _ _ (proj1 Hs1) Hvalid).
    destruct (sync_one_warnings _ _ _ _ _ _ _ Ht Hvalid
                (order_NoDup Hord) Hstep) as (ms1 & Hp1 & Hc1).
    destruct (IH _ _ _ _ _ _ Ht1 Hvalid1 Hord1 Hloop) as (ms2 & Hp2 & Hc2).
    exists (ms1 ++ ms2). split; [exact (prints_trans _ _ _ _ _ Hp1 Hp2)|].
    intros d. rewrite warnings_app, <- Hc1, <- Hc2. lia.
Qed.

Lemma getWebResourceDirs_quiet (w : world) :
  exists ms, prints w (snd (getWebResourceDirs w)) ms /\ quiet ms.
Proof.
  unfold getWebResourceDirs, bind. rewrite existsSync_eq.
  destruct (stat w WEBRESOURCES_DIR) as [x|e]; simpl.
  - destruct (readdirSync WEBRESOURCES_DIR w) as [[names|e] y] eqn:Hd;
      apply readdirSync_world in Hd; subst y; simpl;
      rewrite ?filter_directories_reads;
      exists []; (split; [apply prints_refl | apply quiet_nil]).
  - eexists. split; [apply prints_printed | intros d; reflexivity].
Qed.

Lemma list_web_resources_quiet (dirs : list jsstring) :
  forall (index : nat) (w : world),
    exists ms, prints w (snd (list_web_resources index dirs w)) ms /\ quiet ms.
Proof.
  induction dirs as [|d rest IH]; intros index w.
  { exists []. split; [apply prints_refl | apply quiet_nil]. }
  cbn [list_web_resources]. unfold bind at 1.
  pose proof (getWebResourceInfo_reads d w) as Hr.
  destruct (getWebResourceInfo d w) as [[i|e] x]; simpl in Hr; subst x.
  2:{ exists []. split; [apply prints_refl | apply quiet_nil]. }
  unfold bind, log.
  match goal with
  | |- context [list_web_resources (S index) rest (printed w ?l)] =>
      destruct (IH (S index) (printed w l)) as (ms & Hp & Hq);
      exists (l ++ ms); split;
      [exact (prints_trans _ _ _ _ _ (prints_printed w l) Hp)
      | apply quiet_app; [intros d'; reflexivity | exact Hq]]
  end.
Qed.

Lemma started_quiet (w : world) :
  exists ms, prints w (started w) ms /\ quiet ms.
Proof.
  unfold started. cbn [log snd].
  destruct (loadMapping_loaded (printed w [Sync_banner])) as (ms1 & H1 & Hq1).
  rewrite H1. cbn [snd].
  destruct (getCompiledFiles_discovered
              (printed (printed w [Sync_banner]) ms1)) as (ms2 & H2 & Hq2).
  rewrite H2. cbn [snd]. exists ([Sync_banner] ++ ms1 ++ ms2). split.
  - unfold prints, printed. cbn [console]. now rewrite <- !app_assoc.
  - apply quiet_app; [intros d; reflexivity | now apply quiet_app].
Qed.

Lemma listed_quiet (w : world) :
  exists ms, prints w (listed w) ms /\ quiet ms.
Proof.
  unfold listed. destruct (getWebResourceDirs_quiet w) as (ms1 & Hp1 & Hq1).
  destruct (getWebResourceDirs w) as [[dirs|e] wa]; cbn [snd] in Hp1;
    [|eauto].
  destruct (list_web_resources_quiet
              dirs 0 (printed wa [Available_web_resources]))
    as (ms2 & Hp2 & Hq2).
  exists (ms1 ++ ([Available_web_resources] ++ ms2) ++ [Blank_line]). split.
  - apply (prints_trans _ _ _ _ _ Hp1).
    apply (prints_trans _ (snd (list_web_resources
                                  0 dirs (printed wa [Available_web_resources])))).
    + exact (prints_trans _ _ _ _ _ (prints_printed wa _) Hp2).
    + apply prints_printed.
  - apply quiet_app; [exact Hq1|]. apply quiet_app; [|intros d; reflexivity].
    apply quiet_app; [intros d; reflexivity | exact Hq2].
Qed.

Lemma closing_lines_quiet (n : nat) : quiet (closing_lines n).
Proof. intros d. unfold closing_lines. now destruct (Nat.ltb 0 n). Qed.

(** ** Pruning *)

Lemma in_prop_get (k : jsstring) (v : json) (o : list (jsstring * json)) :
  NoDup (keys o) -> In (k, v) o -> prop_get k o = Some v.
Proof.
  induction o as [|[k1 v1] o IH]; simpl; [contradiction|].
  intros Hnd. inversion Hnd as [|? ? Hin Hnd']; subst.
  intros [[= -> ->]|H]; [now rewrite eqb_refl|].
  destruct (eqb k k1) eqn:E; [|now apply IH].
  apply eqb_eq in E. subst k1. exfalso. apply Hin. unfold keys.
  change k with (fst (k, v)). now apply in_map.
Qed.

Lemma entries_none (d : jsstring) (o : list (jsstring * json)) :
  NoDup (keys o) ->
  (forall k, prop_get k o <> Some (JString d)) -> entries_for d o = O.
Proof.
  intros Hnd Hno. unfold entries_for.
  assert (H : forall kv, In kv o -> names_folder d kv = false).
  { intros [k v] Hin. unfold names_folder. cbn [snd].
    destruct v as [| | | s | |]; try reflexivity.
    destruct (eqb s d) eqn:E; [|reflexivity].
    apply eqb_eq in E. subst s. exfalso.
    exact (Hno k (in_prop_get _ _ _ Hnd Hin)). }
  clear Hnd Hno. induction o as [|kv o IH]; [reflexivity|]. simpl.
  rewrite (H kv (or_introl eq_refl)). apply IH.
  intros kv' Hin. apply H. now right.
Qed.

(** A folder named by one entry only. *)
Lemma entries_only (d k : jsstring) (o : list (jsstring * json)) :
  NoDup (keys o) -> prop_get k o = Some (JString d) ->
  (forall k', prop_get k' o = Some (JString d) -> k' = k) ->
  entries_for d o = 1%nat.
Proof.
  intros Hnd Hk Honly. rewrite <- (entries_delete d d k o Hnd Hk).
  rewrite eqb_refl, entries_none; [reflexivity| |].
  - unfold keys in *. rewrite keys_delete. now apply NoDup_filter.
  - intros k' Hk'. rewrite prop_get_delete in Hk'.
    destruct (eqb k' k) eqn:E; [discriminate|].
    apply Honly in Hk'. subst. now rewrite eqb_refl in E.
Qed.

(** C5 (the code misses it).  The table maps [old.ts] to a folder that
    is missing and [widgetForm.ts] to a regular file of the assets root.
    In whichever order the two compiled files are reported, [readdirSync]
    throws in [syncFile], outside its [try]: the run ends before the save
    and the mapping file still holds the entry of [old.ts].  The warning
    is printed only when [old.js] comes first. *)
Lemma a_blocked_run_prunes_nothing :
  let o := [(lit "old.ts", JString (lit "gone"));
            (lit "widgetForm.ts", JString (lit "notes.txt"))] in
  let w := Examples.old_last Examples.blocked_files in
  let v := Examples.world_of Examples.blocked_files in
  (loaded w = JObject o
   /\ prop_get (lit "old.ts") o = Some (JString (lit "gone"))
   /\ missing w (lit "gone")
   /\ tsFileName_of (cwd w) (lit "dist/old.js") = lit "old.ts"
   /\ stat w (target_of (lit "notes.txt")) = Ok (File (lit "to do")))
  /\ (discovered w = [lit "dist/widgetForm.js"; lit "dist/old.js"]
      /\ fst (syncWebResources w) = Throw ENOTDIR
      /\ persisted (snd (syncWebResources w)) = Some (JObject o)
      /\ warnings (lit "gone") (console (snd (syncWebResources w))) = 0%nat)
  /\ (discovered v = [lit "dist/old.js"; lit "dist/widgetForm.js"]
      /\ fst (syncWebResources v) = Throw ENOTDIR
      /\ persisted (snd (syncWebResources v)) = Some (JObject o)
      /\ warnings (lit "gone") (console (snd (syncWebResources v))) = 1%nat).
Proof.
  cbv zeta. split; [|split].
  - split; [vm_compute; reflexivity|].
    split; [vm_compute; reflexivity|].
    split; [exists ENOENT; vm_compute; reflexivity|].
    split; vm_compute; reflexivity.
  - split; [vm_compute; reflexivity|].
    split; [vm_compute; reflexivity|].
    split; vm_compute; reflexivity.
  - split; [vm_compute; reflexivity|].
    split; [vm_compute; reflexivity|].
    split; vm_compute; reflexivity.
Qed.

(** Pruning.  Take a table of folder names with an entry [k] whose folder
    [d] is missing, a compiled file [f] that yields [k], and a run that
    returns.  Then the mapping file holds a table without [k]; the run
    printed one warning for each entry it removed, hence exactly one for
    [d] when no other entry names [d]; and when the loop reaches [f] it
    prints one line (this warning, or the no-mapping warning when an
    earlier compiled file with the same key removed the entry), leaves a
    table without [k], changes no file and counts nothing. *)
Theorem missing_folder_prunes_the_entry
        (w w' : world) (r : option nat) (o : list (jsstring * json))
        (k d f : jsstring) :
  valid_names (files w) = true ->
  loaded w = JObject o -> folder_table o = true ->
  prop_get k o = Some (JString d) -> missing w d ->
  In f (discovered w) -> tsFileName_of (cwd w) f = k ->
  syncWebResources w = (Ok r, w') ->
  exists o' ms,
    persisted w' = Some (JObject o') /\ prop_get k o' = None
    /\ prints w w' ms
    /\ (forall d', (warnings d' ms + entries_for d' o')%nat = entries_for d' o)
    /\ ((forall k', prop_get k' o = Some (JString d) -> k' = k) ->
        warnings d ms = 1%nat)
    /\ (forall pre post,
          discovered w = pre ++ f :: post ->
          exists o1 n1 w1 o2 line,
            sync_loop pre (JObject o, O) (listed (started w))
            = (Ok (JObject o1, n1), w1)
            /\ sync_one f (JObject o1, n1) w1
               = (Ok (JObject o2, n1), printed w1 [line])
            /\ prop_get k o2 = None
            /\ (line = Mapped_directory_not_found d
                \/ line = No_mapping_found k)).
Proof.
  intros Hvalid Hload Ht Hk Hmiss Hin Hkey Hrun.
  pose proof (loaded_order _ _ Hload) as Hord.
  destruct (run_returns _ _ _ _ Hvalid Hload Ht Hrun)
    as [(Hnone & _) | (o' & n & wc & wd & _ & _ & Hloop & Hsave & _ & -> & Hp
                       & Ht' & Hord')].
  { rewrite Hnone in Hin. destruct Hin. }
  set (wl := listed (started w)) in *.
  assert (Hwl : same_files wl w)
    by exact (same_files_trans _ _ _ (listed_same_files _)
                               (started_same_files w)).
  assert (Hvalid' : valid_names (files wl) = true)
    by (destruct Hwl as [_ ->]; exact Hvalid).
  assert (Hmiss' : missing wl d).
  { destruct Hwl as [Hcwd Hfiles].
    unfold missing, stat in *. now rewrite Hcwd, Hfiles. }
  destruct (sync_loop_folder _ _ _ _ _ _ _ Ht Hvalid' Hord Hloop)
    as (o2 & [= <-] & _ & _ & _ & _ & Hsub & Hgone).
  assert (Hk' : prop_get k o' = None).
  { apply (Hgone k d Hk). split; [exact Hmiss'|].
    exists f. destruct Hwl as [Hcwd _]. rewrite Hcwd. split; assumption. }
  destruct (sync_loop_warnings _ _ _ _ _ _ _ Ht Hvalid' Hord Hloop)
    as (ms & Hms & Hcount).
  destruct (started_quiet w) as (ms0 & Hp0 & Hq0).
  destruct (listed_quiet (started w)) as (ms1 & Hp1 & Hq1). fold wl in Hp1.
  unfold SyncWebResources.saveMapping, writeFileSync in Hsave.
  destruct (@store_ok _ _ _ _ Hsave) as (_ & Hcon & _).
  exists o', (ms0 ++ ms1 ++ ms ++ closing_lines n).
  assert (Hw : forall d', warnings d' (ms0 ++ ms1 ++ ms ++ closing_lines n)
                          = warnings d' ms).
  { intros d'. rewrite !warnings_app, Hq0, Hq1, (closing_lines_quiet n). lia. }
  split; [exact Hp|]. split; [exact Hk'|]. split; [|split; [|split]].
  - unfold prints, printed in *. cbn [console].
    rewrite Hcon, Hms, Hp1, Hp0. now rewrite <- !app_assoc.
  - intros d'. now rewrite Hw.
  - intros Honly. rewrite Hw.
    pose proof (Hcount d) as Hc.
    rewrite (entries_only d k o (order_NoDup Hord) Hk Honly) in Hc.
    rewrite (entries_none d o' (order_NoDup Hord')) in Hc; [lia|].
    intros k' Hk2. pose proof (Hsub _ _ Hk2) as Hk3.
    apply Honly in Hk3. subst k'. congruence.
  - intros pre post Hsplit. rewrite Hsplit, sync_loop_app in Hloop.
    destruct (sync_loop pre (JObject o, O) wl) as [[[m1 n1]|e] w1] eqn:Hpre;
      [|discriminate].
    destruct (sync_loop_folder _ _ _ _ _ _ _ Ht Hvalid' Hord Hpre)
      as (o1 & -> & (Hafter & Hfolders) & _ & _ & _ & Hsub1 & _).
    assert (Hcwd1 : cwd w1 = cwd w).
    { rewrite (after_copies_cwd _ _ Hafter). apply Hwl. }
    assert (Hmiss1 : missing w1 d).
    { apply (same_folders_missing _ _ _ Hfolders); [|exact Hmiss'].
      exact (folder_table_name _ _ _ Ht Hk). }
    destruct (folder_table_get o k _ Ht Hk) as (d1 & [= <-] & _ & Hne).
    exists o1, n1, w1.
    destruct (prop_get k o1) as [v|] eqn:Hk1.
    + pose proof (Hsub1 _ _ Hk1) as Hv. rewrite Hk in Hv.
      injection Hv as <-.
      exists (prop_delete k o1), (Mapped_directory_not_found d).
      split; [reflexivity|]. split; [|split; [|now left]].
      * rewrite <- Hkey, <- Hcwd1. apply sync_one_missing.
        -- rewrite Hcwd1, Hkey. exact Hk1.
        -- exact Hne.
        -- exact Hmiss1.
      * now rewrite prop_get_delete, eqb_refl.
    + exists o1, (No_mapping_found k).
      split; [reflexivity|]. split; [|split; [exact Hk1 | now right]].
      rewrite <- Hkey, <- Hcwd1. apply sync_one_no_mapping.
      rewrite Hcwd1, Hkey, Hk1. reflexivity.
Qed.

Lemma missing_folder_prunes_the_entry_witness :
  let w := Examples.old_last Examples.stale_files in
  let w' := snd (syncWebResources w) in
  let o := map (fun kv => (fst kv, JString (snd kv))) Examples.stale_table in
  let k := lit "old.ts" in
  let d := lit "gone" in
  let f := lit "dist/old.js" in
  exists o' ms,
    persisted w' = Some (JObject o') /\ prop_get k o' = None
    /\ prints w w' ms
    /\ (forall d', (warnings d' ms + entries_for d' o')%nat = entries_for d' o)
    /\ ((forall k', prop_get k' o = Some (JString d) -> k' = k) ->
        warnings d ms = 1%nat)
    /\ (forall pre post,
          discovered w = pre ++ f :: post ->
          exists o1 n1 w1 o2 line,
            sync_loop pre (JObject o, O) (listed (started w))
            = (Ok (JObject o1, n1), w1)
            /\ sync_one f (JObject o1, n1) w1
               = (Ok (JObject o2, n1), printed w1 [line])
            /\ prop_get k o2 = None
            /\ (line = Mapped_directory_not_found d
                \/ line = No_mapping_found k)).
Proof.
  intros w w' o k d f.
  apply (missing_folder_prunes_the_entry w w' (Some 1%nat) o k d f).
  - vm_compute. reflexivity.
  - vm_compute. reflexivity.
  - vm_compute. reflexivity.
  - vm_compute. reflexivity.
  - exists ENOENT. vm_compute. reflexivity.
  - vm_compute. tauto.
  - vm_compute. reflexivity.
  - vm_compute. reflexivity.
Defined.

(** ** Further properties of the scripts *)

Lemma getWebResourceInfo_missing_fields_witness :
  let w := Examples.world_of
             (Examples.folder_with Examples.descriptor_name_first) in
  exists i,
    getWebResourceInfo (lit "folder-123") w = (Ok (Some i), w)
    /\ (includes (lit "Name:") Examples.descriptor_name_first = false ->
        name i = None)
    /\ (includes (lit "DisplayName:") Examples.descriptor_name_first = false ->
        displayName i = None)
    /\ (includes (lit "FileName:") Examples.descriptor_name_first = false ->
        fileName i = None).
Proof.
  intros w.
  apply (@getWebResourceInfo_missing_fields
           (lit "folder-123") Examples.descriptor_name_first w).
  vm_compute. reflexivity.
Defined.

(** With nothing compiled a run prints and stops: whether it returns or
    not, the files, the mapping file among them, are as they were, and a
    run that returns reports no count. *)
Theorem nothing_compiled_nothing_written (w : world) :
  discovered w = [] ->
  same_files (snd (syncWebResources w)) w
  /\ (forall r, fst (syncWebResources w) = Ok r -> r = None).
Proof.
  intros Hnone. rewrite syncWebResources_eq, Hnone.
  destruct (after_loading_nil (loaded w) (started w)) as [Hw Hr].
  split.
  - exact (same_files_trans _ _ _ Hw (started_same_files w)).
  - intros r H. rewrite H in Hr.
    destruct (fst (getWebResourceDirs (started w))); congruence.
Qed.

Lemma nothing_compiled_nothing_written_witness :
  let w := Examples.world_of Examples.skeleton in
  same_files (snd (syncWebResources w)) w
  /\ (forall r, fst (syncWebResources w) = Ok r -> r = None).
Proof.
  intros w. apply (nothing_compiled_nothing_written w).
  vm_compute. reflexivity.
Defined.

(* ===================================================================== *)
(** * Further properties of the reconciler *)
(* ===================================================================== *)

(** ** The key of a discovered file *)

Lemma drop_common_prefix (r t : list jsstring) :
  Path.drop_common r (r ++ t) = ([], t).
Proof.
  induction r as [|x r IH]; simpl; [now destruct t|].
  now rewrite eqb_refl.
Qed.

Lemma valid_name_kept (L : list jsstring) :
  forallb Path.valid_name L = true ->
  forallb Path.kept L = true /\ forallb Path.slash_free L = true.
Proof.
  induction L as [|s L IH]; simpl; [auto|].
  intros H. apply andb_true_iff in H. destruct H as [Hs HL].
  unfold Path.valid_name in Hs. apply andb_true_iff in Hs.
  destruct Hs as [Hk Hf]. destruct (IH HL) as [IH1 IH2].
  now rewrite Hk, Hf, IH1, IH2.
Qed.

(** Where a path below the build output resolves to. *)
Lemma resolve_below_dist (cwd below : list jsstring) :
  below <> [] -> forallb Path.valid_name below = true ->
  Path.resolve cwd (lit "dist" ++ [Path.slash] ++ join_with [Path.slash] below)
  = Path.resolve cwd DIST_DIR ++ below.
Proof.
  intros Hne Hvalid. destruct (valid_name_kept _ Hvalid) as [Hkept Hfree].
  unfold Path.resolve.
  change (Path.is_absolute (lit "dist" ++ [Path.slash]
                              ++ join_with [Path.slash] below)) with false.
  change (Path.is_absolute DIST_DIR) with false. cbv iota.
  change (lit "dist" ++ [Path.slash] ++ join_with [Path.slash] below)
    with (lit "dist" ++ Path.slash :: join_with [Path.slash] below).
  rewrite split_on_app, (split_join Hne Hfree).
  change (split_on Path.slash (lit "dist")) with [lit "dist"].
  change (split_on Path.slash DIST_DIR) with [lit "."; lit "dist"].
  unfold Path.normalize_segments.
  rewrite !walk_app. rewrite (walk_kept false below _ Hkept).
  simpl Path.walk at 1 3. rewrite !rev_app_distr, rev_involutive.
  reflexivity.
Qed.

(** [path.relative(DIST_DIR, f)] for a path below the build output. *)
Lemma relative_below_dist (cwd below : list jsstring) :
  below <> [] -> forallb Path.valid_name below = true ->
  Path.relative cwd DIST_DIR
    (lit "dist" ++ [Path.slash] ++ join_with [Path.slash] below)
  = join_with [Path.slash] below.
Proof.
  intros Hne Hvalid. unfold Path.relative.
  rewrite (resolve_below_dist cwd below Hne Hvalid), drop_common_prefix.
  destruct (eqb DIST_DIR _) eqn:E; [|reflexivity].
  apply eqb_eq in E. discriminate.
Qed.

Lemma strip_prefix_app (root q below : location) :
  strip_prefix root q = Some below -> q = root ++ below.
Proof.
  revert q. induction root as [|x root IH]; intros q; simpl.
  - now intros [= ->].
  - destruct q as [|y q]; [discriminate|].
    destruct (eqb x y) eqn:E; [|discriminate].
    apply eqb_eq in E. subst y. intros H. now rewrite (IH _ H).
Qed.

Lemma glob_entries_in (root : location) (shown f : jsstring) (t : table) :
  In f (glob_entries root shown t) ->
  exists below n,
    In (root ++ below, n) t /\ glob_match below = true
    /\ f = shown ++ [Path.slash] ++ join_with [Path.slash] below.
Proof.
  induction t as [|[q n] t IH]; simpl; [contradiction|].
  assert (Hrest : In f (glob_entries root shown t) ->
                  exists below n0,
                    ((q, n) = (root ++ below, n0) \/ In (root ++ below, n0) t)
                    /\ glob_match below = true
                    /\ f = shown ++ [Path.slash]
                             ++ join_with [Path.slash] below).
  { intros H. destruct (IH H) as (below & n0 & Hin & Hm & Hf).
    exists below, n0. auto. }
  destruct (strip_prefix root q) as [below|] eqn:Hs; [|exact Hrest].
  destruct (glob_match below) eqn:Hm; [|exact Hrest].
  intros [<- | H]; [|now apply Hrest].
  exists below, n. rewrite (strip_prefix_app _ _ _ Hs). auto.
Qed.

Lemma valid_names_in (q : location) (n : node) (t : table) :
  valid_names t = true -> In (q, n) t -> forallb Path.valid_name q = true.
Proof.
  unfold valid_names. rewrite forallb_forall. intros H Hin.
  exact (H _ Hin).
Qed.

Lemma in_lookup (q : location) (n : node) (t : table) :
  In (q, n) t -> exists n', lookup q t = Some n'.
Proof.
  induction t as [|[q1 n1] t IH]; simpl; [contradiction|].
  destruct (location_eqb q q1) eqn:E; [eauto|].
  intros [[= -> ->] | H]; [|now apply IH].
  now rewrite location_eqb_refl in E.
Qed.

Lemma starts_with_app (p a b : jsstring) :
  starts_with p a = true -> starts_with p (a ++ b) = true.
Proof.
  revert a. induction p as [|x p IH]; intros a; [reflexivity|].
  destruct a as [|y a]; simpl; [discriminate|].
  intros H. apply andb_true_iff in H. destruct H as [H1 H2].
  now rewrite H1, (IH _ H2).
Qed.

Lemma ends_with_app (suf a b : jsstring) :
  ends_with suf b = true -> ends_with suf (a ++ b) = true.
Proof.
  unfold ends_with. rewrite rev_app_distr. apply starts_with_app.
Qed.

Lemma join_with_last (sep : jsstring) (L : list jsstring) (name : jsstring) :
  exists pre, join_with sep (L ++ [name]) = pre ++ name.
Proof.
  induction L as [|x xs [pre Hpre]]; [now exists []|].
  exists (x ++ sep ++ pre). cbn [app join_with].
  destruct (xs ++ [name]) as [|y ys] eqn:E; [now destruct xs|].
  rewrite Hpre, <- !app_assoc. reflexivity.
Qed.

(** The first ".js" of a text that holds none before its end is the one at
    its end. *)
Lemma replace_first_at_end (stem : jsstring) :
  includes (lit ".js") stem = false ->
  replace_first (lit ".js") (lit ".ts") (stem ++ lit ".js")
  = stem ++ lit ".ts".
Proof.
  induction stem as [|c stem IH]; [reflexivity|].
  intros H. cbn [includes] in H. apply orb_false_iff in H.
  destruct H as [Hhere Hlater].
  assert (Heq : starts_with (lit ".js") ((c :: stem) ++ lit ".js")
                = starts_with (lit ".js") (c :: stem)).
  { change (lit ".js") with [46; 106; 115].
    cbn [starts_with app]. destruct (46 =? c); cbn [andb]; [|reflexivity].
    destruct stem as [|a [|b rest]]; cbn [starts_with app];
      [reflexivity | now destruct (106 =? a) | reflexivity]. }
  assert (Hs : starts_with (lit ".js") ((c :: stem) ++ lit ".js") = false)
    by (now rewrite Heq).
  cbn [replace_first app]. cbn [app] in Hs. rewrite Hs.
  now rewrite (IH Hlater).
Qed.

(** The order of [glob] neither adds nor drops a path. *)
Lemma in_arrange (order : list jsstring) :
  forall (found : list jsstring) (f : jsstring),
    In f (arrange order found) <-> In f found.
Proof.
  induction order as [|p rest IH]; intros found f; cbn [arrange];
    [reflexivity|].
  rewrite in_app_iff, IH, !filter_In.
  destruct (eqb p f) eqn:E; cbn [negb]; intuition congruence.
Qed.

Lemma arrange_length (order : list jsstring) :
  forall found, length (arrange order found) = length found.
Proof.
  induction order as [|p rest IH]; intros found; cbn [arrange];
    [reflexivity|].
  rewrite length_app, IH.
  induction found as [|f found IHf]; [reflexivity|].
  cbn [filter]. destruct (eqb p f); cbn [negb length]; lia.
Qed.

(** A discovered file is the text of an entry below the build output. *)
Lemma discovered_below (w : world) (f : jsstring) :
  valid_names (files w) = true ->
  In f (discovered w) ->
  exists below n,
    below <> [] /\ forallb Path.valid_name below = true
    /\ glob_match below = true
    /\ In (Path.resolve (cwd w) DIST_DIR ++ below, n) (files w)
    /\ f = lit "dist" ++ [Path.slash] ++ join_with [Path.slash] below.
Proof.
  intros Hvalid Hin. unfold discovered in Hin.
  destruct (stat w DIST_DIR) as [x|e]; [|destruct Hin].
  change (Path.normalize DIST_DIR) with (lit "dist") in Hin.
  apply in_arrange in Hin.
  destruct (glob_entries_in _ _ _ _ Hin) as (below & n & Hq & Hm & ->).
  pose proof (valid_names_in _ _ _ Hvalid Hq) as Hnames.
  rewrite forallb_app in Hnames. apply andb_true_iff in Hnames.
  destruct Hnames as [_ Hbelow].
  exists below, n. split; [intros ->; discriminate|]. auto.
Qed.

(** Every discovered file lies below the build output, is listed in the
    file table and has a name ending in ".js"; its key is the path below
    the build output with the first ".js" replaced, which is the extension
    when no ".js" comes before it. *)
Theorem key_of_a_discovered_file (w : world) (f : jsstring) :
  valid_names (files w) = true ->
  In f (discovered w) ->
  exists below,
    below <> []
    /\ f = lit "dist" ++ [Path.slash] ++ join_with [Path.slash] below
    /\ (exists n, lookup (Path.resolve (cwd w) DIST_DIR ++ below) (files w)
                  = Some n)
    /\ ends_with (lit ".js") f = true
    /\ tsFileName_of (cwd w) f
       = replace_first (lit ".js") (lit ".ts") (join_with [Path.slash] below)
    /\ (forall stem,
          join_with [Path.slash] below = stem ++ lit ".js" ->
          includes (lit ".js") stem = false ->
          tsFileName_of (cwd w) f = stem ++ lit ".ts").
Proof.
  intros Hvalid Hin.
  destruct (discovered_below w f Hvalid Hin)
    as (below & n & Hne & Hbelow & Hm & Hq & ->).
  assert (Hkey : tsFileName_of (cwd w)
                   (lit "dist" ++ [Path.slash] ++ join_with [Path.slash] below)
                 = replace_first (lit ".js") (lit ".ts")
                                 (join_with [Path.slash] below)).
  { unfold tsFileName_of.
    now rewrite (relative_below_dist (cwd w) below Hne Hbelow). }
  exists below. split; [exact Hne|]. split; [reflexivity|].
  split; [exact (in_lookup _ _ _ Hq)|]. split; [|split; [exact Hkey|]].
  - unfold glob_match in Hm.
    destruct (rev below) as [|name upper] eqn:Hrev; [discriminate|].
    apply andb_true_iff in Hm. destruct Hm as [Hjs _].
    apply (f_equal (@rev jsstring)) in Hrev.
    rewrite rev_involutive in Hrev. simpl in Hrev. subst below.
    destruct (join_with_last [Path.slash] (rev upper) name) as [pre ->].
    rewrite !app_assoc. now apply ends_with_app.
  - intros stem Hstem Hno. rewrite Hkey, Hstem.
    now apply replace_first_at_end.
Qed.

Lemma key_of_a_discovered_file_witness :
  let w := Examples.world_of Examples.scenario_files in
  let f := lit "dist/widgetForm.js" in
  exists below,
    below <> []
    /\ f = lit "dist" ++ [Path.slash] ++ join_with [Path.slash] below
    /\ (exists n, lookup (Path.resolve (cwd w) DIST_DIR ++ below) (files w)
                  = Some n)
    /\ ends_with (lit ".js") f = true
    /\ tsFileName_of (cwd w) f
       = replace_first (lit ".js") (lit ".ts") (join_with [Path.slash] below)
    /\ (forall stem,
          join_with [Path.slash] below = stem ++ lit ".js" ->
          includes (lit ".js") stem = false ->
          tsFileName_of (cwd w) f = stem ++ lit ".ts").
Proof.
  intros w f. apply (key_of_a_discovered_file w f).
  - vm_compute. reflexivity.
  - vm_compute. tauto.
Defined.

(** ** What a run can change in the file system *)

Lemma resolve_constants (cwd : list jsstring) :
  Path.resolve cwd CONFIG_FILE
  = Path.resolve cwd Path.dot ++ [lit "webresource-mapping.json"]
  /\ Path.resolve cwd TYPESCRIPT_DIR
     = Path.resolve cwd Path.dot ++ [lit "typescript"]
  /\ Path.resolve cwd DIST_DIR = Path.resolve cwd Path.dot ++ [lit "dist"]
  /\ Path.resolve cwd WEBRESOURCES_DIR
     = Path.resolve cwd Path.dot ++ [lit "src"; lit "webresources"].
Proof.
  unfold Path.resolve, Path.normalize_segments.
  change (Path.is_absolute CONFIG_FILE) with false.
  change (Path.is_absolute TYPESCRIPT_DIR) with false.
  change (Path.is_absolute DIST_DIR) with false.
  change (Path.is_absolute WEBRESOURCES_DIR) with false.
  change (Path.is_absolute Path.dot) with false. cbv iota.
  rewrite !walk_app.
  change (split_on Path.slash CONFIG_FILE)
    with [lit "."; lit "webresource-mapping.json"].
  change (split_on Path.slash TYPESCRIPT_DIR) with [lit "."; lit "typescript"].
  change (split_on Path.slash DIST_DIR) with [lit "."; lit "dist"].
  change (split_on Path.slash WEBRESOURCES_DIR)
    with [lit "."; lit "src"; lit "webresources"].
  change (split_on Path.slash Path.dot) with [lit "."].
  set (X := Path.walk false [] cwd).
  repeat split; try reflexivity.
  change (Path.walk false X [lit "."; lit "src"; lit "webresources"])
    with (lit "webresources" :: lit "src" :: X).
  change (Path.walk false X [lit "."]) with X.
  cbn [rev]. now rewrite <- app_assoc.
Qed.


(** [store] changes nothing but the entry at its path, which it adds at
    the end of the table when there was none. *)
Lemma store_effect (p c : jsstring) (w w' : world) (r : outcome unit) :
  store p c w = (r, w') ->
  cwd w' = cwd w /\ console w' = console w
  /\ (forall q, q <> Path.resolve (cwd w) p ->
                lookup q (files w') = lookup q (files w))
  /\ (shape (files w') = shape (files w)
      \/ (lookup (Path.resolve (cwd w) p) (files w) = None
          /\ shape (files w')
             = shape (files w) ++ [(Path.resolve (cwd w) p, false)])).
Proof.
  destruct r as [[]|e]; intros H.
  - destruct (@store_ok _ _ _ _ H) as (Hcwd & Hcon & _ & Hother & Hfiles).
    repeat (split; [assumption|]).
    destruct Hfiles as [[[c0 Hc0] ->] | [Hnone ->]].
    + left. exact (@shape_overwrite _ _ _ _ Hc0).
    + right. split; [exact Hnone|]. now rewrite shape_app.
  - apply (@store_throw _ _ _ _ _) in H. subst w'. auto.
Qed.

(** [syncFile] changes nothing but a file of the target folder whose name
    ends in ".js". *)
Lemma syncFile_touches (f t : jsstring) (m : json) (w w' : world)
      (r : outcome (bool * json)) :
  valid_names (files w) = true ->
  syncFile f t m w = (r, w') ->
  forall q,
    lookup q (files w') = lookup q (files w)
    \/ exists first,
         ends_with (lit ".js") first = true
         /\ q = Path.resolve (cwd w) t ++ [first].
Proof.
  intros Hvalid Hsf q.
  destruct (syncFile_effect _ _ _ _ _ _ Hvalid Hsf)
    as (_ & _ & [-> | (first & c0 & Hjs & _ & _ & Hnow)]); [now left|].
  destruct (location_eqb q (Path.resolve (cwd w) t ++ [first])) eqn:E.
  - right. exists first. split; [exact Hjs | now apply location_eqb_eq].
  - left. destruct Hnow as [(c & _ & ->) | (_ & ->)].
    + now rewrite lookup_overwrite, E.
    + now rewrite lookup_unlink, E.
Qed.

(** One step of the loop, whatever the table is and however the step
    ends: the world is as copies leave it, with the shape it had unless
    the compiled file is a directory, and the only entry that can change
    is a ".js" file directly inside the folder the key is mapped to. *)
Lemma sync_one_touches (f : jsstring) (m : json) (n : nat) (w w' : world)
      (r : outcome (json * nat)) :
  valid_names (files w) = true ->
  sync_one f (m, n) w = (r, w') ->
  (after_copies w' w /\ (stat w f <> Ok Dir -> same_shape w' w))
  /\ forall q,
       lookup q (files w') = lookup q (files w)
       \/ exists o d first,
            m = JObject o
            /\ prop_get (tsFileName_of (cwd w) f) o = Some (JString d)
            /\ ends_with (lit ".js") first = true
            /\ q = Path.resolve (cwd w) (Path.join [WEBRESOURCES_DIR; d])
                   ++ [first].
Proof.
  intros Hvalid.
  assert (Hquiet : forall ms, r = r -> w' = printed w ms ->
                              (after_copies w' w
                               /\ (stat w f <> Ok Dir -> same_shape w' w))
                              /\ forall q,
                                   lookup q (files w') = lookup q (files w)
                                   \/ exists o d first,
                                        m = JObject o
                                        /\ prop_get (tsFileName_of (cwd w) f) o
                                           = Some (JString d)
                                        /\ ends_with (lit ".js") first = true
                                        /\ q = Path.resolve (cwd w)
                                                 (Path.join [WEBRESOURCES_DIR; d])
                                               ++ [first]).
  { intros ms _ ->. split; [|now left].
    split; [apply after_copies_printed | intros _; apply same_shape_printed]. }
  destruct m as [| b | t | s | a | o];
    try (unfold sync_one, bind, get_world, mapping_get, throw, ret, log;
         cbn [truthy]; intros [= _ <-];
         solve [apply (Hquiet [] eq_refl); now rewrite printed_nil
               | eapply Hquiet; reflexivity]).
  destruct (truthy_cases (prop_get (tsFileName_of (cwd w) f) o))
    as [Hf|[(d & Hd & Hne)|(x & Hx & Ht & Hs)]].
  - rewrite (@sync_one_no_mapping f o n w Hf). intros [= _ <-].
    eapply Hquiet; reflexivity.
  - destruct (missing_dec w d) as [Hmiss|[x Hx]].
    + rewrite (@sync_one_missing f d o n w Hd Hne Hmiss). intros [= _ <-].
      eapply Hquiet; reflexivity.
    + rewrite (@sync_one_present f d o n w x Hd Hne Hx).
      destruct (syncFile f (Path.join [WEBRESOURCES_DIR; d]) (JObject o) w)
        as [rs ws] eqn:Hsf.
      assert (Hshape : after_copies ws w
                       /\ (stat w f <> Ok Dir -> same_shape ws w)).
      { split; [exact (syncFile_after _ _ _ _ _ _ Hvalid Hsf)|].
        intros Hfile. exact (syncFile_shape _ _ _ _ _ _ Hvalid Hfile Hsf). }
      pose proof (syncFile_touches _ _ _ _ _ _ Hvalid Hsf) as Htouch.
      assert (Hws : forall q,
                 lookup q (files ws) = lookup q (files w)
                 \/ exists o0 d0 first,
                      JObject o = JObject o0
                      /\ prop_get (tsFileName_of (cwd w) f) o0
                         = Some (JString d0)
                      /\ ends_with (lit ".js") first = true
                      /\ q = Path.resolve (cwd w)
                               (Path.join [WEBRESOURCES_DIR; d0]) ++ [first]).
      { intros q. destruct (Htouch q) as [H|(first & He & Hq)]; [now left|].
        right. exists o, d, first. auto. }
      destruct rs as [[ok m']|e]; intros [= _ <-]; split; assumption.
  - rewrite Hx in Ht.
    rewrite (@sync_one_not_a_string f o n w x Hx Ht Hs). intros [= _ <-].
    apply (Hquiet [] eq_refl). now rewrite printed_nil.
Qed.

(** One step of the loop leaves the files as they are, or writes the
    content of a compiled regular file over a script of the mapped folder,
    or, for a compiled path that is a directory, removes that script. *)
Lemma sync_one_effect (f : jsstring) (m : json) (n : nat) (w w' : world)
      (r : outcome (json * nat)) :
  valid_names (files w) = true ->
  sync_one f (m, n) w = (r, w') ->
  cwd w' = cwd w
  /\ (files w' = files w
      \/ exists o d first c0,
           m = JObject o
           /\ prop_get (tsFileName_of (cwd w) f) o = Some (JString d)
           /\ Path.valid_name first = true
           /\ lookup (Path.resolve (cwd w) (Path.join [WEBRESOURCES_DIR; d])
                      ++ [first]) (files w) = Some (File c0)
           /\ ((exists c, stat w f = Ok (File c)
                  /\ files w'
                     = overwrite (Path.resolve (cwd w)
                                    (Path.join [WEBRESOURCES_DIR; d])
                                  ++ [first]) c (files w))
               \/ (stat w f = Ok Dir
                   /\ files w'
                      = unlink (Path.resolve (cwd w)
                                  (Path.join [WEBRESOURCES_DIR; d])
                                ++ [first]) (files w)))).
Proof.
  intros Hvalid.
  destruct m as [| b | t | s | a | o];
    try (unfold sync_one, bind, get_world, mapping_get, throw, ret, log;
         cbn [truthy]; intros [= _ <-]; split; [reflexivity | now left]).
  destruct (truthy_cases (prop_get (tsFileName_of (cwd w) f) o))
    as [Hf|[(d & Hd & Hne)|(x & Hx & Ht & Hs)]].
  - rewrite (@sync_one_no_mapping f o n w Hf). intros [= _ <-].
    split; [reflexivity | now left].
  - destruct (missing_dec w d) as [Hmiss|[x Hx]].
    + rewrite (@sync_one_missing f d o n w Hd Hne Hmiss). intros [= _ <-].
      split; [reflexivity | now left].
    + rewrite (@sync_one_present f d o n w x Hd Hne Hx).
      destruct (syncFile f (Path.join [WEBRESOURCES_DIR; d]) (JObject o) w)
        as [rs ws] eqn:Hsf.
      destruct (syncFile_effect _ _ _ _ _ _ Hvalid Hsf)
        as (Hc & _ & Heff).
      assert (Hws : files ws = files w
                    \/ exists o0 d0 first c0,
                         JObject o = JObject o0
                         /\ prop_get (tsFileName_of (cwd w) f) o0
                            = Some (JString d0)
                         /\ Path.valid_name first = true
                         /\ lookup (Path.resolve (cwd w)
                                      (Path.join [WEBRESOURCES_DIR; d0])
                                    ++ [first]) (files w) = Some (File c0)
                         /\ ((exists c, stat w f = Ok (File c)
                                /\ files ws
                                   = overwrite
                                       (Path.resolve (cwd w)
                                          (Path.join [WEBRESOURCES_DIR; d0])
                                        ++ [first]) c (files w))
                             \/ (stat w f = Ok Dir
                                 /\ files ws
                                    = unlink
                                        (Path.resolve (cwd w)
                                           (Path.join [WEBRESOURCES_DIR; d0])
                                         ++ [first]) (files w)))).
      { destruct Heff as [H|(first & c0 & _ & Hv & Hl & Hcase)]; [now left|].
        right. exists o, d, first, c0. auto. }
      destruct rs as [[ok m']|e]; intros [= _ <-]; split; assumption.
  - rewrite Hx in Ht.
    rewrite (@sync_one_not_a_string f o n w x Hx Ht Hs). intros [= _ <-].
    split; [reflexivity | now left].
Qed.

(** The loop, whatever the table is and however it ends. *)
Lemma sync_loop_after (fs : list jsstring) :
  forall (st : json * nat) (w w' : world) (r : outcome (json * nat)),
    valid_names (files w) = true ->
    sync_loop fs st w = (r, w') ->
    after_copies w' w
    /\ ((forall f, In f fs -> stat w f <> Ok Dir) -> same_shape w' w).
Proof.
  induction fs as [|f rest IH]; intros st w w' r Hvalid.
  - simpl. unfold ret. intros [= _ <-].
    split; [apply after_copies_refl | intros _; apply same_shape_refl].
  - rewrite sync_loop_cons. destruct st as [m n].
    destruct (sync_one f (m, n) w) as [r1 w1] eqn:Hstep.
    destruct (sync_one_touches _ _ _ _ _ _ Hvalid Hstep) as [[Ha Hs] _].
    destruct r1 as [st1|e].
    2:{ intros [= _ <-]. split; [exact Ha|]. intros Hfiles. apply Hs.
        apply Hfiles. now left. }
    intros Hloop.
    pose proof (after_copies_valid _ _ Ha Hvalid) as Hvalid1.
    destruct (IH _ _ _ _ Hvalid1 Hloop) as [Ha' Hs'].
    split; [exact (after_copies_trans _ _ _ Ha' Ha)|].
    intros Hfiles.
    assert (Hs1 : same_shape w1 w) by (apply Hs, Hfiles; now left).
    refine (same_shape_trans (Hs' _) Hs1).
    intros f' Hin. apply (not_a_directory_same_shape _ _ _ Hs1).
    apply Hfiles. now right.
Qed.

Lemma after_loading_not_listed_world (m : json) (f : jsstring)
      (fs : list jsstring) (w : world) :
  listing_ok w = false -> same_files (snd (after_loading m (f :: fs) w)) w.
Proof.
  unfold listing_ok, after_loading. unfold bind at 1.
  pose proof (getWebResourceDirs_reads w) as Hd.
  destruct (getWebResourceDirs w) as [[dirs|e] wa]; cbn [snd] in Hd;
    [|intros _; exact Hd].
  unfold bind at 1. unfold log at 1. unfold bind at 1.
  pose proof (list_web_resources_reads
                dirs 0 (printed wa [Available_web_resources])) as Hl.
  destruct (list_web_resources 0 dirs (printed wa [Available_web_resources]))
    as [[u|e] wb]; [discriminate|]. intros _. cbn [snd] in *.
  exact (same_files_trans _ _ _ Hl
           (same_files_trans _ _ _ (same_files_printed wa _) Hd)).
Qed.

(** Whatever the mapping file holds and however the run ends, a run keeps
    every directory, turns no file into a directory, and creates nothing
    but the mapping file, when it was missing and compiled files were
    found.  An entry that is gone was a regular file whose name ends in
    ".js" (the destination of a copy that failed), and nothing is gone when
    no compiled file is a directory. *)
Theorem a_run_creates_nothing_and_keeps_the_folders (w : world) :
  valid_names (files w) = true ->
  let w' := snd (syncWebResources w) in
  cwd w' = cwd w
  /\ (forall q,
        option_map is_dir (lookup q (files w'))
        = option_map is_dir (lookup q (files w))
        \/ (q = Path.resolve (cwd w) CONFIG_FILE
            /\ lookup q (files w) = None
            /\ fst (syncWebResources w) <> Ok None
            /\ exists c, lookup q (files w') = Some (File c))
        \/ (lookup q (files w') = None
            /\ (exists c, lookup q (files w) = Some (File c))
            /\ exists folder name,
                 q = folder ++ [name] /\ ends_with (lit ".js") name = true))
  /\ ((forall f, In f (discovered w) -> stat w f <> Ok Dir) ->
      forall q, lookup q (files w') = None -> lookup q (files w) = None).
Proof.
  intros Hvalid. cbv zeta. rewrite syncWebResources_eq.
  pose proof (started_same_files w) as Hst.
  set (run := after_loading (loaded w) (discovered w) (started w)).
  assert (Hkeep : same_files (snd run) w ->
            cwd (snd run) = cwd w
            /\ (forall q,
                  option_map is_dir (lookup q (files (snd run)))
                  = option_map is_dir (lookup q (files w))
                  \/ (q = Path.resolve (cwd w) CONFIG_FILE
                      /\ lookup q (files w) = None
                      /\ fst run <> Ok None
                      /\ exists c, lookup q (files (snd run)) = Some (File c))
                  \/ (lookup q (files (snd run)) = None
                      /\ (exists c, lookup q (files w) = Some (File c))
                      /\ exists folder name,
                           q = folder ++ [name]
                           /\ ends_with (lit ".js") name = true))
            /\ ((forall f, In f (discovered w) -> stat w f <> Ok Dir) ->
                forall q, lookup q (files (snd run)) = None ->
                          lookup q (files w) = None)).
  { intros [Hc Hf]. split; [exact Hc|]. rewrite Hf.
    split; [intros q; now left | auto]. }
  subst run. destruct (discovered w) as [|f fs] eqn:Hfs.
  { apply Hkeep.
    exact (same_files_trans _ _ _
             (proj1 (after_loading_nil (loaded w) (started w))) Hst). }
  destruct (listing_ok (started w)) eqn:Hok.
  2:{ apply Hkeep.
      exact (same_files_trans _ _ _
               (after_loading_not_listed_world _ _ _ _ Hok) Hst). }
  clear Hkeep. rewrite (after_loading_cons _ _ _ _ Hok).
  set (wl := listed (started w)).
  assert (Hwl : same_files wl w)
    by exact (same_files_trans _ _ _ (listed_same_files _) Hst).
  pose proof Hwl as [Hcl Hfl].
  assert (Hvalid' : valid_names (files wl) = true)
    by (rewrite Hfl; exact Hvalid).
  destruct (sync_loop (f :: fs) (loaded w, O) wl) as [rl wc] eqn:Hloop.
  destruct (sync_loop_after _ _ _ _ _ Hvalid' Hloop)
    as [(Hc & _ & _ & Hafter) Hshape].
  rewrite Hcl in Hc. rewrite Hfl in Hafter.
  assert (Hgone : (forall f0, In f0 (f :: fs) -> stat w f0 <> Ok Dir) ->
                  forall q, lookup q (files wc) = None ->
                            lookup q (files w) = None).
  { intros Hreg q Hq.
    assert (Hs : same_shape wc wl).
    { apply Hshape. intros f0 Hin.
      rewrite (stat_same_files _ _ f0 Hwl). now apply Hreg. }
    destruct Hs as [_ Hs]. rewrite Hfl in Hs.
    pose proof (lookup_shape q _ _ Hs) as Hk. rewrite Hq in Hk.
    now destruct (lookup q (files w)). }
  destruct rl as [[m' n]|e].
  2:{ cbn [fst snd]. split; [exact Hc|]. split; [|exact Hgone].
      intros q. destruct (Hafter q) as [H | H]; [now left | right; now right]. }
  unfold SyncWebResources.saveMapping, writeFileSync.
  destruct (store CONFIG_FILE (to_well_formed (stringify m')) wc)
    as [r wd] eqn:Hsave.
  assert (Hwd : cwd wd = cwd w
                /\ (forall q, q <> Path.resolve (cwd w) CONFIG_FILE ->
                              lookup q (files wd) = lookup q (files wc))
                /\ (option_map is_dir
                      (lookup (Path.resolve (cwd w) CONFIG_FILE) (files wd))
                    = option_map is_dir
                        (lookup (Path.resolve (cwd w) CONFIG_FILE) (files wc))
                    \/ (lookup (Path.resolve (cwd w) CONFIG_FILE) (files wc)
                        = None
                        /\ r = Ok tt
                        /\ exists c,
                             lookup (Path.resolve (cwd w) CONFIG_FILE)
                                    (files wd) = Some (File c)))).
  { destruct r as [[]|e].
    - destruct (@store_ok _ _ _ _ Hsave) as (Hcwd & _ & _ & Hother & Hfiles).
      rewrite Hc in Hother, Hfiles.
      split; [congruence|]. split; [exact Hother|].
      destruct Hfiles as [[[c0 Hc0] ->] | [Hnone ->]].
      + left. rewrite lookup_overwrite, location_eqb_refl, Hc0. reflexivity.
      + right. split; [exact Hnone|]. split; [reflexivity|].
        eexists. rewrite lookup_app, Hnone. cbn [lookup].
        now rewrite location_eqb_refl.
    - apply (@store_throw _ _ _ _ _) in Hsave. subst wd.
      split; [exact Hc|]. split; [reflexivity | now left]. }
  destruct Hwd as (Hcd & Hother & Hconfig).
  assert (Hres : forall q,
             option_map is_dir (lookup q (files wd))
             = option_map is_dir (lookup q (files w))
             \/ (q = Path.resolve (cwd w) CONFIG_FILE
                 /\ lookup q (files w) = None
                 /\ r = Ok tt
                 /\ exists c, lookup q (files wd) = Some (File c))
             \/ (lookup q (files wd) = None
                 /\ (exists c, lookup q (files w) = Some (File c))
                 /\ exists folder name,
                      q = folder ++ [name]
                      /\ ends_with (lit ".js") name = true)).
  { intros q.
    destruct (location_eqb q (Path.resolve (cwd w) CONFIG_FILE)) eqn:E.
    - apply location_eqb_eq in E. subst q.
      destruct Hconfig as [Hk | (Hnone & Hr & Hnew)].
      + destruct (Hafter (Path.resolve (cwd w) CONFIG_FILE))
          as [H | (Hn & Hwas & Hjs)].
        * left. congruence.
        * right; right. split; [|split; assumption].
          rewrite Hn in Hk.
          now destruct (lookup (Path.resolve (cwd w) CONFIG_FILE) (files wd)).
      + destruct (Hafter (Path.resolve (cwd w) CONFIG_FILE))
          as [H | (_ & _ & folder & name & Hq & Hjs)].
        * right; left. split; [reflexivity|]. rewrite Hnone in H.
          split; [|split; assumption].
          now destruct (lookup (Path.resolve (cwd w) CONFIG_FILE) (files w)).
        * exfalso. destruct (resolve_constants (cwd w)) as (Hcfg & _).
          rewrite Hcfg in Hq. apply app_inj_tail in Hq. destruct Hq as [_ <-].
          vm_compute in Hjs. discriminate.
    - apply location_eqb_neq in E. rewrite (Hother q E).
      destruct (Hafter q) as [H | H]; [now left | right; now right]. }
  assert (Hgone' : (forall f0, In f0 (f :: fs) -> stat w f0 <> Ok Dir) ->
                   forall q, lookup q (files wd) = None ->
                             lookup q (files w) = None).
  { intros Hreg q Hq. apply (Hgone Hreg).
    destruct (location_eqb q (Path.resolve (cwd w) CONFIG_FILE)) eqn:E.
    - apply location_eqb_eq in E. subst q.
      destruct Hconfig as [Hk | (Hnone & _)]; [|exact Hnone].
      rewrite Hq in Hk.
      now destruct (lookup (Path.resolve (cwd w) CONFIG_FILE) (files wc)).
    - apply location_eqb_neq in E. now rewrite <- (Hother q E). }
  destruct r as [[]|e]; cbn [fst snd files cwd printed];
    (split; [exact Hcd|]); (split; [|exact Hgone']);
    intros q; destruct (Hres q) as [H | [(H1 & H2 & H3 & H4) | H]].
  - left. exact H.
  - right; left. split; [exact H1|]. split; [exact H2|].
    split; [intros E; discriminate E | exact H4].
  - right; right. exact H.
  - left. exact H.
  - discriminate H3.
  - right; right. exact H.
Qed.

(** The loop on a table of folder names writes only into the folders the
    table names. *)
Lemma sync_loop_touches (fs : list jsstring) :
  forall (o : list (jsstring * json)) (n : nat) (w w' : world)
         (r : outcome (json * nat)),
    folder_table o = true -> valid_names (files w) = true ->
    enumeration_order (keys o) ->
    sync_loop fs (JObject o, n) w = (r, w') ->
    forall q,
      lookup q (files w') = lookup q (files w)
      \/ exists k d first,
           prop_get k o = Some (JString d)
           /\ ends_with (lit ".js") first = true
           /\ q = Path.resolve (cwd w) WEBRESOURCES_DIR ++ [d; first].
Proof.
  induction fs as [|f rest IH]; intros o n w w' r Ht Hvalid Hord.
  - simpl. unfold ret. intros [= _ <-] q. now left.
  - rewrite sync_loop_cons.
    destruct (sync_one f (JObject o, n) w) as [r1 w1] eqn:Hstep.
    destruct (sync_one_touches _ _ _ _ _ _ Hvalid Hstep) as [Hs Htouch].
    assert (Hfirst : forall q,
               lookup q (files w1) = lookup q (files w)
               \/ exists k d first,
                    prop_get k o = Some (JString d)
                    /\ ends_with (lit ".js") first = true
                    /\ q = Path.resolve (cwd w) WEBRESOURCES_DIR ++ [d; first]).
    { intros q. destruct (Htouch q) as [H|(o0 & d & first & [= <-] & Hk & He & Hq)];
        [now left|]. right. exists (tsFileName_of (cwd w) f), d, first.
      split; [exact Hk|]. split; [exact He|].
      destruct (folder_table_get o _ _ Ht Hk) as (d1 & [= <-] & Hb & _).
      assert (Hv : Path.valid_name d = true).
      { apply folder_name_valid. unfold is_folder_name. rewrite Hb.
        apply eqb_refl. }
      rewrite Hq, (resolve_target _ _ Hv), <- app_assoc. reflexivity. }
    destruct r1 as [[m1 n1]|e]; [|intros [= _ <-]; exact Hfirst].
    destruct (sync_one_object _ _ _ _ _ _ _ Hstep) as [o1 ->].
    assert (Hone : sync_loop [f] (JObject o, n) w = (Ok (JObject o1, n1), w1))
      by (rewrite sync_loop_cons, Hstep; reflexivity).
    destruct (sync_loop_folder _ _ _ _ _ _ _ Ht Hvalid Hord Hone)
      as (o2 & [= <-] & _ & Ht1 & Hord1 & _ & Hsub & _).
    assert (Hvalid1 : valid_names (files w1) = true)
      by exact (after_copies_valid _ _ (proj1 Hs) Hvalid).
    intros Hloop q.
    destruct (IH _ _ _ _ _ Ht1 Hvalid1 Hord1 Hloop q)
      as [H|(k & d & first & Hk & He & Hq)].
    + destruct (Hfirst q) as [H1|H1]; [left; congruence | now right].
    + right. exists k, d, first. split; [exact (Hsub _ _ Hk)|].
      split; [exact He|].
      pose proof (after_copies_cwd _ _ (proj1 Hs)) as Hc. now rewrite <- Hc.
Qed.

(** With a table of folder names, a run leaves every file as it was
    except the mapping file and ".js" files directly inside the folders
    the table names, however the run ends: the compiled files and the
    TypeScript sources are never written. *)
Theorem a_run_writes_only_into_mapped_folders
        (w : world) (o : list (jsstring * json)) :
  valid_names (files w) = true ->
  loaded w = JObject o -> folder_table o = true ->
  forall q,
    lookup q (files (snd (syncWebResources w))) = lookup q (files w)
    \/ q = Path.resolve (cwd w) CONFIG_FILE
    \/ exists k d first,
         prop_get k o = Some (JString d)
         /\ ends_with (lit ".js") first = true
         /\ q = Path.resolve (cwd w) WEBRESOURCES_DIR ++ [d; first].
Proof.
  intros Hvalid Hload Ht q. rewrite syncWebResources_eq, Hload.
  pose proof (started_same_files w) as Hst.
  assert (Hkeep : forall w1, same_files w1 w ->
                             lookup q (files w1) = lookup q (files w))
    by (intros w1 [_ ->]; reflexivity).
  destruct (discovered w) as [|f fs].
  { left. apply Hkeep.
    exact (same_files_trans _ _ _
             (proj1 (after_loading_nil (JObject o) (started w))) Hst). }
  destruct (listing_ok (started w)) eqn:Hok.
  2:{ left. apply Hkeep.
      exact (same_files_trans _ _ _
               (after_loading_not_listed_world _ _ _ _ Hok) Hst). }
  rewrite (after_loading_cons _ _ _ _ Hok).
  set (wl := listed (started w)).
  assert (Hwl : same_files wl w)
    by exact (same_files_trans _ _ _ (listed_same_files _) Hst).
  assert (Hvalid' : valid_names (files wl) = true)
    by (destruct Hwl as [_ ->]; exact Hvalid).
  destruct (sync_loop (f :: fs) (JObject o, O) wl) as [r wc] eqn:Hloop.
  pose proof (sync_loop_touches _ _ _ _ _ _ Ht Hvalid'
                (loaded_order _ _ Hload) Hloop q) as Hq.
  pose proof (after_copies_cwd _ _
                (proj1 (sync_loop_after _ _ _ _ _ Hvalid' Hloop))) as Hc.
  destruct Hwl as [Hcwd Hfiles]. rewrite Hcwd, Hfiles in Hq.
  assert (Hwc : lookup q (files wc) = lookup q (files w)
                \/ q = Path.resolve (cwd w) CONFIG_FILE
                \/ exists k d first,
                     prop_get k o = Some (JString d)
                     /\ ends_with (lit ".js") first = true
                     /\ q = Path.resolve (cwd w) WEBRESOURCES_DIR ++ [d; first])
    by (destruct Hq as [H|H]; [now left | right; now right]).
  destruct r as [[m' n]|e]; [|exact Hwc].
  unfold SyncWebResources.saveMapping, writeFileSync.
  destruct (store CONFIG_FILE (to_well_formed (stringify m')) wc)
    as [r wd] eqn:Hsave.
  destruct (store_effect _ _ _ _ _ Hsave) as (_ & _ & Hother & _).
  rewrite Hc, Hcwd in Hother.
  destruct (location_eqb q (Path.resolve (cwd w) CONFIG_FILE)) eqn:E.
  { right; left. now apply location_eqb_eq. }
  apply location_eqb_neq in E.
  destruct r as [u|e]; cbn [snd files printed]; rewrite (Hother q E);
    exact Hwc.
Qed.

Lemma a_run_writes_only_into_mapped_folders_witness :
  let w := Examples.world_of Examples.scenario_files in
  let o := map (fun kv => (fst kv, JString (snd kv))) Examples.scenario_table in
  let q := Path.resolve (cwd w) DIST_DIR ++ [lit "widgetForm.js"] in
  lookup q (files (snd (syncWebResources w))) = lookup q (files w)
  \/ q = Path.resolve (cwd w) CONFIG_FILE
  \/ exists k d first,
       prop_get k o = Some (JString d)
       /\ ends_with (lit ".js") first = true
       /\ q = Path.resolve (cwd w) WEBRESOURCES_DIR ++ [d; first].
Proof.
  intros w o q. apply (a_run_writes_only_into_mapped_folders w o).
  - vm_compute. reflexivity.
  - vm_compute. reflexivity.
  - vm_compute. reflexivity.
Defined.

Lemma a_run_creates_nothing_and_keeps_the_folders_witness :
  let w := Examples.vendor_last in
  let w' := snd (syncWebResources w) in
  cwd w' = cwd w
  /\ (forall q,
        option_map is_dir (lookup q (files w')) = option_map is_dir (lookup q (files w))
        \/ (q = Path.resolve (cwd w) CONFIG_FILE
            /\ lookup q (files w) = None
            /\ fst (syncWebResources w) <> Ok None
            /\ exists c, lookup q (files w') = Some (File c))
        \/ (lookup q (files w') = None
            /\ (exists c, lookup q (files w) = Some (File c))
            /\ exists folder name,
                 q = folder ++ [name] /\ ends_with (lit ".js") name = true))
  /\ ((forall f, In f (discovered w) -> stat w f <> Ok Dir) ->
      forall q, lookup q (files w') = None -> lookup q (files w) = None).
Proof.
  intros w. apply (a_run_creates_nothing_and_keeps_the_folders w).
  vm_compute. reflexivity.
Defined.

(** ** The lines of a run *)

Lemma synced_lines_app (a b : list message) :
  synced_lines (a ++ b) = (synced_lines a + synced_lines b)%nat.
Proof. unfold synced_lines. now rewrite filter_app, length_app. Qed.

Lemma synced_lines_others (ms : list message) :
  forallb (fun m => negb (loop_line m)) ms = true -> synced_lines ms = O.
Proof.
  unfold synced_lines. induction ms as [|m ms IH]; simpl; [reflexivity|].
  intros H. apply andb_true_iff in H. destruct H as [Hm Hms].
  destruct m; try discriminate; simpl; now apply IH.
Qed.

(** [syncFile] on an object: it answers true exactly when it printed that
    the file was synced. *)
Lemma syncFile_lines (f t : jsstring) (o : list (jsstring * json))
      (w w' : world) (ok : bool) (m' : json) :
  syncFile f t (JObject o) w = (Ok (ok, m'), w') ->
  exists ms,
    prints w w' ms /\ synced_lines ms = (if ok then 1 else 0)%nat.
Proof.
  rewrite syncFile_eq.
  destruct (readdirSync t w) as [[names|e] w0]; [|discriminate].
  destruct (filter (ends_with (lit ".js")) names) as [|first rest].
  { intros [= <- _ <-]. eexists. split; [apply prints_printed | reflexivity]. }
  cbv zeta.
  destruct (copyFileSync f (Path.join [t; first]) w) as [[u|e] w1] eqn:Hcopy;
    apply copyFileSync_silent in Hcopy; intros [= <- _ <-]; eexists;
    (split; [unfold prints, printed; cbn [console]; rewrite Hcopy; reflexivity
            | reflexivity]).
Qed.

Lemma sync_one_lines (f : jsstring) (o : list (jsstring * json)) (n n' : nat)
      (w w' : world) (m' : json) :
  sync_one f (JObject o, n) w = (Ok (m', n'), w') ->
  exists ms, prints w w' ms /\ n' = (n + synced_lines ms)%nat.
Proof.
  destruct (truthy_cases (prop_get (tsFileName_of (cwd w) f) o))
    as [Hf|[(d & Hd & Hne)|(x & Hx & Ht & Hs)]].
  - rewrite (@sync_one_no_mapping f o n w Hf). intros [= _ <- <-].
    eexists. split; [apply prints_printed | unfold synced_lines; simpl; lia].
  - destruct (missing_dec w d) as [Hmiss|[x Hx]].
    + rewrite (@sync_one_missing f d o n w Hd Hne Hmiss).
      intros [= _ <- <-]. eexists. split; [apply prints_printed | unfold synced_lines; simpl; lia].
    + rewrite (@sync_one_present f d o n w x Hd Hne Hx).
      destruct (syncFile f (Path.join [WEBRESOURCES_DIR; d]) (JObject o) w)
        as [[[ok m1]|e] ws] eqn:Hsf; [|discriminate].
      intros [= _ <- <-].
      destruct (syncFile_lines _ _ _ _ _ _ _ Hsf) as (ms & Hp & Hc).
      exists ms. split; [exact Hp|]. rewrite Hc. destruct ok; lia.
  - rewrite Hx in Ht.
    rewrite (@sync_one_not_a_string f o n w x Hx Ht Hs). discriminate.
Qed.

Lemma sync_loop_lines (fs : list jsstring) :
  forall (o : list (jsstring * json)) (n n' : nat) (w w' : world) (m' : json),
    sync_loop fs (JObject o, n) w = (Ok (m', n'), w') ->
    exists ms,
      prints w w' ms /\ n' = (n + synced_lines ms)%nat
      /\ forallb loop_line ms = true.
Proof.
  induction fs as [|f rest IH]; intros o n n' w w' m'.
  - simpl. unfold ret. intros [= _ <- <-]. exists [].
    split; [apply prints_refl | split; [unfold synced_lines; simpl; lia | reflexivity]].
  - rewrite sync_loop_cons.
    destruct (sync_one f (JObject o, n) w) as [[[m1 n1]|e] w1] eqn:Hstep;
      [|discriminate].
    destruct (sync_one_object _ _ _ _ _ _ _ Hstep) as [o1 ->].
    destruct (sync_one_lines _ _ _ _ _ _ _ Hstep) as (ms1 & Hp1 & Hn1).
    intros Hloop. destruct (IH _ _ _ _ _ _ Hloop) as (ms2 & Hp2 & Hn2 & Hl2).
    exists (ms1 ++ ms2). split; [exact (prints_trans _ _ _ _ _ Hp1 Hp2)|].
    split; [rewrite synced_lines_app; lia|].
    rewrite forallb_app, Hl2, andb_true_r.
    (* the lines of one step *)
    clear - Hstep Hp1.
    destruct (truthy_cases (prop_get (tsFileName_of (cwd w) f) o))
      as [Hf|[(d & Hd & Hne)|(x & Hx & Ht & Hs)]].
    + rewrite (@sync_one_no_mapping f o n w Hf) in Hstep.
      injection Hstep as _ _ <-. unfold prints, printed in Hp1.
      cbn [console] in Hp1. apply app_inv_head in Hp1. now subst ms1.
    + destruct (missing_dec w d) as [Hmiss|[x Hx]].
      * rewrite (@sync_one_missing f d o n w Hd Hne Hmiss) in Hstep.
        injection Hstep as _ _ <-. unfold prints, printed in Hp1.
        cbn [console] in Hp1. apply app_inv_head in Hp1. now subst ms1.
      * rewrite (@sync_one_present f d o n w x Hd Hne Hx), syncFile_eq in Hstep.
        destruct (readdirSync (Path.join [WEBRESOURCES_DIR; d]) w)
          as [[names|e] w0]; [|discriminate].
        destruct (filter (ends_with (lit ".js")) names) as [|first rest0].
        { injection Hstep as _ _ <-. unfold prints, printed in Hp1.
          cbn [console] in Hp1. apply app_inv_head in Hp1. now subst ms1. }
        cbv zeta in Hstep.
        destruct (copyFileSync f _ w) as [[u|e] w2] eqn:Hcopy;
          apply copyFileSync_silent in Hcopy;
          injection Hstep as _ _ <-; unfold prints, printed in Hp1;
          cbn [console] in Hp1; rewrite Hcopy in Hp1;
          apply app_inv_head in Hp1; now subst ms1.
    + rewrite Hx in Ht.
      rewrite (@sync_one_not_a_string f o n w x Hx Ht Hs) in Hstep.
      discriminate.
Qed.

Lemma plain_app (a b : list message) :
  forallb (fun m => negb (loop_line m)) a = true ->
  forallb (fun m => negb (loop_line m)) b = true ->
  forallb (fun m => negb (loop_line m)) (a ++ b) = true.
Proof. intros Ha Hb. now rewrite forallb_app, Ha, Hb. Qed.

Lemma started_lines (w : world) :
  exists ms,
    prints w (started w) ms
    /\ forallb (fun m => negb (loop_line m)) ms = true.
Proof.
  unfold started. cbn [log snd].
  pose proof (loadMapping_cases (printed w [Sync_banner])) as Hload.
  assert (H1 : exists ms1,
             snd (SyncWebResources.loadMapping (printed w [Sync_banner]))
             = printed (printed w [Sync_banner]) ms1
             /\ forallb (fun m => negb (loop_line m)) ms1 = true).
  { destruct (stat (printed w [Sync_banner]) CONFIG_FILE) as [[c|]|e];
      [destruct (parse c)|..]; destruct Hload as [_ ->]; cbn [snd];
      try (eexists; split; reflexivity).
    exists []. split; [now rewrite printed_nil | reflexivity]. }
  destruct H1 as (ms1 & -> & Hq1).
  set (w1 := printed (printed w [Sync_banner]) ms1).
  assert (H2 : exists ms2,
             snd (getCompiledFiles w1) = printed w1 ms2
             /\ forallb (fun m => negb (loop_line m)) ms2 = true).
  { unfold getCompiledFiles, bind, existsSync, glob_sync_js.
    destruct (stat w1 DIST_DIR); simpl.
    - exists []. split; [now rewrite printed_nil | reflexivity].
    - eexists. split; reflexivity. }
  destruct H2 as (ms2 & -> & Hq2).
  exists ([Sync_banner] ++ ms1 ++ ms2). split.
  - unfold prints, w1, printed. cbn [console]. now rewrite <- !app_assoc.
  - apply plain_app; [reflexivity | now apply plain_app].
Qed.

Lemma list_web_resources_lines (dirs : list jsstring) :
  forall (index : nat) (w : world),
    exists ms,
      prints w (snd (list_web_resources index dirs w)) ms
      /\ forallb (fun m => negb (loop_line m)) ms = true.
Proof.
  induction dirs as [|d rest IH]; intros index w.
  { exists []. split; [apply prints_refl | reflexivity]. }
  cbn [list_web_resources]. unfold bind at 1.
  pose proof (getWebResourceInfo_reads d w) as Hr.
  destruct (getWebResourceInfo d w) as [[i|e] x]; simpl in Hr; subst x.
  2:{ exists []. split; [apply prints_refl | reflexivity]. }
  unfold bind, log.
  match goal with
  | |- context [list_web_resources (S index) rest (printed w ?l)] =>
      destruct (IH (S index) (printed w l)) as (ms & Hp & Hq);
      exists (l ++ ms); split;
      [exact (prints_trans _ _ _ _ _ (prints_printed w l) Hp)
      | apply plain_app; [reflexivity | exact Hq]]
  end.
Qed.

Lemma listed_lines (w : world) :
  exists ms,
    prints w (listed w) ms
    /\ forallb (fun m => negb (loop_line m)) ms = true.
Proof.
  unfold listed.
  assert (H1 : exists ms1,
             prints w (snd (getWebResourceDirs w)) ms1
             /\ forallb (fun m => negb (loop_line m)) ms1 = true).
  { unfold getWebResourceDirs, bind. rewrite existsSync_eq.
    destruct (stat w WEBRESOURCES_DIR) as [x|e]; simpl.
    - destruct (readdirSync WEBRESOURCES_DIR w) as [[names|e] y] eqn:Hd;
        apply readdirSync_world in Hd; subst y; simpl;
        rewrite ?filter_directories_reads;
        exists []; (split; [apply prints_refl | reflexivity]).
    - eexists. split; [apply prints_printed | reflexivity]. }
  destruct H1 as (ms1 & Hp1 & Hq1).
  destruct (getWebResourceDirs w) as [[dirs|e] wa]; cbn [snd] in Hp1;
    [|eauto].
  destruct (list_web_resources_lines
              dirs 0 (printed wa [Available_web_resources]))
    as (ms2 & Hp2 & Hq2).
  exists (ms1 ++ ([Available_web_resources] ++ ms2) ++ [Blank_line]). split.
  - apply (prints_trans _ _ _ _ _ Hp1).
    apply (prints_trans _ (snd (list_web_resources
                                  0 dirs (printed wa [Available_web_resources])))).
    + exact (prints_trans _ _ _ _ _ (prints_printed wa _) Hp2).
    + apply prints_printed.
  - apply plain_app; [exact Hq1|]. apply plain_app; [|reflexivity].
    apply plain_app; [reflexivity | exact Hq2].
Qed.

(** The count a run reports is the number of files it printed as synced:
    the console of a run that went through the loop holds the opening
    lines, then the lines of the loop, of which [n] are "Synced" lines,
    then the closing lines for [n]. *)
Theorem the_count_is_the_number_of_synced_lines
        (w w' : world) (o : list (jsstring * json)) (n : nat) :
  loaded w = JObject o ->
  syncWebResources w = (Ok (Some n), w') ->
  exists before during,
    console w' = console w ++ before ++ during ++ closing_lines n
    /\ forallb (fun m => negb (loop_line m)) before = true
    /\ forallb loop_line during = true
    /\ synced_lines during = n.
Proof.
  intros Hload Hrun. rewrite syncWebResources_eq, Hload in Hrun.
  destruct (discovered w) as [|f fs].
  { destruct (after_loading_nil (JObject o) (started w)) as [_ Hr].
    rewrite Hrun in Hr. cbn [fst] in Hr.
    destruct (fst (getWebResourceDirs (started w))); discriminate. }
  destruct (listing_ok (started w)) eqn:Hok.
  2:{ destruct (after_loading_not_listed (JObject o) f fs _ Hok) as [e He].
      rewrite Hrun in He. discriminate. }
  rewrite (after_loading_cons _ _ _ _ Hok) in Hrun.
  destruct (sync_loop (f :: fs) (JObject o, O) (listed (started w)))
    as [[[m' n1]|e] wc] eqn:Hloop; [|discriminate].
  unfold SyncWebResources.saveMapping, writeFileSync in Hrun.
  destruct (store CONFIG_FILE (to_well_formed (stringify m')) wc)
    as [[u|e] wd] eqn:Hsave; [|discriminate].
  injection Hrun as -> <-.
  destruct (store_effect _ _ _ _ _ Hsave) as (_ & Hcon & _).
  destruct (sync_loop_lines _ _ _ _ _ _ _ Hloop) as (ms & Hp & Hn & Hl).
  destruct (started_lines w) as (ms0 & Hp0 & Hq0).
  destruct (listed_lines (started w)) as (ms1 & Hp1 & Hq1).
  exists (ms0 ++ ms1), ms. split; [|split; [|split]].
  - unfold prints, printed in *. cbn [console].
    rewrite Hcon, Hp, Hp1, Hp0. now rewrite <- !app_assoc.
  - now apply plain_app.
  - exact Hl.
  - simpl in Hn. now symmetry.
Qed.

Lemma the_count_is_the_number_of_synced_lines_witness :
  let w := Examples.old_last Examples.stale_files in
  let w' := snd (syncWebResources w) in
  exists before during,
    console w' = console w ++ before ++ during ++ closing_lines 1
    /\ forallb (fun m => negb (loop_line m)) before = true
    /\ forallb loop_line during = true
    /\ synced_lines during = 1%nat.
Proof.
  intros w w'.
  apply (the_count_is_the_number_of_synced_lines
           w w' (map (fun kv => (fst kv, JString (snd kv)))
                     Examples.stale_table) 1).
  - vm_compute. reflexivity.
  - vm_compute. reflexivity.
Defined.

(** ** Compiled files without an entry *)

Lemma sync_loop_unmapped (fs : list jsstring) :
  forall (o : list (jsstring * json)) (n : nat) (w : world),
    (forall f, In f fs ->
               truthy (prop_get (tsFileName_of (cwd w) f) o) = false) ->
    sync_loop fs (JObject o, n) w
    = (Ok (JObject o, n), printed w (unmapped_lines (cwd w) fs)).
Proof.
  induction fs as [|f rest IH]; intros o n w Hno.
  - simpl. unfold ret. now rewrite printed_nil.
  - rewrite sync_loop_cons.
    rewrite (@sync_one_no_mapping f o n w (Hno f (or_introl eq_refl))).
    rewrite IH by (intros f' Hf'; apply Hno; now right).
    unfold printed, unmapped_lines. cbn [cwd files console map].
    now rewrite <- app_assoc.
Qed.

(** When no compiled file has an entry with a folder (the table is empty,
    or the mapping file is missing or unreadable), a run that returns has
    copied nothing: it reports zero, warns once for each compiled file,
    writes the table back to the mapping file and leaves every other file
    as it was. *)
Theorem unmapped_files_are_only_reported
        (w w' : world) (r : option nat) (o : list (jsstring * json)) :
  loaded w = JObject o ->
  discovered w <> [] ->
  (forall f, In f (discovered w) ->
             truthy (prop_get (tsFileName_of (cwd w) f) o) = false) ->
  syncWebResources w = (Ok r, w') ->
  r = Some O
  /\ stat w' CONFIG_FILE = Ok (File (to_well_formed (stringify (JObject o))))
  /\ (forall q, q <> Path.resolve (cwd w) CONFIG_FILE ->
                lookup q (files w') = lookup q (files w))
  /\ exists before,
       console w'
       = console w ++ before ++ unmapped_lines (cwd w) (discovered w)
                   ++ closing_lines 0
       /\ forallb (fun m => negb (loop_line m)) before = true.
Proof.
  intros Hload Hsome Hno Hrun. rewrite syncWebResources_eq, Hload in Hrun.
  destruct (discovered w) as [|f fs] eqn:Hfs; [contradiction|].
  destruct (listing_ok (started w)) eqn:Hok.
  2:{ destruct (after_loading_not_listed (JObject o) f fs _ Hok) as [e He].
      rewrite Hrun in He. discriminate. }
  rewrite (after_loading_cons _ _ _ _ Hok) in Hrun.
  set (wl := listed (started w)) in *.
  assert (Hwl : same_files wl w)
    by exact (same_files_trans _ _ _ (listed_same_files _)
                               (started_same_files w)).
  destruct Hwl as [Hcwd Hfiles].
  rewrite sync_loop_unmapped in Hrun by (now rewrite Hcwd).
  unfold SyncWebResources.saveMapping, writeFileSync in Hrun.
  destruct (store CONFIG_FILE (to_well_formed (stringify (JObject o)))
                  (printed wl (unmapped_lines (cwd wl) (f :: fs))))
    as [[[]|e] wd] eqn:Hsave; [|discriminate].
  injection Hrun as <- <-.
  destruct (@store_ok _ _ _ _ Hsave) as (Hc & Hcon & Hstat & Hother & _).
  cbn [cwd files console printed] in Hc, Hcon, Hother.
  split; [reflexivity|]. split; [|split].
  - unfold stat in *. cbn [cwd files printed]. exact Hstat.
  - intros q Hq. cbn [files printed]. rewrite Hother by (now rewrite Hcwd).
    now rewrite Hfiles.
  - destruct (started_lines w) as (ms0 & Hp0 & Hq0).
    destruct (listed_lines (started w)) as (ms1 & Hp1 & Hq1). fold wl in Hp1.
    exists (ms0 ++ ms1). split; [|now apply plain_app].
    unfold prints in *. cbn [console printed].
    rewrite Hcon, Hp1, Hp0, Hcwd. now rewrite <- !app_assoc.
Qed.

Lemma unmapped_files_are_only_reported_witness :
  let w := Examples.world_of Examples.files_json_artifact in
  let w' := snd (syncWebResources w) in
  Some O = Some O
  /\ stat w' CONFIG_FILE = Ok (File (to_well_formed (stringify (JObject []))))
  /\ (forall q, q <> Path.resolve (cwd w) CONFIG_FILE ->
                lookup q (files w') = lookup q (files w))
  /\ exists before,
       console w'
       = console w ++ before ++ unmapped_lines (cwd w) (discovered w)
                   ++ closing_lines 0
       /\ forallb (fun m => negb (loop_line m)) before = true.
Proof.
  intros w w'.
  apply (unmapped_files_are_only_reported w w' (Some O) []).
  - vm_compute. reflexivity.
  - vm_compute. discriminate.
  - intros f _. reflexivity.
  - vm_compute. reflexivity.
Defined.

(** A mapping file that holds [null] stops the run at the first compiled
    file: reading a property of [null] throws, nothing is copied and
    nothing is saved. *)
Theorem a_null_table_stops_the_run (w : world) :
  loaded w = JNull -> discovered w <> [] -> listing_ok (started w) = true ->
  fst (syncWebResources w) = Throw TypeError
  /\ same_files (snd (syncWebResources w)) w.
Proof.
  intros Hload Hsome Hok. rewrite syncWebResources_eq, Hload.
  destruct (discovered w) as [|f fs]; [contradiction|].
  rewrite (after_loading_cons _ _ _ _ Hok), sync_loop_cons.
  change (sync_one f (JNull, O) (listed (started w)))
    with (@Throw (json * nat) TypeError, listed (started w)).
  split; [reflexivity|]. cbn [snd].
  exact (same_files_trans _ _ _ (listed_same_files _) (started_same_files w)).
Qed.

(* ===================================================================== *)
(** * Properties of the folder listing and of the creation flow *)
(* ===================================================================== *)

(** ** The folders of the assets root *)

Lemma last_not_slash (d : jsstring) :
  d <> [] -> Path.slash_free d = true ->
  exists c upper, rev d = c :: upper /\ (c =? Path.slash) = false
                  /\ forallb (fun x => negb (x =? Path.slash)) upper = true.
Proof.
  intros Hne Hfree. unfold Path.slash_free in Hfree.
  assert (H : forallb (fun x => negb (x =? Path.slash)) (rev d) = true).
  { rewrite forallb_forall in *. intros x Hx. apply Hfree. now apply in_rev. }
  destruct (rev d) as [|c upper] eqn:E.
  - apply (f_equal (@rev N)) in E. rewrite rev_involutive in E. now subst.
  - simpl in H. apply andb_true_iff in H. destruct H as [Hc Hu].
    exists c, upper. split; [reflexivity|]. split; [|exact Hu].
    now apply negb_true_iff.
Qed.

Lemma valid_name_parts (d : jsstring) :
  Path.valid_name d = true ->
  d <> [] /\ Path.kept d = true /\ Path.slash_free d = true.
Proof.
  unfold Path.valid_name. intros H. apply andb_true_iff in H.
  destruct H as [Hk Hf]. split; [|split; assumption].
  destruct (@kept_spec d Hk) as [H1 _]. now apply eqb_neq.
Qed.

(** The text of [path.join(WEBRESOURCES_DIR, d)] for a folder name. *)
Lemma join_target_text (d : jsstring) :
  Path.valid_name d = true ->
  Path.join [WEBRESOURCES_DIR; d] = lit "src/webresources/" ++ d.
Proof.
  intros Hv. destruct (valid_name_parts d Hv) as (Hne & Hk & Hf).
  unfold Path.join. cbn [filter].
  change (negb (eqb WEBRESOURCES_DIR [])) with true. cbv iota.
  apply eqb_neq in Hne. rewrite Hne. cbn [negb].
  cbn [join_with]. unfold Path.normalize.
  set (p := WEBRESOURCES_DIR ++ [Path.slash] ++ d).
  assert (Hp : p = lit "./src/webresources" ++ Path.slash :: d) by reflexivity.
  assert (Habs : Path.is_absolute p = false) by reflexivity.
  assert (Htr : Path.has_trailing_slash p = false).
  { unfold Path.has_trailing_slash. rewrite Hp, rev_app_distr.
    apply eqb_neq in Hne.
    destruct (last_not_slash d Hne Hf) as (c & upper & Hr & Hc & _).
    cbn [rev]. rewrite Hr. cbn [app]. exact Hc. }
  rewrite Habs, Htr. cbn [negb].
  rewrite Hp, split_on_app, (@split_on_no_sep d Hf).
  change (split_on Path.slash (lit "./src/webresources"))
    with [lit "."; lit "src"; lit "webresources"].
  unfold Path.normalize_segments. cbn [app Path.walk].
  change (Path.step true (Path.step true (Path.step true [] (lit "."))
                                    (lit "src")) (lit "webresources"))
    with [lit "webresources"; lit "src"].
  rewrite (@step_kept true _ d Hk). cbn [rev app join_with].
  destruct (lit "./src/webresources" ++ Path.slash :: d) eqn:E;
    [discriminate|].
  cbn [app]. rewrite app_nil_r. vm_compute. reflexivity.
Qed.

Lemma basename_target (d : jsstring) :
  Path.valid_name d = true ->
  Path.basename (Path.join [WEBRESOURCES_DIR; d]) = d.
Proof.
  intros Hv. rewrite (join_target_text d Hv).
  destruct (valid_name_parts d Hv) as (Hne & _ & Hf).
  destruct (last_not_slash d Hne Hf) as (c & upper & Hr & Hc & Hu).
  unfold Path.basename. cbv zeta.
  rewrite rev_app_distr, Hr. cbn [app drop_while]. rewrite Hc.
  rewrite rev_involutive. cbn [take_while]. rewrite Hc. cbn [negb].
  assert (Ht : forall rest,
             take_while (fun x => negb (x =? Path.slash))
                        (upper ++ Path.slash :: rest) = upper).
  { intros rest. clear - Hu. induction upper as [|x upper IH]; simpl.
    - reflexivity.
    - simpl in Hu. apply andb_true_iff in Hu. destruct Hu as [Hx Hu].
      rewrite Hx. now rewrite (IH Hu). }
  change (rev (lit "src/webresources/"))
    with (Path.slash :: rev (lit "src/webresources")).
  rewrite Ht, <- Hr. apply rev_involutive.
Qed.

Lemma target_no_trailing_slash (d : jsstring) :
  Path.valid_name d = true ->
  Path.has_trailing_slash (Path.join [WEBRESOURCES_DIR; d]) = false.
Proof.
  intros Hv. rewrite (join_target_text d Hv).
  destruct (valid_name_parts d Hv) as (Hne & _ & Hf).
  destruct (last_not_slash d Hne Hf) as (c & upper & Hr & Hc & _).
  unfold Path.has_trailing_slash. rewrite rev_app_distr, Hr. exact Hc.
Qed.

(** What [stat] answers for a listed folder name. *)
Lemma stat_target (w : world) (d : jsstring) :
  Path.valid_name d = true ->
  stat w (target_of d)
  = match lookup (Path.resolve (cwd w) WEBRESOURCES_DIR ++ [d]) (files w) with
    | Some n => Ok n
    | None => Throw ENOENT
    end.
Proof.
  intros Hv. unfold stat, target_of.
  rewrite (resolve_target (cwd w) d Hv), (target_no_trailing_slash d Hv).
  destruct (Path.resolve (cwd w) WEBRESOURCES_DIR ++ [d]) as [|s q] eqn:E.
  - now destruct (Path.resolve (cwd w) WEBRESOURCES_DIR).
  - now destruct (lookup (s :: q) (files w)) as [[c|]|].
Qed.

Lemma filter_directories_listed (w : world) (names : list jsstring) :
  valid_names (files w) = true ->
  (forall d, In d names ->
             In d (children (Path.resolve (cwd w) WEBRESOURCES_DIR) (files w))) ->
  SyncWebResources.filter_directories names w
  = (Ok (filter (is_folder w) names), w).
Proof.
  intros Hvalid. induction names as [|d rest IH]; intros Hin; [reflexivity|].
  cbn [SyncWebResources.filter_directories filter]. unfold bind at 1.
  pose proof (Hin d (or_introl eq_refl)) as Hd.
  pose proof (@children_valid _ _ _ Hvalid Hd) as Hv.
  destruct (@children_lookup _ _ _ Hd) as [n Hn].
  unfold isDirectory. fold (target_of d). rewrite (stat_target w d Hv).
  unfold is_folder. rewrite Hn.
  specialize (IH (fun d' Hd' => Hin d' (or_intror Hd'))).
  destruct n as [c|]; unfold bind, ret; rewrite IH; reflexivity.
Qed.

(** [getWebResourceDirs] (both scripts).  When the assets root is missing
    the answer is the empty list, with one line printed; when it is a
    regular file the call throws; when it is a directory the answer is its
    entries that are directories, in listing order, and each of them is the
    name of its own target folder, which exists. *)
Theorem getWebResourceDirs_lists_the_folders
        (w : world) (get : M (list jsstring)) :
  valid_names (files w) = true ->
  get = CreateNewWebResource.getWebResourceDirs
  \/ get = SyncWebResources.getWebResourceDirs ->
  match stat w WEBRESOURCES_DIR with
  | Throw _ => get w = (Ok [], printed w [Web_resources_directory_not_found])
  | Ok (File _) => get w = (Throw ENOTDIR, w)
  | Ok Dir =>
      let listed_names :=
        children (Path.resolve (cwd w) WEBRESOURCES_DIR) (files w) in
      get w = (Ok (filter (is_folder w) listed_names), w)
      /\ forall d, In d (filter (is_folder w) listed_names) ->
                   stat w (target_of d) = Ok Dir
                   /\ is_folder_name (JString d) = true
  end.
Proof.
  intros Hvalid Hget.
  assert (Hsame : get = SyncWebResources.getWebResourceDirs)
    by (destruct Hget as [-> | ->]; reflexivity).
  subst get. clear Hget.
  unfold SyncWebResources.getWebResourceDirs, bind. rewrite existsSync_eq.
  unfold readdirSync.
  destruct (stat w WEBRESOURCES_DIR) as [[c|]|e] eqn:Hs; cbn [negb];
    rewrite ?Hs; try reflexivity.
  cbv zeta. split.
  - now apply filter_directories_listed.
  - intros d Hd. apply filter_In in Hd. destruct Hd as [Hin Hdir].
    pose proof (@children_valid _ _ _ Hvalid Hin) as Hv.
    rewrite (stat_target w d Hv). unfold is_folder in Hdir.
    destruct (lookup _ (files w)) as [[c|]|]; try discriminate.
    split; [reflexivity|]. unfold is_folder_name, target_of.
    rewrite (basename_target d Hv). apply eqb_refl.
Qed.

Lemma getWebResourceDirs_lists_the_folders_witness :
  let w := Examples.world_of Examples.project_files in
  let get := CreateNewWebResource.getWebResourceDirs in
  match stat w WEBRESOURCES_DIR with
  | Throw _ => get w = (Ok [], printed w [Web_resources_directory_not_found])
  | Ok (File _) => get w = (Throw ENOTDIR, w)
  | Ok Dir =>
      let listed_names :=
        children (Path.resolve (cwd w) WEBRESOURCES_DIR) (files w) in
      get w = (Ok (filter (is_folder w) listed_names), w)
      /\ forall d, In d (filter (is_folder w) listed_names) ->
                   stat w (target_of d) = Ok Dir
                   /\ is_folder_name (JString d) = true
  end.
Proof.
  intros w get. apply (getWebResourceDirs_lists_the_folders w get).
  - vm_compute. reflexivity.
  - left. reflexivity.
Defined.

(** ** The creation flow on the disk *)

Import CreateNewWebResource.

(** The flow and its file-system steps end the same way with the same
    disk. *)
Lemma createNewWebResource_on_disk (ui : inquirer) (s : desk) :
  fst (createNewWebResource ui s) = fst (on_disk ui (disk s))
  /\ disk (snd (createNewWebResource ui s)) = snd (on_disk ui (disk s)).
Proof.
  unfold createNewWebResource, on_disk, after_listing, write_entry.
  unfold cbind, bind, say, lift, cret, ret. cbn [disk screen].
  destruct (getWebResourceDirs (disk s)) as [[dirs|e] w1]; [|now split].
  cbn [disk screen].
  destruct (NewWebResource.loadMapping w1) as [[mapping|e] w2]; [|now split].
  cbn [disk screen].
  destruct dirs as [|d dirs]; [now split|].
  cbn [disk screen].
  destruct (choices_of (d :: dirs) w2) as [[cs|e] w3]; [|now split].
  cbn [disk screen].
  destruct (existsSync (tsFilePath_of (tsFileName (ask ui cs))) w3)
    as [[present|e] w4]; [|now split].
  cbn [disk screen].
  destruct (present && negb (confirm_overwrite ui (tsFileName (ask ui cs))));
    [now split|].
  cbn [disk screen].
  destruct (tsContent_of (ask ui cs) w4) as [[content|e] w5]; [|now split].
  cbn [disk screen].
  destruct (writeFileSync (tsFilePath_of (tsFileName (ask ui cs))) content w5)
    as [[u|e] w6]; [|now split].
  cbn [disk screen].
  destruct (assign_entry mapping (relativeTsPath_of (tsFileName (ask ui cs)))
                         (JString (webResourceDir (ask ui cs))) w6)
    as [[mapping'|e] w7]; [|now split].
  cbn [disk screen].
  destruct (NewWebResource.saveMapping mapping' w7) as [[u'|e] w8];
    [|now split].
  cbn [disk screen].
  destruct (getWebResourceInfo (webResourceDir (ask ui cs)) w8)
    as [[[i|]|e] w9]; now split.
Qed.

(** *** Computations that do not look at the console *)

Lemma same_files_sym (w1 w2 : world) : same_files w1 w2 -> same_files w2 w1.
Proof. intros [H1 H2]. split; congruence. Qed.

Lemma blind_ret {A : Type} (a : A) : blind (ret a).
Proof. intros w1 w2 H. now split. Qed.

Lemma blind_throw {A : Type} (e : exn) : blind (@throw A e).
Proof. intros w1 w2 H. now split. Qed.

Lemma blind_log (m : message) : blind (log m).
Proof. intros w1 w2 [H1 H2]. split; [reflexivity|]. split; assumption. Qed.

Lemma blind_bind {A B : Type} (m : M A) (k : A -> M B) :
  blind m -> (forall a, blind (k a)) -> blind (bind m k).
Proof.
  intros Hm Hk w1 w2 H. unfold bind. destruct (Hm w1 w2 H) as [Hr Hw].
  destruct (m w1) as [[a1|e1] x1], (m w2) as [[a2|e2] x2];
    cbn [fst snd] in Hr, Hw; try discriminate.
  - injection Hr as <-. exact (Hk a1 x1 x2 Hw).
  - injection Hr as <-. now split.
Qed.

Lemma blind_try_catch {A : Type} (body : M A) (handler : exn -> M A) :
  blind body -> (forall e, blind (handler e)) -> blind (try_catch body handler).
Proof.
  intros Hm Hk w1 w2 H. unfold try_catch. destruct (Hm w1 w2 H) as [Hr Hw].
  destruct (body w1) as [[a1|e1] x1], (body w2) as [[a2|e2] x2];
    cbn [fst snd] in Hr, Hw; try discriminate.
  - injection Hr as <-. now split.
  - injection Hr as <-. exact (Hk e1 x1 x2 Hw).
Qed.


Lemma blind_existsSync (p : jsstring) : blind (existsSync p).
Proof.
  intros w1 w2 H. unfold existsSync. cbn [fst snd].
  now rewrite (stat_same_files w1 w2 p H).
Qed.

Lemma blind_readFileSync (p : jsstring) : blind (readFileSync p).
Proof.
  intros w1 w2 H. unfold readFileSync.
  rewrite (stat_same_files w1 w2 p H).
  destruct (stat w2 p) as [[c|]|e]; now split.
Qed.

Lemma blind_readdirSync (p : jsstring) : blind (readdirSync p).
Proof.
  intros w1 w2 H. unfold readdirSync.
  rewrite (stat_same_files w1 w2 p H). destruct H as [Hc Hf].
  rewrite Hc, Hf.
  destruct (stat w2 p) as [[c|]|e]; (split; [reflexivity | now split]).
Qed.

Lemma blind_store (p c : jsstring) : blind (store p c).
Proof.
  intros w1 w2 H. unfold store.
  rewrite (stat_same_files w1 w2 p H). pose proof H as [Hc Hf].
  rewrite Hc, Hf.
  destruct (Path.has_trailing_slash p); [now split|].
  destruct (Path.resolve (cwd w2) p) as [|s q]; [now split|].
  assert (Hnew : forall t,
             fst (set_files t w1) = fst (set_files t w2)
             /\ same_files (snd (set_files t w1)) (snd (set_files t w2))).
  { intros t. unfold set_files. cbn [fst snd].
    split; [reflexivity|]. split; [exact Hc | reflexivity]. }
  destruct (lookup (s :: q) (files w2)) as [[c0|]|];
    [apply Hnew | now split |].
  destruct (parent (s :: q)) as [|s1 q1]; [apply Hnew|].
  destruct (lookup (s1 :: q1) (files w2)) as [[c1|]|];
    [now split | apply Hnew | now split].
Qed.

Lemma blind_getWebResourceInfo (d : jsstring) : blind (getWebResourceInfo d).
Proof.
  unfold getWebResourceInfo. cbv zeta.
  apply blind_bind; [apply blind_existsSync|]. intros present.
  destruct (negb present); [apply blind_ret|].
  apply blind_bind; [apply blind_readFileSync|]. intros c. apply blind_ret.
Qed.

Lemma blind_choices_of (dirs : list jsstring) : blind (choices_of dirs).
Proof.
  induction dirs as [|d rest IH]; [apply blind_ret|].
  cbn [choices_of]. apply blind_bind; [apply blind_getWebResourceInfo|].
  intros i. apply blind_bind; [exact IH|]. intros cs. apply blind_ret.
Qed.

Lemma blind_convertJsToTs (p : jsstring) : blind (convertJsToTs p).
Proof.
  unfold convertJsToTs.
  apply blind_bind; [apply blind_existsSync|]. intros present.
  destruct (negb present); [apply blind_ret|].
  apply blind_bind; [apply blind_readFileSync|]. intros c. apply blind_ret.
Qed.

Lemma blind_tsContent_of (a : answers) : blind (tsContent_of a).
Proof.
  unfold tsContent_of. destruct (convertExisting a); [|apply blind_ret].
  cbv zeta. apply blind_bind; [apply blind_readdirSync|]. intros names.
  destruct (filter (ends_with (lit ".js")) names);
    [apply blind_ret | apply blind_convertJsToTs].
Qed.

Lemma blind_write_entry (mapping : json) (a : answers) :
  blind (write_entry mapping a).
Proof.
  unfold write_entry.
  apply blind_bind; [apply blind_tsContent_of|]. intros content.
  apply blind_bind; [apply blind_store|]. intros _.
  apply blind_bind.
  { unfold assign_entry. destruct mapping;
      try apply blind_throw; apply blind_ret. }
  intros mapping'. apply blind_store.
Qed.

Lemma blind_after_listing (ui : inquirer) (dirs : list jsstring)
      (mapping : json) :
  blind (after_listing ui dirs mapping).
Proof.
  unfold after_listing. destruct dirs as [|d dirs]; [apply blind_ret|].
  apply blind_bind; [apply blind_choices_of|]. intros cs. cbv zeta.
  apply blind_bind; [apply blind_existsSync|]. intros present.
  destruct (present && negb _); [apply blind_ret|].
  apply blind_bind; [apply blind_write_entry|]. intros _.
  apply blind_bind; [apply blind_getWebResourceInfo|]. intros i.
  apply blind_ret.
Qed.

(** The flow on the disk: the folders are listed and the table loaded,
    which only prints; the rest goes as from the first world. *)
Lemma on_disk_after_listing (ui : inquirer) (w : world) :
  match fst (getWebResourceDirs w) with
  | Ok dirs =>
      fst (on_disk ui w) = fst (after_listing ui dirs (loaded w) w)
      /\ same_files (snd (on_disk ui w))
                    (snd (after_listing ui dirs (loaded w) w))
  | Throw e =>
      fst (on_disk ui w) = Throw e /\ same_files (snd (on_disk ui w)) w
  end.
Proof.
  unfold on_disk, bind.
  pose proof (getWebResourceDirs_reads w) as Hd.
  change SyncWebResources.getWebResourceDirs with getWebResourceDirs in Hd.
  destruct (getWebResourceDirs w) as [[dirs|e] w1]; cbn [fst snd] in *;
    [|now split].
  pose proof (loadMapping_cases w1) as Hload.
  assert (H : exists ms, NewWebResource.loadMapping w1
                         = (Ok (loaded w1), printed w1 ms)).
  { unfold loaded, persisted.
    destruct (stat w1 CONFIG_FILE) as [[c|]|e];
      [destruct (parse c)|..]; destruct Hload as [-> _]; eauto;
      exists []; now rewrite printed_nil. }
  destruct H as [ms ->].
  rewrite (loaded_same_files _ _ Hd).
  apply blind_after_listing.
  exact (same_files_trans _ _ _ (same_files_printed w1 ms) Hd).
Qed.

(** ** Names the validator accepts *)

Lemma name_char_plain (c : N) :
  is_name_char c = true -> (c =? 46) = false /\ (c =? Path.slash) = false.
Proof.
  unfold is_name_char, Path.slash. intros H.
  destruct (c =? 46) eqn:E1; [apply N.eqb_eq in E1; subst c; discriminate|].
  destruct (c =? 47) eqn:E2; [apply N.eqb_eq in E2; subst c; discriminate|].
  split; reflexivity.
Qed.

(** A validated name with an extension is a name a directory entry can
    have. *)
Lemma valid_name_with_extension (n ext : jsstring) :
  test_name n = true -> Path.slash_free ext = true ->
  (2 <= length ext)%nat ->
  Path.valid_name (n ++ ext) = true.
Proof.
  intros Hn Hext Hlen. apply test_name_spec in Hn. destruct Hn as [Hne Hall].
  unfold Path.valid_name, Path.kept.
  assert (Hlong : (3 <= length (n ++ ext))%nat).
  { rewrite length_app. destruct n; [congruence|]. simpl. lia. }
  assert (H1 : eqb (n ++ ext) [] = false)
    by (apply eqb_neq; intros E; rewrite E in Hlong; simpl in Hlong; lia).
  assert (H2 : eqb (n ++ ext) Path.dot = false)
    by (apply eqb_neq; intros E; rewrite E in Hlong; simpl in Hlong; lia).
  assert (H3 : eqb (n ++ ext) Path.dotdot = false)
    by (apply eqb_neq; intros E; rewrite E in Hlong; simpl in Hlong; lia).
  rewrite H1, H2, H3. cbn [negb andb].
  unfold Path.slash_free in *. rewrite forallb_app, Hext, andb_true_r.
  rewrite forallb_forall. rewrite Forall_forall in Hall. intros c Hc.
  destruct (name_char_plain c (Hall c Hc)) as [_ ->]. reflexivity.
Qed.

Lemma name_without_js (n : jsstring) :
  Forall (fun c => is_name_char c = true) n -> includes (lit ".js") n = false.
Proof.
  induction 1 as [|c n Hc _ IH]; [reflexivity|].
  cbn [includes]. rewrite IH, orb_false_r.
  change (lit ".js") with [46; 106; 115]. cbn [starts_with].
  destruct (name_char_plain c Hc) as [H _]. rewrite N.eqb_sym, H.
  reflexivity.
Qed.

(** The key the creation flow stores under a validated name is the key
    the reconciler derives from the file compiled from it. *)
Theorem the_stored_key_is_the_derived_key
        (cwd : list jsstring) (typed : jsstring) :
  validate typed = Valid ->
  tsFileName_of cwd (lit "dist/" ++ trim typed ++ lit ".js")
  = relativeTsPath_of typed.
Proof.
  intros Hv. apply validate_valid_iff in Hv.
  pose proof (valid_name_with_extension (trim typed) (lit ".js") Hv eq_refl)
    as Hname. specialize (Hname ltac:(simpl; lia)).
  pose proof (proj2 (proj1 (test_name_spec _) Hv)) as Hall.
  unfold tsFileName_of, relativeTsPath_of.
  change (lit "dist/" ++ trim typed ++ lit ".js")
    with (lit "dist" ++ [Path.slash]
            ++ join_with [Path.slash] [trim typed ++ lit ".js"]).
  rewrite relative_below_dist; [|discriminate|].
  - cbn [join_with]. apply replace_first_at_end. now apply name_without_js.
  - cbn [forallb]. now rewrite Hname.
Qed.

Lemma the_stored_key_is_the_derived_key_witness :
  tsFileName_of Examples.home (lit "dist/" ++ trim (lit " widgetForm ")
                                 ++ lit ".js")
  = relativeTsPath_of (lit " widgetForm ").
Proof.
  apply (the_stored_key_is_the_derived_key Examples.home (lit " widgetForm ")).
  vm_compute. reflexivity.
Defined.

(** ** What the creation flow writes *)

Lemma choices_of_reads (dirs : list jsstring) (w : world) :
  snd (choices_of dirs w) = w.
Proof.
  induction dirs as [|d rest IH]; [reflexivity|].
  cbn [choices_of]. unfold bind at 1.
  pose proof (getWebResourceInfo_reads d w) as Hr.
  destruct (getWebResourceInfo d w) as [[i|e] x]; simpl in Hr; subst x;
    [|reflexivity].
  unfold bind. destruct (choices_of rest w) as [[cs|e] x]; simpl in IH;
    subst x; reflexivity.
Qed.

Lemma tsContent_of_reads (a : answers) (w : world) :
  snd (tsContent_of a w) = w.
Proof.
  unfold tsContent_of. destruct (convertExisting a); [|reflexivity].
  cbv zeta. unfold bind.
  destruct (readdirSync _ w) as [[names|e] x] eqn:Hd;
    apply readdirSync_world in Hd; subst x; [|reflexivity].
  destruct (filter (ends_with (lit ".js")) names) as [|first rest];
    [reflexivity|].
  unfold convertJsToTs, bind. rewrite existsSync_eq. unfold readFileSync.
  destruct (stat w _) as [[c|]|e] eqn:Hs; cbn [negb]; rewrite ?Hs;
    reflexivity.
Qed.

(** [write_entry] changes nothing but the TypeScript file and the mapping
    file. *)
Lemma write_entry_touches (mapping : json) (a : answers) (w w' : world)
      (r : outcome unit) :
  write_entry mapping a w = (r, w') ->
  cwd w' = cwd w
  /\ forall q,
       q <> Path.resolve (cwd w) (tsFilePath_of (tsFileName a)) ->
       q <> Path.resolve (cwd w) CONFIG_FILE ->
       lookup q (files w') = lookup q (files w).
Proof.
  unfold write_entry, bind.
  pose proof (tsContent_of_reads a w) as Hr.
  destruct (tsContent_of a w) as [[content|e] x]; simpl in Hr; subst x;
    [|intros [= _ <-]; now split].
  unfold writeFileSync at 1.
  destruct (store (tsFilePath_of (tsFileName a)) (to_well_formed content) w)
    as [r1 w1] eqn:H1.
  destruct (store_effect _ _ _ _ _ H1) as (Hc1 & _ & Ho1 & _).
  destruct r1 as [u|e];
    [|intros [= _ <-]; split; [exact Hc1 | intros q Hq _; auto]].
  destruct (assign_entry mapping (relativeTsPath_of (tsFileName a))
                         (JString (webResourceDir a)) w1)
    as [r2 w2] eqn:H2.
  assert (Hw2 : w2 = w1).
  { unfold assign_entry in H2.
    destruct mapping; unfold ret, throw in H2; now injection H2. }
  subst w2.
  destruct r2 as [mapping'|e];
    [|intros [= _ <-]; split; [exact Hc1 | intros q Hq _; auto]].
  unfold NewWebResource.saveMapping, writeFileSync. intros H3.
  destruct (store_effect _ _ _ _ _ H3) as (Hc3 & _ & Ho3 & _).
  split; [congruence|]. intros q Hq Hcfg.
  rewrite Ho3 by (now rewrite Hc1). now apply Ho1.
Qed.

Lemma main_disk (ui : inquirer) (s : desk) :
  disk (snd (main ui s)) = disk (snd (createNewWebResource ui s))
  /\ fst (main ui s) = Ok tt.
Proof.
  unfold main, catch.
  destruct (createNewWebResource ui s) as [[[]|e] s']; now split.
Qed.

(** Whatever the user answers and however the flow ends, it writes at
    most two files: the mapping file, and one TypeScript file, which for a
    validated name lies directly in the TypeScript folder.  The web
    resource folders are only read. *)
Theorem the_flow_writes_two_files_at_most (ui : inquirer) (s : desk) :
  (forall cs, validate (tsFileName (ask ui cs)) = Valid) ->
  fst (main ui s) = Ok tt
  /\ cwd (disk (snd (main ui s))) = cwd (disk s)
  /\ exists typed,
       validate typed = Valid
       /\ forall q,
            lookup q (files (disk (snd (main ui s)))) = lookup q (files (disk s))
            \/ q = Path.resolve (cwd (disk s)) CONFIG_FILE
            \/ q = Path.resolve (cwd (disk s)) TYPESCRIPT_DIR
                   ++ [relativeTsPath_of typed].
Proof.
  intros Hvalid. destruct (main_disk ui s) as [-> Hmain].
  split; [exact Hmain|].
  destruct (createNewWebResource_on_disk ui s) as [_ ->].
  set (w := disk s).
  set (two := fun w' : world =>
                cwd w' = cwd w
                /\ exists typed,
                     validate typed = Valid
                     /\ forall q,
                          lookup q (files w') = lookup q (files w)
                          \/ q = Path.resolve (cwd w) CONFIG_FILE
                          \/ q = Path.resolve (cwd w) TYPESCRIPT_DIR
                                 ++ [relativeTsPath_of typed]).
  assert (Hkeep : forall w', same_files w' w -> two w').
  { intros w' [Hc Hf]. split; [exact Hc|].
    exists (tsFileName (ask ui [])). split; [apply Hvalid|].
    intros q. left. now rewrite Hf. }
  pose proof (on_disk_after_listing ui w) as Hflow.
  destruct (fst (getWebResourceDirs w)) as [dirs|e];
    [|apply Hkeep; apply Hflow].
  destruct Hflow as [_ Hsame].
  assert (Hgoal : forall r w',
             after_listing ui dirs (loaded w) w = (r, w') -> two w').
  { intros r w'. unfold after_listing. destruct dirs as [|d dirs];
      [intros [= _ <-]; apply Hkeep, same_files_refl|].
    unfold bind. pose proof (choices_of_reads (d :: dirs) w) as Hr.
    destruct (choices_of (d :: dirs) w) as [[cs|e] x]; simpl in Hr; subst x;
      [|intros [= _ <-]; apply Hkeep, same_files_refl].
    cbv zeta. rewrite existsSync_eq.
    destruct (_ && negb _);
      [intros [= _ <-]; apply Hkeep, same_files_refl|].
    set (a := ask ui cs).
    destruct (write_entry (loaded w) a w) as [r1 w1] eqn:Hwrite.
    destruct (write_entry_touches _ _ _ _ _ Hwrite) as [Hc Hother].
    assert (Hw1 : two w1).
    { split; [exact Hc|].
      exists (tsFileName a). split; [apply Hvalid|]. intros q.
      destruct (location_eqb q (Path.resolve (cwd w) CONFIG_FILE)) eqn:E1;
        [right; left; now apply location_eqb_eq|].
      destruct (location_eqb
                  q (Path.resolve (cwd w) (tsFilePath_of (tsFileName a))))
        eqn:E2.
      - right; right.
        apply location_eqb_eq in E2. rewrite E2. unfold tsFilePath_of.
        apply resolve_join_child. unfold relativeTsPath_of.
        apply valid_name_with_extension;
          [apply validate_valid_iff, Hvalid | reflexivity | simpl; lia].
      - left. apply Hother; now apply location_eqb_neq. }
    destruct r1 as [u|e]; [|intros [= _ <-]; exact Hw1].
    pose proof (getWebResourceInfo_reads (webResourceDir a) w1) as Hi.
    destruct (getWebResourceInfo (webResourceDir a) w1) as [[i|e] x];
      simpl in Hi; subst x; intros [= _ <-]; exact Hw1. }
  destruct (after_listing ui dirs (loaded w) w) as [r w'] eqn:Hafter.
  specialize (Hgoal _ _ eq_refl). cbn [snd] in Hsame.
  destruct Hgoal as [Hc (typed & Hv & Hq)]. destruct Hsame as [Hc' Hf'].
  split; [congruence|]. exists typed. split; [exact Hv|].
  intros q. rewrite Hf'. apply Hq.
Qed.

(** ** The entry the creation flow stores *)

Lemma prop_update_in (k : jsstring) (v : json) (o : list (jsstring * json))
      (kv : jsstring * json) :
  In kv (prop_update k v o) -> In kv o \/ snd kv = v.
Proof.
  induction o as [|[k1 v1] o IH]; simpl; [tauto|].
  destruct (eqb k k1).
  - intros [<- | H]; [now right | left; now right].
  - intros [<- | H]; [left; now left|].
    destruct (IH H); [left; now right | now right].
Qed.

Lemma prop_insert_index_in (i : N) (k : jsstring) (v : json)
      (o : list (jsstring * json)) (kv : jsstring * json) :
  In kv (prop_insert_index i k v o) -> In kv o \/ snd kv = v.
Proof.
  induction o as [|[k1 v1] o IH]; simpl.
  - intros [<- | []]. now right.
  - destruct (array_index k1) as [j|].
    + destruct (j <? i).
      * intros [<- | H]; [left; now left|].
        destruct (IH H); [left; now right | now right].
      * intros [<- | H]; [now right | now left].
    + intros [<- | H]; [now right | now left].
Qed.

(** The entries of a table after an assignment: those it had, and the
    assigned value. *)
Lemma prop_set_in (k : jsstring) (v : json) (o : list (jsstring * json))
      (kv : jsstring * json) :
  In kv (prop_set k v o) -> In kv o \/ snd kv = v.
Proof.
  unfold prop_set. destruct (has_prop k o).
  - apply prop_update_in.
  - destruct (array_index k) as [i|]; [apply prop_insert_index_in|].
    intros H. apply in_app_or in H. destruct H as [H | [<- | []]];
      [now left | now right].
Qed.

Lemma string_table_set (k d : jsstring) (o : list (jsstring * json)) :
  string_table o -> string_table (prop_set k (JString d) o).
Proof.
  unfold string_table. rewrite !Forall_forall. intros H kv Hin.
  destruct (prop_set_in _ _ _ _ Hin) as [Ho | ->]; [now apply H | reflexivity].
Qed.

Lemma folder_table_set (k d : jsstring) (o : list (jsstring * json)) :
  folder_table o = true -> is_folder_name (JString d) = true ->
  folder_table (prop_set k (JString d) o) = true.
Proof.
  unfold folder_table. rewrite !forallb_forall. intros H Hd kv Hin.
  destruct (prop_set_in _ _ _ _ Hin) as [Ho | ->]; [now apply H | exact Hd].
Qed.

(** Where the paths of the program resolve to. *)
(** A folder that [getWebResourceDirs] lists is the name of its own
    target folder. *)
Lemma listed_folder_name (w : world) (dirs : list jsstring) (d : jsstring) :
  valid_names (files w) = true ->
  fst (getWebResourceDirs w) = Ok dirs -> In d dirs ->
  is_folder_name (JString d) = true /\ stat w (target_of d) = Ok Dir.
Proof.
  intros Hvalid.
  change getWebResourceDirs with SyncWebResources.getWebResourceDirs.
  unfold SyncWebResources.getWebResourceDirs, bind. rewrite existsSync_eq.
  unfold readdirSync.
  destruct (stat w WEBRESOURCES_DIR) as [[c|]|e] eqn:Hs; cbn [negb];
    rewrite ?Hs; cbn [fst]; try discriminate; try (intros [= <-]; contradiction).
  rewrite filter_directories_listed by auto. cbn [fst]. intros [= <-] Hd.
  apply filter_In in Hd. destruct Hd as [Hin Hdir].
  pose proof (@children_valid _ _ _ Hvalid Hin) as Hv.
  rewrite (stat_target w d Hv). unfold is_folder in Hdir.
  destruct (lookup _ (files w)) as [[c|]|]; try discriminate.
  split; [|reflexivity]. unfold is_folder_name, target_of.
  rewrite (basename_target d Hv). apply eqb_refl.
Qed.

Lemma ts_path_resolves (cwd : list jsstring) (typed : jsstring) :
  validate typed = Valid ->
  Path.resolve cwd (tsFilePath_of typed)
  = Path.resolve cwd Path.dot ++ [lit "typescript"; relativeTsPath_of typed].
Proof.
  intros Hv. unfold tsFilePath_of.
  rewrite resolve_join_child.
  - destruct (resolve_constants cwd) as (_ & -> & _).
    now rewrite <- app_assoc.
  - unfold relativeTsPath_of. apply valid_name_with_extension;
      [now apply validate_valid_iff | reflexivity | simpl; lia].
Qed.

Lemma ts_path_is_not_the_mapping_file (cwd : list jsstring) (typed : jsstring) :
  validate typed = Valid ->
  Path.resolve cwd (tsFilePath_of typed) <> Path.resolve cwd CONFIG_FILE.
Proof.
  intros Hv. rewrite (ts_path_resolves cwd typed Hv).
  destruct (resolve_constants cwd) as (-> & _).
  intros H. apply app_inv_head in H. discriminate.
Qed.

(** What a successful [write_entry] leaves on the disk. *)
Lemma write_entry_ok (o : list (jsstring * json)) (a : answers)
      (w w' : world) :
  string_table o -> enumeration_order (keys o) ->
  validate (tsFileName a) = Valid ->
  write_entry (JObject o) a w = (Ok tt, w') ->
  exists raw,
    tsContent_of a w = (Ok raw, w)
    /\ stat w' (tsFilePath_of (tsFileName a)) = Ok (File (to_well_formed raw))
    /\ persisted w'
       = Some (JObject (prop_set (relativeTsPath_of (tsFileName a))
                                 (JString (webResourceDir a)) o)).
Proof.
  intros Hst Hord Hv. unfold write_entry, bind.
  pose proof (tsContent_of_reads a w) as Hr.
  destruct (tsContent_of a w) as [[raw|e] x]; simpl in Hr; subst x;
    [|discriminate].
  unfold writeFileSync at 1.
  destruct (store (tsFilePath_of (tsFileName a)) (to_well_formed raw) w)
    as [[[]|e] w1] eqn:H1; [|discriminate].
  destruct (@store_ok _ _ _ _ H1) as (Hc1 & _ & Hstat1 & _).
  cbn [assign_entry]. unfold ret. intros Hsave.
  exists raw. split; [reflexivity|]. split.
  - unfold NewWebResource.saveMapping, writeFileSync in Hsave.
    destruct (store_effect _ _ _ _ _ Hsave) as (Hc2 & _ & Hother & _).
    rewrite <- Hstat1. apply stat_lookup; [exact Hc2|].
    apply Hother. rewrite Hc1.
    now apply ts_path_is_not_the_mapping_file.
  - apply (persisted_after_save _ w1 w').
    + now apply string_table_set.
    + now apply order_set.
    + exact Hsave.
Qed.

(** The flow from the list of folders on, when the user picks a folder
    and is not stopped by an existing file. *)
Lemma after_listing_writes (ui : inquirer) (dirs : list jsstring)
      (cs : list choice) (mapping : json) (w : world) :
  dirs <> [] -> fst (choices_of dirs w) = Ok cs ->
  (exists e, stat w (tsFilePath_of (tsFileName (ask ui cs))) = Throw e)
  \/ confirm_overwrite ui (tsFileName (ask ui cs)) = true ->
  after_listing ui dirs mapping w
  = match write_entry mapping (ask ui cs) w with
    | (Ok _, w1) =>
        match getWebResourceInfo (webResourceDir (ask ui cs)) w1 with
        | (Ok _, w2) => (Ok tt, w2)
        | (Throw e, w2) => (Throw e, w2)
        end
    | (Throw e, w1) => (Throw e, w1)
    end.
Proof.
  intros Hne Hcs Hgo. unfold after_listing.
  destruct dirs as [|d dirs]; [contradiction|].
  unfold bind. pose proof (choices_of_reads (d :: dirs) w) as Hr.
  destruct (choices_of (d :: dirs) w) as [r x]; cbn [fst snd] in *.
  subst r x. cbv zeta. rewrite existsSync_eq.
  assert (Hcond : (match stat w (tsFilePath_of (tsFileName (ask ui cs))) with
                   | Ok _ => true
                   | Throw _ => false
                   end && negb (confirm_overwrite ui (tsFileName (ask ui cs))))
                  = false).
  { destruct Hgo as [[e ->] | ->]; [reflexivity | apply andb_false_r]. }
  rewrite Hcond. reflexivity.
Qed.

(** When the flow returns after the user picked a listed folder and gave
    a validated name (and confirmed, if the TypeScript file was there), the
    mapping file holds the loaded table with the folder assigned to the key
    of the name: this key has the folder, every other key has the value it
    had, and a table of folder names stays one.  The TypeScript file holds
    the content the flow built. *)
Theorem the_flow_stores_the_entry
        (ui : inquirer) (s s' : desk) (dirs : list jsstring)
        (cs : list choice) (o : list (jsstring * json)) :
  valid_names (files (disk s)) = true ->
  fst (getWebResourceDirs (disk s)) = Ok dirs ->
  fst (choices_of dirs (disk s)) = Ok cs ->
  answered (ask ui cs) dirs ->
  (exists e, stat (disk s) (tsFilePath_of (tsFileName (ask ui cs))) = Throw e)
  \/ confirm_overwrite ui (tsFileName (ask ui cs)) = true ->
  loaded (disk s) = JObject o -> string_table o ->
  createNewWebResource ui s = (Ok tt, s') ->
  let a := ask ui cs in
  let key := relativeTsPath_of (tsFileName a) in
  let o' := prop_set key (JString (webResourceDir a)) o in
  persisted (disk s') = Some (JObject o')
  /\ (forall k, prop_get k o'
                = if eqb k key then Some (JString (webResourceDir a))
                  else prop_get k o)
  /\ (folder_table o = true -> folder_table o' = true)
  /\ exists raw,
       tsContent_of a (disk s) = (Ok raw, disk s)
       /\ stat (disk s') (tsFilePath_of (tsFileName a))
          = Ok (File (to_well_formed raw)).
Proof.
  intros Hvalid Hdirs Hcs [Hpick Hname] Hgo Hload Hst Hrun. cbv zeta.
  set (w := disk s) in *.
  destruct (createNewWebResource_on_disk ui s) as [Hfst Hdisk].
  rewrite Hrun in Hfst, Hdisk. cbn [fst snd] in Hfst, Hdisk. fold w in Hfst, Hdisk.
  pose proof (on_disk_after_listing ui w) as Hflow.
  rewrite Hdirs in Hflow. destruct Hflow as [Hr Hsame].
  rewrite <- Hfst in Hr. rewrite <- Hdisk in Hsame.
  assert (Hne : dirs <> []) by (intros ->; destruct Hpick).
  rewrite (after_listing_writes ui dirs cs (loaded w) w Hne Hcs Hgo), Hload
    in Hr, Hsame.
  destruct (write_entry (JObject o) (ask ui cs) w) as [[[]|e] w1] eqn:Hwrite;
    [|discriminate].
  pose proof (getWebResourceInfo_reads (webResourceDir (ask ui cs)) w1) as Hi.
  destruct (getWebResourceInfo (webResourceDir (ask ui cs)) w1) as [[i|e] x];
    simpl in Hi; subst x; [|discriminate].
  cbn [snd] in Hsame.
  destruct (write_entry_ok o (ask ui cs) w w1 Hst (loaded_order _ _ Hload)
              Hname Hwrite) as (raw & Hraw & Hstat & Hp).
  split; [now rewrite (persisted_same_files _ _ Hsame)|].
  split; [intros k; apply prop_get_set|]. split.
  - intros Ht. apply folder_table_set; [exact Ht|].
    exact (proj1 (listed_folder_name w dirs _ Hvalid Hdirs Hpick)).
  - exists raw. split; [exact Hraw|].
    now rewrite (stat_same_files _ _ _ Hsame).
Qed.

(** The flow stops without writing anything when no folder is listed, and
    when the TypeScript file is there and the user does not confirm. *)
Theorem the_flow_stops_without_writing (ui : inquirer) (s : desk) :
  (fst (getWebResourceDirs (disk s)) = Ok [] ->
   fst (createNewWebResource ui s) = Ok tt
   /\ same_files (disk (snd (createNewWebResource ui s))) (disk s))
  /\ (forall dirs cs x,
        fst (getWebResourceDirs (disk s)) = Ok dirs -> dirs <> [] ->
        fst (choices_of dirs (disk s)) = Ok cs ->
        stat (disk s) (tsFilePath_of (tsFileName (ask ui cs))) = Ok x ->
        confirm_overwrite ui (tsFileName (ask ui cs)) = false ->
        fst (createNewWebResource ui s) = Ok tt
        /\ same_files (disk (snd (createNewWebResource ui s))) (disk s)).
Proof.
  destruct (createNewWebResource_on_disk ui s) as [-> ->].
  set (w := disk s). pose proof (on_disk_after_listing ui w) as Hflow.
  split.
  - intros Hdirs. rewrite Hdirs in Hflow. exact Hflow.
  - intros dirs cs x Hdirs Hne Hcs Hstat Hno. rewrite Hdirs in Hflow.
    destruct Hflow as [-> Hsame].
    assert (Hstop : after_listing ui dirs (loaded w) w = (Ok tt, w)).
    { unfold after_listing. destruct dirs as [|d dirs]; [contradiction|].
      unfold bind. pose proof (choices_of_reads (d :: dirs) w) as Hr.
      destruct (choices_of (d :: dirs) w) as [r y]; cbn [fst snd] in *.
      subst r y. cbv zeta. rewrite existsSync_eq, Hstat, Hno. reflexivity. }
    rewrite Hstop in *. split; [reflexivity | exact Hsame].
Qed.

Lemma the_flow_writes_two_files_at_most_witness :
  let ui := Examples.careful_user in
  let s := Examples.desk_of Examples.project_files in
  fst (main ui s) = Ok tt
  /\ cwd (disk (snd (main ui s))) = cwd (disk s)
  /\ exists typed,
       validate typed = Valid
       /\ forall q,
            lookup q (files (disk (snd (main ui s)))) = lookup q (files (disk s))
            \/ q = Path.resolve (cwd (disk s)) CONFIG_FILE
            \/ q = Path.resolve (cwd (disk s)) TYPESCRIPT_DIR
                   ++ [relativeTsPath_of typed].
Proof.
  intros ui s. apply (the_flow_writes_two_files_at_most ui s).
  intros cs. vm_compute. reflexivity.
Defined.

Lemma the_flow_stores_the_entry_witness :
  let ui := Examples.careful_user in
  let s := Examples.desk_of Examples.project_files in
  let s' := snd (createNewWebResource ui s) in
  let a := ask ui [] in
  let key := relativeTsPath_of (tsFileName a) in
  let o' := prop_set key (JString (webResourceDir a)) [] in
  persisted (disk s') = Some (JObject o')
  /\ (forall k, prop_get k o'
                = if eqb k key then Some (JString (webResourceDir a))
                  else prop_get k [])
  /\ (folder_table [] = true -> folder_table o' = true)
  /\ exists raw,
       tsContent_of a (disk s) = (Ok raw, disk s)
       /\ stat (disk s') (tsFilePath_of (tsFileName a))
          = Ok (File (to_well_formed raw)).
Proof.
  intros ui s s'.
  apply (the_flow_stores_the_entry
           ui s s' [lit "folder-123"]
           (match fst (choices_of [lit "folder-123"] (disk s)) with
            | Ok cs => cs
            | Throw _ => []
            end) []).
  - vm_compute. reflexivity.
  - vm_compute. reflexivity.
  - vm_compute. reflexivity.
  - split; [vm_compute; tauto | vm_compute; reflexivity].
  - left. exists ENOENT. vm_compute. reflexivity.
  - vm_compute. reflexivity.
  - constructor.
  - vm_compute. reflexivity.
Defined.

(* ===================================================================== *)
(** * A mapped file reaches its folder *)
(* ===================================================================== *)

Lemma target_child_text (d first : jsstring) :
  Path.valid_name d = true -> Path.valid_name first = true ->
  Path.join [target_of d; first]
  = lit "src/webresources/" ++ d ++ [Path.slash] ++ first.
Proof.
  intros Hd Hf. unfold target_of. rewrite (join_target_text d Hd).
  destruct (valid_name_parts d Hd) as (Hdne & Hdk & Hdf).
  destruct (valid_name_parts first Hf) as (Hfne & Hfk & Hff).
  unfold Path.join. cbn [filter].
  assert (H1 : eqb (lit "src/webresources/" ++ d) [] = false)
    by (apply eqb_neq; discriminate).
  assert (H2 : eqb first [] = false) by (now apply eqb_neq).
  rewrite H1, H2. cbn [negb join_with]. unfold Path.normalize.
  set (p := (lit "src/webresources/" ++ d) ++ [Path.slash] ++ first).
  assert (Hp : p = lit "src" ++ Path.slash
                       :: (lit "webresources" ++ Path.slash
                             :: (d ++ Path.slash :: first))).
  { unfold p. rewrite <- !app_assoc. reflexivity. }
  assert (Habs : Path.is_absolute p = false) by reflexivity.
  assert (Htr : Path.has_trailing_slash p = false).
  { unfold Path.has_trailing_slash, p. rewrite !rev_app_distr.
    destruct (last_not_slash first Hfne Hff) as (c & upper & Hr & Hc & _).
    rewrite Hr. exact Hc. }
  rewrite Habs, Htr. cbn [negb]. rewrite Hp, !split_on_app.
  rewrite (@split_on_no_sep d Hdf), (@split_on_no_sep first Hff).
  change (split_on Path.slash (lit "src")) with [lit "src"].
  change (split_on Path.slash (lit "webresources")) with [lit "webresources"].
  unfold Path.normalize_segments. cbn [app Path.walk].
  change (Path.step true (Path.step true [] (lit "src")) (lit "webresources"))
    with [lit "webresources"; lit "src"].
  rewrite (@step_kept true _ d Hdk), (@step_kept true _ first Hfk).
  cbn [rev app join_with].
  destruct (lit "src" ++ Path.slash :: _) eqn:E; [discriminate|].
  cbn [app]. rewrite app_nil_r, <- E. vm_compute. reflexivity.
Qed.

(** Copying a regular file onto a regular file of a listed folder
    succeeds and changes that file only. *)
Lemma copy_into_folder (w : world) (f d first c c0 : jsstring) :
  Path.valid_name d = true -> Path.valid_name first = true ->
  stat w f = Ok (File c) ->
  lookup (Path.resolve (cwd w) WEBRESOURCES_DIR ++ [d; first]) (files w)
  = Some (File c0) ->
  copyFileSync f (Path.join [target_of d; first]) w
  = (Ok tt, {| cwd := cwd w;
               files := overwrite
                          (Path.resolve (cwd w) WEBRESOURCES_DIR ++ [d; first])
                          c (files w);
               console := console w;
               glob_order := glob_order w |}).
Proof.
  intros Hd Hf Hsrc Hloc.
  assert (Hres : Path.resolve (cwd w) (Path.join [target_of d; first])
                 = Path.resolve (cwd w) WEBRESOURCES_DIR ++ [d; first]).
  { rewrite (@resolve_join_child (cwd w) (target_of d) first Hf).
    unfold target_of. rewrite (resolve_target (cwd w) d Hd).
    now rewrite <- app_assoc. }
  assert (Htr : Path.has_trailing_slash (Path.join [target_of d; first])
                = false).
  { rewrite (target_child_text d first Hd Hf).
    destruct (valid_name_parts first Hf) as (Hfne & _ & Hff).
    destruct (last_not_slash first Hfne Hff) as (x & upper & Hr & Hx & _).
    unfold Path.has_trailing_slash. rewrite !rev_app_distr, Hr. exact Hx. }
  unfold copyFileSync, bind, readFileSync. rewrite Hsrc.
  unfold store. rewrite Htr, Hres.
  destruct (Path.resolve (cwd w) WEBRESOURCES_DIR ++ [d; first]) as [|s q] eqn:E.
  - now destruct (Path.resolve (cwd w) WEBRESOURCES_DIR).
  - rewrite Hloc. reflexivity.
Qed.

Lemma dist_is_not_a_folder (cwd below : list jsstring) (d first : jsstring) :
  below <> [] ->
  Path.resolve cwd DIST_DIR ++ below <> in_folder cwd d first.
Proof.
  intros Hne. unfold in_folder.
  destruct (resolve_constants cwd) as (_ & _ & -> & ->).
  rewrite <- !app_assoc. intros H. apply app_inv_head in H.
  destruct below; [contradiction | discriminate].
Qed.

Lemma in_folder_inj (cwd : list jsstring) (d d' first first' : jsstring) :
  in_folder cwd d first = in_folder cwd d' first' -> d = d' /\ first = first'.
Proof.
  unfold in_folder. intros H. apply app_inv_head in H.
  injection H as -> ->. now split.
Qed.

Lemma folder_is_not_its_file (base : location) (d d0 first0 : jsstring) :
  base ++ [d] <> base ++ [d0; first0].
Proof. intros H. apply app_inv_head in H. discriminate. Qed.

Lemma child_name_other_folder (base : location) (d d0 first0 : jsstring) :
  d0 <> d -> child_name (base ++ [d]) (base ++ [d0; first0]) = None.
Proof.
  intros Hd. unfold child_name. rewrite rev_app_distr. cbn [rev app].
  rewrite rev_involutive.
  destruct (location_eqb (base ++ [d0]) (base ++ [d])) eqn:E; [|reflexivity].
  apply location_eqb_eq in E. apply app_inv_head in E.
  injection E as E. contradiction.
Qed.

Section Delivery.

Variables (f d first c : jsstring) (below : list jsstring).
Hypothesis Hne : below <> [].
Hypothesis Hbelow : forallb Path.valid_name below = true.
Hypothesis Hf : f = lit "dist" ++ [Path.slash] ++ join_with [Path.slash] below.

Lemma deliverable_names (o : list (jsstring * json)) (w : world) :
  deliverable f d first c o w ->
  Path.valid_name d = true /\ Path.valid_name first = true
  /\ d <> [] /\ stat w (target_of d) = Ok Dir.
Proof.
  intros (Ht & Hvalid & _ & Hk & _ & (names & others & Hdir & Hjs) & _).
  destruct (folder_table_get o _ _ Ht Hk) as (d1 & [= <-] & Hb & Hdne).
  assert (Hd : Path.valid_name d = true).
  { apply folder_name_valid. unfold is_folder_name. rewrite Hb.
    apply eqb_refl. }
  destruct (@readdirSync_ok _ _ _ _ Hdir) as [Hstat Hnames].
  split; [exact Hd|]. split; [|split; assumption].
  assert (Hin : In first names).
  { assert (H : In first (filter (ends_with (lit ".js")) names))
      by (rewrite Hjs; now left).
    apply filter_In in H. tauto. }
  rewrite Hnames in Hin. exact (@children_valid _ _ _ Hvalid Hin).
Qed.

(** The invariant goes from a world to a world with valid names that
    holds the same compiled file, the same folder with the same listing,
    and a regular file at [first]. *)
Lemma deliverable_moves (o o1 : list (jsstring * json)) (w w1 : world)
      (c1 : jsstring) :
  deliverable f d first c o w ->
  cwd w1 = cwd w -> valid_names (files w1) = true ->
  lookup (Path.resolve (cwd w) DIST_DIR ++ below) (files w1)
  = lookup (Path.resolve (cwd w) DIST_DIR ++ below) (files w) ->
  lookup (Path.resolve (cwd w) WEBRESOURCES_DIR ++ [d]) (files w1)
  = lookup (Path.resolve (cwd w) WEBRESOURCES_DIR ++ [d]) (files w) ->
  children (Path.resolve (cwd w) WEBRESOURCES_DIR ++ [d]) (files w1)
  = children (Path.resolve (cwd w) WEBRESOURCES_DIR ++ [d]) (files w) ->
  lookup (in_folder (cwd w) d first) (files w1) = Some (File c1) ->
  folder_table o1 = true -> enumeration_order (keys o1) ->
  prop_get (tsFileName_of (cwd w) f) o1 = Some (JString d) ->
  deliverable f d first c o1 w1.
Proof.
  intros Hinv Hc Hvalid1 Hsame Hfolder Hlist Hloc Ht1 Hord1 Hk1.
  destruct (deliverable_names o w Hinv) as (Hd & _ & _ & Hstat).
  destruct Hinv
    as (Ht & Hvalid & _ & Hk & Hsrc & (names & others & Hdir & Hjs) & _).
  split; [exact Ht1|]. split; [exact Hvalid1|].
  split; [exact Hord1|]. split; [now rewrite Hc|]. split; [|split].
  - rewrite <- Hsrc. apply stat_lookup; [exact Hc|].
    rewrite Hf, (resolve_below_dist (cwd w) below Hne Hbelow). exact Hsame.
  - exists names, others. split; [|exact Hjs].
    destruct (@readdirSync_ok _ _ _ _ Hdir) as [_ Hnames].
    assert (Hstat1 : stat w1 (target_of d) = Ok Dir).
    { rewrite <- Hstat. apply stat_lookup; [exact Hc|].
      unfold target_of. rewrite (resolve_target _ _ Hd). exact Hfolder. }
    unfold readdirSync. rewrite Hstat1, Hc, Hnames.
    unfold target_of. rewrite (resolve_target _ _ Hd), Hlist. reflexivity.
  - exists c1. now rewrite Hc.
Qed.

(** The step for [f] copies it. *)
Lemma sync_one_delivers (o : list (jsstring * json)) (n : nat) (w : world) :
  deliverable f d first c o w ->
  exists w1,
    sync_one f (JObject o, n) w = (Ok (JObject o, S n), w1)
    /\ deliverable f d first c o w1 /\ cwd w1 = cwd w
    /\ lookup (in_folder (cwd w) d first) (files w1) = Some (File c).
Proof.
  intros Hinv. destruct (deliverable_names o w Hinv) as (Hd & Hvf & Hdne & Hdir).
  pose proof Hinv as (Ht & Hvalid & Hord & Hk & Hsrc
                      & (names & others & Hlist & Hjs) & (c0 & Hloc)).
  rewrite (@sync_one_present f d o n w Dir Hk Hdne Hdir).
  fold (target_of d). rewrite syncFile_eq, Hlist, Hjs. cbv zeta.
  unfold in_folder in Hloc.
  rewrite (copy_into_folder w f d first c c0 Hd Hvf Hsrc Hloc).
  destruct (folder_table_get o _ _ Ht Hk) as (d1 & [= <-] & Hb & _).
  unfold target_of in Hb |- *. rewrite Hb, (prop_set_same _ _ _ Hk).
  eexists. split; [reflexivity|].
  assert (Hnew : lookup (in_folder (cwd w) d first)
                        (overwrite (in_folder (cwd w) d first) c (files w))
                 = Some (File c)).
  { unfold in_folder. now rewrite lookup_overwrite, location_eqb_refl, Hloc. }
  split; [|split; [reflexivity | exact Hnew]].
  apply (deliverable_moves o o w _ c Hinv); try assumption.
  - reflexivity.
  - cbn [files printed]. now apply valid_names_overwrite.
  - cbn [files printed]. rewrite lookup_overwrite.
    destruct (location_eqb _ _) eqn:E; [|reflexivity].
    apply location_eqb_eq in E. exfalso.
    exact (dist_is_not_a_folder (cwd w) below d first Hne E).
  - cbn [files printed]. rewrite lookup_overwrite.
    destruct (location_eqb _ _) eqn:E; [|reflexivity].
    apply location_eqb_eq in E. exfalso.
    exact (folder_is_not_its_file _ _ _ _ E).
  - cbn [files printed]. apply children_overwrite.
Qed.

(** The step for another file leaves [f], its entry and the file at
    [first] alone. *)
Lemma sync_one_elsewhere (f0 : jsstring) (o o1 : list (jsstring * json))
      (n n1 : nat) (w w1 : world) :
  deliverable f d first c o w ->
  prop_get (tsFileName_of (cwd w) f0) o <> Some (JString d) ->
  sync_one f0 (JObject o, n) w = (Ok (JObject o1, n1), w1) ->
  deliverable f d first c o1 w1 /\ cwd w1 = cwd w
  /\ lookup (in_folder (cwd w) d first) (files w1)
     = lookup (in_folder (cwd w) d first) (files w)
  /\ (n <= n1)%nat
  /\ (forall k v, prop_get k o1 = Some v -> prop_get k o = Some v).
Proof.
  intros Hinv Hother Hstep.
  destruct (deliverable_names o w Hinv) as (Hd & Hvf & Hdne & Hdir).
  pose proof Hinv as (Ht & Hvalid & Hord & Hk & Hsrc & _ & (c0 & Hloc)).
  destruct (sync_one_effect _ _ _ _ _ _ Hvalid Hstep) as [Hc1 Heff].
  assert (Hone : sync_loop [f0] (JObject o, n) w = (Ok (JObject o1, n1), w1))
    by (rewrite sync_loop_cons, Hstep; reflexivity).
  destruct (sync_loop_folder _ _ _ _ _ _ _ Ht Hvalid Hord Hone)
    as (o2 & [= <-] & _ & Ht1 & Hord1 & Hle & Hsub & Hgone).
  set (base := Path.resolve (cwd w) WEBRESOURCES_DIR) in *.
  assert (Hfacts :
            valid_names (files w1) = true
            /\ children (base ++ [d]) (files w1)
               = children (base ++ [d]) (files w)
            /\ forall q,
                 (forall d0 first0, d0 <> d -> q <> base ++ [d0; first0]) ->
                 lookup q (files w1) = lookup q (files w)).
  { destruct Heff
      as [-> | (o0 & d0 & first0 & c1 & [= <-] & Hk0 & Hv0 & Hl0 & Hcase)];
      [now repeat split|].
    assert (Hdiff : d0 <> d) by (intros ->; contradiction).
    destruct (folder_table_get o _ _ Ht Hk0) as (d1 & [= <-] & Hb & _).
    assert (Hvd : Path.valid_name d0 = true).
    { apply folder_name_valid. unfold is_folder_name. rewrite Hb.
      apply eqb_refl. }
    rewrite (resolve_target _ _ Hvd) in Hl0, Hcase. fold base in Hl0, Hcase.
    rewrite <- app_assoc in Hl0, Hcase. cbn [app] in Hl0, Hcase.
    destruct Hcase as [(c2 & _ & ->) | (_ & ->)].
    - split; [now apply valid_names_overwrite|].
      split; [apply children_overwrite|].
      intros q Hq. rewrite lookup_overwrite.
      destruct (location_eqb _ _) eqn:E; [|reflexivity].
      apply location_eqb_eq in E. now apply Hq in E.
    - split; [now apply valid_names_unlink|].
      split; [apply children_unlink; now apply child_name_other_folder|].
      intros q Hq. rewrite lookup_unlink.
      destruct (location_eqb _ _) eqn:E; [|reflexivity].
      apply location_eqb_eq in E. now apply Hq in E. }
  destruct Hfacts as (Hvalid1 & Hlist & Huntouched).
  assert (Hloc1 : lookup (in_folder (cwd w) d first) (files w1)
                  = lookup (in_folder (cwd w) d first) (files w)).
  { apply Huntouched. intros d0 first0 Hd0 E.
    apply in_folder_inj in E. destruct E as [<- _]. now apply Hd0. }
  assert (Hsrc1 : lookup (Path.resolve (cwd w) DIST_DIR ++ below) (files w1)
                  = lookup (Path.resolve (cwd w) DIST_DIR ++ below) (files w)).
  { apply Huntouched. intros d0 first0 _.
    exact (dist_is_not_a_folder (cwd w) below d0 first0 Hne). }
  assert (Hfolder : lookup (base ++ [d]) (files w1)
                    = lookup (base ++ [d]) (files w)).
  { apply Huntouched. intros d0 first0 _.
    apply folder_is_not_its_file. }
  assert (Hk1 : prop_get (tsFileName_of (cwd w) f) o1 = Some (JString d)).
  { destruct (prop_get (tsFileName_of (cwd w) f) o1) as [v|] eqn:E.
    - now rewrite <- (Hsub _ _ E).
    - apply (Hgone _ _ Hk) in E. destruct E as [[e He] _]. congruence. }
  split; [|split; [exact Hc1 | split; [exact Hloc1 | split; assumption]]].
  apply (deliverable_moves o o1 w w1 c0 Hinv Hc1 Hvalid1 Hsrc1 Hfolder Hlist);
    try assumption.
  now rewrite Hloc1.
Qed.

(** The loop: when [f] is among the files and no other file is mapped to
    the folder, the first script of the folder ends with the content of
    [f]. *)
Lemma sync_loop_delivers (fs : list jsstring) :
  forall (o o' : list (jsstring * json)) (n n' : nat) (w w' : world),
    deliverable f d first c o w ->
    (forall f', In f' fs ->
                prop_get (tsFileName_of (cwd w) f') o = Some (JString d) ->
                f' = f) ->
    sync_loop fs (JObject o, n) w = (Ok (JObject o', n'), w') ->
    deliverable f d first c o' w' /\ cwd w' = cwd w /\ (n <= n')%nat
    /\ (In f fs ->
        lookup (in_folder (cwd w) d first) (files w') = Some (File c)
        /\ (n < n')%nat)
    /\ (~ In f fs ->
        lookup (in_folder (cwd w) d first) (files w')
        = lookup (in_folder (cwd w) d first) (files w)).
Proof.
  induction fs as [|f0 rest IH]; intros o o' n n' w w' Hinv Honly Hloop.
  - simpl in Hloop. injection Hloop as <- <- <-.
    split; [exact Hinv|]. split; [reflexivity|]. split; [lia|].
    split; [intros [] | reflexivity].
  - rewrite sync_loop_cons in Hloop.
    destruct (sync_one f0 (JObject o, n) w) as [[[m1 n1]|e] w1] eqn:Hstep;
      [|discriminate].
    destruct (sync_one_object _ _ _ _ _ _ _ Hstep) as [o1 ->].
    pose proof Hinv as (_ & _ & _ & Hk & _).
    destruct (list_eq_dec N.eq_dec f0 f) as [-> | Hdiff].
    + (* the file itself *)
      destruct (sync_one_delivers o n w Hinv) as (w2 & Hs & Hinv1 & Hc1 & Hloc1).
      rewrite Hs in Hstep. injection Hstep as <- <- <-.
      assert (Honly1 : forall f', In f' rest ->
                  prop_get (tsFileName_of (cwd w2) f') o = Some (JString d) ->
                  f' = f).
      { intros f' Hin. rewrite Hc1. apply Honly. now right. }
      destruct (IH _ _ _ _ _ _ Hinv1 Honly1 Hloop)
        as (Hinv' & Hc' & Hle & Hin' & Hout').
      rewrite Hc1 in Hin', Hout'.
      split; [exact Hinv'|]. split; [congruence|]. split; [lia|].
      split; [|intros H; exfalso; apply H; now left].
      intros _. destruct (in_dec (list_eq_dec N.eq_dec) f rest) as [Hin|Hout].
      * destruct (Hin' Hin) as [H1 H2]. split; [exact H1 | lia].
      * rewrite (Hout' Hout). split; [exact Hloc1 | lia].
    + (* another file *)
      assert (Hother : prop_get (tsFileName_of (cwd w) f0) o
                       <> Some (JString d)).
      { intros H. apply Hdiff. apply Honly; [now left | exact H]. }
      destruct (sync_one_elsewhere f0 o o1 n n1 w w1 Hinv Hother Hstep)
        as (Hinv1 & Hc1 & Hloc1 & Hle1 & Hsub).
      assert (Honly1 : forall f', In f' rest ->
                  prop_get (tsFileName_of (cwd w1) f') o1 = Some (JString d) ->
                  f' = f).
      { intros f' Hin H. rewrite Hc1 in H. apply Honly; [now right|].
        exact (Hsub _ _ H). }
      destruct (IH _ _ _ _ _ _ Hinv1 Honly1 Hloop)
        as (Hinv' & Hc' & Hle & Hin' & Hout').
      rewrite Hc1 in Hin', Hout'.
      split; [exact Hinv'|]. split; [congruence|]. split; [lia|]. split.
      * intros [E | Hin]; [congruence|].
        destruct (Hin' Hin) as [H1 H2]. split; [exact H1 | lia].
      * intros Hout. rewrite Hout', Hloc1; [reflexivity|].
        intros H. apply Hout. now right.
Qed.

End Delivery.

Lemma in_folder_is_not_the_mapping_file (cwd : list jsstring)
      (d first : jsstring) :
  in_folder cwd d first <> Path.resolve cwd CONFIG_FILE.
Proof.
  unfold in_folder. destruct (resolve_constants cwd) as (-> & _ & _ & ->).
  rewrite <- app_assoc. intros H. apply app_inv_head in H. discriminate.
Qed.

(** A compiled file reaches its folder: when the table maps the key of a
    discovered regular file to a folder and of no other discovered file to
    that folder, and the first name of the folder's listing that ends in
    ".js" is a regular file, a run that returns has given that file the
    content of the compiled file, counts at least one synced file and has
    kept the entry in the table it persisted. *)
Theorem a_mapped_file_reaches_its_folder
        (w : world) (o : list (jsstring * json))
        (f d first c c0 : jsstring) (names others : list jsstring)
        (r : option nat) :
  valid_names (files w) = true ->
  loaded w = JObject o -> folder_table o = true ->
  In f (discovered w) -> stat w f = Ok (File c) ->
  prop_get (tsFileName_of (cwd w) f) o = Some (JString d) ->
  (forall f', In f' (discovered w) ->
              prop_get (tsFileName_of (cwd w) f') o = Some (JString d) ->
              f' = f) ->
  fst (readdirSync (target_of d) w) = Ok names ->
  filter (ends_with (lit ".js")) names = first :: others ->
  lookup (in_folder (cwd w) d first) (files w) = Some (File c0) ->
  fst (syncWebResources w) = Ok r ->
  lookup (in_folder (cwd w) d first) (files (snd (syncWebResources w)))
  = Some (File c)
  /\ (exists n, r = Some (S n))
  /\ exists o',
       persisted (snd (syncWebResources w)) = Some (JObject o')
       /\ prop_get (tsFileName_of (cwd w) f) o' = Some (JString d).
Proof.
  intros Hvalid Hload Ht Hin Hsrc Hk Honly Hnames Hjs Hloc Hr.
  destruct (syncWebResources w) as [r0 w'] eqn:Hrun. cbn [fst snd] in *.
  subst r0.
  destruct (run_returns _ _ _ _ Hvalid Hload Ht Hrun)
    as [(Hnil & _) | (o' & n & w2 & w3 & _ & _ & Hloop & Hsave & -> & -> & Hp & _)].
  { rewrite Hnil in Hin. destruct Hin. }
  destruct (discovered_below w f Hvalid Hin)
    as (below & nd & Hne & Hbelow & _ & _ & Hf).
  assert (Hinv : deliverable f d first c o w).
  { split; [exact Ht|]. split; [exact Hvalid|].
    split; [exact (loaded_order _ _ Hload)|]. split; [exact Hk|].
    split; [exact Hsrc|]. split; [|now exists c0].
    exists names, others. split; [|exact Hjs].
    destruct (readdirSync (target_of d) w) as [rn x] eqn:E.
    rewrite (@readdirSync_world _ _ _ _ E). cbn [fst] in Hnames.
    now subst rn. }
  set (wl := listed (started w)) in *.
  assert (Hwl : same_files wl w)
    by exact (same_files_trans _ _ _ (listed_same_files _)
                               (started_same_files w)).
  pose proof Hwl as [Hcwd Hfiles].
  assert (Hinvl : deliverable f d first c o wl).
  { apply (deliverable_moves f d first c below Hne Hbelow Hf o o w wl c0 Hinv).
    - exact Hcwd.
    - now rewrite Hfiles.
    - now rewrite Hfiles.
    - now rewrite Hfiles.
    - now rewrite Hfiles.
    - now rewrite Hfiles.
    - exact Ht.
    - exact (loaded_order _ _ Hload).
    - exact Hk. }
  assert (Honlyl : forall f', In f' (discovered w) ->
             prop_get (tsFileName_of (cwd wl) f') o = Some (JString d) ->
             f' = f)
    by (rewrite Hcwd; exact Honly).
  destruct (sync_loop_delivers f d first c below Hne Hbelow Hf (discovered w)
              o o' O n wl w2 Hinvl Honlyl Hloop)
    as (Hinv2 & Hc2 & _ & Hdone & _).
  destruct (Hdone Hin) as [Hloc2 Hn]. rewrite Hcwd in Hloc2, Hc2.
  split; [|split].
  - cbn [files printed].
    unfold SyncWebResources.saveMapping, writeFileSync in Hsave.
    destruct (store_effect _ _ _ _ _ Hsave) as (_ & _ & Hother & _).
    rewrite Hother; [exact Hloc2|]. rewrite Hc2.
    apply in_folder_is_not_the_mapping_file.
  - destruct n as [|n]; [lia|]. now exists n.
  - exists o'. split; [exact Hp|].
    destruct Hinv2 as (_ & _ & _ & Hk2 & _). now rewrite Hc2 in Hk2.
Qed.

Lemma a_mapped_file_reaches_its_folder_witness :
  let w := Examples.world_of Examples.scenario_files in
  let f := lit "dist/widgetForm.js" in
  let d := lit "folder-123" in
  lookup (in_folder (cwd w) d (lit "form.js"))
         (files (snd (syncWebResources w)))
  = Some (File (lit "compiled();"))
  /\ (exists n, Some 1%nat = Some (S n))
  /\ exists o',
       persisted (snd (syncWebResources w)) = Some (JObject o')
       /\ prop_get (tsFileName_of (cwd w) f) o' = Some (JString d).
Proof.
  intros w f d.
  apply (a_mapped_file_reaches_its_folder
           w (map (fun kv => (fst kv, JString (snd kv))) Examples.scenario_table)
           f d (lit "form.js") (lit "compiled();") (lit "old();")
           [lit "webresource.yml"; lit "form.js"; lit "helper.js"]
           [lit "helper.js"] (Some 1%nat)).
  - vm_compute. reflexivity.
  - vm_compute. reflexivity.
  - vm_compute. reflexivity.
  - vm_compute. left. reflexivity.
  - vm_compute. reflexivity.
  - vm_compute. reflexivity.
  - intros f' Hin _.
    change (discovered w) with [f] in Hin.
    destruct Hin as [<-|[]]. reflexivity.
  - vm_compute. reflexivity.
  - vm_compute. reflexivity.
  - vm_compute. reflexivity.
  - vm_compute. reflexivity.
Defined.

Lemma a_null_table_stops_the_run_witness :
  let w := Examples.world_of Examples.null_files in
  fst (syncWebResources w) = Throw TypeError
  /\ same_files (snd (syncWebResources w)) w.
Proof.
  intros w. apply (a_null_table_stops_the_run w).
  - vm_compute. reflexivity.
  - vm_compute. discriminate.
  - vm_compute. reflexivity.
Defined.

(** When the mapping file holds neither an object nor an array (it holds
    [null], say), the flow throws a [TypeError] at the assignment of the
    entry: by then the TypeScript file has been written, and the mapping
    file is left as it was. *)
Theorem the_flow_fails_after_the_typescript_file
        (ui : inquirer) (s : desk) (dirs : list jsstring)
        (cs : list choice) (raw : jsstring) :
  fst (getWebResourceDirs (disk s)) = Ok dirs -> dirs <> [] ->
  fst (choices_of dirs (disk s)) = Ok cs ->
  validate (tsFileName (ask ui cs)) = Valid ->
  (exists e, stat (disk s) (tsFilePath_of (tsFileName (ask ui cs))) = Throw e)
  \/ confirm_overwrite ui (tsFileName (ask ui cs)) = true ->
  (forall o, loaded (disk s) <> JObject o) ->
  (forall items, loaded (disk s) <> JArray items) ->
  fst (tsContent_of (ask ui cs) (disk s)) = Ok raw ->
  fst (writeFileSync (tsFilePath_of (tsFileName (ask ui cs))) raw (disk s))
  = Ok tt ->
  fst (createNewWebResource ui s) = Throw TypeError
  /\ stat (disk (snd (createNewWebResource ui s)))
          (tsFilePath_of (tsFileName (ask ui cs)))
     = Ok (File (to_well_formed raw))
  /\ lookup (Path.resolve (cwd (disk s)) CONFIG_FILE)
            (files (disk (snd (createNewWebResource ui s))))
     = lookup (Path.resolve (cwd (disk s)) CONFIG_FILE) (files (disk s)).
Proof.
  intros Hdirs Hne Hcs Hname Hgo Hno Hna Hraw Hwrite.
  destruct (createNewWebResource_on_disk ui s) as [-> ->].
  set (w := disk s) in *.
  pose proof (on_disk_after_listing ui w) as Hflow.
  rewrite Hdirs in Hflow. destruct Hflow as [-> Hsame].
  rewrite (after_listing_writes ui dirs cs (loaded w) w Hne Hcs Hgo) in *.
  assert (Hstep : exists w1,
             writeFileSync (tsFilePath_of (tsFileName (ask ui cs))) raw w
             = (Ok tt, w1)
             /\ write_entry (loaded w) (ask ui cs) w = (Throw TypeError, w1)).
  { destruct (writeFileSync (tsFilePath_of (tsFileName (ask ui cs))) raw w)
      as [r1 w1] eqn:Hw.
    cbn [fst] in Hwrite. subst r1. exists w1. split; [reflexivity|].
    unfold write_entry, bind.
    pose proof (tsContent_of_reads (ask ui cs) w) as Hr.
    destruct (tsContent_of (ask ui cs) w) as [r0 x]; cbn [fst snd] in *.
    subst r0 x. rewrite Hw.
    destruct (loaded w) as [| | | |items|o]; try reflexivity.
    - now destruct (Hna items).
    - now destruct (Hno o). }
  destruct Hstep as (w1 & Hw & Hentry). rewrite Hentry in *.
  cbn [fst snd] in *. split; [reflexivity|].
  unfold writeFileSync in Hw.
  destruct (@store_ok _ _ _ _ Hw) as (Hc & _ & Hstat & Hother & _).
  split.
  - now rewrite (stat_same_files _ _ _ Hsame).
  - destruct Hsame as [_ ->]. apply Hother.
    intros H. symmetry in H.
    exact (ts_path_is_not_the_mapping_file _ _ Hname H).
Qed.

Lemma the_flow_fails_after_the_typescript_file_witness :
  let ui := Examples.careful_user in
  let s := Examples.desk_of Examples.project_with_null in
  let raw := match fst (tsContent_of (ask ui []) (disk s)) with
             | Ok text => text
             | Throw _ => []
             end in
  fst (createNewWebResource ui s) = Throw TypeError
  /\ stat (disk (snd (createNewWebResource ui s)))
          (tsFilePath_of (tsFileName (ask ui [])))
     = Ok (File (to_well_formed raw))
  /\ lookup (Path.resolve (cwd (disk s)) CONFIG_FILE)
            (files (disk (snd (createNewWebResource ui s))))
     = lookup (Path.resolve (cwd (disk s)) CONFIG_FILE) (files (disk s)).
Proof.
  intros ui s raw.
  apply (the_flow_fails_after_the_typescript_file
           ui s [lit "folder-123"]
           (match fst (choices_of [lit "folder-123"] (disk s)) with
            | Ok cs => cs
            | Throw _ => []
            end) raw).
  - vm_compute. reflexivity.
  - discriminate.
  - vm_compute. reflexivity.
  - vm_compute. reflexivity.
  - left. exists ENOENT. vm_compute. reflexivity.
  - intros o. vm_compute. discriminate.
  - intros items. vm_compute. discriminate.
  - vm_compute. reflexivity.
  - vm_compute. reflexivity.
Defined.

(** ** What the flow says and what it did *)

Lemma shared_is_not_created (k : jsstring) (ms : list message) :
  ~ In (Created_typescript_file k) (map Shared ms).
Proof.
  intros H. apply in_map_iff in H. destruct H as (m & Hm & _). discriminate.
Qed.

Ltac not_said H Hnew :=
  repeat (apply in_app_or in H; destruct H as [H|H]);
  try (now apply shared_is_not_created in H);
  try (now apply Hnew in H);
  try (simpl in H; intuition discriminate).

(** The line "Created TypeScript file" is printed only after both writes:
    when the flow has printed it, for a validated name, the TypeScript file
    of the name it shows and the mapping file are regular files on the
    disk the flow leaves. *)
Theorem a_created_line_means_both_files_are_written
        (ui : inquirer) (s : desk) (k : jsstring) :
  (forall cs, validate (tsFileName (ask ui cs)) = Valid) ->
  (forall k', ~ In (Created_typescript_file k') (screen s)) ->
  In (Created_typescript_file k) (screen (snd (createNewWebResource ui s))) ->
  exists typed c c',
    validate typed = Valid /\ k = relativeTsPath_of typed
    /\ stat (disk (snd (createNewWebResource ui s))) (tsFilePath_of typed)
       = Ok (File c)
    /\ stat (disk (snd (createNewWebResource ui s))) CONFIG_FILE
       = Ok (File c').
Proof.
  intros Hvalid Hnew.
  assert (Hnew' : forall k', In (Created_typescript_file k') (screen s) -> False)
    by exact Hnew.
  unfold createNewWebResource.
  unfold cbind, say, lift, cret. cbn [disk screen].
  destruct (getWebResourceDirs (disk s)) as [[dirs|e] w1];
    cbn [disk screen snd]; [|intros H; not_said H Hnew'].
  destruct (NewWebResource.loadMapping w1) as [[mapping|e] w2];
    cbn [disk screen snd]; [|intros H; not_said H Hnew'].
  destruct dirs as [|d dirs]; cbn [disk screen snd];
    [intros H; not_said H Hnew'|].
  destruct (choices_of (d :: dirs) w2) as [[cs|e] w3];
    cbn [disk screen snd]; [|intros H; not_said H Hnew'].
  destruct (existsSync (tsFilePath_of (tsFileName (ask ui cs))) w3)
    as [[present|e] w4]; cbn [disk screen snd]; [|intros H; not_said H Hnew'].
  destruct (present && negb (confirm_overwrite ui (tsFileName (ask ui cs))));
    cbn [disk screen snd]; [intros H; not_said H Hnew'|].
  destruct (tsContent_of (ask ui cs) w4) as [[content|e] w5];
    cbn [disk screen snd]; [|intros H; not_said H Hnew'].
  destruct (writeFileSync (tsFilePath_of (tsFileName (ask ui cs))) content w5)
    as [[[]|e] w6] eqn:Hts; cbn [disk screen snd];
    [|intros H; not_said H Hnew'].
  destruct (assign_entry mapping (relativeTsPath_of (tsFileName (ask ui cs)))
                         (JString (webResourceDir (ask ui cs))) w6)
    as [[mapping'|e] w7] eqn:Hassign; cbn [disk screen snd];
    [|intros H; not_said H Hnew'].
  destruct (NewWebResource.saveMapping mapping' w7) as [[[]|e] w8] eqn:Hsave;
    cbn [disk screen snd]; [|intros H; not_said H Hnew'].
  assert (Hw7 : w7 = w6).
  { unfold assign_entry in Hassign.
    destruct mapping; try discriminate; now injection Hassign. }
  subst w7.
  assert (Hboth : exists c c',
             stat w8 (tsFilePath_of (tsFileName (ask ui cs))) = Ok (File c)
             /\ stat w8 CONFIG_FILE = Ok (File c')).
  { unfold writeFileSync in Hts.
    unfold NewWebResource.saveMapping, writeFileSync in Hsave.
    destruct (@store_ok _ _ _ _ Hts) as (_ & _ & Hstat6 & _).
    destruct (@store_ok _ _ _ _ Hsave) as (Hc & _ & Hstat8 & Hother & _).
    exists (to_well_formed content), (to_well_formed (stringify mapping')).
    split; [|exact Hstat8]. rewrite <- Hstat6.
    apply stat_lookup; [exact Hc|]. apply Hother.
    apply ts_path_is_not_the_mapping_file, Hvalid. }
  destruct Hboth as (c & c' & Hc & Hc').
  pose proof (getWebResourceInfo_reads (webResourceDir (ask ui cs)) w8) as Hi.
  destruct (getWebResourceInfo (webResourceDir (ask ui cs)) w8)
    as [[[i|]|e] w9]; cbn [disk screen snd fst] in *; subst w9; intros H;
    exists (tsFileName (ask ui cs)), c, c';
    (split; [apply Hvalid|]);
    (split; [|split; assumption]);
    repeat (apply in_app_or in H; destruct H as [H|H]);
    try (now apply shared_is_not_created in H);
    try (now apply Hnew' in H);
    try (destruct H as [H|[]]; (discriminate || (now injection H))).
Qed.

Lemma a_created_line_means_both_files_are_written_witness :
  let ui := Examples.careful_user in
  let s := Examples.desk_of Examples.project_files in
  exists typed c c',
    validate typed = Valid /\ lit "widgetForm.ts" = relativeTsPath_of typed
    /\ stat (disk (snd (createNewWebResource ui s))) (tsFilePath_of typed)
       = Ok (File c)
    /\ stat (disk (snd (createNewWebResource ui s))) CONFIG_FILE
       = Ok (File c').
Proof.
  intros ui s.
  apply (a_created_line_means_both_files_are_written
           ui s (lit "widgetForm.ts")).
  - intros cs. vm_compute. reflexivity.
  - intros k' H. destruct H.
  - vm_compute. right. left. reflexivity.
Defined.
